(* ===== verification/_CoqProject ===== *)
-Q . S2P
Prelude.v
Macros.v
Bitwise.v
Bitmap.v
MmDefs.v
Range.v
E820.v
Page.v
PageMap.v
EarlyAlloc.v
EarlyInit.v
ListDL.v
Spinlock.v
Phys.v
PhysProofs.v
CString.v
Kmalloc.v
Format.v
Console.v
Log.v
KernelMap.v
MemInit.v
PageDump.v
Boot.v
Loader.v
Interrupt.v
Report.v
Main.v
