(* ===== verification/Prelude.v ===== *)
(** * zeptux: a verification development for a small x86-64 kernel

    ** The program

    zeptux is a kernel in C. A boot loader brings its ELF image to memory and
    jumps to it; [main] then brings memory up, first with allocators that live on
    scratch pages, then with a buddy allocator over all of RAM, opens a log and
    starts the local interrupt controller. This library models the kernel's code
    and its loader, on the state they keep, and proves what it does.

    ** The parts, their files, and how they call each other

    - [Prelude] (this file): machine integers, the monad all the code is written
      in, arrays, and the lemmas the other files share.
    - [Macros], [Bitwise], [Bitmap], [Range], [MmDefs]: include/macros.h,
      bitwise.h, bitmap.h, range.h, mm_defs.h and the constants of page.h and
      x86-consts.h. A [struct bitmap] is its two counts and its list of words.
    - [E820]: the passes of early/mem.c over the firmware's memory map, in place on
      the array of [struct early_boot_info].
    - [Page]: include/page.h. Table memory is [words], a map from the addresses of
      64-bit words.
    - [PageMap], [PageDump]: mm/page.c. Mapping runs on a [machine], table memory
      and the state of an allocator that its caller chooses; the class
      [AllocatorLaws] is all that the proofs use of it, as the code uses only its
      [struct page_allocators]. [PageMap] has an allocator that counts upwards as
      an instance, [EarlyAlloc] the kernel's own ([held_laws]: single pages are
      taken from the lowest, so a [landing], a run of free pages above those that
      the tables can take, is kept for a section that needs memory).
    - [EarlyAlloc], [EarlyInit]: the scratch and early page allocators of
      early/mem.c. A span is a record with its four bitmaps; the state has the
      spans and the counters. [EarlyInit] starts them.
    - [ListDL]: include/list.h on a map from addresses to pairs of pointers.
    - [Spinlock]: include/spinlock.h and atomic.h, once as sequential code and
      once as a step relation that interleaves CPUs.
    - [Phys], [PhysProofs]: mm/phys.c and include/mm.h. Physblocks by address,
      list nodes in the memory of [ListDL], locks as the set of those held.
    - [Kmalloc]: mm/kmalloc.c, on [Phys] and a memory of bytes.
    - [CString], [Format]: include/string.h and lib/format.c.
    - [Console]: early/video.c, early/serial.c and early_printf.
    - [Log]: kernel/log.c, global.c and panic.c, on [Kmalloc] and [Console].
    - [KernelMap]: [early_remap_page_tables] of early/mem.c. Its state, [boot],
      joins the early allocator's machine, the physical allocator's memory, the
      root of the tables and [CR3].
    - [MemInit]: the array of physblocks and the state of the physical allocator,
      built with the early allocator and handed over. A page that is mapped into
      the array becomes physblocks by reading its words.
    - [Boot]: [early_mem_init] whole, on the firmware's map and [boot].
    - [Loader]: arch/x86_64/boot/loader.c, on bytes of memory and a disk drive that
      is a parameter with the laws [AtaDrive]: busy or not, idle or giving sectors,
      and deaf to registers and commands unless idle.
    - [Interrupt]: arch/x86_64/kernel/interrupt.c, as the writes of registers.
    - [Report]: the report of kernel/main.c, on [Log].
    - [Main]: [main] and [early_init], on a state that joins those of [Boot], [Log],
      [Console] and [Interrupt].

    ** How code becomes definitions

    A function of the code is a definition of the same name. Code that has state
    or can fail is in the monad [M S A] below: [Done] with a value and a state,
    [Panic] when the code panics, [Hang] when it never returns, [Undef] when it
    leaves an object it was given or shifts by the width of its operand. So a theorem that says [wp m s Q] says that [m]
    returns, does not panic, stays inside its arrays and ends with [Q];
    [completes m s Q P] says the same but for a panic, which needs [P].
    Statements that change a part of a bigger state run there by [zoom]. Integers
    keep their width: the operators of the scope [u64_scope] wrap, and the
    conversions [u32], [i32] and the like are the casts of C. Pointers are
    addresses.

    ** Fuel

    Loops that count are [for_loop]. The others have fuel, and every theorem about
    them gives the result, so shows that it is enough: 513 for the loops over a
    page table, which leave it after entry 511; [n / NUM_PAGES_PUD + 3] for the
    outermost, which passes a table of that many pages at a time; [num_pages + 3]
    for the pages of the array of physblocks; the number of entries and 1 for
    normalising; 14 for joining, splitting and looking for an order in [Phys], as
    an order is at most 12, and 1 for the retry of an allocation, which one CPU
    never makes; the number of nodes and 1 for [list_count]; 65 for the digits of
    a number; the length of the format and 1 for [vsnprintf]; 13 for the orders of
    [kmalloc]; [n] for the halvings of [n] in the search for a run of [n] bits; 2 for a free spinlock. A drive may be
    read as often as it takes not to be busy ([patience]).

    ** What is proved

    - The whole start ([Main]): [main] reaches its last loop with memory up and
      exactly the report of the machine in the log, on the screen and on the serial
      port. It panics only if a section of the image is not page-aligned or has to
      be given more than eight pages, or if no block is free for the log.
    - Bringing memory up ([Boot], [MemInit], [KernelMap], [EarlyInit], [E820]): a
      boot from a consistent firmware map ends with the buddy allocator managing
      exactly the frames the firmware calls RAM, the pages in use at boot in use,
      no page table and no page of the array of physblocks free, and the address space exactly the kernel's. The parts
      have theorems of their own: the map is sorted, merged and cut to whole pages
      without losing or inventing memory; the first state of the early allocator;
      the regions of the address space with their permissions; the hand-over.
    - Page tables ([PageMap], [PageDump], [EarlyAlloc]): mapping gives exactly the
      translation asked for, with pages of every size, keeps the tables a tree and
      stays within its budget; a range that meets a mapped page panics; the walkers
      agree with the translation; the dump prints exactly the maximal runs of mapped pages.
    - Allocation ([EarlyAlloc], [PhysProofs], [Kmalloc]): the early allocator
      returns the lowest free page and keeps its counters; the buddy allocator
      keeps its invariant [phys_inv], which ties blocks, free lists, tails, locks
      and statistics, returns aligned blocks of the order asked for, coalesces what
      is freed, and gives the status of every page, as does [kmalloc] above it.
    - Lists, bits and locks ([ListDL], [Bitmap], [Bitwise], [Spinlock]): the list
      code refines sequences; searches return the first index; mutual exclusion
      under every interleaving.
    - Text ([Format], [CString], [Console], [Log], [Report]): [vsnprintf] writes the
      text a format denotes and ends on every input; the screen refines a list of
      lines; the log refines a list of records.
    - Loading ([Loader]): the image is copied, or read if its section headers end
      it, and checked, [.bss] is cleared and nothing else, and the entry point is
      where it goes on.

    Where the code does something else than it means to, a theorem says what it
    does: [kmalloc_limits], [log_limits], [run_end_limits] of the dump,
    [load2_reads_early], [orders_text_overflows], [virt_to_phys_direct],
    [find_bitstring_undefined] and the clauses of [bitmap_bit_ops_correct],
    [phys_free_correct], [bytes_to_human_correct] and [memory_handover_correct]
    (ephemeral pages become free).

    ** What is not modelled, and why

    - The memory the parts share, beyond what [Main] joins: tables, physblocks, list
      nodes and bytes are separate maps, each with the addresses its part uses.
    - The boot sectors and the inline assembly (boot1.S, boot2.S, asm.h): not C.
      Port and register accesses are lists of writes, and parameters for what is
      read.
    - The contents of RAM beyond the parts' own memory: the kernel's stack, and the
      lock word of the global state, in a page that the model only allocates.
    - Caches of translations: flushing them has no effect on the model, which
      translates by the tables as they are.
    - More than one CPU, except for the lock itself: the sequential models take
      every lock at once, and a lock that is held hangs.
    - The build tool (tools/zbuild) and the test programs: not part of the kernel. *)

From stdpp Require Import base gmap list strings numbers sorting.
From Stdlib Require Import ZArith Lia Btauto.

#[global] Open Scope Z_scope.

(** ** Machine integers

    A [w]-bit unsigned integer of the C code is a [Z] in [0, 2^w); the
    conversions below are the C conversions to the unsigned and signed types
    of that width (two's complement). *)

Definition wrap (w x : Z) : Z := x mod 2 ^ w.

Definition swrap (w x : Z) : Z := (x + 2 ^ (w - 1)) mod 2 ^ w - 2 ^ (w - 1).

Definition u64 (x : Z) : Z := wrap 64 x.

Definition u32 (x : Z) : Z := wrap 32 x.

Definition u16 (x : Z) : Z := wrap 16 x.

Definition u8 (x : Z) : Z := wrap 8 x.

Definition i64 (x : Z) : Z := swrap 64 x.

Definition i32 (x : Z) : Z := swrap 32 x.

(** The [uint64_t] operators whose result can leave the type. *)

Definition add64 (x y : Z) : Z := u64 (x + y).

Definition sub64 (x y : Z) : Z := u64 (x - y).

Definition mul64 (x y : Z) : Z := u64 (x * y).

Definition shl64 (x n : Z) : Z := u64 (Z.shiftl x n).

Definition not64 (x : Z) : Z := u64 (Z.lnot x).

Declare Scope u64_scope.
Delimit Scope u64_scope with u64.
Notation "x + y" := (add64 x%u64 y%u64) : u64_scope.
Notation "x - y" := (sub64 x%u64 y%u64) : u64_scope.
Notation "x * y" := (mul64 x%u64 y%u64) : u64_scope.
Notation "x << y" := (shl64 x%u64 y%Z) (at level 51, left associativity) : u64_scope.
Notation "x >> y" := (Z.shiftr x%u64 y%Z) (at level 51, left associativity) : u64_scope.
Notation "x & y" := (Z.land x%u64 y%u64) (at level 52, left associativity) : u64_scope.
Notation "x ^^ y" := (Z.lxor x%u64 y%u64) (at level 53, left associativity) : u64_scope.
Notation "x |: y" := (Z.lor x%u64 y%u64) (at level 54, left associativity) : u64_scope.
Notation "~: x" := (not64 x%u64) (at level 33, right associativity) : u64_scope.

(** The well-typedness predicate of [uint64_t] values, and of the other
    unsigned types. *)

Definition is_u (w x : Z) : Prop := 0 <= x < 2 ^ w.

Abbreviation is_u64 := (is_u 64).
Abbreviation is_u32 := (is_u 32).
Abbreviation is_u16 := (is_u 16).
Abbreviation is_u8 := (is_u 8).

#[global] Instance is_u_dec w x : Decision (is_u w x).
Proof. unfold is_u. apply _. Defined.

(** ** Effects

    Code that reads and writes state, may call a panic function that does not
    return, may spin for ever, or may leave an array's bounds is a function
    from the state to an [outcome]. [Hang] is a loop that never exits: waiting
    for a spinlock nobody releases, or a recursion that exhausted the fuel it
    was given. [Undef] is an access C gives no meaning to. *)

Inductive outcome (S A : Type) : Type :=
| Done (a : A) (s : S)
| Panic (msg : string)
| Hang
| Undef.

Arguments Done {S A} a s.
Arguments Panic {S A} msg.
Arguments Hang {S A}.
Arguments Undef {S A}.

Definition M (S A : Type) : Type := S -> outcome S A.

#[global] Instance M_ret S : MRet (M S) := fun A a s => Done a s.

#[global] Instance M_bind S : MBind (M S) := fun A B k m s =>
  match m s with
  | Done a s' => k a s'
  | Panic msg => Panic msg
  | Hang => Hang
  | Undef => Undef
  end.

Definition get {S} : M S S := fun s => Done s s.

Definition gets {S A} (f : S -> A) : M S A := fun s => Done (f s) s.

Definition put {S} (s : S) : M S unit := fun _ => Done tt s.

Definition modify {S} (f : S -> S) : M S unit := fun s => Done tt (f s).

Definition panic {S A} (msg : string) : M S A := fun _ => Panic msg.

Definition hang {S A} : M S A := fun _ => Hang.

Definition undef {S A} : M S A := fun _ => Undef.

(** A memory access of the code: [None] is one outside the object. *)
Definition lift {S A} (o : option A) : M S A :=
  match o with
  | Some a => mret a
  | None => undef
  end.

Definition when {S} (b : bool) (m : M S unit) : M S unit :=
  if b then m else mret tt.

(** [for (i = from; n iterations; i++) body(i)]. *)
Fixpoint for_loop {S} (n : nat) (from : Z) (body : Z -> M S unit) : M S unit :=
  match n with
  | O => mret tt
  | Datatypes.S n' => body from ;; for_loop n' (from + 1) body
  end.

(** Run a computation on a part of a bigger state. *)
Definition zoom {S T A} (view : T -> S) (update : S -> T -> T) (m : M S A) : M T A :=
  fun t =>
    match m (view t) with
    | Done a s => Done a (update s t)
    | Panic msg => Panic msg
    | Hang => Hang
    | Undef => Undef
    end.

(** Total correctness: from [s], [m] returns, and its result and final state
    satisfy [Q]. A computation that panics, hangs or leaves an array's bounds
    satisfies no [Q]. *)
Definition wp {S A} (m : M S A) (s : S) (Q : A -> S -> Prop) : Prop :=
  match m s with
  | Done a s' => Q a s'
  | _ => False
  end.

(** Total correctness with panics: [m] returns with [Q], or it panics and then
    [P] holds. It does not hang, and stays inside its arrays. *)
Definition completes {S A} (m : M S A) (s : S) (Q : A -> S -> Prop) (P : Prop) : Prop :=
  match m s with
  | Done a s' => Q a s'
  | Panic _ => P
  | _ => False
  end.

(** ** Lists as C arrays *)

(** Reading [arr[i]] at a [Z] index; [None] is an access out of bounds. *)
Definition zlookup {A} (l : list A) (i : Z) : option A :=
  if decide (0 <= i) then l !! Z.to_nat i else None.

(** The array after [arr[i] = x]; unchanged out of bounds. *)
Definition zinsert {A} (i : Z) (x : A) (l : list A) : list A :=
  if decide (0 <= i) then <[Z.to_nat i := x]> l else l.

Definition zlength {A} (l : list A) : Z := Z.of_nat (length l).

(** Writing [arr[i] = x]; [None] is an access out of bounds. *)
Definition zstore {A} (l : list A) (i : Z) (x : A) : option (list A) :=
  if decide (0 <= i < zlength l) then Some (zinsert i x l) else None.

(** The number of elements of [l] that satisfy [f]. *)
Fixpoint count_true {A} (f : A -> bool) (l : list A) : Z :=
  match l with
  | [] => 0
  | x :: l' => (if f x then 1 else 0) + count_true f l'
  end.

(** ** Automation *)

Create HintDb zeptux.

(** Split hypotheses, destruct pairs and existentials. *)
Ltac inv_all :=
  repeat match goal with
  | H : _ /\ _ |- _ => destruct H
  | H : exists _, _ |- _ => destruct H
  | H : Done _ _ = Done _ _ |- _ => injection H as ? ?; subst
  | H : Panic _ = Done _ _ |- _ => discriminate H
  | H : Hang = Done _ _ |- _ => discriminate H
  | H : Undef = Done _ _ |- _ => discriminate H
  | H : Some _ = Some _ |- _ => injection H as ?; subst
  | H : Some _ = None |- _ => discriminate H
  | H : None = Some _ |- _ => discriminate H
  end.

(** Turn the boolean comparisons of the code into propositions. *)
Ltac bool_to_prop :=
  repeat match goal with
  | H : (_ <? _) = true |- _ => apply Z.ltb_lt in H
  | H : (_ <? _) = false |- _ => apply Z.ltb_ge in H
  | H : (_ <=? _) = true |- _ => apply Z.leb_le in H
  | H : (_ <=? _) = false |- _ => apply Z.leb_gt in H
  | H : (_ =? _) = true |- _ => apply Z.eqb_eq in H
  | H : (_ =? _) = false |- _ => apply Z.eqb_neq in H
  | H : negb _ = true |- _ => apply negb_true_iff in H
  | H : negb _ = false |- _ => apply negb_false_iff in H
  | H : (_ && _)%bool = true |- _ => apply andb_true_iff in H as [? ?]
  | H : (_ && _)%bool = false |- _ => apply andb_false_iff in H
  | H : (_ || _)%bool = false |- _ => apply orb_false_iff in H as [? ?]
  | H : (_ || _)%bool = true |- _ => apply orb_true_iff in H
  end.

(** ** Lemmas on machine integers *)

Lemma is_u_wrap w x : 0 <= w -> is_u w (wrap w x).
Proof. intros. apply Z.mod_pos_bound. lia. Qed.

Lemma wrap_small w x : is_u w x -> wrap w x = x.
Proof. apply Z.mod_small. Qed.

Lemma u64_small x : is_u64 x -> u64 x = x.
Proof. apply Z.mod_small. Qed.

Lemma is_u64_u64 x : is_u64 (u64 x).
Proof. by apply is_u_wrap. Qed.

Lemma i32_small x : - 2 ^ 31 <= x < 2 ^ 31 -> i32 x = x.
Proof. intros Hx. unfold i32, swrap. rewrite Z.mod_small; simpl in *; lia. Qed.

Lemma i32_range x : - 2 ^ 31 <= i32 x < 2 ^ 31.
Proof. unfold i32, swrap. pose proof (Z.mod_pos_bound (x + 2 ^ (32 - 1)) (2 ^ 32)). simpl in *. lia. Qed.

Lemma i64_range x : - 2 ^ 63 <= i64 x < 2 ^ 63.
Proof. unfold i64, swrap. pose proof (Z.mod_pos_bound (x + 2 ^ (64 - 1)) (2 ^ 64)). simpl in *. lia. Qed.

Lemma add64_small x y : is_u64 (x + y) -> add64 x y = x + y.
Proof. apply u64_small. Qed.

Lemma sub64_small x y : is_u64 (x - y) -> sub64 x y = x - y.
Proof. apply u64_small. Qed.

Lemma wrap_testbit w x i :
  0 <= w -> Z.testbit (wrap w x) i = (i <? w) && Z.testbit x i.
Proof.
  intros Hw. unfold wrap. destruct (Z.ltb_spec i w).
  - destruct (Z.neg_nonneg_cases i); [by rewrite !Z.testbit_neg_r|].
    by rewrite Z.mod_pow2_bits_low by lia.
  - by rewrite Z.mod_pow2_bits_high by lia.
Qed.

Lemma u64_testbit x i : Z.testbit (u64 x) i = (i <? 64) && Z.testbit x i.
Proof. by apply wrap_testbit. Qed.

Lemma not64_testbit x i :
  0 <= i -> Z.testbit (not64 x) i = (i <? 64) && negb (Z.testbit x i).
Proof. intros. unfold not64. rewrite u64_testbit. by rewrite Z.lnot_spec. Qed.

Lemma shl64_testbit x n i :
  0 <= i -> Z.testbit (shl64 x n) i = (i <? 64) && Z.testbit x (i - n).
Proof. intros. unfold shl64. rewrite u64_testbit. by rewrite Z.shiftl_spec. Qed.

(** Values below [2^w] have no bit at or above [w], and conversely. *)
Lemma testbit_high w x i : is_u w x -> 0 <= w <= i -> Z.testbit x i = false.
Proof.
  intros Hx Hi. rewrite <- (wrap_small w x Hx), wrap_testbit by lia.
  by rewrite (proj2 (Z.ltb_ge i w)) by lia.
Qed.

Lemma is_u_testbit w x :
  0 <= w -> (forall i, w <= i -> Z.testbit x i = false) -> 0 <= x -> is_u w x.
Proof.
  intros Hw Hb Hx. assert (wrap w x = x) as <-; [|by apply is_u_wrap].
  apply Z.bits_inj'. intros i Hi. rewrite wrap_testbit by lia.
  destruct (Z.ltb_spec i w); simpl; [done|]. by rewrite Hb.
Qed.

Lemma is_u_land w x y : 0 <= w -> is_u w x -> 0 <= y -> is_u w (Z.land x y).
Proof.
  intros Hw Hx Hy. apply is_u_testbit; [done| |].
  - intros i Hi. by rewrite Z.land_spec, (testbit_high w x i) by (done || lia).
  - apply Z.land_nonneg. unfold is_u in Hx. lia.
Qed.

Lemma is_u_lor w x y : 0 <= w -> is_u w x -> is_u w y -> is_u w (Z.lor x y).
Proof.
  intros Hw Hx Hy. apply is_u_testbit; [done| |].
  - intros i Hi. by rewrite Z.lor_spec, (testbit_high w x i), (testbit_high w y i) by (done || lia).
  - apply Z.lor_nonneg. unfold is_u in *. lia.
Qed.

Lemma is_u_lxor w x y : 0 <= w -> is_u w x -> is_u w y -> is_u w (Z.lxor x y).
Proof.
  intros Hw Hx Hy. apply is_u_testbit; [done| |].
  - intros i Hi. by rewrite Z.lxor_spec, (testbit_high w x i), (testbit_high w y i) by (done || lia).
  - apply Z.lxor_nonneg. unfold is_u in *. lia.
Qed.

Lemma is_u_shiftr w x n : 0 <= n -> is_u w x -> is_u w (Z.shiftr x n).
Proof.
  intros Hn [Hx0 Hx]. split; [by apply Z.shiftr_nonneg|].
  rewrite Z.shiftr_div_pow2 by done.
  apply Z.le_lt_trans with x; [|done]. apply Z.div_le_upper_bound; nia.
Qed.

#[export] Hint Resolve is_u64_u64 is_u_land is_u_lor is_u_lxor is_u_shiftr : zeptux.

(** The low [k] bits of [x], as an arithmetic remainder. *)
Lemma land_ones_mod x k : 0 <= k -> Z.land x (2 ^ k - 1) = x mod 2 ^ k.
Proof. intros. rewrite <- Z.land_ones by done. by rewrite Z.ones_equiv, <- Z.sub_1_r. Qed.

(** Disjoint bit patterns add up. *)
Lemma lor_add_disjoint x y : Z.land x y = 0 -> Z.lor x y = x + y.
Proof.
  intros H. rewrite <- Z.lxor_lor by done. by rewrite Z.add_nocarry_lxor.
Qed.

(** ** Lemmas on the monad *)

Lemma wp_ret {S A} (a : A) (s : S) Q : Q a s -> wp (mret a) s Q.
Proof. done. Qed.

Lemma wp_bind {S A B} (m : M S A) (k : A -> M S B) s Q :
  wp m s (fun a s' => wp (k a) s' Q) -> wp (m ≫= k) s Q.
Proof. unfold wp, mbind, M_bind. by destruct (m s). Qed.

Lemma wp_get {S} (s : S) Q : Q s s -> wp get s Q.
Proof. done. Qed.

Lemma wp_gets {S A} (f : S -> A) (s : S) Q : Q (f s) s -> wp (gets f) s Q.
Proof. done. Qed.

Lemma wp_put {S} (s s' : S) Q : Q tt s' -> wp (put s') s Q.
Proof. done. Qed.

Lemma wp_modify {S} (f : S -> S) (s : S) Q : Q tt (f s) -> wp (modify f) s Q.
Proof. done. Qed.

Lemma wp_mono {S A} (m : M S A) s (Q R : A -> S -> Prop) :
  wp m s Q -> (forall a s', Q a s' -> R a s') -> wp m s R.
Proof. unfold wp. destruct (m s); naive_solver. Qed.

Lemma wp_done {S A} (m : M S A) s Q :
  wp m s Q -> exists a s', m s = Done a s' /\ Q a s'.
Proof. unfold wp. destruct (m s); naive_solver. Qed.

Lemma done_wp {S A} (m : M S A) s Q a s' :
  m s = Done a s' -> Q a s' -> wp m s Q.
Proof. unfold wp. by intros ->. Qed.

Lemma wp_lift {S A} (o : option A) (s : S) Q a :
  o = Some a -> Q a s -> wp (lift o) s Q.
Proof. by intros ->. Qed.

Lemma wp_and {S A} (m : M S A) s (Q R : A -> S -> Prop) :
  wp m s Q -> wp m s R -> wp m s (fun a s' => Q a s' /\ R a s').
Proof. unfold wp. by destruct (m s). Qed.

(** A loop invariant [I k s] over the number [k] of completed iterations. *)
Lemma wp_for_loop {S} (I : nat -> S -> Prop) n from (body : Z -> M S unit) s :
  I 0%nat s ->
  (forall k s, (k < n)%nat -> I k s ->
     wp (body (from + Z.of_nat k)) s (fun _ s' => I (Datatypes.S k) s')) ->
  wp (for_loop n from body) s (fun _ s' => I n s').
Proof.
  revert I from s. induction n as [|n IH]; intros I from s H0 Hstep; [done|].
  simpl. apply wp_bind. eapply wp_mono.
  - rewrite <- (Z.add_0_r from). apply (Hstep 0%nat); [lia|done].
  - simpl. intros ? s' H1. apply (IH (fun k => I (Datatypes.S k)) (from + 1) s' H1).
    intros k s'' Hk HI. replace (from + 1 + Z.of_nat k) with (from + Z.of_nat (Datatypes.S k)) by lia.
    apply Hstep; [lia|done].
Qed.

Lemma completes_wp {S A} (m : M S A) s Q P : wp m s Q -> completes m s Q P.
Proof. unfold wp, completes. by destruct (m s). Qed.

Lemma completes_no_panic {S A} (m : M S A) s Q (P : Prop) : completes m s Q P -> ~ P -> wp m s Q.
Proof. unfold wp, completes. by destruct (m s). Qed.

Lemma completes_bind {S A B} (m : M S A) (k : A -> M S B) s Q P :
  completes m s (fun a s' => completes (k a) s' Q P) P -> completes (m ≫= k) s Q P.
Proof. unfold completes, mbind, M_bind. by destruct (m s). Qed.

Lemma completes_mono {S A} (m : M S A) s (Q R : A -> S -> Prop) (P P' : Prop) :
  completes m s Q P -> (forall a s', Q a s' -> R a s') -> (P -> P') -> completes m s R P'.
Proof. unfold completes. destruct (m s); naive_solver. Qed.

Lemma completes_for_loop {S} (I : nat -> S -> Prop) (P : Prop) n from (body : Z -> M S unit) s :
  I 0%nat s ->
  (forall k s, (k < n)%nat -> I k s ->
     completes (body (from + Z.of_nat k)) s (fun _ s' => I (Datatypes.S k) s') P) ->
  completes (for_loop n from body) s (fun _ s' => I n s') P.
Proof.
  revert I from s. induction n as [|n IH]; intros I from s H0 Hstep; [done|].
  simpl. apply completes_bind. eapply completes_mono; [| |by intros ?].
  - rewrite <- (Z.add_0_r from). apply (Hstep 0%nat); [lia|done].
  - simpl. intros ? s' H1. apply (IH (fun k => I (Datatypes.S k)) (from + 1) s' H1).
    intros k s'' Hk HI. replace (from + 1 + Z.of_nat k) with (from + Z.of_nat (Datatypes.S k)) by lia.
    apply Hstep; [lia|done].
Qed.

(** ** Lemmas on arrays *)

Lemma zlookup_lookup {A} (l : list A) (i : nat) : zlookup l (Z.of_nat i) = l !! i.
Proof. unfold zlookup. rewrite decide_True by lia. by rewrite Nat2Z.id. Qed.

Lemma zlookup_Some {A} (l : list A) i x :
  zlookup l i = Some x <-> 0 <= i /\ l !! Z.to_nat i = Some x.
Proof. unfold zlookup. case_decide; (split; [done|by intros [? ?]]). Qed.

Lemma zlookup_is_Some {A} (l : list A) i : is_Some (zlookup l i) <-> 0 <= i < zlength l.
Proof.
  unfold zlookup, zlength. case_decide.
  - rewrite lookup_lt_is_Some. lia.
  - split; [by intros [? ?]|lia].
Qed.

Lemma zlookup_zinsert_eq {A} (l : list A) i x :
  0 <= i < zlength l -> zlookup (zinsert i x l) i = Some x.
Proof.
  unfold zlookup, zinsert, zlength. intros H. rewrite !decide_True by lia.
  apply list_lookup_insert_eq. lia.
Qed.

Lemma zlookup_zinsert_ne {A} (l : list A) i j x :
  i <> j -> zlookup (zinsert i x l) j = zlookup l j.
Proof.
  unfold zlookup, zinsert. intros H. repeat case_decide; try done.
  apply list_lookup_insert_ne. lia.
Qed.

Lemma zlookup_None {A} (l : list A) i : ~ (0 <= i < zlength l) -> zlookup l i = None.
Proof. rewrite <- zlookup_is_Some. destruct (zlookup l i) eqn:E; [|done]. intros []. by eexists. Qed.

Lemma zlookup_elem_of {A} (l : list A) i x : zlookup l i = Some x -> x ∈ l.
Proof. rewrite zlookup_Some. intros [_ H]. by eapply list_elem_of_lookup_2. Qed.

Lemma Forall_zlookup {A} (P : A -> Prop) l i x : Forall P l -> zlookup l i = Some x -> P x.
Proof. intros Hall [_ H]%zlookup_Some. by eapply Forall_lookup_1. Qed.

Lemma zlength_app {A} (l k : list A) : zlength (l ++ k) = zlength l + zlength k.
Proof. unfold zlength. rewrite length_app. lia. Qed.

Lemma zlength_nonneg {A} (l : list A) : 0 <= zlength l.
Proof. unfold zlength. lia. Qed.

Lemma zstore_Some {A} (l : list A) i x :
  0 <= i < zlength l -> zstore l i x = Some (zinsert i x l).
Proof. intros. unfold zstore. by rewrite decide_True. Qed.

Lemma zlookup_app_r {A} (l k : list A) i :
  zlength l <= i -> zlookup (l ++ k) i = zlookup k (i - zlength l).
Proof.
  unfold zlookup, zlength. intros H. rewrite !decide_True by lia.
  rewrite lookup_app_r by lia. f_equal. lia.
Qed.

Lemma zlookup_app_l {A} (l k : list A) i :
  i < zlength l -> zlookup (l ++ k) i = zlookup l i.
Proof.
  unfold zlookup, zlength. intros H. case_decide; [|done]. by rewrite lookup_app_l by lia.
Qed.

Lemma zlookup_replicate {A} (n : nat) (x : A) i :
  0 <= i < Z.of_nat n -> zlookup (replicate n x) i = Some x.
Proof.
  intros. unfold zlookup. rewrite decide_True by lia. apply lookup_replicate_2. lia.
Qed.

Lemma Forall_zinsert {A} (P : A -> Prop) l i x : Forall P l -> P x -> Forall P (zinsert i x l).
Proof. unfold zinsert. case_decide; [|done]. intros. by apply Forall_insert. Qed.

Lemma zlength_zinsert {A} (l : list A) i x : zlength (zinsert i x l) = zlength l.
Proof. unfold zinsert, zlength. case_decide; [by rewrite length_insert|done]. Qed.

(** The element between two halves of an array. *)
Lemma zstore_middle {A} (l1 l2 : list A) x y i :
  i = Z.of_nat (length l1) -> zstore (l1 ++ x :: l2) i y = Some (l1 ++ y :: l2).
Proof.
  intros ->. rewrite zstore_Some by (unfold zlength; rewrite length_app; simpl; lia).
  unfold zinsert. rewrite decide_True by lia. rewrite Nat2Z.id.
  by rewrite insert_app_r_alt, Nat.sub_diag by lia.
Qed.

Lemma zstore_middle2 {A} (l1 l2 : list A) e x y i :
  i = Z.of_nat (S (length l1)) -> zstore (l1 ++ e :: x :: l2) i y = Some (l1 ++ e :: y :: l2).
Proof.
  intros ->. change (e :: x :: l2) with ([e] ++ x :: l2). change (e :: y :: l2) with ([e] ++ y :: l2).
  rewrite !app_assoc. apply zstore_middle. rewrite length_app. simpl. lia.
Qed.

Lemma lookup_middle {A} (l1 l2 : list A) x i :
  i = length l1 -> (l1 ++ x :: l2) !! i = Some x.
Proof. intros ->. by apply list_lookup_middle. Qed.

(** ** Counting *)

Lemma count_true_ext {A} (f g : A -> bool) l :
  (forall x, x ∈ l -> f x = g x) -> count_true f l = count_true g l.
Proof.
  induction l as [|x l IH]; simpl; intros H; [done|].
  rewrite (H x) by apply elem_of_cons, or_introl, eq_refl. f_equal. apply IH.
  intros y Hy. apply H. by apply elem_of_cons, or_intror.
Qed.

(** Turning one element's flag from [false] to [true] adds one to the count. *)
Lemma count_true_flip {A} (f g : A -> bool) l x :
  NoDup l -> x ∈ l -> f x = false -> g x = true ->
  (forall y, y <> x -> g y = f y) -> count_true g l = count_true f l + 1.
Proof.
  intros Hnd Hin Hf Hg Hoth. induction Hnd as [|y l Hy Hnd IH]; [by apply elem_of_nil in Hin|].
  simpl. apply elem_of_cons in Hin as [<-|Hl].
  - rewrite Hf, Hg. rewrite (count_true_ext g f); [lia|]. intros z Hz. apply Hoth. by intros ->.
  - rewrite (Hoth y) by (by intros ->). rewrite IH by done. lia.
Qed.

Lemma count_true_none {A} (f : A -> bool) l :
  (forall x, x ∈ l -> f x = false) -> count_true f l = 0.
Proof.
  induction l as [|x l IH]; simpl; intros H; [done|].
  rewrite (H x) by apply elem_of_cons, or_introl, eq_refl. apply IH.
  intros y Hy. apply H. by apply elem_of_cons, or_intror.
Qed.

Lemma count_true_all {A} (f : A -> bool) l :
  (forall x, x ∈ l -> f x = true) -> count_true f l = zlength l.
Proof.
  unfold zlength. induction l as [|x l IH]; simpl; intros H; [done|].
  rewrite (H x) by apply elem_of_cons, or_introl, eq_refl. rewrite IH; [lia|].
  intros y Hy. apply H. by apply elem_of_cons, or_intror.
Qed.

Lemma count_true_app {A} (f : A -> bool) l k : count_true f (l ++ k) = count_true f l + count_true f k.
Proof. induction l as [|x l IH]; simpl; lia. Qed.

Lemma count_true_bounds {A} (f : A -> bool) l : 0 <= count_true f l <= zlength l.
Proof. unfold zlength. induction l as [|x l IH]; simpl; [lia|]. destruct (f x); lia. Qed.

Lemma count_true_fmap {A B} (f : B -> bool) (g : A -> B) l : count_true f (g <$> l) = count_true (fun x => f (g x)) l.
Proof. induction l as [|x l IH]; [done|]. rewrite fmap_cons. cbn [count_true]. by rewrite IH. Qed.

Lemma count_true_negb {A} (f : A -> bool) l : count_true (fun x => negb (f x)) l = zlength l - count_true f l.
Proof. unfold zlength. induction l as [|x l IH]; [done|]. cbn [count_true length]. destruct (f x); simpl; lia. Qed.

Lemma count_true_mono {A} (f g : A -> bool) l : (forall x, x ∈ l -> f x = true -> g x = true) -> count_true f l <= count_true g l.
Proof.
  induction l as [|x l IH]; intros H; [done|]. cbn [count_true]. specialize (IH (fun y Hy => H y (proj2 (elem_of_cons _ _ _) (or_intror Hy)))).
  pose proof (H x (proj2 (elem_of_cons _ _ _) (or_introl eq_refl))) as Hx. destruct (f x), (g x); lia.
Qed.

(** The same for a list of elements. *)
Lemma count_true_flip_list {A} `{EqDecision A} (k : list A) (f g : A -> bool) l :
  NoDup l -> NoDup k -> (forall x, x ∈ k -> x ∈ l /\ f x = false /\ g x = true) ->
  (forall x, x ∉ k -> g x = f x) -> count_true g l = count_true f l + zlength k.
Proof.
  intros Hl Hk. revert f. induction Hk as [|y k Hy Hk IH]; intros f Hin Hout.
  - rewrite (count_true_ext g f); [unfold zlength; simpl; lia|]. intros x _. apply Hout, not_elem_of_nil.
  - destruct (Hin y) as (Hyl & Hfy & Hgy); [by left|].
    set (f' x := if decide (x = y) then true else f x).
    assert (count_true f' l = count_true f l + 1) as E.
    { apply (count_true_flip f f' l y); try done; unfold f'; [by rewrite decide_True|]. intros z Hz. by rewrite decide_False. }
    rewrite (IH f'); [rewrite E; unfold zlength; simpl; lia|..]; unfold f'.
    + intros x Hx. rewrite decide_False by (by intros ->). apply Hin. by right.
    + intros x Hx. case_decide as Ex; [by rewrite Ex|]. apply Hout. by intros [?|?]%elem_of_cons.
Qed.

Lemma count_true_ge {A} `{EqDecision A} (k : list A) (f : A -> bool) l :
  NoDup l -> NoDup k -> (forall x, x ∈ k -> x ∈ l /\ f x = true) -> zlength k <= count_true f l.
Proof.
  intros Hl Hk Hin. set (f' x := if decide (x ∈ k) then false else f x).
  rewrite (count_true_flip_list k f' f l Hl Hk); unfold f'.
  - pose proof (count_true_bounds (fun x => if decide (x ∈ k) then false else f x) l). lia.
  - intros x Hx. destruct (Hin x Hx). by rewrite decide_True.
  - intros x Hx. by rewrite decide_False.
Qed.

(** Elements of a sorted list, by their positions. *)
Lemma sorted_lookup {A} (R : A -> A -> Prop) l : StronglySorted R l ->
  forall i j x y, (i < j)%nat -> l !! i = Some x -> l !! j = Some y -> R x y.
Proof.
  induction 1 as [|a l _ IH Ha]; intros i j x y Hij Hi Hj; [done|]. destruct j as [|j]; [lia|]. simpl in Hj. destruct i as [|i].
  - injection Hi as <-. apply (proj1 (Forall_forall _ _) Ha). by eapply list_elem_of_lookup_2.
  - simpl in Hi. apply (IH i j); [lia|done..].
Qed.
