(* ===== verification/Macros.v ===== *)
(** * The bit and alignment macros (include/macros.h)

    The macros are used on [uint64_t] operands throughout the kernel; each is
    translated with the wrap-around of that type written out. The lemmas give
    them their arithmetic meaning, which is what the components reason with. *)

From stdpp Require Import base numbers.
From Stdlib Require Import ZArith Lia.
From S2P Require Import Prelude.


Definition ALIGN (n to : Z) : Z := (n & ~: (to - 1))%u64.

Definition ALIGN_UP (n to : Z) : Z := ALIGN (n + to - 1)%u64 to.

Definition IS_ALIGNED (n to : Z) : bool := (n & (to - 1))%u64 =? 0.

Definition ALIGN_OFFSET (n to : Z) : Z := (n - ALIGN n to)%u64.

Definition BIT_MASK (bit : Z) : Z := (1 << bit)%u64.

Definition BIT_MASK_EXCLUDING (bit : Z) : Z := (~: (BIT_MASK bit))%u64.

Definition IS_MASK_SET (val mask : Z) : bool := (val & mask)%u64 =? mask.

Definition IS_BIT_SET (val bit : Z) : bool := IS_MASK_SET val (BIT_MASK bit).

Definition BIT_MASK_BELOW (bit : Z) : Z := (BIT_MASK bit - 1)%u64.

Definition BIT_MASK_ABOVE (bit : Z) : Z := (~: (BIT_MASK_BELOW bit))%u64.

(** ** Their meaning *)

Lemma BIT_MASK_pow k : 0 <= k < 64 -> BIT_MASK k = 2 ^ k.
Proof.
  intros Hk. unfold BIT_MASK, shl64. rewrite Z.shiftl_1_l. apply u64_small.
  split; [lia|]. apply Z.pow_lt_mono_r; lia.
Qed.

Lemma BIT_MASK_BELOW_pow k : 0 <= k < 64 -> BIT_MASK_BELOW k = 2 ^ k - 1.
Proof.
  intros Hk. unfold BIT_MASK_BELOW. rewrite BIT_MASK_pow by done.
  apply sub64_small. assert (2 ^ k < 2 ^ 64) by (apply Z.pow_lt_mono_r; lia).
  unfold is_u. lia.
Qed.

Lemma IS_BIT_SET_testbit x k : 0 <= k < 64 -> IS_BIT_SET x k = Z.testbit x k.
Proof.
  intros Hk. unfold IS_BIT_SET, IS_MASK_SET. rewrite BIT_MASK_pow by done.
  assert (Z.land x (2 ^ k) = if Z.testbit x k then 2 ^ k else 0) as ->.
  { apply Z.bits_inj'. intros i Hi. rewrite Z.land_spec, Z.pow2_bits_eqb by lia.
    destruct (Z.eqb_spec k i) as [->|Hne].
    - destruct (Z.testbit x i); [by rewrite Z.pow2_bits_true|by rewrite Z.bits_0].
    - rewrite andb_false_r. destruct (Z.testbit x k).
      + by rewrite Z.pow2_bits_false.
      + by rewrite Z.bits_0. }
  destruct (Z.testbit x k); [by rewrite Z.eqb_refl|]. apply Z.eqb_neq.
  assert (0 < 2 ^ k) by lia. lia.
Qed.

(** Clearing the low [k] bits of a [uint64_t]. *)
Lemma land_not_mask x k :
  0 <= k < 64 -> is_u64 x -> Z.land x (not64 (2 ^ k - 1)) = x - x mod 2 ^ k.
Proof.
  intros Hk Hx.
  assert (Z.land x (not64 (2 ^ k - 1)) = Z.ldiff x (Z.ones k)) as ->.
  { apply Z.bits_inj'. intros i Hi.
    rewrite Z.land_spec, not64_testbit, Z.ldiff_spec by done.
    rewrite Z.ones_equiv, <- Z.sub_1_r.
    destruct (Z.ltb_spec i 64); [done|]. by rewrite (testbit_high 64 x i) by (done || lia). }
  rewrite Z.ldiff_ones_r, Z.shiftl_mul_pow2, Z.shiftr_div_pow2 by lia.
  pose proof (Z.div_mod x (2 ^ k)). lia.
Qed.

Lemma sub64_1_pow k : 0 <= k < 64 -> sub64 (2 ^ k) 1 = 2 ^ k - 1.
Proof.
  intros Hk. apply sub64_small. unfold is_u.
  assert (2 ^ k < 2 ^ 64) by (apply Z.pow_lt_mono_r; lia). lia.
Qed.

Lemma ALIGN_pow x k : 0 <= k < 64 -> is_u64 x -> ALIGN x (2 ^ k) = x - x mod 2 ^ k.
Proof. intros. unfold ALIGN. rewrite sub64_1_pow by done. by apply land_not_mask. Qed.

Lemma ALIGN_UP_pow x k :
  0 <= k < 64 -> is_u64 x -> x + 2 ^ k - 1 < 2 ^ 64 ->
  ALIGN_UP x (2 ^ k) = (x + 2 ^ k - 1) / 2 ^ k * 2 ^ k.
Proof.
  intros Hk Hx Hb. unfold ALIGN_UP.
  assert ((x + 2 ^ k - 1)%u64 = x + 2 ^ k - 1) as ->.
  { unfold sub64, add64, u64, wrap. rewrite Zminus_mod_idemp_l. apply Z.mod_small.
    unfold is_u in Hx. lia. }
  rewrite ALIGN_pow; [|done|unfold is_u in *; lia].
  pose proof (Z.div_mod (x + 2 ^ k - 1) (2 ^ k)). lia.
Qed.

Lemma IS_ALIGNED_pow x k :
  0 <= k < 64 -> IS_ALIGNED x (2 ^ k) = (x mod 2 ^ k =? 0).
Proof. intros. unfold IS_ALIGNED. rewrite sub64_1_pow by done. by rewrite land_ones_mod by lia. Qed.

Lemma is_u64_ALIGN x to : is_u64 x -> is_u64 (ALIGN x to).
Proof. intros. apply is_u_land; [lia|done|]. unfold not64. destruct (is_u64_u64 (Z.lnot (sub64 to 1))). done. Qed.

#[export] Hint Resolve is_u64_ALIGN : zeptux.
