(* ===== verification/Bitwise.v ===== *)
(** * Bit searches (include/compiler.h, include/bitwise.h)

    [find_first_set_bit] and [find_first_clear_bit] wrap the compiler's
    find-first-set builtin, and [find_bitstring_longer_than] is the
    shift-and-mask search for a run of set bits. The theorems relate all three
    to [Z.testbit]. *)

From stdpp Require Import base numbers.
From Stdlib Require Import ZArith Lia.
From S2P Require Import Prelude.

(** [__builtin_ffsl]: one plus the index of the least significant set bit, or
    zero when there is none. *)
Fixpoint ctz_pos (p : positive) : Z :=
  match p with
  | xO q => 1 + ctz_pos q
  | _ => 0
  end.

Definition builtin_ffsl (x : Z) : Z :=
  match x with
  | Z0 => 0
  | Zpos p | Zneg p => 1 + ctz_pos p
  end.

Definition find_first_set_bit (x : Z) : Z := builtin_ffsl x - 1.

Definition find_first_clear_bit (x : Z) : Z := find_first_set_bit (not64 x).

(** [x << s] on a [uint64_t]: C leaves a shift by 64 or more undefined, which
    is [None]. *)
Definition shift_left64 (x s : Z) : option Z :=
  if (0 <=? s) && (s <? 64) then Some (x << s)%u64 else None.

(** The [while (curr > 1)] loop of [find_bitstring_longer_than]: every
    iteration lowers [curr], so [n] iterations always suffice. *)
Fixpoint bitstring_loop (fuel : nat) (x curr : Z) : option Z :=
  match fuel with
  | O => Some x
  | S fuel' =>
      if 1 <? curr then
        let s := Z.shiftr curr 1 in
        y ← shift_left64 x s;
        bitstring_loop fuel' (x & y)%u64 (curr - s)
      else Some x
  end.

Definition find_bitstring_longer_than (x n : Z) : option Z :=
  y ← bitstring_loop (Z.to_nat n) x n;
  let ret := find_first_set_bit y in
  Some (if ret <? 0 then -1 else ret - n + 1).

(** [n] consecutive set bits of [x] starting at bit [i]. *)
Definition run_at (x n i : Z) : Prop :=
  0 <= i /\ forall j, i <= j < i + n -> Z.testbit x j = true.

(** ** Find first set *)

Lemma ctz_pos_spec p :
  0 <= ctz_pos p /\ Z.testbit (Zpos p) (ctz_pos p) = true /\
  forall i, 0 <= i < ctz_pos p -> Z.testbit (Zpos p) i = false.
Proof.
  induction p as [p IH|p IH|]; simpl ctz_pos; [by repeat split; lia| |by repeat split; lia].
  destruct IH as (H0 & H1 & H2). rewrite (Pos2Z.inj_xO p). repeat split; [lia| |].
  - rewrite Z.add_comm, Z.add_1_r. by rewrite Z.testbit_even_succ.
  - intros i Hi. destruct (decide (i = 0)) as [->|]; [apply Z.testbit_even_0|].
    replace i with (Z.succ (i - 1)) by lia. rewrite Z.testbit_even_succ by lia. apply H2. lia.
Qed.

(** What the builtin returns on a [uint64_t]: [-1] exactly on zero, and
    otherwise the least index of a set bit. *)
Lemma find_first_set_bit_spec x :
  0 <= x ->
  (x = 0 /\ find_first_set_bit x = -1) \/
  (0 <= find_first_set_bit x /\ Z.testbit x (find_first_set_bit x) = true /\
   forall i, 0 <= i < find_first_set_bit x -> Z.testbit x i = false).
Proof.
  intros Hx. destruct x as [|p|p]; [by left| |lia]. right.
  unfold find_first_set_bit. simpl. destruct (ctz_pos_spec p) as (H0 & H1 & H2).
  rewrite Z.add_simpl_l. done.
Qed.

Lemma find_first_set_bit_none x :
  0 <= x -> (forall i, 0 <= i -> Z.testbit x i = false) -> find_first_set_bit x = -1.
Proof.
  intros Hx Hall. destruct (find_first_set_bit_spec x Hx) as [[_ ?]|(H0 & H1 & _)]; [done|].
  rewrite Hall in H1; done.
Qed.

(** The least set bit determines the result. *)
Lemma find_first_set_bit_unique x i :
  0 <= x -> 0 <= i -> Z.testbit x i = true ->
  (forall j, 0 <= j < i -> Z.testbit x j = false) -> find_first_set_bit x = i.
Proof.
  intros Hx Hi Hbit Hlow.
  destruct (find_first_set_bit_spec x Hx) as [[-> _]|(H0 & H1 & H2)]; [by rewrite Z.bits_0 in Hbit|].
  destruct (Z.lt_trichotomy (find_first_set_bit x) i) as [Hlt|[Heq|Hgt]]; [|done|].
  - rewrite Hlow in H1; [done|lia].
  - rewrite H2 in Hbit; [done|lia].
Qed.

Lemma find_first_set_bit_range x :
  is_u64 x -> -1 <= find_first_set_bit x < 64.
Proof.
  intros Hx. destruct (find_first_set_bit_spec x) as [[_ ->]|(H0 & H1 & _)];
    [unfold is_u in Hx; lia|lia|].
  split; [lia|]. destruct (Z.lt_ge_cases (find_first_set_bit x) 64); [done|].
  by rewrite (testbit_high 64 x) in H1 by (done || lia).
Qed.

(** The least clear bit among the 64 of a word, or [-1] when all are set. *)
Lemma find_first_clear_bit_spec x :
  (find_first_clear_bit x = -1 /\ (forall i, 0 <= i < 64 -> Z.testbit x i = true)) \/
  (0 <= find_first_clear_bit x < 64 /\ Z.testbit x (find_first_clear_bit x) = false /\
   forall i, 0 <= i < find_first_clear_bit x -> Z.testbit x i = true).
Proof.
  unfold find_first_clear_bit. set (y := not64 x).
  assert (is_u64 y) as Hy by apply is_u64_u64.
  assert (forall i, 0 <= i < 64 -> Z.testbit x i = negb (Z.testbit y i)) as Hxy.
  { intros i Hi. subst y. rewrite not64_testbit by lia.
    rewrite (proj2 (Z.ltb_lt i 64)) by lia. simpl. by rewrite negb_involutive. }
  pose proof (find_first_set_bit_range y Hy) as Hr.
  destruct (find_first_set_bit_spec y) as [[H0 H1]|(H0 & H1 & H2)]; [unfold is_u in Hy; lia| |].
  - left. split; [done|]. intros i Hi. by rewrite Hxy, H0, Z.bits_0 by done.
  - right. split; [lia|]. split; [by rewrite Hxy, H1 by lia|].
    intros i Hi. by rewrite Hxy, H2 by lia.
Qed.

(** ** Runs of set bits *)

(** The shift-and-mask loop keeps the bits that end a run of [curr] set bits;
    below 128 no shift of it reaches 64. *)
Lemma bitstring_loop_testbit fuel x curr :
  is_u64 x -> 1 <= curr <= Z.of_nat fuel -> curr < 128 ->
  exists y, bitstring_loop fuel x curr = Some y /\ is_u64 y /\
    forall i, 0 <= i < 64 ->
      (Z.testbit y i = true <-> (forall d, 0 <= d < curr -> Z.testbit x (i - d) = true)).
Proof.
  revert x curr. induction fuel as [|fuel IH]; intros x curr Hx Hc H128; [lia|].
  simpl bitstring_loop. destruct (Z.ltb_spec 1 curr).
  - assert (Z.shiftr curr 1 = curr / 2) as -> by by rewrite Z.shiftr_div_pow2.
    assert (0 < curr / 2 /\ 2 * (curr / 2) <= curr) as [Hs1 Hs2].
    { split; [apply Z.div_str_pos; lia|apply Z.mul_div_le; lia]. }
    unfold shift_left64. rewrite (proj2 (Z.leb_le 0 _)), (proj2 (Z.ltb_lt _ 64)) by lia. simpl.
    destruct (IH (x & (x << (curr / 2)))%u64 (curr - curr / 2)) as (y & -> & Hy & Hbits);
      [apply is_u_land; [lia|done|by destruct (is_u64_u64 (Z.shiftl x (curr / 2)))]|lia|lia|].
    exists y. split; [done|]. split; [done|]. intros i Hi. rewrite Hbits by done.
    split; intros Hall d Hd.
    + destruct (Z.lt_ge_cases d (curr - curr / 2)) as [Hlt|Hge].
      * specialize (Hall d ltac:(lia)). rewrite Z.land_spec in Hall. by apply andb_true_iff in Hall as [? _].
      * specialize (Hall (d - curr / 2) ltac:(lia)). rewrite Z.land_spec in Hall.
        apply andb_true_iff in Hall as [H1 Hall].
        destruct (Z.lt_ge_cases (i - (d - curr / 2)) 0); [by rewrite Z.testbit_neg_r in H1|].
        rewrite shl64_testbit in Hall by done. apply andb_true_iff in Hall as [_ Hall].
        by replace (i - d) with (i - (d - curr / 2) - curr / 2) by lia.
    + rewrite Z.land_spec, (Hall d) by lia. simpl.
      destruct (Z.lt_ge_cases (i - d) 0) as [Hneg|Hpos].
      { specialize (Hall d ltac:(lia)). by rewrite Z.testbit_neg_r in Hall. }
      rewrite shl64_testbit by done. apply andb_true_iff. split; [apply Z.ltb_lt; lia|].
      replace (i - d - curr / 2) with (i - (d + curr / 2)) by lia. apply Hall. lia.
  - assert (curr = 1) as -> by lia. exists x. split; [done|]. split; [done|]. intros i Hi. split.
    + intros Hb d Hd. by replace (i - d) with i by lia.
    + intros Hall. rewrite <- (Z.sub_0_r i). apply Hall. lia.
Qed.

Lemma run_at_bound x n i : is_u64 x -> 1 <= n -> run_at x n i -> i + n <= 64.
Proof.
  intros Hx Hn [H0 Hall]. destruct (Z.le_gt_cases (i + n) 64); [done|].
  specialize (Hall (i + n - 1) ltac:(lia)).
  by rewrite (testbit_high 64 x) in Hall by (done || lia).
Qed.

(** The search in full: where no shift reaches 64 it returns, and the result is
    [-1] when the word has no run of [n] set bits, and otherwise the start of
    the first one. *)
Lemma find_bitstring_cases x n :
  is_u64 x -> 1 <= n < 128 ->
  exists r, find_bitstring_longer_than x n = Some r /\
    ((r = -1 /\ forall i, ~ run_at x n i) \/
     (run_at x n r /\ forall i, i < r -> ~ run_at x n i)).
Proof.
  intros Hx Hn. unfold find_bitstring_longer_than.
  destruct (bitstring_loop_testbit (Z.to_nat n) x n Hx) as (y & -> & Hy & Hbits); [lia|lia|].
  simpl. eexists. split; [done|].
  assert (forall i, run_at x n i -> Z.testbit y (i + n - 1) = true) as Hrun.
  { intros i Hi. pose proof (run_at_bound x n i Hx ltac:(lia) Hi). destruct Hi as [H0 Hi].
    apply Hbits; [lia|]. intros d Hd. apply Hi. lia. }
  pose proof (find_first_set_bit_range y Hy) as Hr.
  destruct (find_first_set_bit_spec y) as [[H0 ->]|(H0 & H1 & H2)]; [unfold is_u in Hy; lia| |].
  - left. split; [done|]. intros i Hi. apply Hrun in Hi. by rewrite H0, Z.bits_0 in Hi.
  - right. rewrite (proj2 (Z.ltb_ge _ 0)) by lia. split.
    + pose proof (proj1 (Hbits (find_first_set_bit y) ltac:(lia)) H1) as Hall. split.
      * destruct (Z.lt_ge_cases (find_first_set_bit y - n + 1) 0); [|done].
        specialize (Hall (n - 1) ltac:(lia)). rewrite Z.testbit_neg_r in Hall; [done|lia].
      * intros j Hj. replace j with (find_first_set_bit y - (find_first_set_bit y - j)) by lia.
        apply Hall. lia.
    + intros i Hlt Hi. pose proof (Hrun _ Hi) as Hb.
      assert (0 <= i) by apply Hi. rewrite H2 in Hb; [done|lia].
Qed.

(** From 128 on the first shift is by 64 or more. *)
Lemma find_bitstring_undefined x n : 128 <= n -> find_bitstring_longer_than x n = None.
Proof.
  intros Hn. unfold find_bitstring_longer_than.
  destruct (Z.to_nat n) as [|k] eqn:Hk; [lia|]. simpl.
  rewrite (proj2 (Z.ltb_lt 1 n)) by lia. unfold shift_left64.
  rewrite Z.shiftr_div_pow2 by lia. change (2 ^ 1) with 2.
  rewrite (proj2 (Z.ltb_ge (n / 2) 64)); [by rewrite andb_false_r|].
  apply Z.div_le_lower_bound; lia.
Qed.

(** C37: [find_bitstring_longer_than] finds the first run of at least [n] set
    bits of a 64-bit word: for [1 <= n < 128] every shift it makes is defined,
    and it returns [-1] exactly when the word has no [n] consecutive set bits,
    and otherwise the least index at which such a run starts, which fits in the
    word. From [n = 128] on its first shift is by 64 bits or more, which is
    undefined behaviour. *)
Theorem find_bitstring_longer_than_first x n :
  is_u64 x -> 1 <= n ->
  (n < 128 ->
   exists r, find_bitstring_longer_than x n = Some r /\
     (r = -1 <-> ~ exists i, run_at x n i) /\
     (r <> -1 -> run_at x n r /\ r + n <= 64 /\ forall i, run_at x n i -> r <= i)) /\
  (128 <= n -> find_bitstring_longer_than x n = None).
Proof.
  intros Hx Hn. split; [|apply find_bitstring_undefined]. intros H128.
  destruct (find_bitstring_cases x n Hx) as (r & -> & Hr); [lia|]. exists r. split; [done|].
  destruct Hr as [[-> Hnone]|[Hrun Hmin]].
  - split; [|done]. split; [by intros _ [i Hi]; apply (Hnone i)|done].
  - assert (r <> -1) as Hne by (intros ->; destruct Hrun; lia).
    split; [split; [done|intros Hno; exfalso; eauto]|]. intros _. split; [done|].
    split; [by apply (run_at_bound x)|]. intros i Hi.
    destruct (Z.le_gt_cases r i); [done|]. by destruct (Hmin i).
Qed.

Lemma find_bitstring_longer_than_first_witness :
  (exists r, find_bitstring_longer_than 0xf70 4 = Some r /\ run_at 0xf70 4 r /\ r = 8) /\
  find_bitstring_longer_than (not64 0) 128 = None.
Proof.
  split.
  - destruct (find_bitstring_longer_than_first 0xf70 4) as [Hdef _]; [split; lia|lia|].
    destruct (Hdef ltac:(lia)) as (r & Hr & _ & Hspec). exists r. split; [done|].
    vm_compute in Hr. injection Hr as <-. by split; [apply Hspec|].
  - apply (find_bitstring_longer_than_first (not64 0) 128); [apply is_u64_u64|lia|lia].
Defined.
