(* ===== verification/Bitmap.v ===== *)
(** * Bitmaps (include/bitmap.h)

    [struct bitmap] is a bit count, a word count and a flexible array of 64-bit
    words. An access outside the array is [None]; the theorems show that the
    operations never make one on a well-formed bitmap, and give each operation
    its meaning on the abstract bitmap [bit_at], a predicate on bit indices. *)

From stdpp Require Import base list numbers.
From Stdlib Require Import ZArith Lia.
From S2P Require Import Prelude Macros Bitwise.

Record bitmap := mk_bitmap { num_bits : Z; num_words : Z; data : list Z }.

Definition bitmap_calc_words (nbits : Z) : Z := ALIGN_UP nbits 64 / 64.

Definition sizeof_bitmap : Z := 8.

Definition bitmap_calc_size (nbits : Z) : Z :=
  (sizeof_bitmap + bitmap_calc_words nbits * 8)%u64.

(** [for (i = from; n words; i++) data[i] = v]. *)
Fixpoint fill_words (n : nat) (from v : Z) (d : list Z) : option (list Z) :=
  match n with
  | O => Some d
  | S n' => d' ← zstore d from v; fill_words n' (from + 1) v d'
  end.

Definition bitmap_clear_all (b : bitmap) : option bitmap :=
  d ← fill_words (Z.to_nat (num_words b)) 0 0 (data b);
  Some (mk_bitmap (num_bits b) (num_words b) d).

Definition bitmap_set_all (b : bitmap) : option bitmap :=
  d ← fill_words (Z.to_nat (num_words b)) 0 (not64 0) (data b);
  let final_word_mask := BIT_MASK_BELOW (num_bits b mod 64) in
  if final_word_mask =? 0 then Some (mk_bitmap (num_bits b) (num_words b) d)
  else
    let last := u32 (num_words b - 1) in
    w ← zlookup d last;
    d' ← zstore d last (w & final_word_mask)%u64;
    Some (mk_bitmap (num_bits b) (num_words b) d').

Definition bitmap_init (b : bitmap) (nbits : Z) : option bitmap :=
  bitmap_clear_all (mk_bitmap (u32 nbits) (u32 (bitmap_calc_words nbits)) (data b)).

Definition bitmap_set (b : bitmap) (bit : Z) : option bitmap :=
  let word := bit / 64 in
  let offset := bit mod 64 in
  let mask := BIT_MASK offset in
  w ← zlookup (data b) word;
  d ← zstore (data b) word (w |: mask)%u64;
  Some (mk_bitmap (num_bits b) (num_words b) d).

Definition bitmap_clear (b : bitmap) (bit : Z) : option bitmap :=
  let word := bit / 64 in
  let offset := bit mod 64 in
  let mask := BIT_MASK offset in
  w ← zlookup (data b) word;
  d ← zstore (data b) word (w ^^ mask)%u64;
  Some (mk_bitmap (num_bits b) (num_words b) d).

Definition bitmap_is_set (b : bitmap) (bit : Z) : option bool :=
  let word := bit / 64 in
  let offset := bit mod 64 in
  w ← zlookup (data b) word;
  Some (IS_BIT_SET w offset).

(** The word loops of the searches: the first word at which [f] does not
    answer "nothing here" gives [u32 (i * 64) + index]; [None] inside the result
    is a loop that ran to its end. *)
Fixpoint search_words (f : Z -> option Z) (found : Z -> bool) (n : nat) (i : Z) (d : list Z)
    : option (option Z) :=
  match n with
  | O => Some None
  | S n' =>
      w ← zlookup d i;
      index ← f w;
      if found index then Some (Some (u32 (i * 64) + index))
      else search_words f found n' (i + 1) d
  end.

Definition bitmap_first_set (b : bitmap) : option Z :=
  r ← search_words (fun w => Some (find_first_set_bit w)) (fun index => negb (index =? -1))
        (Z.to_nat (num_words b)) 0 (data b);
  Some (default (-1) r).

Definition bitmap_first_clear (b : bitmap) : option Z :=
  r ← search_words (fun w => Some (find_first_clear_bit w)) (fun index => negb (index =? -1))
        (Z.to_nat (num_words b)) 0 (data b);
  let ret := default (-1) r in
  Some (if num_bits b <=? ret then -1 else ret).

Definition bitmap_zero_string_longer_than (b : bitmap) (n : Z) : option Z :=
  if 64 <? n then Some (-1)
  else
    r ← search_words (fun w => find_bitstring_longer_than (not64 w) n)
          (fun index => 0 <? index) (Z.to_nat (num_words b)) 0 (data b);
    let ret := match r with Some v => i32 v | None => -1 end in
    let nb := i32 (num_bits b) in
    Some (if (nb <=? ret) || (nb <? i32 (ret + n)) then -1 else ret).

(** ** The abstract bitmap *)

(** Bit [i] of the bitmap; bits outside the array are clear. *)
Definition bit_at (b : bitmap) (i : Z) : bool :=
  match zlookup (data b) (i / 64) with
  | Some w => Z.testbit w (i mod 64)
  | None => false
  end.

(** Well-formedness: the word count is the one [bitmap_init] computes, the
    array has that many words, and the bits past [num_bits] are clear. *)
Record bitmap_wf (b : bitmap) : Prop := {
  wf_num_bits : is_u32 (num_bits b);
  wf_num_words : num_words b = (num_bits b + 63) / 64;
  wf_length : zlength (data b) = num_words b;
  wf_words : Forall is_u64 (data b);
  wf_tail : forall i, num_bits b <= i -> bit_at b i = false;
}.

(** The number of set bits. *)
Definition count_bits (b : bitmap) : Z := count_true (bit_at b) (seqZ 0 (num_bits b)).

(** [n] clear bits in range starting at [i]. *)
Definition zero_run (b : bitmap) (n i : Z) : Prop :=
  0 <= i /\ i + n <= num_bits b /\ forall j, i <= j < i + n -> bit_at b j = false.

(** What a single-bit write [b'] of [b] is, when bit [i] becomes [g i]. *)
Definition bit_write (b b' : bitmap) (g : Z -> bool) : Prop :=
  bitmap_wf b' /\ num_bits b' = num_bits b /\ num_words b' = num_words b /\
  forall i, bit_at b' i = g i.

(** A 70-bit bitmap with bits 3 and 65 set, for the witnesses. *)
Definition sample_bitmap : bitmap := mk_bitmap 70 2 [8; 2].

(** ** Reading and writing single bits *)

Lemma div_mod_64_inj i j : i / 64 = j / 64 -> i mod 64 = j mod 64 -> i = j.
Proof. intros H1 H2. rewrite (Z.div_mod i 64), (Z.div_mod j 64) by done. by rewrite H1, H2. Qed.

Lemma bit_at_neg b i : i < 0 -> bit_at b i = false.
Proof.
  intros Hi. unfold bit_at. rewrite zlookup_None; [done|].
  assert (i / 64 < 0) by (apply Z.div_lt_upper_bound; lia). lia.
Qed.

(** Replacing the word of bit [bit] changes the bits of that word only. *)
Lemma bit_at_store b bit w' nb nw i :
  0 <= bit / 64 < zlength (data b) ->
  bit_at (mk_bitmap nb nw (zinsert (bit / 64) w' (data b))) i =
  if decide (i / 64 = bit / 64) then Z.testbit w' (i mod 64) else bit_at b i.
Proof.
  intros Hb. unfold bit_at. simpl. case_decide as Hw.
  - rewrite Hw. by rewrite zlookup_zinsert_eq.
  - by rewrite zlookup_zinsert_ne by congruence.
Qed.

Lemma bitmap_word b bit :
  bitmap_wf b -> 0 <= bit < num_bits b ->
  0 <= bit / 64 < zlength (data b) /\
  exists w, zlookup (data b) (bit / 64) = Some w /\ is_u64 w.
Proof.
  intros Hwf Hbit. assert (0 <= bit / 64 < zlength (data b)) as Hr.
  { rewrite (wf_length b Hwf), (wf_num_words b Hwf). split; [apply Z.div_pos; lia|].
    apply Z.lt_le_trans with (bit / 64 + 1); [lia|].
    replace (bit / 64 + 1) with ((bit + 1 * 64) / 64) by (rewrite Z.div_add by lia; lia).
    apply Z.div_le_mono; lia. }
  split; [done|]. apply zlookup_is_Some in Hr as [w Hw]. exists w. split; [done|].
  eapply Forall_zlookup; [apply (wf_words b Hwf)|done].
Qed.

Lemma mask_testbit k i : 0 <= k < 64 -> Z.testbit (BIT_MASK k) i = (k =? i).
Proof. intros Hk. by rewrite BIT_MASK_pow, Z.pow2_bits_eqb by lia. Qed.

Lemma is_u64_BIT_MASK k : is_u64 (BIT_MASK k).
Proof. apply is_u64_u64. Qed.

(** A word update whose bits are [f old (is this the bit?)] acts on the abstract
    bitmap by [f]. *)
Lemma bit_update_at b bit w op f i :
  0 <= bit / 64 < zlength (data b) -> zlookup (data b) (bit / 64) = Some w ->
  (forall k, Z.testbit op k = f (Z.testbit w k) (bit mod 64 =? k)) ->
  (forall x, f x false = x) ->
  bit_at (mk_bitmap (num_bits b) (num_words b) (zinsert (bit / 64) op (data b))) i =
  f (bit_at b i) (bit =? i).
Proof.
  intros Hr Hw Hop Hf. rewrite bit_at_store by done. case_decide as Hd.
  - rewrite Hop. unfold bit_at. rewrite Hd, Hw. f_equal.
    apply Bool.eq_iff_eq_true. rewrite !Z.eqb_eq. split; [|by intros ->].
    intros Hm. symmetry in Hm. symmetry. by apply div_mod_64_inj.
  - rewrite (proj2 (Z.eqb_neq bit i)); [by rewrite Hf|]. by intros ->.
Qed.

Lemma bit_write_intro b bit w op f :
  bitmap_wf b -> 0 <= bit < num_bits b -> zlookup (data b) (bit / 64) = Some w ->
  (forall k, Z.testbit op k = f (Z.testbit w k) (bit mod 64 =? k)) ->
  (forall x, f x false = x) -> is_u64 op ->
  bit_write b (mk_bitmap (num_bits b) (num_words b) (zinsert (bit / 64) op (data b)))
    (fun i => f (bit_at b i) (bit =? i)).
Proof.
  intros Hwf Hbit Hw Hop Hf Hu. destruct (bitmap_word b bit Hwf Hbit) as [Hr _].
  assert (forall i, bit_at (mk_bitmap (num_bits b) (num_words b)
            (zinsert (bit / 64) op (data b))) i = f (bit_at b i) (bit =? i)) as Hat.
  { intros i. by eapply bit_update_at. }
  split; [|by repeat split]. destruct Hwf. split; simpl; try done.
  - by rewrite zlength_zinsert.
  - by apply Forall_zinsert.
  - intros i Hi. rewrite Hat. rewrite (proj2 (Z.eqb_neq bit i)) by lia. rewrite Hf. auto.
Qed.

Lemma bitmap_set_spec b bit :
  bitmap_wf b -> 0 <= bit < num_bits b ->
  exists b', bitmap_set b bit = Some b' /\ bit_write b b' (fun i => bit_at b i || (bit =? i)).
Proof.
  intros Hwf Hbit. destruct (bitmap_word b bit Hwf Hbit) as [Hr (w & Hw & Hu)].
  unfold bitmap_set. rewrite Hw. simpl. rewrite zstore_Some by done. simpl.
  eexists. split; [done|]. eapply (bit_write_intro b bit w _ orb); try done.
  - intros k. rewrite Z.lor_spec, mask_testbit; [done|]. apply Z.mod_pos_bound. lia.
  - intros []; done.
  - apply is_u_lor; [lia|done|apply is_u64_BIT_MASK].
Qed.

Lemma bitmap_clear_spec b bit :
  bitmap_wf b -> 0 <= bit < num_bits b ->
  exists b', bitmap_clear b bit = Some b' /\ bit_write b b' (fun i => xorb (bit_at b i) (bit =? i)).
Proof.
  intros Hwf Hbit. destruct (bitmap_word b bit Hwf Hbit) as [Hr (w & Hw & Hu)].
  unfold bitmap_clear. rewrite Hw. simpl. rewrite zstore_Some by done. simpl.
  eexists. split; [done|]. eapply (bit_write_intro b bit w _ xorb); try done.
  - intros k. rewrite Z.lxor_spec, mask_testbit; [done|]. apply Z.mod_pos_bound. lia.
  - intros []; done.
  - apply is_u_lxor; [lia|done|apply is_u64_BIT_MASK].
Qed.

Lemma bitmap_is_set_spec b bit :
  bitmap_wf b -> 0 <= bit < num_bits b -> bitmap_is_set b bit = Some (bit_at b bit).
Proof.
  intros Hwf Hbit. destruct (bitmap_word b bit Hwf Hbit) as [Hr (w & Hw & Hu)].
  unfold bitmap_is_set, bit_at. rewrite Hw. simpl. f_equal. apply IS_BIT_SET_testbit.
  apply Z.mod_pos_bound. lia.
Qed.

(** Setting a clear bit adds one to the count; clearing a set one removes one. *)
Lemma count_bits_set b b' bit :
  0 <= bit < num_bits b -> bit_at b bit = false ->
  bit_write b b' (fun i => bit_at b i || (bit =? i)) -> count_bits b' = count_bits b + 1.
Proof.
  intros Hbit Hclear (_ & Hn & _ & Hat). unfold count_bits. rewrite Hn.
  apply count_true_flip with bit; [apply NoDup_seqZ|apply elem_of_seqZ; lia|done| |].
  - by rewrite Hat, Z.eqb_refl, orb_true_r.
  - intros y Hy. rewrite Hat, (proj2 (Z.eqb_neq bit y)) by congruence. by rewrite orb_false_r.
Qed.

Lemma count_bits_clear b b' bit :
  0 <= bit < num_bits b -> bit_at b bit = true ->
  bit_write b b' (fun i => xorb (bit_at b i) (bit =? i)) -> count_bits b' = count_bits b - 1.
Proof.
  intros Hbit Hset (_ & Hn & _ & Hat). unfold count_bits. rewrite Hn.
  enough (count_true (bit_at b) (seqZ 0 (num_bits b)) =
          count_true (bit_at b') (seqZ 0 (num_bits b)) + 1) by lia.
  apply count_true_flip with bit; [apply NoDup_seqZ|apply elem_of_seqZ; lia| |done|].
  - by rewrite Hat, Z.eqb_refl, Hset.
  - intros y Hy. rewrite Hat, (proj2 (Z.eqb_neq bit y)) by congruence. by rewrite xorb_false_r.
Qed.

(** ** Whole-bitmap writes *)

Lemma fill_words_spec n from v d :
  0 <= from -> from + Z.of_nat n <= zlength d ->
  exists d', fill_words n from v d = Some d' /\ zlength d' = zlength d /\
    (forall i, zlookup d' i =
       if decide (from <= i < from + Z.of_nat n) then Some v else zlookup d i) /\
    (forall P : Z -> Prop, P v -> Forall P d -> Forall P d').
Proof.
  revert from d. induction n as [|n IH]; intros from d Hf Hl.
  - exists d. repeat split; try done. intros i. by rewrite decide_False by lia.
  - simpl fill_words. rewrite zstore_Some by lia. simpl.
    destruct (IH (from + 1) (zinsert from v d)) as (d' & -> & Hlen & Hlk & HP);
      [lia|by rewrite zlength_zinsert; lia|].
    exists d'. split; [done|]. split; [by rewrite Hlen, zlength_zinsert|]. split.
    + intros i. rewrite Hlk. destruct (decide (i = from)) as [->|Hne].
      * rewrite decide_False by lia. rewrite decide_True by lia. apply zlookup_zinsert_eq. lia.
      * rewrite zlookup_zinsert_ne by congruence. repeat case_decide; try done; lia.
    + intros P Hv HF. apply HP; [done|]. by apply Forall_zinsert.
Qed.

Lemma bitmap_calc_words_spec n :
  0 <= n < 2 ^ 64 - 64 -> bitmap_calc_words n = (n + 63) / 64.
Proof.
  intros Hn. unfold bitmap_calc_words. change 64 with (2 ^ 6) at 1.
  rewrite (ALIGN_UP_pow n 6); [|lia|unfold is_u; lia|lia].
  rewrite Z.div_mul by lia. change (2 ^ 6) with 64. f_equal. lia.
Qed.

(** A freshly initialised bitmap over a buffer of exactly the computed size is
    well formed and has no bit set. *)
Lemma bitmap_init_spec b nbits :
  is_u32 nbits -> zlength (data b) = bitmap_calc_words nbits ->
  exists b', bitmap_init b nbits = Some b' /\ bitmap_wf b' /\ num_bits b' = nbits /\
    forall i, bit_at b' i = false.
Proof.
  intros Hn Hl. unfold bitmap_init, bitmap_clear_all. simpl.
  assert (bitmap_calc_words nbits = (nbits + 63) / 64) as Hc.
  { apply bitmap_calc_words_spec. unfold is_u in Hn. lia. }
  assert (0 <= (nbits + 63) / 64 < 2 ^ 32) as Hcr.
  { unfold is_u in Hn. split; [apply Z.div_pos; lia|apply Z.div_lt_upper_bound; lia]. }
  unfold u32. rewrite Hc, !wrap_small by done.
  destruct (fill_words_spec (Z.to_nat ((nbits + 63) / 64)) 0 0 (data b)) as
    (d' & -> & Hlen & Hlk & HP); [lia|lia|]. simpl.
  assert (forall i, bit_at (mk_bitmap nbits ((nbits + 63) / 64) d') i = false) as Hbits.
  { intros i. unfold bit_at. simpl. rewrite Hlk. case_decide; [by rewrite Z.bits_0|].
    by rewrite zlookup_None by lia. }
  eexists. split; [done|]. split; [|done]. split; simpl; try done; [lia|].
  apply Forall_lookup. intros i w Hw.
  assert (0 <= Z.of_nat i < zlength d') by (apply zlookup_is_Some; rewrite zlookup_lookup; eauto).
  rewrite <- zlookup_lookup, Hlk, decide_True in Hw by lia. injection Hw as <-. split; lia.
Qed.

(** ** Searches *)

(** What a word loop returns: the first word at which [found (f w)] holds, or
    [None] when no word in range has it. *)
Lemma search_words_spec g f found n i d :
  (forall w, g w = Some (f w)) ->
  0 <= i -> i + Z.of_nat n <= zlength d ->
  (search_words g found n i d = Some None /\
   forall k w, i <= k < i + Z.of_nat n -> zlookup d k = Some w -> found (f w) = false) \/
  (exists k w, i <= k < i + Z.of_nat n /\ zlookup d k = Some w /\ found (f w) = true /\
   search_words g found n i d = Some (Some (u32 (k * 64) + f w)) /\
   forall k' w', i <= k' < k -> zlookup d k' = Some w' -> found (f w') = false).
Proof.
  intros Hg. revert i. induction n as [|n IH]; intros i Hi Hl; [left; split; [done|lia]|].
  simpl search_words. destruct (proj2 (zlookup_is_Some d i)) as [w Hw]; [lia|].
  rewrite Hw. simpl. rewrite Hg. simpl. destruct (found (f w)) eqn:Hf.
  - right. exists i, w. repeat split; try done; lia.
  - destruct (IH (i + 1)) as [[Hs Hall]|(k & w' & Hk & Hw' & Hf' & Hs & Hall)]; [lia|lia| |].
    + left. split; [done|]. intros k w' Hk Hw'.
      destruct (decide (k = i)) as [->|]; [congruence|]. eapply Hall; [|done]. lia.
    + right. exists k, w'. repeat split; try done; try lia. intros k' w'' Hk' Hw''.
      destruct (decide (k' = i)) as [->|]; [congruence|]. eapply Hall; [|done]. lia.
Qed.

(** Bit [c] of word [k]. *)
Lemma bit_at_word b k w c :
  zlookup (data b) k = Some w -> 0 <= c < 64 -> bit_at b (k * 64 + c) = Z.testbit w c.
Proof.
  intros Hw Hc. unfold bit_at.
  rewrite (Z.add_comm (k * 64)), Z.div_add, Z.mod_add, Z.div_small, Z.mod_small by lia.
  by rewrite Z.add_0_l, Hw.
Qed.

(** The bits of the words below word [k] are the bits below [64 k]. *)
Lemma below_word b k (Q : bool -> Prop) :
  0 <= k <= zlength (data b) ->
  (forall k' w, 0 <= k' < k -> zlookup (data b) k' = Some w ->
     forall c, 0 <= c < 64 -> Q (Z.testbit w c)) ->
  forall i, 0 <= i < k * 64 -> Q (bit_at b i).
Proof.
  intros Hk Hall i Hi. pose proof (Z.mod_pos_bound i 64 ltac:(lia)) as Hm.
  assert (i = i / 64 * 64 + i mod 64) as Hd by (rewrite (Z.div_mod i 64) at 1; lia).
  assert (0 <= i / 64 < k) as Hq.
  { split; [apply Z.div_pos; lia|apply Z.div_lt_upper_bound; lia]. }
  destruct (proj2 (zlookup_is_Some (data b) (i / 64))) as [w Hw]; [lia|].
  rewrite Hd, (bit_at_word b (i / 64) w) by done. by eapply Hall.
Qed.

(** The word index of a well-formed bitmap does not overflow [uint32_t]. *)
Lemma word_index_u32 b k : bitmap_wf b -> 0 <= k < num_words b -> u32 (k * 64) = k * 64.
Proof.
  intros Hwf Hk. apply wrap_small. pose proof (wf_num_bits b Hwf) as Hn.
  rewrite (wf_num_words b Hwf) in Hk. unfold is_u in *.
  pose proof (Z.mul_div_le (num_bits b + 63) 64 ltac:(lia)). lia.
Qed.

Lemma bitmap_first_clear_cases b :
  bitmap_wf b ->
  exists r, bitmap_first_clear b = Some r /\
    ((r = -1 /\ forall i, 0 <= i < num_bits b -> bit_at b i = true) \/
     (0 <= r < num_bits b /\ bit_at b r = false /\ forall i, 0 <= i < r -> bit_at b i = true)).
Proof.
  intros Hwf. unfold bitmap_first_clear. pose proof (wf_length b Hwf) as Hlen.
  pose proof (zlength_nonneg (data b)) as Hnn.
  assert (num_bits b <= num_words b * 64) as Hcov.
  { rewrite (wf_num_words b Hwf). pose proof (Z.div_mod (num_bits b + 63) 64 ltac:(lia)).
    pose proof (Z.mod_pos_bound (num_bits b + 63) 64 ltac:(lia)). lia. }
  assert (forall w, negb (find_first_clear_bit w =? -1) = false ->
            forall c, 0 <= c < 64 -> Z.testbit w c = true) as Hfull.
  { intros w Hw. bool_to_prop. by destruct (find_first_clear_bit_spec w) as [[_ ?]|[? _]]; [|lia]. }
  destruct (search_words_spec (fun w => Some (find_first_clear_bit w)) find_first_clear_bit (fun index => negb (index =? -1))
              (Z.to_nat (num_words b)) 0 (data b)) as [[-> Hall]|(k & w & Hk & Hw & Hf & -> & Hall)];
    [done|lia|lia| |]; simpl.
  - pose proof (wf_num_bits b Hwf) as Hn. unfold is_u in Hn.
    rewrite (proj2 (Z.leb_gt _ _)) by lia. eexists; split; [done|]. left. split; [done|].
    intros i Hi. apply (below_word b (num_words b) (fun x => x = true)); [lia| |lia].
    intros k' w Hk' Hw. apply Hfull. eapply Hall; [|done]. lia.
  - rewrite (word_index_u32 b k) by (done || lia). bool_to_prop.
    destruct (find_first_clear_bit_spec w) as [[? _]|(Hr & Hc & Hlow)]; [done|].
    set (c := find_first_clear_bit w) in *.
    assert (forall i, 0 <= i < k * 64 + c -> bit_at b i = true) as Hbelow.
    { intros i Hi. destruct (Z.lt_ge_cases i (k * 64)).
      - apply (below_word b k (fun x => x = true)); [lia| |lia].
        intros k' w' Hk' Hw'. apply Hfull. eapply Hall; [|done]. lia.
      - replace i with (k * 64 + (i - k * 64)) by lia. rewrite (bit_at_word b k w) by (done || lia).
        apply Hlow. lia. }
    destruct (Z.leb_spec (num_bits b) (k * 64 + c)); (eexists; split; [done|]).
    + left. split; [done|]. intros i Hi. apply Hbelow. lia.
    + right. split; [lia|]. split; [|done]. by rewrite (bit_at_word b k w).
Qed.

Lemma bitmap_first_set_cases b :
  bitmap_wf b ->
  exists r, bitmap_first_set b = Some r /\
    ((r = -1 /\ forall i, bit_at b i = false) \/
     (0 <= r < num_bits b /\ bit_at b r = true /\ forall i, 0 <= i < r -> bit_at b i = false)).
Proof.
  intros Hwf. unfold bitmap_first_set. pose proof (wf_length b Hwf) as Hlen.
  pose proof (zlength_nonneg (data b)) as Hnn.
  assert (forall k w, zlookup (data b) k = Some w -> 0 <= w) as Hpos.
  { intros k w Hw. by destruct (Forall_zlookup _ _ _ _ (wf_words b Hwf) Hw). }
  assert (forall k w, zlookup (data b) k = Some w -> negb (find_first_set_bit w =? -1) = false ->
            forall c, 0 <= c < 64 -> Z.testbit w c = false) as Hempty.
  { intros k w Hk Hw c Hc. bool_to_prop.
    destruct (find_first_set_bit_spec w) as [[-> _]|[? _]]; [by eapply Hpos|apply Z.bits_0|lia]. }
  destruct (search_words_spec (fun w => Some (find_first_set_bit w)) find_first_set_bit (fun index => negb (index =? -1))
              (Z.to_nat (num_words b)) 0 (data b)) as [[-> Hall]|(k & w & Hk & Hw & Hf & -> & Hall)];
    [done|lia|lia| |]; simpl; (eexists; split; [done|]).
  - left. split; [done|]. intros i. destruct (Z.lt_ge_cases i (num_words b * 64)) as [Hlt|Hge].
    + destruct (Z.lt_ge_cases i 0); [by apply bit_at_neg|].
      apply (below_word b (num_words b) (fun x => x = false)); [lia| |lia].
      intros k' w Hk' Hw. eapply Hempty; [done|]. eapply Hall; [|done]. lia.
    + unfold bit_at. rewrite zlookup_None; [done|].
      assert (num_words b <= i / 64) by (apply Z.div_le_lower_bound; lia). lia.
  - rewrite (word_index_u32 b k) by (done || lia). bool_to_prop.
    pose proof (Forall_zlookup _ _ _ _ (wf_words b Hwf) Hw) as Hu.
    pose proof (find_first_set_bit_range w Hu) as Hr.
    destruct (find_first_set_bit_spec w) as [[_ ?]|(H0 & Hc & Hlow)]; [by eapply Hpos|done|].
    set (c := find_first_set_bit w) in *. right.
    assert (bit_at b (k * 64 + c) = true) as Hset.
    { by rewrite (bit_at_word b k w) by (done || lia). }
    split; [|split; [done|]].
    + split; [lia|]. destruct (Z.lt_ge_cases (k * 64 + c) (num_bits b)); [done|].
      by rewrite (wf_tail b Hwf) in Hset.
    + intros i Hi. destruct (Z.lt_ge_cases i (k * 64)).
      * apply (below_word b k (fun x => x = false)); [lia| |lia].
        intros k' w' Hk' Hw'. eapply Hempty; [done|]. eapply Hall; [|done]. lia.
      * replace i with (k * 64 + (i - k * 64)) by lia. rewrite (bit_at_word b k w) by (done || lia).
        apply Hlow. lia.
Qed.

(** A run of set bits of the complemented word is a run of clear bits of the
    word. *)
Lemma run_at_not64 w n c :
  is_u64 w -> 1 <= n ->
  run_at (not64 w) n c <->
  0 <= c /\ c + n <= 64 /\ forall j, c <= j < c + n -> Z.testbit w j = false.
Proof.
  intros Hw Hn. split.
  - intros Hrun. pose proof (run_at_bound _ _ _ (is_u64_u64 _) Hn Hrun). destruct Hrun as [H0 Hall].
    split; [done|]. split; [done|]. intros j Hj. specialize (Hall j Hj).
    rewrite not64_testbit in Hall by lia. apply andb_true_iff in Hall as [_ Hall].
    by apply negb_true_iff in Hall.
  - intros (H0 & H1 & Hall). split; [done|]. intros j Hj. rewrite not64_testbit, Hall by lia.
    by rewrite (proj2 (Z.ltb_lt j 64)) by lia.
Qed.

(** The answer of the in-word search on the complement of [w], for a run length
    at which it is defined. *)
Definition first_run (n w : Z) : Z := default (-1) (find_bitstring_longer_than (not64 w) n).

Lemma first_run_Some n w :
  1 <= n < 128 -> find_bitstring_longer_than (not64 w) n = Some (first_run n w).
Proof.
  intros Hn. unfold first_run.
  by destruct (find_bitstring_cases (not64 w) n (is_u64_u64 _) Hn) as (r & -> & _).
Qed.

Lemma first_run_cases n w :
  1 <= n < 128 ->
  (first_run n w = -1 /\ forall i, ~ run_at (not64 w) n i) \/
  (run_at (not64 w) n (first_run n w) /\ forall i, i < first_run n w -> ~ run_at (not64 w) n i).
Proof.
  intros Hn. destruct (find_bitstring_cases (not64 w) n (is_u64_u64 _) Hn) as (r & Hr & Hc).
  unfold first_run. by rewrite Hr.
Qed.

(** What [bitmap_zero_string_longer_than] returns: the first word at which the
    in-word search answers a positive index decides. *)
Lemma zero_string_cases b n :
  bitmap_wf b -> num_bits b <= 2 ^ 31 - 64 -> 1 <= n <= 64 ->
  exists r, bitmap_zero_string_longer_than b n = Some r /\
    ((r = -1 /\ forall k w, 0 <= k < num_words b -> zlookup (data b) k = Some w ->
        first_run n w <= 0) \/
     (exists k w, 0 <= k < num_words b /\ zlookup (data b) k = Some w /\
        let c := first_run n w in
        0 < c /\ r = (if decide (k * 64 + c + n <= num_bits b) then k * 64 + c else -1) /\
        forall k' w', 0 <= k' < k -> zlookup (data b) k' = Some w' ->
          first_run n w' <= 0)).
Proof.
  intros Hwf Hnb Hn. unfold bitmap_zero_string_longer_than.
  rewrite (proj2 (Z.ltb_ge 64 n)) by lia. pose proof (wf_length b Hwf) as Hlen.
  pose proof (zlength_nonneg (data b)) as Hnn. pose proof (wf_num_bits b Hwf) as Hb. unfold is_u in Hb.
  destruct (search_words_spec (fun w => find_bitstring_longer_than (not64 w) n) (first_run n)
              (fun index => 0 <? index) (Z.to_nat (num_words b)) 0 (data b))
    as [[-> Hall]|(k & w & Hk & Hw & Hf & -> & Hall)];
    [intros w; by apply first_run_Some; lia|lia|lia| |]; simpl;
    rewrite (i32_small (num_bits b)) by lia; (eexists; split; [done|]).
  - left. split; [by destruct (_ || _)|]. intros k w Hk Hw. apply Z.ltb_ge.
    eapply (Hall k w); [lia|done].
  - right. exists k, w. split; [lia|]. split; [done|]. bool_to_prop. split; [done|].
    rewrite (word_index_u32 b k) by (done || lia).
    assert (k * 64 < num_bits b) as Hkb.
    { rewrite (wf_num_words b Hwf) in Hk. pose proof (Z.mul_div_le (num_bits b + 63) 64 ltac:(lia)). lia. }
    destruct (first_run_cases n w) as [[Hm _]|[Hrun _]]; [lia|lia|].
    pose proof (run_at_bound (not64 w) n _ (is_u64_u64 _) ltac:(lia) Hrun) as Hbd.
    set (c := first_run n w) in *.
    rewrite (i32_small (k * 64 + c)), (i32_small (k * 64 + c + n)) by lia. split.
    + case_decide.
      * rewrite (proj2 (Z.leb_gt _ _)), (proj2 (Z.ltb_ge _ _)) by lia. done.
      * rewrite (proj2 (Z.ltb_lt _ _)) by lia. by rewrite orb_true_r.
    + intros k' w' Hk' Hw'. apply Z.ltb_ge. eapply (Hall k' w'); [lia|done].
Qed.

(** A zero run inside one word is a run of set bits of its complement. *)
Lemma zero_run_in_word b n i w :
  bitmap_wf b -> 1 <= n -> zero_run b n i -> i mod 64 + n <= 64 ->
  zlookup (data b) (i / 64) = Some w -> run_at (not64 w) n (i mod 64).
Proof.
  intros Hwf Hn (H0 & H1 & Hall) Hm Hw.
  pose proof (Z.mod_pos_bound i 64 ltac:(lia)). pose proof (Z.div_mod i 64 ltac:(lia)).
  apply run_at_not64; [by eapply Forall_zlookup, Hw; apply (wf_words b Hwf)|lia|].
  split; [lia|]. split; [lia|]. intros j Hj.
  rewrite <- (bit_at_word b (i / 64) w) by (done || lia). apply Hall. lia.
Qed.

(** A word passed over although it has a zero run starts with one. *)
Lemma missed_word b n k w i :
  bitmap_wf b -> 1 <= n -> zlookup (data b) k = Some w ->
  first_run n w <= 0 ->
  zero_run b n i -> i mod 64 + n <= 64 -> k = i / 64 ->
  forall c, 0 <= c < n -> bit_at b (k * 64 + c) = false.
Proof.
  intros Hwf Hn Hw Hle Hz Hm -> c Hc.
  pose proof (zero_run_in_word b n i w Hwf Hn Hz Hm Hw) as Hrun.
  pose proof (Z.mod_pos_bound i 64 ltac:(lia)).
  destruct (first_run_cases n w) as [[_ Hno]|[Hfst _]];
    [lia|by destruct (Hno _ Hrun)|].
  assert (first_run n w = 0) as H0 by (destruct Hfst; lia).
  rewrite H0 in Hfst. apply run_at_not64 in Hfst as (_ & Hbd & Hfst);
    [|by eapply Forall_zlookup, Hw; apply (wf_words b Hwf)|lia].
  rewrite (bit_at_word b (i / 64) w) by (done || lia). apply Hfst. lia.
Qed.

Lemma zero_run_word b n i :
  bitmap_wf b -> 1 <= n -> zero_run b n i ->
  0 <= i / 64 < num_words b /\ exists w, zlookup (data b) (i / 64) = Some w.
Proof.
  intros Hwf Hn (H0 & H1 & _). destruct (bitmap_word b i Hwf ltac:(lia)) as [Hr (w & Hw & _)].
  rewrite (wf_length b Hwf) in Hr. eauto.
Qed.

(** A reported run is one. *)
Lemma zero_string_run b n r :
  bitmap_wf b -> num_bits b <= 2 ^ 31 - 64 -> 1 <= n <= 64 ->
  bitmap_zero_string_longer_than b n = Some r -> r <> -1 -> zero_run b n r.
Proof.
  intros Hwf Hnb Hn Hr Hne.
  destruct (zero_string_cases b n Hwf Hnb Hn) as (r' & Hr' & [[-> _]|(k & w & Hk & Hw & Hc & -> & Hall)]);
    rewrite Hr in Hr'; injection Hr' as ->; [done|].
  destruct (first_run_cases n w) as [[Hm1 _]|[Hfst Hmin]]; [lia|lia|].
  set (c := first_run n w) in *.
  pose proof (run_at_bound (not64 w) n _ (is_u64_u64 _) ltac:(lia) Hfst) as Hbd.
  case_decide as Hin; [|done]. apply run_at_not64 in Hfst as (_ & _ & Hfst);
    [|by eapply Forall_zlookup, Hw; apply (wf_words b Hwf)|lia].
  split; [lia|]. split; [done|]. intros j Hj. replace j with (k * 64 + (j - k * 64)) by lia.
  rewrite (bit_at_word b k w) by (done || lia). apply Hfst. lia.
Qed.

(** A reported run lies in one word, and is the first run of that word. *)
Lemma zero_string_first b n r :
  bitmap_wf b -> num_bits b <= 2 ^ 31 - 64 -> 1 <= n <= 64 ->
  bitmap_zero_string_longer_than b n = Some r -> r <> -1 ->
  r mod 64 + n <= 64 /\ forall i, zero_run b n i -> i / 64 = r / 64 -> i mod 64 + n <= 64 -> r <= i.
Proof.
  intros Hwf Hnb Hn Hr Hne.
  destruct (zero_string_cases b n Hwf Hnb Hn) as (r' & Hr' & [[-> _]|(k & w & Hk & Hw & Hc & -> & Hall)]);
    rewrite Hr in Hr'; injection Hr' as ->; [done|].
  destruct (first_run_cases n w) as [[Hm1 _]|[Hfst Hmin]]; [lia|lia|].
  set (c := first_run n w) in *. pose proof (run_at_bound (not64 w) n _ (is_u64_u64 _) ltac:(lia) Hfst) as Hbd.
  case_decide as Hin; [|done]. clear Hne Hr.
  assert ((k * 64 + c) / 64 = k) as Hd by (symmetry; apply Z.div_unique with c; lia).
  assert ((k * 64 + c) mod 64 = c) as Hm by (symmetry; apply Z.mod_unique with k; lia).
  rewrite Hd, Hm. split; [lia|]. intros i Hz Hi Him. subst k.
  pose proof (zero_run_in_word b n i w Hwf ltac:(lia) Hz Him Hw) as Hrun. pose proof (Z.div_mod i 64 ltac:(lia)).
  destruct (Z.le_gt_cases c (i mod 64)); [lia|]. by destruct (Hmin (i mod 64)).
Qed.

(** The search finds a run when a whole word has one that does not start it,
    and its first bit is set. *)
Lemma zero_string_found b n k c :
  bitmap_wf b -> num_bits b <= 2 ^ 31 - 64 -> 1 <= n <= 64 -> 0 <= k -> 64 * k + 64 <= num_bits b ->
  bit_at b (64 * k) = true -> 1 <= c -> c + n <= 64 -> zero_run b n (64 * k + c) ->
  bitmap_zero_string_longer_than b n <> Some (-1).
Proof.
  intros Hwf Hnb Hn Hk Hend Hset Hc Hcn Hz.
  assert ((64 * k + c) / 64 = k) as Hd by (symmetry; apply Z.div_unique with c; lia).
  assert ((64 * k + c) mod 64 = c) as Hm by (symmetry; apply Z.mod_unique with k; lia).
  destruct (zero_run_word b n _ Hwf ltac:(lia) Hz) as [Hkr [w Hw]]. rewrite Hd in Hkr, Hw.
  destruct (zero_string_cases b n Hwf Hnb Hn) as (r & -> & [[-> Hall]|(k' & w' & Hk' & Hw' & Hc' & -> & Hall)]).
  - exfalso. pose proof (missed_word b n k w (64 * k + c) Hwf ltac:(lia) Hw (Hall _ _ Hkr Hw) Hz ltac:(lia) (eq_sym Hd) 0 ltac:(lia)) as H0.
    replace (k * 64 + 0) with (64 * k) in H0 by lia. congruence.
  - destruct (first_run_cases n w') as [[Hm1 _]|[Hfst _]]; [lia|lia|].
    pose proof (run_at_bound (not64 w') n _ (is_u64_u64 _) ltac:(lia) Hfst) as Hbd.
    destruct (Z.le_gt_cases k' k) as [Hle|Hgt].
    + rewrite decide_True by lia. intros [= E]. lia.
    + exfalso. pose proof (missed_word b n k w (64 * k + c) Hwf ltac:(lia) Hw (Hall k w ltac:(lia) Hw) Hz ltac:(lia) (eq_sym Hd) 0 ltac:(lia)) as H0.
      replace (k * 64 + 0) with (64 * k) in H0 by lia. congruence.
Qed.

(** ** Properties *)

(** C32: [bitmap_init] over an array of the computed size gives a well-formed
    bitmap of that many bits, all clear, whatever the array held; and every
    single-bit operation on a well-formed bitmap stays in bounds and keeps it
    well formed. [bitmap_is_set] reads the bit; [bitmap_set] sets it and no
    other; [bitmap_clear] flips it and changes no other: a set bit is cleared,
    a clear bit becomes set. *)
Theorem bitmap_bit_ops_correct :
  (forall b nbits, is_u32 nbits -> zlength (data b) = bitmap_calc_words nbits ->
     exists b', bitmap_init b nbits = Some b' /\ bitmap_wf b' /\ num_bits b' = nbits /\
       forall i, bit_at b' i = false) /\
  (forall b bit, bitmap_wf b -> 0 <= bit < num_bits b ->
     bitmap_is_set b bit = Some (bit_at b bit) /\
     (exists b', bitmap_set b bit = Some b' /\ bitmap_wf b' /\ num_bits b' = num_bits b /\
        forall i, bit_at b' i = if decide (i = bit) then true else bit_at b i) /\
     (exists b', bitmap_clear b bit = Some b' /\ bitmap_wf b' /\ num_bits b' = num_bits b /\
        forall i, bit_at b' i = if decide (i = bit) then negb (bit_at b bit) else bit_at b i)).
Proof.
  split; [exact bitmap_init_spec|].
  intros b bit Hwf Hbit. split; [by apply bitmap_is_set_spec|]. split.
  - destruct (bitmap_set_spec b bit Hwf Hbit) as (b' & Hs & Hwf' & Hn & _ & Hat).
    exists b'. repeat split; try apply Hwf'; try done. intros i. rewrite Hat. case_decide as Hd.
    + subst. by rewrite Z.eqb_refl, orb_true_r.
    + rewrite (proj2 (Z.eqb_neq bit i)) by congruence. by rewrite orb_false_r.
  - destruct (bitmap_clear_spec b bit Hwf Hbit) as (b' & Hs & Hwf' & Hn & _ & Hat).
    exists b'. repeat split; try apply Hwf'; try done. intros i. rewrite Hat. case_decide as Hd.
    + subst. by rewrite Z.eqb_refl, xorb_true_r.
    + rewrite (proj2 (Z.eqb_neq bit i)) by congruence. by rewrite xorb_false_r.
Qed.

Lemma sample_bitmap_wf : bitmap_wf sample_bitmap.
Proof.
  split; simpl; try done.
  - by repeat constructor.
  - intros i Hi. unfold bit_at. simpl. destruct (Z.lt_ge_cases i 128).
    + assert (i / 64 = 1) as -> by (symmetry; apply Z.div_unique with (i - 64); lia). simpl.
      assert (exists k, i mod 64 = Zpos k /\ (1 < Zpos k)) as (k & -> & Hk).
      { assert (i mod 64 = i - 64) as -> by (symmetry; apply Z.mod_unique with 1; lia).
        destruct (i - 64) as [|k|k] eqn:E; [lia| |lia]. exists k. split; [done|lia]. }
      by apply (testbit_high 2 2); [|lia].
    + rewrite zlookup_None; [done|]. change (zlength _) with 2.
      assert (2 <= i / 64) by (apply Z.div_le_lower_bound; lia). lia.
Qed.

Lemma bitmap_bit_ops_correct_witness :
  (exists b', bitmap_clear sample_bitmap 65 = Some b' /\ bit_at b' 65 = false /\ bit_at b' 3 = true) /\
  (exists b', bitmap_clear sample_bitmap 64 = Some b' /\ bit_at b' 64 = true) /\
  (exists b', bitmap_init (mk_bitmap 7 9 [5; 6]) 70 = Some b' /\ bit_at b' 0 = false).
Proof.
  destruct bitmap_bit_ops_correct as [Hinit Hops]. split; [|split].
  - destruct (Hops sample_bitmap 65 sample_bitmap_wf) as (_ & _ & b' & Hb & _ & _ & Hat); [simpl; lia|].
    exists b'. split; [done|]. by rewrite !Hat.
  - destruct (Hops sample_bitmap 64 sample_bitmap_wf) as (_ & _ & b' & Hb & _ & _ & Hat); [simpl; lia|].
    exists b'. split; [done|]. by rewrite Hat.
  - destruct (Hinit (mk_bitmap 7 9 [5; 6]) 70) as (b' & Hb & _ & _ & Hat); [split; lia|by vm_compute|].
    by exists b'.
Defined.

(** C33: the searches of a well-formed bitmap are exact. [bitmap_first_clear]
    returns the least clear bit in range and [-1] exactly when every bit is
    set; [bitmap_first_set] returns the least set bit and [-1] exactly when no
    bit is set. *)
Theorem bitmap_searches_exact b :
  bitmap_wf b ->
  (exists r, bitmap_first_clear b = Some r /\
     (r = -1 <-> forall i, 0 <= i < num_bits b -> bit_at b i = true) /\
     (r <> -1 -> 0 <= r < num_bits b /\ bit_at b r = false /\
                 forall i, 0 <= i < r -> bit_at b i = true)) /\
  (exists r, bitmap_first_set b = Some r /\
     (r = -1 <-> forall i, 0 <= i < num_bits b -> bit_at b i = false) /\
     (r <> -1 -> 0 <= r < num_bits b /\ bit_at b r = true /\
                 forall i, 0 <= i < r -> bit_at b i = false)).
Proof.
  intros Hwf. split.
  - destruct (bitmap_first_clear_cases b Hwf) as (r & -> & [[-> Hall]|(Hr & Hc & Hlow)]);
      eexists; (split; [done|]).
    + by split.
    + split; [|done]. split; [lia|]. intros Hall. by rewrite Hall in Hc.
  - destruct (bitmap_first_set_cases b Hwf) as (r & -> & [[-> Hall]|(Hr & Hc & Hlow)]);
      eexists; (split; [done|]).
    + by split.
    + split; [|done]. split; [lia|]. intros Hall. by rewrite Hall in Hc.
Qed.

Lemma bitmap_searches_exact_witness :
  bitmap_first_clear sample_bitmap = Some 0 /\
  exists r, bitmap_first_set sample_bitmap = Some r /\ bit_at sample_bitmap r = true.
Proof.
  split; [reflexivity|].
  destruct (bitmap_searches_exact sample_bitmap sample_bitmap_wf) as [_ (r & Hr & _ & Hspec)].
  exists r. split; [done|]. apply Hspec. vm_compute in Hr. by injection Hr as <-.
Defined.

(** C38: [bitmap_zero_string_longer_than] is sound, and what it misses is known:
    a result other than [-1] starts [n] clear bits in range; and when it
    answers [-1], every run of [n] clear bits inside one word belongs to a word
    whose first [n] bits are clear too. *)
Theorem zero_string_sound b n :
  bitmap_wf b -> num_bits b <= 2 ^ 31 - 64 -> 1 <= n <= 64 ->
  exists r, bitmap_zero_string_longer_than b n = Some r /\
    (r <> -1 -> zero_run b n r) /\
    (r = -1 -> forall i, zero_run b n i -> i mod 64 + n <= 64 ->
       forall c, 0 <= c < n -> bit_at b (i / 64 * 64 + c) = false).
Proof.
  intros Hwf Hnb Hn.
  destruct (zero_string_cases b n Hwf Hnb Hn) as (r & Hr0 & [[-> Hall]|(k & w & Hk & Hw & Hc & -> & Hall)]);
    (eexists; split; [done|]).
  - split; [done|]. intros _ i Hz Hm. destruct (zero_run_word b n i Hwf ltac:(lia) Hz) as [Hr [w Hw]].
    apply (missed_word b n (i / 64) w i); try (done || lia). by eapply Hall.
  - destruct (first_run_cases n w) as [[Hm1 _]|[Hfst Hmin]]; [lia|lia|].
    set (c := first_run n w) in *.
    pose proof (run_at_bound (not64 w) n _ (is_u64_u64 _) ltac:(lia) Hfst) as Hbd.
    case_decide as Hin; split; try done.
    + intros Hne. by apply (zero_string_run b n).
    + lia.
    + intros _ i Hz Hm. destruct (zero_run_word b n i Hwf ltac:(lia) Hz) as [Hr [w' Hw']].
      pose proof (Z.div_mod i 64 ltac:(lia)) as Hdm. pose proof Hz as (_ & Hzb & _).
      pose proof (Z.mod_pos_bound i 64 ltac:(lia)).
      destruct (Z.lt_trichotomy (i / 64) k) as [Hlt|[Heq|Hgt]].
      * apply (missed_word b n (i / 64) w' i); try (done || lia). eapply Hall; [|done]. lia.
      * exfalso. subst k. pose proof (zero_run_in_word b n i w Hwf ltac:(lia) Hz Hm Hw) as Hrun.
        destruct (Z.le_gt_cases c (i mod 64)); [lia|]. by apply (Hmin (i mod 64)).
      * exfalso. lia.
Qed.

Lemma zero_string_sound_witness :
  exists r, bitmap_zero_string_longer_than sample_bitmap 4 = Some r /\ zero_run sample_bitmap 4 r.
Proof.
  destruct (zero_string_sound sample_bitmap 4 sample_bitmap_wf) as (r & Hr & Hs & _);
    [simpl; lia|lia|]. exists r. split; [done|]. apply Hs. vm_compute in Hr. by injection Hr as <-.
Defined.

(** The search reports no free run in a bitmap with no bit set: the word
    loop tests [index > 0], so a run that starts at the first bit of its word is
    skipped, and in an empty bitmap every word starts with one. *)
Theorem zero_string_empty_missed b n :
  bitmap_wf b -> num_bits b <= 2 ^ 31 - 64 -> 1 <= n <= 64 ->
  (forall i, bit_at b i = false) ->
  bitmap_zero_string_longer_than b n = Some (-1).
Proof.
  intros Hwf Hnb Hn Hclear.
  assert (forall k w, zlookup (data b) k = Some w -> first_run n w <= 0) as Hz.
  { intros k w Hw. destruct (first_run_cases n w) as [[-> _]|[_ Hmin]];
      [lia|lia|].
    destruct (Z.le_gt_cases (first_run n w) 0) as [|Hgt]; [done|].
    exfalso. apply (Hmin 0 ltac:(lia)). apply run_at_not64;
      [by eapply Forall_zlookup, Hw; apply (wf_words b Hwf)|lia|].
    split; [lia|]. split; [lia|]. intros j Hj. rewrite <- (bit_at_word b k w) by (done || lia).
    apply Hclear. }
  destruct (zero_string_cases b n Hwf Hnb Hn) as (r & -> & [[-> _]|(k & w & _ & Hw & Hc & _)]); [done|].
  specialize (Hz k w Hw). lia.
Qed.

Lemma zero_string_empty_missed_witness :
  bitmap_zero_string_longer_than (mk_bitmap 128 2 [0; 0]) 1 = Some (-1).
Proof.
  apply zero_string_empty_missed; [|simpl; lia|lia|].
  - split; simpl; try done; [by repeat constructor|]. intros i Hi. unfold bit_at. simpl.
    rewrite zlookup_None; [done|]. change (zlength _) with 2.
    assert (2 <= i / 64) by (apply Z.div_le_lower_bound; lia). lia.
  - intros i. unfold bit_at. simpl. destruct (zlookup [0; 0] (i / 64)) as [w|] eqn:E; [|done].
    apply zlookup_elem_of in E. repeat (apply elem_of_cons in E as [->|E]; [apply Z.bits_0|]).
    by apply elem_of_nil in E.
Defined.
