(* ===== verification/MmDefs.v ===== *)
(** * Memory layout constants (include/mm_defs.h, include/page.h,
    arch/x86_64/include/x86-consts.h) *)

From stdpp Require Import base numbers.
From Stdlib Require Import ZArith Lia.
From S2P Require Import Prelude Macros.

(** ** Page sizes and shifts *)

Definition PAGE_SHIFT : Z := 12.

Definition PMD_SHIFT : Z := 21.

Definition PUD_SHIFT : Z := 30.

Definition PGD_SHIFT : Z := 39.

Definition PAGE_SIZE : Z := BIT_MASK PAGE_SHIFT.

Definition PAGE_MASK : Z := BIT_MASK_BELOW PAGE_SHIFT.

Definition PHYS_ADDR_BITS : Z := 48.

Definition PHYS_ADDR_MASK : Z := BIT_MASK_BELOW PHYS_ADDR_BITS.

Definition PGD_SIZE : Z := BIT_MASK PGD_SHIFT.

Definition PAGE_SIZE_1GIB : Z := BIT_MASK PUD_SHIFT.

Definition PAGE_SIZE_2MIB : Z := BIT_MASK PMD_SHIFT.

Definition PAGE_MASK_1GIB : Z := BIT_MASK_BELOW PUD_SHIFT.

Definition PAGE_MASK_2MIB : Z := BIT_MASK_BELOW PMD_SHIFT.

Definition PAGE_TABLE_PHYS_ADDR_MASK : Z := (PHYS_ADDR_MASK & BIT_MASK_ABOVE PAGE_SHIFT)%u64.

Definition PAGE_TABLE_PHYS_ADDR_MASK_2MIB : Z := (PHYS_ADDR_MASK & BIT_MASK_ABOVE PMD_SHIFT)%u64.

Definition PAGE_TABLE_PHYS_ADDR_MASK_1GIB : Z := (PHYS_ADDR_MASK & BIT_MASK_ABOVE PUD_SHIFT)%u64.

Definition PAGE_DIR_INDEX_MASK : Z := BIT_MASK_BELOW 9.

Definition NUM_PAGE_TABLE_ENTRIES : Z := 512.

Definition NUM_PAGES_PTD : Z := 512.

Definition NUM_PAGES_PMD : Z := 512 * NUM_PAGES_PTD.

Definition NUM_PAGES_PUD : Z := 512 * NUM_PAGES_PMD.

(** ** Page table entry flags *)

Definition PAGE_FLAG_PRESENT_BIT : Z := 0.

Definition PAGE_FLAG_PSE_BIT : Z := 7.

Definition PAGE_FLAG_PRESENT : Z := BIT_MASK 0.

Definition PAGE_FLAG_RW : Z := BIT_MASK 1.

Definition PAGE_FLAG_USER : Z := BIT_MASK 2.

Definition PAGE_FLAG_WRITE_THROUGH : Z := BIT_MASK 3.

Definition PAGE_FLAG_UNCACHED : Z := BIT_MASK 4.

Definition PAGE_FLAG_ACCESSED : Z := BIT_MASK 5.

Definition PAGE_FLAG_DIRTY : Z := BIT_MASK 6.

Definition PAGE_FLAG_PSE : Z := BIT_MASK 7.

Definition PAGE_FLAG_GLOBAL : Z := BIT_MASK 8.

Definition PAGE_FLAG_NX : Z := BIT_MASK 63.

Definition PAGE_FLAG_DEFAULT : Z := (PAGE_FLAG_PRESENT |: PAGE_FLAG_RW)%u64.

Definition PAGE_FLAG_KERNEL : Z := (PAGE_FLAG_DEFAULT |: PAGE_FLAG_GLOBAL)%u64.

Definition PAGE_TABLE_FLAG_MASK : Z := (BIT_MASK_BELOW PAGE_SHIFT |: PAGE_FLAG_NX)%u64.

(** ** Mapping modes ([map_flags_t]) *)

Definition MAP_KERNEL : Z := 1.

Definition MAP_KERNEL_NOGLOBAL : Z := 2.

Definition MAP_DEVICE : Z := 3.

Definition MAP_FLAG_MODE_BITS : Z := 10.

Definition MAP_FLAG_MODE_MASK : Z := BIT_MASK_BELOW MAP_FLAG_MODE_BITS.

Definition MAP_CODE : Z := BIT_MASK (MAP_FLAG_MODE_BITS + 0).

Definition MAP_READONLY : Z := BIT_MASK (MAP_FLAG_MODE_BITS + 1).

Definition MAP_SKIP_IF_MAPPED : Z := BIT_MASK (MAP_FLAG_MODE_BITS + 2).

(** ** The virtual and physical memory map *)

Definition KERNEL_DIRECT_MAP_BASE : Z := 0xffff800000000000.

Definition KERNEL_ELF_BASE : Z := 0xffffc00000000000.

Definition KERNEL_ELF_ADDRESS_PHYS : Z := 0x1000000.

Definition KERNEL_ELF_ADDRESS : Z := (KERNEL_ELF_BASE + KERNEL_ELF_ADDRESS_PHYS)%u64.

Definition KERNEL_MEM_MAP_ADDRESS : Z := 0xffffc00040000000.

Definition KERNEL_STACK_ADDRESS_PHYS : Z := 0x80000.

Definition KERNEL_STACK_PAGES : Z := 4.

Definition MAX_ORDER : Z := 12.

(** ** Their values *)

Lemma PAGE_SIZE_pow : PAGE_SIZE = 2 ^ 12.
Proof. reflexivity. Qed.

Lemma IS_ALIGNED_page x : IS_ALIGNED x PAGE_SIZE = (x mod 2 ^ 12 =? 0).
Proof. rewrite PAGE_SIZE_pow. by apply IS_ALIGNED_pow. Qed.

Lemma PAGE_SIZE_2MIB_pow : PAGE_SIZE_2MIB = 2 ^ 21.
Proof. reflexivity. Qed.

Lemma PAGE_SIZE_1GIB_pow : PAGE_SIZE_1GIB = 2 ^ 30.
Proof. reflexivity. Qed.

Lemma PGD_SIZE_pow : PGD_SIZE = 2 ^ 39.
Proof. reflexivity. Qed.
