(* ===== verification/Range.v ===== *)
(** * Ranges of values (include/range.h)

    Inclusive ranges of [uint64_t] values and the classification of how two of
    them meet. *)

From stdpp Require Import base numbers.
From Stdlib Require Import ZArith Lia.
From S2P Require Import Prelude.

Record range_pair := mk_range { from : Z; to : Z }.

Inductive range_interact :=
| RANGE_SEPARATE
| RANGE_ADJACENT
| RANGE_OVERLAP
| RANGE_COINCIDE.

#[global] Instance range_interact_eq_dec : EqDecision range_interact.
Proof. solve_decision. Defined.

Definition range_within (range : range_pair) (n : Z) : bool :=
  (from range <=? n) && (n <=? to range).

Definition range_compare (a b : range_pair) : range_interact :=
  let a_from := range_within b (from a) in
  let a_to := range_within b (to a) in
  let b_from := range_within a (from b) in
  let b_to := range_within a (to b) in
  if (a_from && a_to) || (b_from && b_to) then RANGE_COINCIDE
  else if b_from || b_to then RANGE_OVERLAP
  else if (add64 (to a) 1 =? from b) || (add64 (to b) 1 =? from a) then RANGE_ADJACENT
  else RANGE_SEPARATE.

(** A range of the type: non-empty, of [uint64_t] bounds. *)
Definition range_wf (r : range_pair) : Prop := 0 <= from r <= to r /\ to r < 2 ^ 64.

(** The ranges share a value. *)
Definition ranges_meet (a b : range_pair) : Prop :=
  exists n, range_within a n = true /\ range_within b n = true.

(** Every value of [a] is one of [b]. *)
Definition range_incl (a b : range_pair) : Prop :=
  forall n, range_within a n = true -> range_within b n = true.

Lemma range_within_spec r n : range_within r n = true <-> from r <= n <= to r.
Proof. unfold range_within. rewrite andb_true_iff, !Z.leb_le. lia. Qed.

Lemma ranges_meet_spec a b :
  range_wf a -> range_wf b ->
  ranges_meet a b <-> from a <= to b /\ from b <= to a.
Proof.
  unfold range_wf, ranges_meet. intros Ha Hb. split.
  - intros (n & H1 & H2). rewrite range_within_spec in *. lia.
  - intros H. exists (Z.max (from a) (from b)). rewrite !range_within_spec. lia.
Qed.

Lemma range_incl_spec a b :
  range_wf a -> range_incl a b <-> from b <= from a /\ to a <= to b.
Proof.
  unfold range_wf, range_incl. intros Ha. split.
  - intros H. pose proof (H (from a)) as H1. pose proof (H (to a)) as H2.
    rewrite !range_within_spec in *. lia.
  - intros H n. rewrite !range_within_spec. lia.
Qed.

(** The classification as inequalities on the bounds. *)
Lemma range_compare_cases a b :
  range_wf a -> range_wf b ->
  match range_compare a b with
  | RANGE_COINCIDE => (from b <= from a /\ to a <= to b) \/ (from a <= from b /\ to b <= to a)
  | RANGE_OVERLAP => (from a < from b <= to a /\ to a < to b) \/ (from b < from a <= to b /\ to b < to a)
  | RANGE_ADJACENT =>
      (to a < from b \/ to b < from a) /\ (from b = add64 (to a) 1 \/ from a = add64 (to b) 1)
  | RANGE_SEPARATE =>
      (to a < from b \/ to b < from a) /\ from b <> add64 (to a) 1 /\ from a <> add64 (to b) 1
  end.
Proof.
  unfold range_wf. intros Ha Hb. unfold range_compare, range_within.
  destruct (Z.leb_spec (from b) (from a)), (Z.leb_spec (from a) (to b)),
    (Z.leb_spec (from b) (to a)), (Z.leb_spec (to a) (to b)),
    (Z.leb_spec (from a) (from b)), (Z.leb_spec (from a) (to b)), (Z.leb_spec (to b) (to a));
    try (exfalso; lia); simpl; try lia;
    destruct (Z.eqb_spec (add64 (to a) 1) (from b)), (Z.eqb_spec (add64 (to b) 1) (from a));
    simpl; lia.
Qed.

(** [range_compare] classifies two non-empty ranges correctly: "coincide"
    exactly when one contains the other, "overlap" exactly when they share a
    value and neither contains the other, and otherwise, when neither range
    touches the top of the address space, "adjacent" exactly when one ends just
    before the other starts. *)
Theorem range_compare_classifies a b :
  range_wf a -> range_wf b ->
  (range_compare a b = RANGE_COINCIDE <-> range_incl a b \/ range_incl b a) /\
  (range_compare a b = RANGE_OVERLAP <->
     ranges_meet a b /\ ~ range_incl a b /\ ~ range_incl b a) /\
  (to a < 2 ^ 64 - 1 -> to b < 2 ^ 64 - 1 ->
   (range_compare a b = RANGE_ADJACENT <->
      ~ ranges_meet a b /\ (to a + 1 = from b \/ to b + 1 = from a))).
Proof.
  intros Ha Hb. rewrite ranges_meet_spec, !range_incl_spec by done.
  pose proof (range_compare_cases a b Ha Hb) as Hc. unfold range_wf in *.
  split; [|split].
  - destruct (range_compare a b); (split; intros H; [try discriminate|]); try done; exfalso; lia.
  - destruct (range_compare a b); (split; intros H; [try discriminate|]); try done; lia.
  - intros Hta Htb. rewrite !(add64_small _ 1) in Hc by (unfold is_u; lia).
    destruct (range_compare a b); (split; intros H; [try discriminate|]); try done; lia.
Qed.

Lemma range_compare_classifies_witness :
  range_compare (mk_range 17 193) (mk_range 194 2019) = RANGE_ADJACENT.
Proof.
  apply (range_compare_classifies (mk_range 17 193) (mk_range 194 2019)); simpl; try (unfold range_wf; simpl; lia).
  split; [|lia]. rewrite ranges_meet_spec; unfold range_wf; simpl; lia.
Defined.
