(* ===== verification/E820.v ===== *)
(** * The e820 physical memory map (early/mem.c, include/early_mem.h)

    The boot loader leaves a firmware memory map in [struct early_boot_info];
    the kernel sorts it, merges entries of equal type, trims RAM entries to
    whole pages and adds the RAM up. The four passes work in place on the array;
    [entries info] is the list of the entries in use. Each pass is proved equal
    to a function on that list, and the properties are then proved of the
    functions. *)

From stdpp Require Import base list numbers sets sorting strings.
From Stdlib Require Import ZArith Lia.
From S2P Require Import Prelude Macros MmDefs Range.

Record e820_entry := mk_entry { base : Z; size : Z; type : Z }.

(** [enum e820_type]. *)
Definition E820_TYPE_RAM : Z := 1.

Definition E820_TYPE_RESERVED : Z := 2.

Definition E820_TYPE_ACPI : Z := 3.

Definition E820_TYPE_NVS : Z := 4.

Definition E820_TYPE_UNUSABLE : Z := 5.

Definition E820_TYPE_DISABLED : Z := 6.

Definition E820_TYPE_PERSISTENT : Z := 7.

Definition e820_type_to_string (t : Z) : string :=
  if t =? E820_TYPE_RAM then "RAM"
  else if t =? E820_TYPE_RESERVED then "reserved"
  else if t =? E820_TYPE_ACPI then "ACPI"
  else if t =? E820_TYPE_NVS then "NVS"
  else if t =? E820_TYPE_UNUSABLE then "unusable"
  else if t =? E820_TYPE_DISABLED then "disabled"
  else if t =? E820_TYPE_PERSISTENT then "persistent"
  else "UNKNOWN".

(** [e820_entries] is the array in memory; only its first [num_e820_entries]
    elements are in use. *)
Record early_boot_info := mk_info {
  total_avail_ram_bytes : Z;
  num_ram_spans : Z;
  apic_base : Z;
  kernel_elf_size_bytes : Z;
  num_e820_entries : Z;
  e820_entries : list e820_entry;
}.

Definition set_entries (num : Z) (arr : list e820_entry) (info : early_boot_info)
    : early_boot_info :=
  mk_info (total_avail_ram_bytes info) (num_ram_spans info) (apic_base info)
    (kernel_elf_size_bytes info) num arr.

(** [(int)info->num_e820_entries], the bound of every loop. *)
Definition count (info : early_boot_info) : nat := Z.to_nat (i32 (num_e820_entries info)).

Definition less (a b : e820_entry) : bool :=
  (base a <? base b) || ((base a =? base b) && (size a <? size b)).

(** The inner loop of [early_sort_e820], [j] counting down from [n - 1]: it
    returns [j + 1], where the key goes, and the shifted array. *)
Fixpoint sort_shift (n : nat) (key : e820_entry) (arr : list e820_entry)
    : option (nat * list e820_entry) :=
  match n with
  | O => Some (O, arr)
  | S j =>
      e ← arr !! j;
      if less e key then Some (n, arr)
      else arr' ← zstore arr (Z.of_nat n) e; sort_shift j key arr'
  end.

Fixpoint sort_loop (n i : nat) (arr : list e820_entry) : option (list e820_entry) :=
  match n with
  | O => Some arr
  | S n' =>
      key ← arr !! i;
      '(j1, arr') ← sort_shift i key arr;
      arr'' ← zstore arr' (Z.of_nat j1) key;
      sort_loop n' (S i) arr''
  end.

Definition early_sort_e820 : M early_boot_info unit :=
  info ← get;
  arr ← lift (sort_loop (count info - 1) 1 (e820_entries info));
  put (set_entries (num_e820_entries info) arr info).

(** The inclusive range of bytes an entry covers. *)
Definition entry_range (e : e820_entry) : range_pair :=
  mk_range (base e) (base e + size e - 1)%u64.

(** [curr->size += entry_range.to - curr_range.to]. *)
Definition extend_entry (curr entry : e820_entry) : e820_entry :=
  mk_entry (base curr) (size curr + (to (entry_range entry) - to (entry_range curr)))%u64
    (type curr).

(** The loop of [early_merge_e820] over [n] entries from index [i]. *)
Fixpoint merge_loop (n i curr_index : nat) (arr : list e820_entry)
    : option (nat * list e820_entry) :=
  match n with
  | O => Some (curr_index, arr)
  | S n' =>
      curr ← arr !! curr_index;
      entry ← arr !! i;
      let keep :=
        if (S curr_index =? i)%nat then merge_loop n' (S i) (S curr_index) arr
        else
          arr' ← zstore arr (Z.of_nat (S curr_index)) entry;
          merge_loop n' (S i) (S curr_index) arr' in
      if negb (type entry =? type curr) then keep
      else
        match range_compare (entry_range curr) (entry_range entry) with
        | RANGE_SEPARATE => keep
        | RANGE_ADJACENT | RANGE_OVERLAP =>
            arr' ← zstore arr (Z.of_nat curr_index) (extend_entry curr entry);
            merge_loop n' (S i) curr_index arr'
        | RANGE_COINCIDE => merge_loop n' (S i) curr_index arr
        end
  end.

Definition early_merge_e820 : M early_boot_info unit :=
  info ← get;
  '(curr_index, arr) ← lift (merge_loop (count info - 1) 1 0 (e820_entries info));
  put (set_entries (u32 (Z.of_nat curr_index + 1)) arr info).

(** The shift loop of [delete_e820_entry]. *)
Fixpoint delete_loop (n i : nat) (arr : list e820_entry) : option (list e820_entry) :=
  match n with
  | O => Some arr
  | S n' =>
      e ← arr !! S i;
      arr' ← zstore arr (Z.of_nat i) e;
      delete_loop n' (S i) arr'
  end.

Definition delete_e820_entry (index : nat) : M early_boot_info unit :=
  info ← get;
  if num_e820_entries info =? 0 then panic "0 e820 entries?"
  else
    arr ← lift (delete_loop (count info - 1 - index) index (e820_entries info));
    put (set_entries (u32 (num_e820_entries info - 1)) arr info).

(** What one iteration of [early_normalise_e820] decides about an entry. *)
Inductive normalise_action :=
| Keep
| Trim (e : e820_entry)
| Delete.

Definition normalise_entry (e : e820_entry) : normalise_action :=
  if negb (type e =? E820_TYPE_RAM) then Keep
  else
    let start := base e in
    let stop := (base e + size e)%u64 in
    if IS_ALIGNED start PAGE_SIZE && IS_ALIGNED stop PAGE_SIZE then Keep
    else
      let start := ALIGN_UP start PAGE_SIZE in
      let stop := ALIGN stop PAGE_SIZE in
      if start <? stop then Trim (mk_entry start (stop - start)%u64 (type e)) else Delete.

(** The loop of [early_normalise_e820]: a deletion steps [i] back, so each
    iteration lowers the number of entries after [i], and [count info + 1]
    tests of the loop condition always suffice. *)
Fixpoint normalise_loop (fuel i : nat) : M early_boot_info unit :=
  match fuel with
  | O => hang
  | S fuel' =>
      info ← get;
      if (count info <=? i)%nat then mret tt
      else
        e ← lift (e820_entries info !! i);
        match normalise_entry e with
        | Keep => normalise_loop fuel' (S i)
        | Trim e' =>
            arr ← lift (zstore (e820_entries info) (Z.of_nat i) e');
            put (set_entries (num_e820_entries info) arr info);;
            normalise_loop fuel' (S i)
        | Delete => delete_e820_entry i;; normalise_loop fuel' i
        end
  end.

Definition early_normalise_e820 : M early_boot_info unit :=
  info ← get;
  normalise_loop (S (count info)) 0.

(** [sizeof(struct early_page_alloc_state)] and
    [sizeof(struct early_page_alloc_span)]. *)
Definition sizeof_early_page_alloc_state : Z := 48.

Definition sizeof_early_page_alloc_span : Z := 56.

Definition MAX_E820_RAM_ENTRIES : Z :=
  (PAGE_SIZE - sizeof_early_page_alloc_state)%u64 / sizeof_early_page_alloc_span.

Fixpoint total_loop (n i : nat) (arr : list e820_entry) (bytes num : Z) : option (Z * Z) :=
  match n with
  | O => Some (bytes, num)
  | S n' =>
      e ← arr !! i;
      if negb (type e =? E820_TYPE_RAM) then total_loop n' (S i) arr bytes num
      else total_loop n' (S i) arr (bytes + size e)%u64 (num + 1)%u64
  end.

Definition early_set_total_ram : M early_boot_info unit :=
  info ← get;
  '(bytes, num_ram_entries) ← lift (total_loop (count info) 0 (e820_entries info) 0 0);
  if MAX_E820_RAM_ENTRIES <? num_ram_entries then
    panic "There are %lu E820 RAM entries present, maximum permitted is %lu"
  else
    put (mk_info bytes num_ram_entries (apic_base info) (kernel_elf_size_bytes info)
           (num_e820_entries info) (e820_entries info)).

(** ** The abstract memory map *)

(** The entries in use. *)
Definition entries (info : early_boot_info) : list e820_entry :=
  take (count info) (e820_entries info).

(** The array is as long as the count says. *)
Definition info_wf (info : early_boot_info) : Prop :=
  0 <= num_e820_entries info < 2 ^ 31 /\ num_e820_entries info <= zlength (e820_entries info).

(** The passes change nothing of the structure but the entries. *)
Definition same_header (info info' : early_boot_info) : Prop :=
  total_avail_ram_bytes info' = total_avail_ram_bytes info /\
  num_ram_spans info' = num_ram_spans info /\ apic_base info' = apic_base info /\
  kernel_elf_size_bytes info' = kernel_elf_size_bytes info.

(** The order of the sort: [a] may precede [b]. *)
Definition entry_le (a b : e820_entry) : Prop := less b a = false.

(** The end of an entry, exclusive. *)
Definition stop (e : e820_entry) : Z := base e + size e.

(** An entry the firmware can report: not empty, inside the address space. *)
Definition entry_wf (e : e820_entry) : Prop :=
  0 <= base e /\ 0 < size e /\ stop e < 2 ^ 64.

(** Address [a] lies in an entry of type [t]. *)
Definition covers (l : list e820_entry) (t a : Z) : Prop :=
  exists e, e ∈ l /\ type e = t /\ base e <= a < stop e.

(** The merge pass as a function on lists. *)
Fixpoint merge_list (curr : e820_entry) (l : list e820_entry) : list e820_entry :=
  match l with
  | [] => [curr]
  | entry :: l' =>
      if negb (type entry =? type curr) then curr :: merge_list entry l'
      else
        match range_compare (entry_range curr) (entry_range entry) with
        | RANGE_SEPARATE => curr :: merge_list entry l'
        | RANGE_ADJACENT | RANGE_OVERLAP => merge_list (extend_entry curr entry) l'
        | RANGE_COINCIDE => merge_list curr l'
        end
  end.

(** The normalise pass as a function on lists. *)
Fixpoint normalise_list (l : list e820_entry) : list e820_entry :=
  match l with
  | [] => []
  | e :: l' =>
      match normalise_entry e with
      | Keep => e :: normalise_list l'
      | Trim e' => e' :: normalise_list l'
      | Delete => normalise_list l'
      end
  end.

Definition is_ram (e : e820_entry) : bool := type e =? E820_TYPE_RAM.

(** The bytes of RAM the entries add up to. *)
Fixpoint ram_bytes (l : list e820_entry) : Z :=
  match l with
  | [] => 0
  | e :: l' => (if is_ram e then size e else 0) + ram_bytes l'
  end.

(** [b] may follow [a] in the input of the merge: it starts no lower, and an
    entry that repeats the type and the base of an earlier one reaches no
    further. *)
Definition merge_ok (a b : e820_entry) : Prop :=
  base a <= base b /\ (type a = type b -> base a = base b -> stop b <= stop a).

(** [b] lies after [a], and does not touch it when it has the same type. *)
Definition separated (a b : e820_entry) : Prop :=
  stop a <= base b /\ (type a = type b -> stop a < base b).

(** Entries of different types share no address. *)
Definition types_disjoint (l : list e820_entry) : Prop :=
  forall a b, a ∈ l -> b ∈ l -> type a <> type b -> stop a <= base b \/ stop b <= base a.

(** No two entries of one type share a base with different sizes. *)
Definition bases_agree (l : list e820_entry) : Prop :=
  forall a b, a ∈ l -> b ∈ l -> type a = type b -> base a = base b -> size a = size b.

(** The state of the merge: the current entry and what is left of the input. *)
Definition merge_inv (curr : e820_entry) (l : list e820_entry) : Prop :=
  Forall entry_wf (curr :: l) /\ StronglySorted merge_ok (curr :: l).

(** Page [p] lies in entry [e]. *)
Definition page_in (e : e820_entry) (p : Z) : Prop :=
  base e <= 4096 * p /\ 4096 * p + 4096 <= stop e.

(** Page [p] lies in a RAM entry. *)
Definition ram_page (l : list e820_entry) (p : Z) : Prop :=
  exists e, e ∈ l /\ type e = E820_TYPE_RAM /\ page_in e p.

(** A RAM entry made of whole pages. *)
Definition ram_aligned (e : e820_entry) : Prop :=
  type e = E820_TYPE_RAM -> base e mod 4096 = 0 /\ size e mod 4096 = 0.

(** The entry does not reach the last page of the address space, so rounding its
    ends does not wrap. *)
Definition below_top (e : e820_entry) : Prop := stop e <= 2 ^ 64 - 4096.

(** The four passes in the order [early_mem_init] runs them. *)
Definition e820_passes : M early_boot_info unit :=
  early_sort_e820;; early_merge_e820;; early_normalise_e820;; early_set_total_ram.

(** The state of the normalise pass: [pre] is done, [rest] is still to do. *)
Definition normalise_at (info0 info : early_boot_info) (pre rest : list e820_entry) : Prop :=
  exists tail, info = set_entries (Z.of_nat (length (pre ++ rest))) (pre ++ rest ++ tail) info0.

(** A map with unsorted, adjacent and unaligned entries, for the witnesses. *)
Definition sample_info : early_boot_info :=
  mk_info 0 0 0 0 4
    [mk_entry 0x100000 0x3000 1; mk_entry 0 0x9fc00 1; mk_entry 0x9fc00 0x400 2; mk_entry 0x103000 0x1000 1].

(** ** Sorting *)

Lemma less_spec a b : less a b = true <-> base a < base b \/ base a = base b /\ size a < size b.
Proof. unfold less. rewrite orb_true_iff, andb_true_iff, !Z.ltb_lt, Z.eqb_eq. done. Qed.

Lemma entry_le_spec a b : entry_le a b <-> base a < base b \/ base a = base b /\ size a <= size b.
Proof. unfold entry_le. rewrite <- not_true_iff_false, less_spec. lia. Qed.

#[global] Instance entry_le_trans : Transitive entry_le.
Proof. intros a b c. rewrite !entry_le_spec. lia. Qed.

(** The inner loop followed by the store of the key inserts the key after the
    last smaller element of the prefix. *)
Lemma sort_shift_spec pre x post key :
  exists l1 l2 arr', pre = l1 ++ l2 /\
    sort_shift (length pre) key (pre ++ x :: post) = Some (length l1, arr') /\
    zstore arr' (Z.of_nat (length l1)) key = Some (l1 ++ key :: l2 ++ post) /\
    Forall (fun e => less e key = false) l2 /\
    (l1 = [] \/ exists l0 e, l1 = l0 ++ [e] /\ less e key = true).
Proof.
  revert x post. induction pre as [|e pre IH] using rev_ind; intros x post.
  - exists [], [], (x :: post). split; [done|]. split; [done|].
    split; [by apply (zstore_middle [] post)|]. split; [done|by left].
  - rewrite length_app. simpl. rewrite Nat.add_1_r. simpl sort_shift. rewrite <- app_assoc. simpl.
    rewrite lookup_middle by done. simpl. destruct (less e key) eqn:Hless.
    + exists (pre ++ [e]), [], (pre ++ e :: x :: post). rewrite length_app. simpl.
      rewrite Nat.add_1_r, app_nil_r. split; [done|]. split; [done|]. split.
      * rewrite <- app_assoc. by apply zstore_middle2.
      * split; [done|]. right. by exists pre, e.
    + rewrite zstore_middle2 by done. simpl.
      destruct (IH e (e :: post)) as (l1 & l2 & arr' & -> & Hs & Hst & Hall & Hl1).
      exists l1, (l2 ++ [e]), arr'. rewrite Hs. rewrite <- !app_assoc. simpl.
      split; [done|]. split; [done|]. split; [done|]. split; [|done].
      apply Forall_app. split; [done|]. by constructor.
Qed.

Lemma insert_StronglySorted l1 l2 key :
  StronglySorted entry_le (l1 ++ l2) -> Forall (fun e => less e key = false) l2 ->
  (l1 = [] \/ exists l0 e, l1 = l0 ++ [e] /\ less e key = true) ->
  StronglySorted entry_le (l1 ++ key :: l2).
Proof.
  intros Hs Hall Hl1. apply StronglySorted_app in Hs as (Hx & Hs1 & Hs2).
  assert (forall a, a ∈ l1 -> entry_le a key) as Hle.
  { intros a Ha. destruct Hl1 as [->|(l0 & e & -> & Hless)]; [by apply elem_of_nil in Ha|].
    assert (entry_le e key) as Hek by (rewrite entry_le_spec; apply less_spec in Hless; lia).
    apply elem_of_app in Ha as [Ha|Ha]; [|by apply list_elem_of_singleton in Ha as ->].
    transitivity e; [|done]. eapply (StronglySorted_app_1_elem_of entry_le l0 [e]); [done|done|].
    by apply list_elem_of_singleton. }
  apply StronglySorted_app. split; [|split; [done|]].
  - intros a b Ha Hb. apply elem_of_cons in Hb as [->|Hb]; [by apply Hle|by apply Hx].
  - apply StronglySorted_cons. split; [|done]. eapply Forall_impl; [done|]. done.
Qed.

Lemma sort_loop_spec rest : forall pre tail,
  StronglySorted entry_le pre ->
  exists sorted, sort_loop (length rest) (length pre) (pre ++ rest ++ tail) = Some (sorted ++ tail) /\
    StronglySorted entry_le sorted /\ sorted ≡ₚ pre ++ rest.
Proof.
  induction rest as [|key rest IH]; intros pre tail Hs.
  - exists pre. by rewrite app_nil_r.
  - simpl sort_loop. rewrite lookup_middle by done. simpl.
    destruct (sort_shift_spec pre key (rest ++ tail) key) as (l1 & l2 & arr' & -> & -> & Hst & Hall & Hl1).
    simpl. rewrite Hst. simpl.
    destruct (IH (l1 ++ key :: l2) tail) as (sorted & Heq & Hss & Hp).
    { by apply insert_StronglySorted. }
    exists sorted. split; [|split; [done|]].
    + rewrite <- Heq. f_equal; [rewrite !length_app; simpl; lia|]. by rewrite <- !app_assoc.
    + rewrite Hp, <- !app_assoc. apply Permutation_app_head. simpl. apply Permutation_middle.
Qed.

(** The entries in use, split off the array. *)
Lemma entries_split info :
  info_wf info ->
  exists tail, e820_entries info = entries info ++ tail /\
    length (entries info) = count info /\ count info = Z.to_nat (num_e820_entries info).
Proof.
  intros [Hn Hl]. exists (drop (count info) (e820_entries info)). unfold entries.
  assert (count info = Z.to_nat (num_e820_entries info)) as Hc.
  { unfold count, i32, swrap. rewrite Z.mod_small by lia. f_equal. lia. }
  split; [by rewrite take_drop|]. split; [|done]. rewrite length_take. unfold zlength in Hl. lia.
Qed.

Lemma entries_set_entries l tail info n :
  n = Z.of_nat (length l) -> n < 2 ^ 31 ->
  entries (set_entries n (l ++ tail) info) = l /\ info_wf (set_entries n (l ++ tail) info).
Proof.
  intros -> Hn. unfold entries, count, info_wf, zlength, i32, swrap. simpl.
  rewrite Z.mod_small by lia. split; [|rewrite length_app; lia].
  apply take_app_length'. lia.
Qed.

Lemma early_sort_spec info :
  info_wf info ->
  wp early_sort_e820 info (fun _ info' =>
    info_wf info' /\ same_header info info' /\ num_e820_entries info' = num_e820_entries info /\
    StronglySorted entry_le (entries info') /\ entries info' ≡ₚ entries info).
Proof.
  intros Hwf. destruct (entries_split info Hwf) as (tail & Harr & Hlen & Hc).
  destruct Hwf as [Hn Hl]. unfold early_sort_e820. apply wp_bind. apply wp_get.
  apply wp_bind. rewrite Harr, <- Hlen. destruct (entries info) as [|e l] eqn:He.
  - apply wp_lift with tail; [done|]. apply wp_put.
    destruct (entries_set_entries [] tail info (num_e820_entries info)) as [He' Hwf'];
      [simpl in *; lia|lia|]. simpl app in He', Hwf'. rewrite He'.
    repeat split; try done; try apply Hwf'. constructor.
  - destruct (sort_loop_spec l [e] tail) as (sorted & Heq & Hs & Hp); [by repeat constructor|].
    apply wp_lift with (sorted ++ tail).
    { replace (length (e :: l) - 1)%nat with (length l) by (simpl; lia). done. }
    apply wp_put. destruct (entries_set_entries sorted tail info (num_e820_entries info)) as [He' Hwf'].
    { rewrite Hp. simpl in *. lia. }
    { lia. }
    rewrite He'. repeat split; try done; apply Hwf'.
Qed.

(** ** Merging *)

Lemma merge_list_not_nil curr l : exists e l', merge_list curr l = e :: l'.
Proof.
  revert curr. induction l as [|x l IH]; intros curr; simpl; [eauto|].
  destruct (negb _); [eauto|]. destruct (range_compare _ _); eauto.
Qed.

(** The in-place loop computes [merge_list]: before iteration [i], the array
    holds the finished entries [out], the current one, a [gap] of entries already
    consumed, and the [rest]. *)
Lemma merge_loop_spec rest : forall out curr gap tail,
  exists gap',
    merge_loop (length rest) (length out + 1 + length gap) (length out)
      (out ++ curr :: gap ++ rest ++ tail) =
    Some ((length (out ++ merge_list curr rest) - 1)%nat,
          (out ++ merge_list curr rest) ++ gap' ++ tail).
Proof.
  induction rest as [|entry rest IH]; intros out curr gap tail.
  - exists gap. simpl. rewrite length_app. simpl. rewrite Nat.add_sub. by rewrite <- app_assoc.
  - simpl merge_loop. rewrite (lookup_middle out _ curr (length out)) by done. simpl.
    assert ((out ++ curr :: gap ++ entry :: rest ++ tail) !! (length out + 1 + length gap)%nat
              = Some entry) as ->.
    { replace (out ++ curr :: gap ++ entry :: rest ++ tail)
        with ((out ++ curr :: gap) ++ entry :: rest ++ tail) by by rewrite <- app_assoc.
      apply lookup_middle. rewrite length_app. simpl. lia. }
    simpl.
    assert (exists gap', (if (S (length out) =? length out + 1 + length gap)%nat
       then merge_loop (length rest) (S (length out + 1 + length gap)) (S (length out))
              (out ++ curr :: gap ++ entry :: rest ++ tail)
       else zstore (out ++ curr :: gap ++ entry :: rest ++ tail) (Z.of_nat (S (length out))) entry ≫=
            merge_loop (length rest) (S (length out + 1 + length gap)) (S (length out))) =
       Some ((length (out ++ curr :: merge_list entry rest) - 1)%nat,
             (out ++ curr :: merge_list entry rest) ++ gap' ++ tail)) as Hkeep.
    { destruct gap as [|g gap].
      - destruct (IH (out ++ [curr]) entry [] tail) as (gap' & Hm). exists gap'.
        rewrite (proj2 (Nat.eqb_eq _ _)) by (simpl; lia). rewrite <- !app_assoc in Hm. rewrite <- !app_assoc. simpl in *.
        rewrite <- Hm. f_equal; rewrite ?length_app; simpl; lia.
      - rewrite (proj2 (Nat.eqb_neq _ _)) by (simpl; lia). simpl app. rewrite zstore_middle2 by done.
        simpl. destruct (IH (out ++ [curr]) entry (gap ++ [entry]) tail) as (gap' & Hm). exists gap'.
        rewrite <- !app_assoc in Hm. rewrite <- !app_assoc. simpl in *.
        rewrite <- Hm. f_equal; rewrite ?length_app; simpl; lia. }
    assert (forall c', exists gap',
       merge_loop (length rest) (S (length out + 1 + length gap)) (length out)
         (out ++ c' :: gap ++ entry :: rest ++ tail) =
       Some ((length (out ++ merge_list c' rest) - 1)%nat,
             (out ++ merge_list c' rest) ++ gap' ++ tail)) as Hskip.
    { intros c'. destruct (IH out c' (gap ++ [entry]) tail) as (gap' & Hm). exists gap'.
      rewrite <- !app_assoc in Hm. rewrite <- !app_assoc. simpl in *.
      rewrite <- Hm. f_equal; rewrite ?length_app; simpl; lia. }
    destruct (negb _); [done|].
    destruct (range_compare _ _); [done| | |apply Hskip]; rewrite zstore_middle by done; apply Hskip.
Qed.

Lemma merge_list_length curr l : (length (merge_list curr l) <= S (length l))%nat.
Proof.
  revert curr. induction l as [|x l IH]; intros curr; simpl; [lia|].
  pose proof (IH x). pose proof (IH curr). pose proof (IH (extend_entry curr x)).
  destruct (negb _); simpl; [lia|]. destruct (range_compare _ _); simpl; lia.
Qed.

Lemma early_merge_refines info e l :
  info_wf info -> entries info = e :: l ->
  wp early_merge_e820 info (fun _ info' =>
    info_wf info' /\ same_header info info' /\ entries info' = merge_list e l).
Proof.
  intros Hwf He. destruct (entries_split info Hwf) as (tail & Harr & Hlen & Hc).
  destruct Hwf as [Hn Hl]. unfold early_merge_e820. apply wp_bind. apply wp_get.
  apply wp_bind. rewrite Harr, <- Hlen, He. simpl length. rewrite Nat.sub_succ, Nat.sub_0_r.
  destruct (merge_loop_spec l [] e [] tail) as (gap' & Hm). simpl in Hm.
  apply (wp_lift _ _ _ _ Hm). apply wp_put.
  destruct (merge_list_not_nil e l) as (x & l' & Hx). pose proof (merge_list_length e l) as Hle.
  rewrite He in Hlen. simpl in Hlen.
  set (n := u32 (Z.of_nat (length (merge_list e l) - 1) + 1)).
  assert (n = Z.of_nat (length (merge_list e l))) as Hnl.
  { subst n. rewrite Hx in *. simpl in *. unfold u32. rewrite wrap_small; [lia|unfold is_u; lia]. }
  destruct (entries_set_entries (merge_list e l) (gap' ++ tail) info n) as [He' Hwf']; [done|lia|].
  rewrite He'. repeat split; try done; apply Hwf'.
Qed.

Lemma entry_range_wf e :
  entry_wf e -> range_wf (entry_range e) /\ from (entry_range e) = base e /\ to (entry_range e) = stop e - 1.
Proof.
  unfold entry_wf, stop. intros (H1 & H2 & H3). unfold entry_range, range_wf. simpl.
  assert ((base e + size e - 1)%u64 = base e + size e - 1) as ->; [|lia].
  unfold sub64, add64, u64, wrap. rewrite Zminus_mod_idemp_l. apply Z.mod_small. lia.
Qed.

Lemma extend_entry_spec curr x :
  entry_wf curr -> entry_wf x -> stop curr <= stop x ->
  base (extend_entry curr x) = base curr /\ stop (extend_entry curr x) = stop x /\
  type (extend_entry curr x) = type curr.
Proof.
  intros Hc Hx Hle. destruct (entry_range_wf curr Hc) as (_ & _ & Hct).
  destruct (entry_range_wf x Hx) as (_ & _ & Hxt). unfold extend_entry. rewrite Hct, Hxt.
  split; [done|]. split; [|done]. unfold stop at 1. simpl base. simpl size.
  unfold entry_wf, stop in *. unfold add64, sub64, u64, wrap.
  rewrite Zplus_mod_idemp_r, Z.mod_small by lia. lia.
Qed.

(** How the comparison of the merge reads when the entries are in order. *)
Lemma merge_compare curr x :
  entry_wf curr -> entry_wf x -> merge_ok curr x -> type curr = type x ->
  match range_compare (entry_range curr) (entry_range x) with
  | RANGE_SEPARATE => stop curr < base x
  | RANGE_ADJACENT | RANGE_OVERLAP => base x <= stop curr < stop x
  | RANGE_COINCIDE => stop x <= stop curr
  end.
Proof.
  intros Hc Hx [Hb Heq] Ht. destruct (entry_range_wf curr Hc) as (Hcw & Hcf & Hct).
  destruct (entry_range_wf x Hx) as (Hxw & Hxf & Hxt).
  pose proof (range_compare_cases _ _ Hcw Hxw) as Hcmp. rewrite Hcf, Hct, Hxf, Hxt in Hcmp.
  specialize (Heq Ht). unfold entry_wf, stop in *.
  rewrite !add64_small in Hcmp by (unfold is_u; lia).
  destruct (range_compare _ _); lia.
Qed.

Lemma covers_cons e l t a :
  covers (e :: l) t a <-> (type e = t /\ base e <= a < stop e) \/ covers l t a.
Proof.
  unfold covers. setoid_rewrite elem_of_cons. split.
  - intros (x & [->|Hx] & Ht & Ha); [by left|]. right. eauto.
  - intros [[Ht Ha]|(x & Hx & Ht & Ha)]; eauto.
Qed.

Lemma merge_inv_keep curr x l : merge_inv curr (x :: l) -> merge_inv x l.
Proof.
  intros [Hwf Hs]. split; [by apply Forall_inv_tail in Hwf|]. by apply StronglySorted_cons in Hs as [_ ?].
Qed.

Lemma merge_inv_skip curr x l : merge_inv curr (x :: l) -> merge_inv curr l.
Proof.
  intros [Hwf Hs]. apply Forall_cons in Hwf as [Hc Hwf]. apply StronglySorted_cons in Hs as [Hcs Hs].
  split; [constructor; [done|by apply Forall_inv_tail in Hwf]|].
  apply StronglySorted_cons. split; [by apply Forall_inv_tail in Hcs|]. by apply StronglySorted_cons in Hs as [_ ?].
Qed.

Lemma merge_inv_extend curr x l :
  merge_inv curr (x :: l) -> stop curr < stop x -> merge_inv (extend_entry curr x) l.
Proof.
  intros Hinv Hj. destruct (merge_inv_skip _ _ _ Hinv) as [Hwf Hs]. destruct Hinv as [Hwfx Hsx].
  assert (entry_wf curr /\ entry_wf x /\ base curr <= base x) as (Hc & Hx & Hcx).
  { apply Forall_cons in Hwfx as [Hc Hwfx]. apply StronglySorted_cons in Hsx as [Hsx _].
    apply Forall_inv in Hwfx. apply Forall_inv in Hsx as [? _]. done. }
  destruct (extend_entry_spec curr x Hc Hx) as (Hb & Hst & Hty); [lia|].
  apply Forall_cons in Hwf as [_ Hwf]. apply StronglySorted_cons in Hs as [Hcl Hs]. split.
  - constructor; [|done]. unfold entry_wf, stop in *. lia.
  - apply StronglySorted_cons. split; [|done]. eapply Forall_impl; [apply Hcl|].
    intros y [H1 H2]. split; [lia|]. rewrite Hty, Hb, Hst. intros H3 H4. specialize (H2 H3 H4). lia.
Qed.

(** The merge by cases: every step keeps the current entry, extends it by the
    next one, or drops the next one because the current one contains it. *)
Lemma merge_list_ind (P : e820_entry -> list e820_entry -> list e820_entry -> Prop) :
  (forall curr, P curr [] [curr]) ->
  (forall curr x l out, merge_inv curr (x :: l) -> (type x = type curr -> stop curr < base x) ->
     P x l out -> P curr (x :: l) (curr :: out)) ->
  (forall curr x l out, merge_inv curr (x :: l) -> type x = type curr ->
     base x <= stop curr < stop x -> P (extend_entry curr x) l out -> P curr (x :: l) out) ->
  (forall curr x l out, merge_inv curr (x :: l) -> type x = type curr -> stop x <= stop curr ->
     P curr l out -> P curr (x :: l) out) ->
  forall l curr, merge_inv curr l -> P curr l (merge_list curr l).
Proof.
  intros Hnil Hkeep Hext Hskip l. induction l as [|x l IH]; intros curr Hinv; [done|]. simpl.
  pose proof (merge_inv_keep _ _ _ Hinv). pose proof (merge_inv_skip _ _ _ Hinv).
  assert (entry_wf curr /\ entry_wf x /\ merge_ok curr x) as (Hc & Hx & Hcx).
  { destruct Hinv as [Hwf Hs]. apply Forall_cons in Hwf as [? Hwf]. apply StronglySorted_cons in Hs as [Hs _].
    apply Forall_inv in Hwf. by apply Forall_inv in Hs. }
  destruct (Z.eqb_spec (type x) (type curr)) as [Ht|Ht]; simpl; [|by apply Hkeep; auto].
  pose proof (merge_compare curr x Hc Hx Hcx (eq_sym Ht)) as Hcmp.
  destruct (range_compare _ _).
  - apply Hkeep; auto.
  - apply (Hext curr x); try done. apply IH. apply merge_inv_extend; [done|lia].
  - apply (Hext curr x); try done. apply IH. apply merge_inv_extend; [done|lia].
  - by apply (Hskip curr x); auto.
Qed.

Lemma merge_inv_head curr x l :
  merge_inv curr (x :: l) -> entry_wf curr /\ entry_wf x /\ base curr <= base x.
Proof.
  intros [Hwf Hs]. apply Forall_cons in Hwf as [? Hwf]. apply StronglySorted_cons in Hs as [Hs _].
  apply Forall_inv in Hwf. by apply Forall_inv in Hs as [? _].
Qed.

(** Merging in order preserves the addresses covered, type by type. *)
Lemma merge_list_covers l curr t a :
  merge_inv curr l -> covers (merge_list curr l) t a <-> covers (curr :: l) t a.
Proof.
  revert l curr. apply (merge_list_ind (fun curr l out => covers out t a <-> covers (curr :: l) t a)).
  - done.
  - intros curr x l out _ _ IH. by rewrite covers_cons, IH, <- covers_cons.
  - intros curr x l out Hinv Ht Hj ->. destruct (merge_inv_head _ _ _ Hinv) as (Hc & Hx & Hle).
    destruct (extend_entry_spec curr x Hc Hx) as (Hb & Hst & Hty); [lia|].
    rewrite !covers_cons, Hb, Hst, Hty, Ht. split.
    + intros [[? ?]|?]; [|by right; right]. destruct (Z.lt_ge_cases a (stop curr)); [left; lia|right; left; lia].
    + intros [?|[?|?]]; [left; lia|left; lia|by right].
  - intros curr x l out Hinv Ht Hj ->. destruct (merge_inv_head _ _ _ Hinv) as (_ & _ & Hle).
    rewrite !covers_cons, Ht. split; [intros [?|?]; [by left|by right; right]|].
    intros [?|[?|?]]; [by left|left; lia|by right].
Qed.

(** What the merge puts first has the type and the base of the current entry. *)
Lemma merge_list_head l curr :
  merge_inv curr l ->
  exists h l', merge_list curr l = h :: l' /\ base h = base curr /\ type h = type curr.
Proof.
  revert l curr. apply (merge_list_ind (fun curr l out =>
    exists h l', out = h :: l' /\ base h = base curr /\ type h = type curr)); eauto.
Qed.

Lemma merge_list_wf l curr : merge_inv curr l -> Forall entry_wf (merge_list curr l).
Proof.
  intros Hinv. pose proof Hinv as [Hwf _]. revert Hwf. revert l curr Hinv.
  apply (merge_list_ind (fun curr l out => Forall entry_wf (curr :: l) -> Forall entry_wf out)); try done.
  - intros curr x l out _ _ IH Hwf. apply Forall_cons in Hwf as [? Hwf]. constructor; auto.
  - intros curr x l out Hinv _ Hj IH _. apply IH.
    by apply (merge_inv_extend curr x l); [|lia].
  - intros curr x l out Hinv _ _ IH _. apply IH. by apply (merge_inv_skip curr x l).
Qed.

Lemma types_disjoint_sublist l1 l2 : l1 ⊆ l2 -> types_disjoint l2 -> types_disjoint l1.
Proof. intros Hsub Hdis a b Ha Hb. apply Hdis; by apply Hsub. Qed.

Lemma types_disjoint_extend curr x l :
  merge_inv curr (x :: l) -> type x = type curr -> stop curr < stop x ->
  types_disjoint (curr :: x :: l) -> types_disjoint (extend_entry curr x :: l).
Proof.
  intros Hinv Ht Hj Hdis. destruct (merge_inv_head _ _ _ Hinv) as (Hc & Hx & Hle).
  destruct (extend_entry_spec curr x Hc Hx) as (Hb & Hst & Hty); [lia|].
  assert (forall y, y ∈ l -> type y <> type curr -> stop x <= base y) as Hafter.
  { intros y Hy Hne. destruct (merge_inv_keep _ _ _ Hinv) as [Hwf Hs].
    apply StronglySorted_cons in Hs as [Hxl _]. apply Forall_cons in Hwf as [_ Hwf].
    apply list_elem_of_lookup in Hy as [i Hi].
    pose proof (Forall_lookup_1 _ _ _ _ Hxl Hi) as [Hxy _].
    pose proof (Forall_lookup_1 _ _ _ _ Hwf Hi) as Hyw. apply list_elem_of_lookup_2 in Hi.
    destruct (Hdis x y) as [?|?]; [set_solver|set_solver|congruence|done|].
    unfold entry_wf, stop in *. lia. }
  intros a b Ha Hb'. apply elem_of_cons in Ha as [->|Ha], Hb' as [->|Hb']; rewrite ?Hty.
  - done.
  - intros Hne. left. rewrite Hst. by apply Hafter; [|congruence].
  - intros Hne. right. rewrite Hst. by apply Hafter.
  - intros Hne. apply Hdis; [set_solver|set_solver|done].
Qed.

(** When entries of different types are disjoint, the merged entries are
    separated from their neighbours. *)
Lemma merge_list_separated l curr :
  merge_inv curr l -> types_disjoint (curr :: l) -> Sorted separated (merge_list curr l).
Proof.
  intros Hinv. enough (types_disjoint (curr :: l) -> Sorted separated (merge_list curr l) /\
    exists h l', merge_list curr l = h :: l' /\ base h = base curr /\ type h = type curr) as H.
  { intros Hdis. by destruct (H Hdis). }
  revert l curr Hinv. apply (merge_list_ind (fun curr l out => types_disjoint (curr :: l) ->
    Sorted separated out /\ exists h l', out = h :: l' /\ base h = base curr /\ type h = type curr)).
  - intros curr _. split; [by repeat constructor|eauto].
  - intros curr x l out Hinv Hsep IH Hdis. destruct (merge_inv_head _ _ _ Hinv) as (Hc & Hx & Hle).
    destruct IH as [Hs (h & l' & -> & Hb & Ht)]; [eapply types_disjoint_sublist, Hdis; set_solver|].
    split; [|eauto]. constructor; [done|]. constructor. unfold separated. rewrite Hb, Ht.
    split; [|intros Heq; by apply Hsep].
    destruct (Z.eq_dec (type x) (type curr)) as [Heq|Hne]; [specialize (Hsep Heq); lia|].
    destruct (Hdis curr x) as [?|?]; [set_solver|set_solver|congruence|done|].
    unfold entry_wf, stop in *. lia.
  - intros curr x l out Hinv Ht Hj IH Hdis. destruct (merge_inv_head _ _ _ Hinv) as (Hc & Hx & _).
    destruct (extend_entry_spec curr x Hc Hx) as (Hb & Hst & Hty); [lia|]. rewrite <- Hb, <- Hty.
    apply IH. apply types_disjoint_extend; try done. lia.
  - intros curr x l out Hinv Ht Hj IH Hdis. apply IH. eapply types_disjoint_sublist, Hdis. set_solver.
Qed.

(** A sorted map whose equal bases agree is a valid input of the merge. *)
Lemma sorted_merge_inv e l :
  Forall entry_wf (e :: l) -> StronglySorted entry_le (e :: l) -> bases_agree (e :: l) ->
  merge_inv e l.
Proof.
  intros Hwf Hs Hagree. split; [done|].
  induction Hs as [|x k Hs IH Hall]; constructor.
  - apply IH; [by apply Forall_inv_tail in Hwf|]. intros a b Ha Hb. apply Hagree; set_solver.
  - apply Forall_lookup. intros i y Hy. pose proof (Forall_lookup_1 _ _ _ _ Hall Hy) as Hle.
    rewrite entry_le_spec in Hle. split; [lia|]. intros Ht Hb. apply list_elem_of_lookup_2 in Hy.
    assert (size x = size y) by (apply Hagree; set_solver). unfold stop. lia.
Qed.

(** ** Normalising *)

(** Deleting moves the entries after the deleted one down by one place. *)
Lemma delete_loop_spec rest : forall pre x tail,
  exists y, delete_loop (length rest) (length pre) (pre ++ x :: rest ++ tail) =
    Some (pre ++ rest ++ y :: tail).
Proof.
  induction rest as [|e rest IH]; intros pre x tail; [by exists x|]. simpl delete_loop.
  assert ((pre ++ x :: e :: rest ++ tail) !! S (length pre) = Some e) as Hlk.
  { change (x :: e :: rest ++ tail) with ([x] ++ e :: rest ++ tail). rewrite app_assoc.
    apply lookup_middle. rewrite length_app. simpl. lia. }
  simpl in *. rewrite Hlk. simpl. rewrite zstore_middle by done. simpl.
  destruct (IH (pre ++ [e]) e tail) as (y & Hy). exists y.
  rewrite length_app, <- !app_assoc in Hy. simpl in Hy. by rewrite Nat.add_1_r in Hy.
Qed.

Lemma count_set_entries n arr info : 0 <= n < 2 ^ 31 -> count (set_entries n arr info) = Z.to_nat n.
Proof. intros Hn. unfold count, i32, swrap. simpl. rewrite Z.mod_small by lia. f_equal. lia. Qed.

Lemma delete_e820_entry_spec info0 info pre x rest :
  normalise_at info0 info pre (x :: rest) -> Z.of_nat (length (pre ++ x :: rest)) < 2 ^ 31 ->
  wp (delete_e820_entry (length pre)) info (fun _ info' => normalise_at info0 info' pre rest).
Proof.
  intros (tail & ->) Hl. rewrite length_app in *. simpl length in *.
  unfold delete_e820_entry. apply wp_bind. apply wp_get. 
  rewrite (proj2 (Z.eqb_neq _ 0)) by (simpl; lia). apply wp_bind. rewrite count_set_entries by lia.
  destruct (delete_loop_spec rest pre x tail) as (y & Hy). eapply wp_lift.
  - simpl. rewrite <- Hy. f_equal. lia.
  - apply wp_put. exists (y :: tail). unfold set_entries. simpl. f_equal.
    unfold u32. rewrite wrap_small by (unfold is_u; lia). rewrite length_app. lia.
Qed.

Lemma normalise_loop_spec info0 rest : forall pre info fuel,
  normalise_at info0 info pre rest -> Z.of_nat (length (pre ++ rest)) < 2 ^ 31 -> (length rest < fuel)%nat ->
  wp (normalise_loop fuel (length pre)) info (fun _ info' =>
    normalise_at info0 info' (pre ++ normalise_list rest) [] /\
    (length (pre ++ normalise_list rest) <= length (pre ++ rest))%nat).
Proof.
  induction rest as [|x rest IH]; intros pre info fuel Hat Hl Hf; (destruct fuel as [|fuel]; [lia|]);
    simpl normalise_loop; apply wp_bind; apply wp_get; destruct Hat as (tail & ->);
    rewrite count_set_entries by lia; rewrite Nat2Z.id, length_app.
  - rewrite (proj2 (Nat.leb_le _ _)) by (simpl; lia). simpl. rewrite !app_nil_r. split; [|lia].
    exists tail. rewrite app_nil_r, Nat.add_0_r. done.
  - rewrite (proj2 (Nat.leb_gt _ _)) by (simpl; lia). apply wp_bind.
    apply wp_lift with x; [simpl; by apply lookup_middle|]. simpl normalise_list.
    assert (forall e', wp (normalise_loop fuel (S (length pre)))
        (set_entries (Z.of_nat (length pre + length (x :: rest))) (pre ++ e' :: rest ++ tail) info0)
        (fun _ info' => normalise_at info0 info' (pre ++ e' :: normalise_list rest) [] /\
           (length (pre ++ e' :: normalise_list rest) <= length pre + length (x :: rest))%nat)) as Hnext.
    { intros e'. replace (S (length pre)) with (length (pre ++ [e'])) by (rewrite length_app; simpl; lia).
      eapply wp_mono; [apply IH|].
      - exists tail. rewrite <- !app_assoc. simpl. unfold set_entries. simpl. f_equal.
        rewrite !length_app. simpl. lia.
      - rewrite !length_app in *. simpl in *. lia.
      - simpl in Hf. lia.
      - simpl. intros _ info'. rewrite <- !app_assoc. simpl. rewrite !length_app. simpl. done. }
    destruct (normalise_entry x) as [|e'|] eqn:Hx.
    + apply Hnext.
    + apply wp_bind. eapply wp_lift; [simpl; by apply zstore_middle|]. apply wp_bind. apply wp_put.
      apply Hnext.
    + apply wp_bind. eapply wp_mono; [apply (delete_e820_entry_spec info0 _ pre x rest)|].
      * exists tail. f_equal. by rewrite length_app.
      * done.
      * simpl. intros ? info' Hat'. eapply wp_mono; [apply IH; [done| |simpl in Hf; lia]|].
        -- rewrite !length_app in *. simpl in *. lia.
        -- simpl. rewrite !length_app. intros ? ? [? ?].
           split; [done|]. lia.
Qed.

Lemma early_normalise_refines info :
  info_wf info ->
  wp early_normalise_e820 info (fun _ info' =>
    info_wf info' /\ same_header info info' /\ entries info' = normalise_list (entries info)).
Proof.
  intros Hwf. destruct (entries_split info Hwf) as (tail & Harr & Hlen & Hc).
  destruct Hwf as [Hn Hl]. unfold early_normalise_e820. apply wp_bind. apply wp_get.
  eapply wp_mono; [apply (normalise_loop_spec info (entries info) [] info)|].
  - exists tail. destruct info. unfold set_entries. simpl in *. f_equal; [lia|done].
  - simpl. lia.
  - lia.
  - simpl. intros _ info' [(tail' & ->) Hle]. rewrite !app_nil_r.
    destruct (entries_set_entries (normalise_list (entries info)) tail' info
      (Z.of_nat (length (normalise_list (entries info))))) as [He Hw]; [done|lia|].
    simpl. by repeat split; try apply Hw.
Qed.

Lemma normalise_entry_ram e :
  entry_wf e -> below_top e -> type e = E820_TYPE_RAM ->
  match normalise_entry e with
  | Keep => base e mod 4096 = 0 /\ size e mod 4096 = 0
  | Trim e' => entry_wf e' /\ type e' = E820_TYPE_RAM /\ base e' mod 4096 = 0 /\ size e' mod 4096 = 0 /\
      base e <= base e' /\ stop e' <= stop e /\ forall p, page_in e' p <-> page_in e p
  | Delete => forall p, ~ page_in e p
  end.
Proof.
  unfold entry_wf, below_top, page_in. intros (H0 & Hsz & Htop) Hb Ht. unfold normalise_entry.
  rewrite Ht, Z.eqb_refl. simpl. assert ((base e + size e)%u64 = stop e) as ->.
  { apply add64_small. unfold is_u, stop in *. lia. }
  rewrite PAGE_SIZE_pow, !IS_ALIGNED_pow by lia. change (2 ^ 12) with 4096 at 1 2.
  destruct (_ && _) eqn:Hal; bool_to_prop.
  { unfold stop in *. split; [done|]. Z.div_mod_to_equations. lia. }
  rewrite ALIGN_UP_pow, ALIGN_pow by (unfold is_u, stop in *; lia). change (2 ^ 12) with 4096.
  destruct (Z.ltb_spec ((base e + 4096 - 1) / 4096 * 4096) (stop e - stop e mod 4096)) as [Hlt|Hge].
  - rewrite sub64_small by (unfold is_u, stop in *; Z.div_mod_to_equations; lia).
    unfold stop in *. simpl. repeat split; Z.div_mod_to_equations; lia.
  - intros p. unfold stop in *. Z.div_mod_to_equations. lia.
Qed.

(** Where the entries of the normalised list come from. *)
Lemma normalise_list_elem l e' :
  e' ∈ normalise_list l ->
  exists e, e ∈ l /\ (normalise_entry e = Keep /\ e' = e \/ normalise_entry e = Trim e').
Proof.
  induction l as [|x l IH]; simpl; [by intros ?%elem_of_nil|].
  destruct (normalise_entry x) as [|y|] eqn:Hx; rewrite ?elem_of_cons.
  - intros [->|(e & He & Hc)%IH]; [|set_solver]. exists x. set_solver.
  - intros [->|(e & He & Hc)%IH]; [|set_solver]. exists x. set_solver.
  - intros (e & He & Hc)%IH. set_solver.
Qed.

Lemma elem_normalise_list l e :
  e ∈ l ->
  match normalise_entry e with
  | Keep => e ∈ normalise_list l
  | Trim e' => e' ∈ normalise_list l
  | Delete => True
  end.
Proof.
  induction l as [|x l IH]; simpl; [by intros ?%elem_of_nil|].
  rewrite elem_of_cons. intros [->|He].
  - destruct (normalise_entry x); set_solver.
  - specialize (IH He). destruct (normalise_entry x), (normalise_entry e); set_solver.
Qed.

Lemma normalise_entry_nonram e : type e <> E820_TYPE_RAM -> normalise_entry e = Keep.
Proof. intros H. unfold normalise_entry. by rewrite (proj2 (Z.eqb_neq _ _)). Qed.

(** Normalising keeps exactly the whole pages of each RAM entry. *)
Lemma normalise_list_pages l :
  Forall entry_wf l -> Forall below_top l ->
  Forall entry_wf (normalise_list l) /\ Forall ram_aligned (normalise_list l) /\
  (forall p, ram_page (normalise_list l) p <-> ram_page l p).
Proof.
  intros Hwf Htop.
  assert (forall e, e ∈ l -> entry_wf e /\ below_top e) as Hl.
  { intros e [i Hi]%list_elem_of_lookup. split; by eapply Forall_lookup_1. }
  assert (forall e', e' ∈ normalise_list l -> exists e, e ∈ l /\ entry_wf e' /\ ram_aligned e' /\
            type e' = type e /\ forall p, type e = E820_TYPE_RAM -> page_in e' p <-> page_in e p) as Hfrom.
  { intros e' (e & He & Hc)%normalise_list_elem. destruct (Hl e He) as [Hew Heb]. exists e.
    destruct (Z.eq_dec (type e) E820_TYPE_RAM) as [Ht|Ht].
    - pose proof (normalise_entry_ram e Hew Heb Ht) as Hspec.
      destruct Hc as [[Hk ->]|Hk]; rewrite Hk in Hspec.
      + split; [done|]. split; [done|]. by split; [intros _|].
      + destruct Hspec as (H1 & H2 & H3 & H4 & _ & _ & Hp).
        split; [done|]. split; [done|]. split; [by intros _|]. split; [congruence|]. intros p _. apply Hp.
    - rewrite normalise_entry_nonram in Hc by done. destruct Hc as [[_ ->]|?]; [|done].
      split; [done|]. split; [done|]. by split; [intros ?|]. }
  split; [|split].
  - apply Forall_lookup. intros i e' Hi%list_elem_of_lookup_2. by destruct (Hfrom e' Hi) as (e & _ & ? & _).
  - apply Forall_lookup. intros i e' Hi%list_elem_of_lookup_2. by destruct (Hfrom e' Hi) as (e & _ & _ & ? & _).
  - intros p. split.
    + intros (e' & He' & Ht & Hp). destruct (Hfrom e' He') as (e & He & _ & _ & Hty & Hpe).
      exists e. split; [done|]. split; [congruence|]. apply Hpe; congruence.
    + intros (e & He & Ht & Hp). destruct (Hl e He) as [Hew Heb].
      pose proof (elem_normalise_list l e He) as Hin. pose proof (normalise_entry_ram e Hew Heb Ht) as Hspec.
      destruct (normalise_entry e) as [|e'|]; [by exists e| |by destruct (Hspec p)].
      exists e'. split; [done|]. split; [apply Hspec|]. by apply Hspec.
Qed.

(** ** Totals *)

Lemma total_loop_spec l : forall pre tail bytes num,
  0 <= num -> num + Z.of_nat (length l) < 2 ^ 64 ->
  total_loop (length l) (length pre) (pre ++ l ++ tail) (u64 bytes) num =
    Some (u64 (bytes + ram_bytes l), num + count_true is_ram l).
Proof.
  induction l as [|e l IH]; intros pre tail bytes num H0 Hn; simpl.
  - by rewrite !Z.add_0_r.
  - rewrite lookup_middle by done. simpl. unfold is_ram. simpl length in Hn.
    assert ((pre ++ [e]) ++ l ++ tail = pre ++ e :: l ++ tail) as Happ by by rewrite <- app_assoc.
    assert (length (pre ++ [e]) = S (length pre)) as Hlen by (rewrite length_app; simpl; lia).
    destruct (Z.eqb_spec (type e) E820_TYPE_RAM); simpl; rewrite <- Happ, <- Hlen.
    + assert (add64 (u64 bytes) (size e) = u64 (bytes + size e)) as ->.
      { unfold add64, u64, wrap. by rewrite Zplus_mod_idemp_l. }
      rewrite add64_small by (unfold is_u; lia). rewrite IH by lia. do 2 f_equal; [f_equal|]; unfold is_ram; lia.
    + by rewrite IH by lia.
Qed.

Lemma MAX_E820_RAM_ENTRIES_value : MAX_E820_RAM_ENTRIES = 72.
Proof. reflexivity. Qed.

Lemma early_set_total_ram_eq info :
  info_wf info ->
  early_set_total_ram info =
    if 72 <? count_true is_ram (entries info) then
      Panic "There are %lu E820 RAM entries present, maximum permitted is %lu"
    else Done tt (mk_info (u64 (ram_bytes (entries info))) (count_true is_ram (entries info))
                   (apic_base info) (kernel_elf_size_bytes info) (num_e820_entries info) (e820_entries info)).
Proof.
  intros Hwf. destruct (entries_split info Hwf) as (tail & Harr & Hlen & Hc). destruct Hwf as [Hn _].
  pose proof (total_loop_spec (entries info) [] tail 0 0) as Ht. simpl in Ht.
  rewrite Z.add_0_l in Ht. rewrite <- Harr, Hlen in Ht. unfold early_set_total_ram, mbind, M_bind, get.
  change (u64 0) with 0 in Ht. rewrite Ht by lia. simpl. rewrite MAX_E820_RAM_ENTRIES_value. by destruct (72 <? _).
Qed.

(** ** The four passes together *)

Lemma merge_list_below B l curr :
  merge_inv curr l -> Forall (fun e => stop e <= B) (curr :: l) ->
  Forall (fun e => stop e <= B) (merge_list curr l).
Proof.
  revert l curr. apply (merge_list_ind (fun curr l out =>
    Forall (fun e => stop e <= B) (curr :: l) -> Forall (fun e => stop e <= B) out)); try done.
  - intros curr x l out _ _ IH [Hc Hl]%Forall_cons. constructor; auto.
  - intros curr x l out Hinv _ Hj IH [_ [Hx Hl]%Forall_cons]%Forall_cons.
    destruct (merge_inv_head _ _ _ Hinv) as (Hc & Hxw & _).
    apply IH. constructor; [|done]. destruct (extend_entry_spec curr x Hc Hxw) as (_ & -> & _); [lia|done].
  - intros curr x l out _ _ _ IH [Hc [_ Hl]%Forall_cons]%Forall_cons. apply IH. by constructor.
Qed.

Lemma Sorted_separated_strong l :
  Forall entry_wf l -> Sorted separated l -> StronglySorted separated l.
Proof.
  intros Hwf Hs. induction Hs as [|a l Hs IH Hd]; [constructor|].
  apply Forall_cons in Hwf as [Ha Hwf]. specialize (IH Hwf). constructor; [done|].
  destruct Hd as [|b l Hab]; [constructor|]. apply StronglySorted_cons in IH as [Hb _].
  apply Forall_cons in Hwf as [Hbw Hwf]. constructor; [done|]. eapply Forall_impl; [apply Hb|].
  intros y [Hy _]. unfold separated, entry_wf, stop in *. lia.
Qed.

Lemma normalise_list_separated l :
  Forall entry_wf l -> Forall below_top l -> StronglySorted separated l ->
  StronglySorted separated (normalise_list l).
Proof.
  intros Hwf Htop Hs.
  assert (forall e, e ∈ l -> forall e', (normalise_entry e = Keep /\ e' = e \/ normalise_entry e = Trim e') ->
    base e <= base e' /\ stop e' <= stop e /\ type e' = type e) as Hshrink.
  { intros e [i Hi]%list_elem_of_lookup e' Hc.
    pose proof (Forall_lookup_1 _ _ _ _ Hwf Hi) as Hew. pose proof (Forall_lookup_1 _ _ _ _ Htop Hi) as Heb.
    destruct Hc as [[_ ->]|Hk]; [lia|].
    destruct (Z.eq_dec (type e) E820_TYPE_RAM) as [Ht|Ht]; [|by rewrite normalise_entry_nonram in Hk].
    pose proof (normalise_entry_ram e Hew Heb Ht) as Hspec. rewrite Hk in Hspec.
    destruct Hspec as (_ & H2 & _ & _ & H3 & H4 & _). rewrite H2, Ht. done. }
  clear Hwf Htop. induction Hs as [|x l Hs IH Hall]; simpl; [constructor|].
  assert (StronglySorted separated (normalise_list l)) as Hn.
  { apply IH. intros e He. apply Hshrink. set_solver. }
  assert (forall x', (normalise_entry x = Keep /\ x' = x \/ normalise_entry x = Trim x') ->
    StronglySorted separated (x' :: normalise_list l)) as Hcons.
  { intros x' Hx'. destruct (Hshrink x ltac:(set_solver) x' Hx') as (H1 & H2 & H3).
    constructor; [done|]. apply Forall_lookup. intros i y' (y & Hy & Hc)%list_elem_of_lookup_2%normalise_list_elem.
    destruct (Hshrink y ltac:(set_solver) y' Hc) as (H4 & H5 & H6).
    apply list_elem_of_lookup in Hy as [j Hj]. destruct (Forall_lookup_1 _ _ _ _ Hall Hj) as [H7 H8].
    unfold separated. rewrite H3, H6. split; [lia|]. intros Ht. specialize (H8 Ht). lia. }
  destruct (normalise_entry x) as [|y|]; [apply Hcons; by left|apply Hcons; by right|done].
Qed.

Lemma normalise_list_length l : (length (normalise_list l) <= length l)%nat.
Proof. induction l as [|x l IH]; simpl; [done|]. destruct (normalise_entry x); simpl; lia. Qed.

(** The RAM of separated entries fits below the highest of their ends. *)
Lemma ram_bytes_bound B l : forall lo,
  Forall entry_wf l -> StronglySorted separated l -> Forall (fun e => lo <= base e /\ stop e <= B) l ->
  lo <= B -> 0 <= ram_bytes l <= B - lo.
Proof.
  induction l as [|e l IH]; intros lo Hwf Hs Hb Hlo; simpl; [lia|].
  apply Forall_cons in Hwf as [He Hwf]. apply StronglySorted_cons in Hs as [Hel Hs].
  apply Forall_cons in Hb as [[Hb1 Hb2] Hb].
  assert (0 <= ram_bytes l <= B - stop e) as Hl.
  { apply IH; [done|done| |done]. apply Forall_lookup. intros i y Hy.
    pose proof (Forall_lookup_1 _ _ _ _ Hel Hy) as [? _]. pose proof (Forall_lookup_1 _ _ _ _ Hb Hy) as [_ ?]. done. }
  unfold entry_wf, stop in *. destruct (is_ram e); lia.
Qed.

(** In a separated map, a page whose every byte is RAM lies in one RAM entry. *)
Lemma separated_page l p :
  Forall entry_wf l -> StronglySorted separated l ->
  ram_page l p <-> forall a, 4096 * p <= a < 4096 * p + 4096 -> covers l E820_TYPE_RAM a.
Proof.
  intros Hwf Hs. split.
  - intros (e & He & Ht & Hp) a Ha. exists e. unfold page_in in Hp. split; [done|]. split; [done|lia].
  - intros Hall. destruct (Hall (4096 * p)) as (e & He & Ht & Hb); [lia|].
    exists e. split; [done|]. split; [done|]. split; [lia|].
    destruct (Z.le_gt_cases (4096 * p + 4096) (stop e)) as [|Hgt]; [done|]. exfalso.
    destruct (Hall (stop e)) as (e' & He' & Ht' & Hb'); [lia|].
    apply list_elem_of_lookup in He as [i Hi]. apply list_elem_of_lookup in He' as [j Hj].
    assert (forall k1 k2 x y, (k1 < k2)%nat -> l !! k1 = Some x -> l !! k2 = Some y -> separated x y) as Hsep.
    { clear -Hs. induction Hs as [|z l Hs IH Hz]; intros k1 k2 x y Hk H1 H2; [done|].
      destruct k1, k2; simpl in *; try lia.
      - injection H1 as <-. by eapply Forall_lookup_1.
      - eapply IH; [|done|done]. lia. }
    destruct (Nat.lt_trichotomy i j) as [Hij|[->|Hij]].
    + destruct (Hsep i j e e' Hij Hi Hj) as [_ H]. specialize (H ltac:(congruence)). lia.
    + assert (e = e') as -> by congruence. lia.
    + destruct (Hsep j i e' e Hij Hj Hi) as [H _]. lia.
Qed.

Lemma covers_Permutation l1 l2 t a : l1 ≡ₚ l2 -> covers l1 t a <-> covers l2 t a.
Proof. intros Hp. unfold covers. by setoid_rewrite Hp. Qed.

(** Normalising only shrinks entries. *)
Lemma normalise_list_below l :
  Forall entry_wf l -> Forall below_top l ->
  Forall (fun e => 0 <= base e /\ stop e <= 2 ^ 64 - 4096) (normalise_list l).
Proof.
  intros Hwf Htop. apply Forall_forall. intros e' (e & He & Hc)%normalise_list_elem.
  pose proof (proj1 (Forall_forall _ _) Hwf e He) as Hew.
  pose proof (proj1 (Forall_forall _ _) Htop e He) as Heb.
  destruct Hc as [[_ ->]|Hc]; [unfold entry_wf, below_top in *; lia|].
  destruct (Z.eq_dec (type e) E820_TYPE_RAM) as [Ht|Ht]; [|by rewrite normalise_entry_nonram in Hc].
  pose proof (normalise_entry_ram e Hew Heb Ht) as Hr. rewrite Hc in Hr. unfold entry_wf, below_top in *. lia.
Qed.

Lemma ram_bytes_aligned l : Forall ram_aligned l -> ram_bytes l mod 4096 = 0.
Proof.
  induction 1 as [|e l He _ IH]; [done|]. simpl. unfold is_ram. rewrite Z.add_mod, IH by done.
  destruct (Z.eqb_spec (type e) E820_TYPE_RAM) as [Ht|]; [|done]. by rewrite (proj2 (He Ht)).
Qed.

(** The four passes together. *)
Lemma e820_passes_ok info :
  info_wf info -> entries info <> [] -> num_e820_entries info <= 72 ->
  Forall entry_wf (entries info) -> Forall below_top (entries info) ->
  bases_agree (entries info) -> types_disjoint (entries info) ->
  wp e820_passes info (fun _ info' =>
    Forall ram_aligned (entries info') /\ StronglySorted separated (entries info') /\
    (forall p, ram_page (entries info') p <->
       forall a, 4096 * p <= a < 4096 * p + 4096 -> covers (entries info) E820_TYPE_RAM a) /\
    total_avail_ram_bytes info' = ram_bytes (entries info') /\
    total_avail_ram_bytes info' mod 4096 = 0 /\
    num_ram_spans info' = count_true is_ram (entries info')).
Proof.
  intros Hwf Hne Hnum Hew Htop Hag Hdis. unfold e820_passes. apply wp_bind.
  eapply wp_mono; [by apply early_sort_spec|]. simpl. intros _ i1 (Hwf1 & _ & Hn1 & Hs1 & Hp1).
  destruct (entries i1) as [|e l] eqn:He1; [by apply Permutation_nil in Hp1|].
  assert (Forall entry_wf (e :: l)) as Hew1 by by rewrite Hp1.
  assert (Forall below_top (e :: l)) as Htop1 by by rewrite Hp1.
  assert (types_disjoint (e :: l)) as Hdis1 by (intros a b; rewrite Hp1; apply Hdis).
  assert (merge_inv e l) as Hinv.
  { apply sorted_merge_inv; [done|done|]. intros a b. rewrite Hp1. apply Hag. }
  apply wp_bind. eapply wp_mono; [by apply (early_merge_refines i1 e l)|].
  simpl. intros _ i2 (Hwf2 & _ & He2). apply wp_bind.
  eapply wp_mono; [by apply early_normalise_refines|]. simpl. intros _ i3 (Hwf3 & _ & He3).
  rewrite He2 in He3.
  pose proof (merge_list_wf l e Hinv) as Hmw. pose proof (merge_list_below (2 ^ 64 - 4096) l e Hinv Htop1) as Hmt.
  pose proof (Sorted_separated_strong _ Hmw (merge_list_separated l e Hinv Hdis1)) as Hms.
  destruct (normalise_list_pages (merge_list e l) Hmw Hmt) as (Hnw & Hna & Hnp).
  pose proof (normalise_list_separated (merge_list e l) Hmw Hmt Hms) as Hns.
  unfold wp. rewrite (early_set_total_ram_eq i3 Hwf3), He3.
  rewrite (proj2 (Z.ltb_ge _ _)).
  2:{ pose proof (count_true_bounds is_ram (normalise_list (merge_list e l))).
      pose proof (normalise_list_length (merge_list e l)). pose proof (merge_list_length e l).
      assert (length (entries info) = S (length l)) as Hlen by (by rewrite <- Hp1).
      destruct (entries_split info Hwf) as (_ & _ & Hc1 & Hc2). unfold zlength in *. destruct Hwf. lia. }
  assert (0 <= ram_bytes (normalise_list (merge_list e l)) <= 2 ^ 64 - 4096 - 0) as Hb.
  { apply ram_bytes_bound; [done|done| |lia]. by apply normalise_list_below. }
  change (entries (mk_info _ _ _ _ (num_e820_entries i3) (e820_entries i3))) with (entries i3). rewrite He3.
  simpl. rewrite u64_small by (unfold is_u; lia).
  split; [done|]. split; [done|]. split; [|split; [done|split; [|done]]].
  - intros p. rewrite Hnp, separated_page by done.
    setoid_rewrite (merge_list_covers l e E820_TYPE_RAM _ Hinv). by setoid_rewrite (covers_Permutation _ _ _ _ Hp1).
  - by apply ram_bytes_aligned.
Qed.

(** ** Properties *)

Lemma sample_info_ok :
  info_wf sample_info /\ entries sample_info <> [] /\ Forall entry_wf (entries sample_info) /\
  Forall below_top (entries sample_info) /\ bases_agree (entries sample_info) /\
  types_disjoint (entries sample_info).
Proof.
  split; [by vm_compute|]. split; [done|]. split; [by repeat constructor|]. split; [by repeat constructor|].
  split; intros a b Ha Hb; vm_compute in Ha, Hb;
    repeat (apply elem_of_cons in Ha as [->|Ha]; [|]); try (by apply elem_of_nil in Ha);
    repeat (apply elem_of_cons in Hb as [->|Hb]; [|]); try (by apply elem_of_nil in Hb);
    unfold stop; simpl; lia.
Qed.

(** [early_sort_e820] never leaves the array and sorts the entries in use by
    base and then size: the result is in that order, is a permutation of the
    input, and nothing else of the boot information changes. *)
Theorem early_sort_e820_sorts info :
  info_wf info ->
  wp early_sort_e820 info (fun _ info' =>
    info_wf info' /\ same_header info info' /\ num_e820_entries info' = num_e820_entries info /\
    StronglySorted entry_le (entries info') /\ entries info' ≡ₚ entries info).
Proof. apply early_sort_spec. Qed.

Lemma early_sort_e820_sorts_witness :
  wp early_sort_e820 sample_info (fun _ info' =>
    StronglySorted entry_le (entries info') /\ map base (entries info') = [0; 0x9fc00; 0x100000; 0x103000]).
Proof.
  apply wp_and; [|by vm_compute].
  eapply wp_mono; [apply (early_sort_e820_sorts sample_info); apply sample_info_ok|].
  simpl. intros _ info' (_ & _ & _ & Hs & _). done.
Defined.

(** [early_merge_e820] on a sorted, non-empty map whose entries are
    non-empty and do not wrap, and in which entries of one type and base have
    one size: it returns without leaving the array, for every type the merged
    entries cover exactly the addresses the input covers, and when entries of
    different types do not overlap the result is in strictly increasing order
    with no two neighbours overlapping, nor touching when they have one type. *)
Theorem early_merge_e820_correct info :
  info_wf info -> entries info <> [] -> Forall entry_wf (entries info) ->
  StronglySorted entry_le (entries info) -> bases_agree (entries info) ->
  wp early_merge_e820 info (fun _ info' =>
    info_wf info' /\ same_header info info' /\ Forall entry_wf (entries info') /\
    (forall t a, covers (entries info') t a <-> covers (entries info) t a) /\
    (types_disjoint (entries info) -> Sorted separated (entries info'))).
Proof.
  intros Hwf Hne Hew Hs Hagree. destruct (entries info) as [|e l] eqn:He; [done|].
  pose proof (sorted_merge_inv e l Hew Hs Hagree) as Hinv.
  eapply wp_mono; [by apply early_merge_refines|]. simpl. intros _ info' (H1 & H2 & ->).
  split; [done|]. split; [done|]. split; [by apply merge_list_wf|].
  split; [intros t a; by apply merge_list_covers|]. by apply merge_list_separated.
Qed.

(** Merging can lose memory. Two RAM entries with one base, sorted by size
    as the sort leaves them, "coincide", and the merge keeps the first, smaller
    one: the bytes only the larger covered are in no entry afterwards. *)
Theorem early_merge_e820_loses_ram :
  exists info a, info_wf info /\ Forall entry_wf (entries info) /\
    StronglySorted entry_le (entries info) /\ covers (entries info) E820_TYPE_RAM a /\
    wp early_merge_e820 info (fun _ info' => ~ covers (entries info') E820_TYPE_RAM a).
Proof.
  set (small := mk_entry 0 0x1000 1). set (large := mk_entry 0 0x2000 1).
  exists (mk_info 0 0 0 0 2 [small; large]), 0x1800. split; [by vm_compute|].
  change (entries (mk_info 0 0 0 0 2 [small; large])) with [small; large].
  split; [by repeat constructor|]. split; [by repeat constructor|].
  split; [exists large; split; [set_solver|by vm_compute]|].
  eapply done_wp; [vm_compute; reflexivity|]. cbv beta. intros (e & He & _ & Ha).
  apply elem_of_cons in He as [->|He]; [unfold stop in Ha; simpl in Ha; lia|by apply elem_of_nil in He].
Qed.

Lemma early_merge_e820_correct_witness :
  wp early_merge_e820 (mk_info 0 0 0 0 3 [mk_entry 0 0x1000 1; mk_entry 0x1000 0x1000 1; mk_entry 0x2000 0x1000 2])
    (fun _ info' => covers (entries info') 1 0x1800 /\ zlength (entries info') = 2).
Proof.
  apply wp_and; [|by vm_compute].
  eapply wp_mono; [apply early_merge_e820_correct|].
  - by vm_compute.
  - done.
  - by repeat constructor.
  - by repeat constructor.
  - intros a b Ha Hb. vm_compute in Ha, Hb.
    repeat (apply elem_of_cons in Ha as [->|Ha]; [|]); try (by apply elem_of_nil in Ha);
    repeat (apply elem_of_cons in Hb as [->|Hb]; [|]); try (by apply elem_of_nil in Hb); simpl; lia.
  - simpl. intros _ info' (_ & _ & _ & Hcov & _). apply Hcov.
    exists (mk_entry 0x1000 0x1000 1). split; [apply (list_elem_of_lookup_2 _ 1); by vm_compute|by vm_compute].
Defined.

(** C2: the e820 passes turn a firmware map of at most 72 entries (non-empty,
    away from the top of the address space, types not overlapping, equal bases
    of one type agreeing) into the RAM spans the allocators use: they return;
    RAM entries are made of whole pages; entries are in increasing order and
    separated; a page lies in a RAM entry exactly when every byte of it was
    reported as RAM; and the totals recorded are the sum of the RAM sizes, a
    multiple of the page size, and the number of RAM entries. *)
Theorem e820_passes_correct info :
  info_wf info -> entries info <> [] -> num_e820_entries info <= 72 ->
  Forall entry_wf (entries info) -> Forall below_top (entries info) ->
  bases_agree (entries info) -> types_disjoint (entries info) ->
  wp e820_passes info (fun _ info' =>
    Forall ram_aligned (entries info') /\ StronglySorted separated (entries info') /\
    (forall p, ram_page (entries info') p <->
       forall a, 4096 * p <= a < 4096 * p + 4096 -> covers (entries info) E820_TYPE_RAM a) /\
    total_avail_ram_bytes info' = ram_bytes (entries info') /\
    total_avail_ram_bytes info' mod 4096 = 0 /\
    num_ram_spans info' = count_true is_ram (entries info')).
Proof. apply e820_passes_ok. Qed.

Lemma e820_passes_correct_witness :
  wp e820_passes sample_info (fun _ info' =>
    StronglySorted separated (entries info') /\ total_avail_ram_bytes info' = ram_bytes (entries info') /\
    map size (entries info') = [0x9f000; 0x400; 0x4000]).
Proof.
  destruct sample_info_ok as (H1 & H2 & H3 & H4 & H5 & H6). eapply wp_mono.
  - apply wp_and; [apply (e820_passes_correct sample_info H1 H2); [by vm_compute|done..]|].
    instantiate (1 := fun _ info' => map size (entries info') = [0x9f000; 0x400; 0x4000]). by vm_compute.
  - simpl. intros _ info' [(_ & Hs & _ & Ht & _) Hm]. done.
Defined.
