(* ===== verification/Page.v ===== *)
(** * Addresses, page table entries and table memory (include/page.h)

    Physical and virtual addresses, page frame numbers, table addresses and
    table entries are the wrapped [uint64_t]s of the code ([physaddr_t],
    [virtaddr_t], [pfn_t], [pgdaddr_t], ..., [ptde_t]), here [Z].

    Page tables live in physical memory and are read and written through the
    direct map. [words] is that memory as the mapping code uses it: 64-bit words
    at 8-byte aligned virtual addresses. A word never written reads as 0. *)

From stdpp Require Import base gmap list numbers.
From Stdlib Require Import ZArith Lia Btauto.
From S2P Require Import Prelude Macros MmDefs.

(** ** Table memory *)

Abbreviation words := (gmap Z Z).

Definition load (m : words) (ptr : Z) : Z := default 0 (m !! ptr).

Definition store (m : words) (ptr x : Z) : words := <[ptr := x]> m.

(** [memset(ptr, 0, 8 * n)] on word-aligned [ptr]. *)
Fixpoint zero_words (n : nat) (ptr : Z) (m : words) : words :=
  match n with
  | O => m
  | S n' => zero_words n' (ptr + 8) (store m ptr 0)
  end.

(** ** Mapping flags *)

Definition map_flags_to_page_flags (map_flags : Z) : Z :=
  let mode := (map_flags & MAP_FLAG_MODE_MASK)%u64 in
  let set_modifiers flags :=
    let flags := if negb (IS_MASK_SET map_flags MAP_CODE) then (flags |: PAGE_FLAG_NX)%u64 else flags in
    if IS_MASK_SET map_flags MAP_READONLY then (flags ^^ PAGE_FLAG_RW)%u64 else flags in
  if mode =? MAP_KERNEL then set_modifiers PAGE_FLAG_KERNEL
  else if mode =? MAP_KERNEL_NOGLOBAL then set_modifiers PAGE_FLAG_DEFAULT
  else if mode =? MAP_DEVICE then
    set_modifiers (PAGE_FLAG_DEFAULT |: PAGE_FLAG_UNCACHED |: PAGE_FLAG_WRITE_THROUGH)%u64
  else 0.

(** ** Address conversions *)

Definition bytes_to_pages (bytes : Z) : Z := (ALIGN_UP bytes PAGE_SIZE >> PAGE_SHIFT)%u64.

Definition phys_to_virt (addr : Z) : Z := (KERNEL_DIRECT_MAP_BASE + addr)%u64.

Definition virt_to_ptr (va : Z) : Z := va.

Definition phys_to_virt_ptr (addr : Z) : Z := virt_to_ptr (phys_to_virt addr).

Definition pgd_to_virt_ptr (addr : Z) : Z := phys_to_virt_ptr addr.

Definition pud_to_virt_ptr (addr : Z) : Z := phys_to_virt_ptr addr.

Definition pmd_to_virt_ptr (addr : Z) : Z := phys_to_virt_ptr addr.

Definition ptd_to_virt_ptr (addr : Z) : Z := phys_to_virt_ptr addr.

Definition virt_to_phys (va : Z) : Z :=
  let offset := if KERNEL_ELF_ADDRESS <? va then KERNEL_ELF_ADDRESS else KERNEL_DIRECT_MAP_BASE in
  (va - offset)%u64.

Definition virt_ptr_to_phys (ptr : Z) : Z := virt_to_phys ptr.

(** [PAGE_SIZE] bytes are 512 words. *)
Definition zero_page (pa : Z) (m : words) : words := zero_words 512 (phys_to_virt_ptr pa) m.

Definition phys_to_pfn (pa : Z) : Z := (pa >> PAGE_SHIFT)%u64.

Definition pfn_to_phys (pfn : Z) : Z := (pfn << PAGE_SHIFT)%u64.

Definition phys_next_page (pa : Z) : Z := pfn_to_phys (phys_to_pfn pa + 1)%u64.

Definition phys_prev_page (pa : Z) : Z := pfn_to_phys (phys_to_pfn pa - 1)%u64.

Definition virt_next_page (va : Z) : Z := (((va >> PAGE_SHIFT) + 1) << PAGE_SHIFT)%u64.

(** ** Indexes into the tables *)

Definition virt_data_offset (addr : Z) : Z := (addr & PAGE_MASK)%u64.

Definition virt_ptde_index (addr : Z) : Z := ((addr >> PAGE_SHIFT) & PAGE_DIR_INDEX_MASK)%u64.

Definition virt_pmde_index (addr : Z) : Z := ((addr >> PMD_SHIFT) & PAGE_DIR_INDEX_MASK)%u64.

Definition virt_pude_index (addr : Z) : Z := ((addr >> PUD_SHIFT) & PAGE_DIR_INDEX_MASK)%u64.

Definition virt_pgde_index (addr : Z) : Z := ((addr >> PGD_SHIFT) & PAGE_DIR_INDEX_MASK)%u64.

Definition encode_virt (pgde_ind pude_ind pmde_ind ptde_ind offset : Z) : Z :=
  let va := ((pgde_ind << PGD_SHIFT) |: (pude_ind << PUD_SHIFT) |: (pmde_ind << PMD_SHIFT)
             |: (ptde_ind << PAGE_SHIFT) |: offset)%u64 in
  if IS_BIT_SET va (PHYS_ADDR_BITS - 1) then (va |: BIT_MASK_ABOVE PHYS_ADDR_BITS)%u64 else va.

Definition virt_next_pgde (addr : Z) : Z := (((addr >> PGD_SHIFT) + 1) << PGD_SHIFT)%u64.

Definition virt_next_pude (addr : Z) : Z := (((addr >> PUD_SHIFT) + 1) << PUD_SHIFT)%u64.

Definition virt_next_pmde (addr : Z) : Z := (((addr >> PMD_SHIFT) + 1) << PMD_SHIFT)%u64.

Definition virt_pgde_remaining_pages (addr : Z) : Z :=
  let addr := (addr & BIT_MASK_ABOVE PAGE_SHIFT)%u64 in
  bytes_to_pages (virt_next_pgde addr - addr)%u64.

Definition virt_pude_remaining_pages (addr : Z) : Z :=
  let addr := (addr & BIT_MASK_ABOVE PAGE_SHIFT)%u64 in
  bytes_to_pages (virt_next_pude addr - addr)%u64.

Definition virt_pmde_remaining_pages (addr : Z) : Z :=
  let addr := (addr & BIT_MASK_ABOVE PAGE_SHIFT)%u64 in
  bytes_to_pages (virt_next_pmde addr - addr)%u64.

Definition virt_offset_pages (addr pages : Z) : Z := (((addr >> PAGE_SHIFT) + pages) << PAGE_SHIFT)%u64.

Definition phys_offset_pages (addr pages : Z) : Z := (((addr >> PAGE_SHIFT) + pages) << PAGE_SHIFT)%u64.

(** ** Reading table entries *)

Definition pgde_present (pgde : Z) : bool := IS_BIT_SET pgde PAGE_FLAG_PRESENT_BIT.

Definition pude_present (pude : Z) : bool := IS_BIT_SET pude PAGE_FLAG_PRESENT_BIT.

Definition pmde_present (pmde : Z) : bool := IS_BIT_SET pmde PAGE_FLAG_PRESENT_BIT.

Definition ptde_present (ptde : Z) : bool := IS_BIT_SET ptde PAGE_FLAG_PRESENT_BIT.

Definition pude_1gib (pude : Z) : bool := IS_BIT_SET pude PAGE_FLAG_PSE_BIT.

Definition pmde_2mib (pmde : Z) : bool := IS_BIT_SET pmde PAGE_FLAG_PSE_BIT.

Definition pgde_pud (pgde : Z) : Z := (pgde & PAGE_TABLE_PHYS_ADDR_MASK)%u64.

Definition pude_pmd (pude : Z) : Z := (pude & PAGE_TABLE_PHYS_ADDR_MASK)%u64.

Definition pude_data_1gib (pude : Z) : Z := (pude & PAGE_TABLE_PHYS_ADDR_MASK_1GIB)%u64.

Definition pude_raw_flags_1gib (pude : Z) : Z := (pude & PAGE_TABLE_FLAG_MASK)%u64.

Definition pmde_ptd (pmde : Z) : Z := (pmde & PAGE_TABLE_PHYS_ADDR_MASK)%u64.

Definition pmde_data_2mib (pmde : Z) : Z := (pmde & PAGE_TABLE_PHYS_ADDR_MASK_2MIB)%u64.

Definition pmde_raw_flags_2mib (pmde : Z) : Z := (pmde & PAGE_TABLE_FLAG_MASK)%u64.

Definition ptde_data (ptde : Z) : Z := (ptde & PAGE_TABLE_PHYS_ADDR_MASK)%u64.

Definition ptde_raw_flags (ptde : Z) : Z := (ptde & PAGE_TABLE_FLAG_MASK)%u64.

(** ** Entries in memory: the address of an entry, and writing one *)

Definition pgde_at (pgd index : Z) : Z := (pgd_to_virt_ptr pgd + 8 * index)%u64.

Definition pude_at (pud index : Z) : Z := (pud_to_virt_ptr pud + 8 * index)%u64.

Definition pmde_at (pmd index : Z) : Z := (pmd_to_virt_ptr pmd + 8 * index)%u64.

Definition ptde_at (ptd index : Z) : Z := (ptd_to_virt_ptr ptd + 8 * index)%u64.

Definition assign_pud (pgd index pud : Z) (m : words) : words :=
  store m (pgde_at pgd index) ((pud & ~: PAGE_MASK) |: PAGE_FLAG_DEFAULT)%u64.

Definition assign_data_1gib (pud index pa flags : Z) (m : words) : words :=
  store m (pude_at pud index)
    ((pa & ~: PAGE_MASK_1GIB) |: PAGE_FLAG_PSE |: map_flags_to_page_flags flags)%u64.

Definition assign_pmd (pud index pmd : Z) (m : words) : words :=
  store m (pude_at pud index) ((pmd & ~: PAGE_MASK) |: PAGE_FLAG_DEFAULT)%u64.

Definition assign_data_2mib (pmd index pa flags : Z) (m : words) : words :=
  store m (pmde_at pmd index)
    ((pa & ~: PAGE_MASK_2MIB) |: PAGE_FLAG_PSE |: map_flags_to_page_flags flags)%u64.

Definition assign_ptd (pmd index ptd : Z) (m : words) : words :=
  store m (pmde_at pmd index) ((ptd & ~: PAGE_MASK) |: PAGE_FLAG_DEFAULT)%u64.

Definition assign_data (ptd index pa flags : Z) (m : words) : words :=
  store m (ptde_at ptd index) ((pa & ~: PAGE_MASK) |: map_flags_to_page_flags flags)%u64.

(** ** Specification vocabulary *)

(** The page number of a virtual address within the 48-bit address space the
    four table levels translate. *)
Definition vpn (va : Z) : Z := va / 2 ^ 12 mod 2 ^ 36.

(** The sign extension of a 48-bit address. *)
Definition canonical (x : Z) : Z := if x <? 2 ^ 47 then x else x + (2 ^ 64 - 2 ^ 48).

(** A mapping mode the kernel knows. *)
Definition map_mode_ok (flags : Z) : Prop :=
  let mode := flags mod 2 ^ MAP_FLAG_MODE_BITS in 1 <= mode <= 3.

(** The flags of a data page: present, no PSE bit, nothing in the address bits. *)
Definition data_flags (fl : Z) : Prop :=
  is_u64 fl /\ Z.testbit fl 0 = true /\ Z.testbit fl 7 = false /\
  Z.land fl PAGE_TABLE_PHYS_ADDR_MASK = 0 /\ Z.land fl PAGE_TABLE_FLAG_MASK = fl.

(** A page that can hold a table: page-aligned, and reachable through the direct
    map, which has 2^47 bytes. *)
Definition page_ok (p : Z) : Prop := 0 <= p < 2 ^ 47 /\ p mod 2 ^ 12 = 0.

(** ** Addresses *)

Lemma shr_land x s k : 0 <= s -> 0 <= k -> Z.land (Z.shiftr x s) (2 ^ k - 1) = x / 2 ^ s mod 2 ^ k.
Proof. intros. rewrite land_ones_mod, Z.shiftr_div_pow2 by done. done. Qed.

Lemma virt_data_offset_spec va : virt_data_offset va = va mod 2 ^ 12.
Proof. apply (land_ones_mod va 12). lia. Qed.

Lemma virt_ptde_index_spec va : virt_ptde_index va = va / 2 ^ 12 mod 512.
Proof. by apply (shr_land va 12 9). Qed.

Lemma virt_pmde_index_spec va : virt_pmde_index va = va / 2 ^ 21 mod 512.
Proof. by apply (shr_land va 21 9). Qed.

Lemma virt_pude_index_spec va : virt_pude_index va = va / 2 ^ 30 mod 512.
Proof. by apply (shr_land va 30 9). Qed.

Lemma virt_pgde_index_spec va : virt_pgde_index va = va / 2 ^ 39 mod 512.
Proof. by apply (shr_land va 39 9). Qed.

(** The index at each level, from the page number. *)
Lemma div_mod_pow x a b c :
  0 <= a -> 0 <= b <= c -> (x / 2 ^ a mod 2 ^ c) / 2 ^ b = x / 2 ^ (a + b) mod 2 ^ (c - b).
Proof.
  intros Ha Hb. apply Z.bits_inj'. intros i Hi.
  rewrite <- !Z.shiftr_div_pow2, <- !Z.land_ones, !Z.shiftr_spec, !Z.land_spec, !Z.shiftr_spec by lia.
  destruct (Z.ltb_spec i (c - b)).
  - rewrite !Z.ones_spec_low by lia. f_equal. f_equal. lia.
  - rewrite !Z.ones_spec_high by lia. by rewrite !andb_false_r.
Qed.

Lemma mod_mod_pow x a b : 0 <= a <= b -> x mod 2 ^ b mod 2 ^ a = x mod 2 ^ a.
Proof.
  intros. apply Z.bits_inj'. intros i Hi. destruct (Z.ltb_spec i a).
  - by rewrite !Z.mod_pow2_bits_low by lia.
  - by rewrite !Z.mod_pow2_bits_high by lia.
Qed.

Lemma index_vpn va :
  virt_pgde_index va = vpn va / 2 ^ 27 /\ virt_pude_index va = vpn va / 2 ^ 18 mod 512 /\
  virt_pmde_index va = vpn va / 2 ^ 9 mod 512 /\ virt_ptde_index va = vpn va mod 512.
Proof.
  rewrite virt_pgde_index_spec, virt_pude_index_spec, virt_pmde_index_spec, virt_ptde_index_spec.
  unfold vpn. rewrite !div_mod_pow by lia. change 512 with (2 ^ 9). rewrite !mod_mod_pow by lia. done.
Qed.

Lemma shl64_small x s : 0 <= s -> 0 <= x -> x * 2 ^ s < 2 ^ 64 -> shl64 x s = x * 2 ^ s.
Proof.
  intros. unfold shl64. rewrite Z.shiftl_mul_pow2 by done. apply u64_small. unfold is_u. nia.
Qed.

Lemma lor_mul_add a s b : 0 <= s -> 0 <= b < 2 ^ s -> Z.lor (a * 2 ^ s) b = a * 2 ^ s + b.
Proof.
  intros Hs Hb. apply lor_add_disjoint. apply Z.bits_inj'. intros i Hi.
  rewrite Z.land_spec, Z.bits_0. destruct (Z.ltb_spec i s).
  - by rewrite Z.mul_pow2_bits_low by lia.
  - by rewrite (testbit_high s b i), andb_false_r by (done || lia).
Qed.

Lemma encode_virt_spec g u m t off :
  0 <= g < 512 -> 0 <= u < 512 -> 0 <= m < 512 -> 0 <= t < 512 -> 0 <= off < 2 ^ 12 ->
  encode_virt g u m t off = canonical (g * 2 ^ 39 + u * 2 ^ 30 + m * 2 ^ 21 + t * 2 ^ 12 + off).
Proof.
  intros Hg Hu Hm Ht Ho. unfold encode_virt.
  rewrite !shl64_small by (unfold PGD_SHIFT, PUD_SHIFT, PMD_SHIFT, PAGE_SHIFT; lia).
  unfold PGD_SHIFT, PUD_SHIFT, PMD_SHIFT, PAGE_SHIFT.
  rewrite lor_mul_add by lia. replace (g * 2 ^ 39 + u * 2 ^ 30) with ((g * 2 ^ 9 + u) * 2 ^ 30) by ring.
  rewrite lor_mul_add by lia.
  replace ((g * 2 ^ 9 + u) * 2 ^ 30 + m * 2 ^ 21) with ((g * 2 ^ 18 + u * 2 ^ 9 + m) * 2 ^ 21) by ring.
  rewrite lor_mul_add by lia.
  replace ((g * 2 ^ 18 + u * 2 ^ 9 + m) * 2 ^ 21 + t * 2 ^ 12)
    with ((g * 2 ^ 27 + u * 2 ^ 18 + m * 2 ^ 9 + t) * 2 ^ 12) by ring.
  rewrite lor_mul_add by lia.
  replace ((g * 2 ^ 27 + u * 2 ^ 18 + m * 2 ^ 9 + t) * 2 ^ 12 + off)
    with (g * 2 ^ 39 + u * 2 ^ 30 + m * 2 ^ 21 + t * 2 ^ 12 + off) by ring.
  set (x := g * 2 ^ 39 + u * 2 ^ 30 + m * 2 ^ 21 + t * 2 ^ 12 + off).
  assert (0 <= x < 2 ^ 48) as Hx by (unfold x; lia). clearbody x.
  rewrite IS_BIT_SET_testbit by (unfold PHYS_ADDR_BITS; lia). unfold canonical, PHYS_ADDR_BITS. change (48 - 1) with 47.
  destruct (Z.ltb_spec x (2 ^ 47)).
  - by rewrite (testbit_high 47) by (unfold is_u; lia).
  - assert (Z.testbit x 47 = true) as ->.
    { rewrite Z.testbit_true by lia. replace (x / 2 ^ 47) with 1; [done|].
      apply Z.div_unique with (x - 2 ^ 47); lia. }
    change (BIT_MASK_ABOVE 48) with (65535 * 2 ^ 48). rewrite Z.lor_comm, lor_mul_add by lia. lia.
Qed.

Lemma canonical_mod x : canonical x mod 2 ^ 48 = x mod 2 ^ 48.
Proof.
  unfold canonical. destruct (Z.ltb_spec x (2 ^ 47)); [done|].
  change (2 ^ 64 - 2 ^ 48) with (65535 * 2 ^ 48). apply Z.mod_add. lia.
Qed.

Lemma vpn_canonical x : vpn (canonical x) = x / 2 ^ 12 mod 2 ^ 36.
Proof.
  unfold vpn. replace 36 with (48 - 12) by lia. replace 12 with (0 + 12) by lia.
  rewrite <- !div_mod_pow by lia. change (2 ^ 0) with 1. by rewrite !Z.div_1_r, canonical_mod.
Qed.

(** Whole pages of a [uint64_t] address. *)
Lemma offset_pages_spec addr pages :
  virt_offset_pages addr pages = (addr / 2 ^ 12 + pages) mod 2 ^ 52 * 2 ^ 12.
Proof.
  unfold virt_offset_pages, shl64, add64, u64, wrap, PAGE_SHIFT.
  rewrite Z.shiftl_mul_pow2, Z.shiftr_div_pow2 by lia.
  change (2 ^ 64) with (2 ^ 52 * 2 ^ 12). rewrite Z.mul_mod_distr_r by lia. f_equal.
  change (2 ^ 52 * 2 ^ 12) with (2 ^ 64). apply mod_mod_pow. lia.
Qed.

Lemma vpn_offset addr k : vpn (virt_offset_pages addr k) = (vpn addr + k) mod 2 ^ 36.
Proof.
  unfold vpn. rewrite offset_pages_spec, Z.div_mul, mod_mod_pow by lia.
  by rewrite Z.add_mod_idemp_l by lia.
Qed.

Lemma next_sub_spec va s :
  12 <= s < 64 -> is_u64 va ->
  let a := (va & BIT_MASK_ABOVE PAGE_SHIFT)%u64 in
  ((((a >> s) + 1) << s) - a)%u64 = (2 ^ (s - 12) - va / 2 ^ 12 mod 2 ^ (s - 12)) * 2 ^ 12.
Proof.
  intros Hs Hva a.
  assert (a = va / 2 ^ 12 * 2 ^ 12) as ->.
  { unfold a. change (BIT_MASK_ABOVE PAGE_SHIFT) with (not64 (2 ^ 12 - 1)).
    rewrite land_not_mask by (done || lia). pose proof (Z.div_mod va (2 ^ 12)). lia. }
  set (q := va / 2 ^ 12). set (r := s - 12). replace s with (r + 12) by lia.
  assert (0 <= r) by lia. assert (0 < 2 ^ r) by lia. assert (0 <= q) by (apply Z.div_pos; unfold is_u in *; lia).
  rewrite Z.shiftr_div_pow2 by lia. rewrite Z.pow_add_r by lia.
  rewrite Z.mul_comm with (n := 2 ^ r), <- Z.div_div, Z.div_mul by lia.
  unfold shl64, sub64, add64, u64, wrap. rewrite Z.shiftl_mul_pow2 by lia.
  rewrite Z.mul_mod_idemp_l, Zminus_mod_idemp_l by lia. rewrite Z.pow_add_r by lia.
  pose proof (Z.div_mod q (2 ^ r)). pose proof (Z.mod_pos_bound q (2 ^ r)).
  replace ((q / 2 ^ r + 1) * (2 ^ r * 2 ^ 12) - q * 2 ^ 12) with ((2 ^ r - q mod 2 ^ r) * 2 ^ 12) by lia.
  apply Z.mod_small. assert (2 ^ r * 2 ^ 12 < 2 ^ 64).
  { rewrite <- Z.pow_add_r by lia. apply Z.pow_lt_mono_r; lia. }
  nia.
Qed.

Lemma bytes_to_pages_spec b : 0 <= b <= 2 ^ 64 - 2 ^ 12 -> bytes_to_pages b = (b + 2 ^ 12 - 1) / 2 ^ 12.
Proof.
  intros. unfold bytes_to_pages. rewrite PAGE_SIZE_pow, ALIGN_UP_pow by (unfold is_u; lia).
  unfold PAGE_SHIFT. rewrite Z.shiftr_div_pow2, Z.div_mul by lia. done.
Qed.

Lemma bytes_to_pages_mul k : 0 <= k < 2 ^ 51 -> bytes_to_pages (k * 2 ^ 12) = k.
Proof.
  intros. rewrite bytes_to_pages_spec by lia. symmetry. apply Z.div_unique with (2 ^ 12 - 1); lia.
Qed.

Lemma remaining_pages va s :
  12 <= s <= 39 -> is_u64 va ->
  let a := (va & BIT_MASK_ABOVE PAGE_SHIFT)%u64 in
  bytes_to_pages ((((a >> s) + 1) << s) - a)%u64 = 2 ^ (s - 12) - va / 2 ^ 12 mod 2 ^ (s - 12).
Proof.
  intros Hs Hva a. unfold a. rewrite next_sub_spec by (done || lia).
  assert (0 < 2 ^ (s - 12)) by lia.
  assert (2 ^ (s - 12) <= 2 ^ 27) by (apply Z.pow_le_mono_r; lia).
  pose proof (Z.mod_pos_bound (va / 2 ^ 12) (2 ^ (s - 12))). apply bytes_to_pages_mul. lia.
Qed.

(** ** Table entries *)

Lemma map_flags_data_flags flags : map_mode_ok flags -> data_flags (map_flags_to_page_flags flags).
Proof.
  unfold map_mode_ok, map_flags_to_page_flags, MAP_FLAG_MODE_MASK, MAP_FLAG_MODE_BITS. cbv zeta.
  rewrite BIT_MASK_BELOW_pow, land_ones_mod by lia. intros Hmode.
  destruct (IS_MASK_SET flags MAP_CODE), (IS_MASK_SET flags MAP_READONLY), (Z.eqb_spec (flags mod 2 ^ 10) MAP_KERNEL),
    (Z.eqb_spec (flags mod 2 ^ 10) MAP_KERNEL_NOGLOBAL), (Z.eqb_spec (flags mod 2 ^ 10) MAP_DEVICE);
    try (unfold MAP_KERNEL, MAP_KERNEL_NOGLOBAL, MAP_DEVICE in *; lia);
    repeat split; by vm_compute.
Qed.

(** Flags occupy the low 12 bits and bit 63. *)
Lemma data_flags_high fl i : data_flags fl -> 12 <= i -> i <> 63 -> Z.testbit fl i = false.
Proof.
  intros (Hu & _ & _ & _ & Hf) Hi Hne. rewrite <- Hf, Z.land_spec. apply andb_false_intro2.
  change PAGE_TABLE_FLAG_MASK with (Z.lor (Z.ones 12) (2 ^ 63)).
  rewrite Z.lor_spec, Z.ones_spec_high, Z.pow2_bits_false by lia. done.
Qed.

Lemma aligned_testbit pa sh i :
  0 <= sh -> 0 <= i -> Z.testbit (pa - pa mod 2 ^ sh) i = (sh <=? i) && Z.testbit pa i.
Proof.
  intros Hs Hi. replace (pa - pa mod 2 ^ sh) with (pa / 2 ^ sh * 2 ^ sh) by (pose proof (Z.div_mod pa (2 ^ sh)); lia).
  destruct (Z.leb_spec sh i).
  - rewrite Z.mul_pow2_bits, Z.div_pow2_bits by lia. simpl. f_equal. lia.
  - by rewrite Z.mul_pow2_bits_low by lia.
Qed.

(** The address mask of a level whose pages have [2^sh] bytes. *)
Lemma phys_mask_testbit sh i :
  0 <= sh < 64 -> 0 <= i ->
  Z.testbit (Z.land PHYS_ADDR_MASK (BIT_MASK_ABOVE sh)) i = (sh <=? i) && (i <? 48).
Proof.
  intros Hs Hi. rewrite Z.land_spec. unfold BIT_MASK_ABOVE. rewrite BIT_MASK_BELOW_pow, not64_testbit by lia.
  change PHYS_ADDR_MASK with (Z.ones 48). rewrite Z.testbit_ones_nonneg by lia.
  replace (2 ^ sh - 1) with (Z.ones sh) by (rewrite Z.ones_equiv; lia).
  rewrite Z.testbit_ones_nonneg by lia.
  destruct (Z.ltb_spec i 48), (Z.ltb_spec i 64), (Z.ltb_spec i sh), (Z.leb_spec sh i); simpl; lia || done.
Qed.

(** An entry made of an aligned address, the page size bit [huge] and flags
    gives each of them back. *)
Lemma entry_fields pa fl sh (huge : bool) :
  data_flags fl -> 0 <= pa < 2 ^ 48 -> 12 <= sh < 48 ->
  let hb := if huge then PAGE_FLAG_PSE else 0 in
  let e := Z.lor (Z.lor (pa - pa mod 2 ^ sh) hb) fl in
  Z.land e (Z.land PHYS_ADDR_MASK (BIT_MASK_ABOVE sh)) = pa - pa mod 2 ^ sh /\
  Z.testbit e 0 = true /\ Z.testbit e 7 = huge /\ Z.land e PAGE_TABLE_FLAG_MASK = Z.lor hb fl /\
  is_u64 e.
Proof.
  intros Hfl Hpa Hsh hb e.
  assert (forall i, 0 <= i -> Z.testbit hb i = huge && (i =? 7)) as Hhb.
  { intros i Hi. unfold hb. destruct huge; [|by rewrite Z.bits_0].
    change PAGE_FLAG_PSE with (2 ^ 7). rewrite Z.pow2_bits_eqb by lia. by rewrite Z.eqb_sym. }
  assert (forall i, 48 <= i -> Z.testbit pa i = false) as Hpah by (intros; apply (testbit_high 48); unfold is_u; lia).
  assert (forall i, 0 <= i -> Z.testbit e i =
            (sh <=? i) && Z.testbit pa i || huge && (i =? 7) || Z.testbit fl i) as He.
  { intros i Hi. unfold e. by rewrite !Z.lor_spec, aligned_testbit, Hhb by lia. }
  pose proof Hfl as (Hu & H0 & H7 & _).
  assert (forall i, 12 <= i -> i <> 63 -> Z.testbit fl i = false) as Hh by (intros; by apply data_flags_high).
  split; [|split; [|split; [|split]]].
  - apply Z.bits_inj'. intros i Hi. rewrite Z.land_spec, phys_mask_testbit, aligned_testbit, He by lia.
    destruct (Z.leb_spec sh i); [|by rewrite andb_false_r]. rewrite (proj2 (Z.eqb_neq i 7)) by lia.
    destruct (Z.ltb_spec i 48); [rewrite Hh by lia; btauto|]. rewrite Hpah by done. btauto.
  - rewrite He by lia. by rewrite H0, orb_true_r.
  - rewrite He by lia. rewrite H7, (proj2 (Z.leb_gt sh 7)) by lia. simpl. btauto.
  - apply Z.bits_inj'. intros i Hi. rewrite Z.land_spec, He, Z.lor_spec, Hhb by lia.
    change PAGE_TABLE_FLAG_MASK with (Z.lor (Z.ones 12) (2 ^ 63)).
    rewrite Z.lor_spec, Z.testbit_ones_nonneg, Z.pow2_bits_eqb by lia.
    destruct (Z.ltb_spec i 12); [rewrite (proj2 (Z.leb_gt sh i)) by lia; simpl; btauto|].
    rewrite (proj2 (Z.eqb_neq i 7)) by lia. destruct (Z.eqb_spec 63 i) as [<-|Hne].
    + rewrite Hpah by lia. btauto.
    + rewrite Hh by lia. btauto.
  - apply is_u_lor; [lia|apply is_u_lor; [lia| |unfold hb; destruct huge; by vm_compute]|done].
    pose proof (Z.mod_pos_bound pa (2 ^ sh)). pose proof (Z.mod_le pa (2 ^ sh)). unfold is_u. lia.
Qed.

Lemma PAGE_FLAG_DEFAULT_ok : data_flags PAGE_FLAG_DEFAULT.
Proof. by repeat split; vm_compute. Qed.

(** ** Entries in memory *)

Lemma load_store_eq m a x : load (store m a x) a = x.
Proof. unfold load, store. by rewrite lookup_insert_eq. Qed.

Lemma load_store_ne m a b x : a <> b -> load (store m a x) b = load m b.
Proof. intros. unfold load, store. by rewrite lookup_insert_ne. Qed.

(** The address of word [i] of page [p]; the four levels compute the same one. *)
Lemma entry_addr p i :
  page_ok p -> 0 <= i < 512 -> pgde_at p i = KERNEL_DIRECT_MAP_BASE + p + 8 * i.
Proof.
  intros [Hp Hal] Hi. pose proof (Z.div_mod p (2 ^ 12)). unfold pgde_at, pgd_to_virt_ptr, phys_to_virt_ptr, virt_to_ptr, phys_to_virt, KERNEL_DIRECT_MAP_BASE.
  unfold mul64. rewrite (u64_small (8 * i)) by (unfold is_u; lia).
  rewrite (add64_small _ p) by (unfold is_u; lia). rewrite add64_small; [lia|].
  unfold is_u. lia.
Qed.

Lemma entry_addr_inj p i q j :
  page_ok p -> page_ok q -> 0 <= i < 512 -> 0 <= j < 512 -> pgde_at p i = pgde_at q j -> p = q /\ i = j.
Proof.
  intros Hp Hq Hi Hj. rewrite !entry_addr by done. destruct Hp as [_ Hp], Hq as [_ Hq]. intros He.
  pose proof (Z.div_mod p (2 ^ 12)). pose proof (Z.div_mod q (2 ^ 12)). lia.
Qed.

Lemma load_zero_words n : forall ptr m a,
  load (zero_words n ptr m) a =
    if decide (ptr <= a < ptr + 8 * Z.of_nat n /\ (a - ptr) mod 8 = 0) then 0 else load m a.
Proof.
  induction n as [|n IH]; intros ptr m a; simpl; [by rewrite decide_False by lia|].
  rewrite IH. destruct (decide (ptr = a)) as [<-|Hne].
  - rewrite load_store_eq, (decide_True (P := ptr <= ptr < _ /\ _)); [by case_decide|].
    split; [lia|]. by rewrite Z.sub_diag.
  - rewrite load_store_ne by done. assert ((a - (ptr + 8)) mod 8 = (a - ptr) mod 8) as Hm.
    { replace (a - (ptr + 8)) with (a - ptr + (-1) * 8) by lia. by apply Z.mod_add. }
    rewrite Hm. destruct (decide (ptr + 8 <= a < _ /\ _)), (decide (ptr <= a < _ /\ _)) as [[Ha Hm2]|]; try done; try lia.
    exfalso. pose proof (Z.div_mod (a - ptr) 8). lia.
Qed.

Lemma zero_page_load p q i m :
  page_ok p -> page_ok q -> 0 <= i < 512 ->
  load (zero_page p m) (pgde_at q i) = if decide (p = q) then 0 else load m (pgde_at q i).
Proof.
  intros Hp Hq Hi. pose proof (entry_addr p 0 Hp ltac:(lia)) as H0. pose proof (entry_addr q i Hq Hi) as Hqi.
  unfold zero_page. rewrite load_zero_words.
  assert (phys_to_virt_ptr p = KERNEL_DIRECT_MAP_BASE + p) as ->.
  { unfold phys_to_virt_ptr, virt_to_ptr, phys_to_virt, KERNEL_DIRECT_MAP_BASE.
    apply add64_small. destruct Hp. unfold is_u. lia. }
  rewrite Hqi. destruct (decide (p = q)) as [->|Hne].
  - rewrite decide_True; [done|]. split; [lia|].
    replace (KERNEL_DIRECT_MAP_BASE + q + 8 * i - (KERNEL_DIRECT_MAP_BASE + q)) with (i * 8) by lia.
    apply Z.mod_mul. lia.
  - rewrite decide_False; [done|]. intros [Hr _]. destruct Hp as [_ Hp], Hq as [_ Hq].
    pose proof (Z.div_mod p (2 ^ 12)). pose proof (Z.div_mod q (2 ^ 12)). lia.
Qed.

Lemma virt_to_phys_of_phys pa :
  0 <= pa <= KERNEL_ELF_ADDRESS - KERNEL_DIRECT_MAP_BASE -> virt_to_phys (phys_to_virt pa) = pa.
Proof.
  unfold virt_to_phys, phys_to_virt, KERNEL_DIRECT_MAP_BASE. change KERNEL_ELF_ADDRESS with 0xffffc00001000000. intros Hpa.
  rewrite (add64_small _ pa) by (unfold is_u; lia). destruct (Z.ltb_spec 0xffffc00001000000 (0xffff800000000000 + pa)); [lia|].
  rewrite sub64_small by (unfold is_u; lia). lia.
Qed.

(** ** Properties *)

(** [encode_virt] and the index functions are inverse to each other: the
    address encoded from in-range indexes and offset has exactly those, and every
    canonical address is the encoding of its own. *)
Theorem encode_virt_roundtrip :
  (forall g u m t off, 0 <= g < 512 -> 0 <= u < 512 -> 0 <= m < 512 -> 0 <= t < 512 -> 0 <= off < 2 ^ 12 ->
    let va := encode_virt g u m t off in
    is_u64 va /\ virt_pgde_index va = g /\ virt_pude_index va = u /\ virt_pmde_index va = m /\
    virt_ptde_index va = t /\ virt_data_offset va = off) /\
  (forall x, 0 <= x < 2 ^ 48 ->
    let va := canonical x in
    encode_virt (virt_pgde_index va) (virt_pude_index va) (virt_pmde_index va) (virt_ptde_index va)
      (virt_data_offset va) = va).
Proof.
  split.
  - intros g u m t off Hg Hu Hm Ht Ho va. unfold va. rewrite encode_virt_spec by done.
    set (x := g * 2 ^ 39 + u * 2 ^ 30 + m * 2 ^ 21 + t * 2 ^ 12 + off).
    destruct (index_vpn (canonical x)) as (-> & -> & -> & ->). rewrite virt_data_offset_spec, !vpn_canonical.
    assert (0 <= x < 2 ^ 48) as Hx by (unfold x; lia).
    assert (x / 2 ^ 12 = g * 2 ^ 27 + u * 2 ^ 18 + m * 2 ^ 9 + t) as Hq.
    { symmetry. apply Z.div_unique with off; unfold x; lia. }
    rewrite Hq, Z.mod_small by lia. split; [unfold canonical, is_u; destruct (_ <? _); lia|].
    assert (canonical x mod 2 ^ 12 = off) as ->; [|repeat split; Z.div_mod_to_equations; lia].
    rewrite <- (mod_mod_pow (canonical x) 12 48), canonical_mod, (mod_mod_pow x 12 48) by lia.
    unfold x. Z.div_mod_to_equations. lia.
  - intros x Hx va. destruct (index_vpn va) as (-> & -> & -> & ->). unfold va.
    rewrite virt_data_offset_spec, !vpn_canonical.
    rewrite <- (mod_mod_pow (canonical x) 12 48), canonical_mod, (mod_mod_pow x 12 48) by lia.
    rewrite (Z.mod_small (x / 2 ^ 12)) by (split; [apply Z.div_pos|apply Z.div_lt_upper_bound]; lia).
    rewrite encode_virt_spec; try (apply Z.mod_pos_bound; lia); [f_equal; Z.div_mod_to_equations; lia|].
    Z.div_mod_to_equations. lia.
Qed.

Lemma encode_virt_roundtrip_witness :
  virt_pude_index (encode_virt 384 7 0 511 0x123) = 7 /\
  encode_virt 256 0 0 5 0x10 = 0xffff800000005010.
Proof.
  split; [|by vm_compute].
  apply (proj1 encode_virt_roundtrip 384 7 0 511 0x123); lia.
Defined.

(** The pages left before the next entry of each level, for any 64-bit
    address: a whole table's worth less the pages already passed, so a loop that
    advances by this many pages stops exactly at the entry boundary, also at the
    end of the address space. *)
Theorem remaining_pages_exact va :
  is_u64 va ->
  virt_pmde_remaining_pages va = NUM_PAGES_PTD - virt_ptde_index va /\
  virt_pude_remaining_pages va = NUM_PAGES_PMD - vpn va mod NUM_PAGES_PMD /\
  virt_pgde_remaining_pages va = NUM_PAGES_PUD - vpn va mod NUM_PAGES_PUD /\
  vpn (virt_offset_pages va (virt_pude_remaining_pages va)) mod NUM_PAGES_PMD = 0.
Proof.
  intros Hva.
  pose proof (remaining_pages va PMD_SHIFT ltac:(done) Hva) as H1. pose proof (remaining_pages va PUD_SHIFT ltac:(done) Hva) as H2.
  pose proof (remaining_pages va PGD_SHIFT ltac:(done) Hva) as H3. cbv zeta in H1, H2, H3.
  unfold virt_pmde_remaining_pages, virt_pude_remaining_pages, virt_pgde_remaining_pages, virt_next_pmde,
    virt_next_pude, virt_next_pgde. cbv zeta. rewrite H1, H2, H3, virt_ptde_index_spec, vpn_offset.
  unfold vpn, PMD_SHIFT, PUD_SHIFT, PGD_SHIFT, NUM_PAGES_PTD.
  change NUM_PAGES_PUD with (2 ^ 27). change NUM_PAGES_PMD with (2 ^ 18). change (2 ^ (21 - 12)) with 512.
  change (30 - 12) with 18. change (39 - 12) with 27. rewrite !mod_mod_pow by lia.
  repeat split. set (q := va / 2 ^ 12). rewrite <- Z.add_mod_idemp_l, (mod_mod_pow q 18 36), Z.add_mod_idemp_l by lia.
  replace (q + (2 ^ 18 - q mod 2 ^ 18)) with ((q / 2 ^ 18 + 1) * 2 ^ 18) by (pose proof (Z.div_mod q (2 ^ 18)); lia).
  apply Z.mod_mul. lia.
Qed.

Lemma remaining_pages_exact_witness :
  is_u64 0xffffffffffe03000 /\ virt_pmde_remaining_pages 0xffffffffffe03000 = 509.
Proof.
  split; [by vm_compute|]. rewrite (proj1 (remaining_pages_exact 0xffffffffffe03000 ltac:(by vm_compute))). by vm_compute.
Defined.

(** An entry written by [assign_data], [assign_data_2mib] or
    [assign_data_1gib] with a known mapping mode reads back as present, of its
    size, with the physical address (to the page size) and flags given. *)
Theorem data_entry_roundtrip table index pa flags m :
  0 <= pa < 2 ^ 48 -> map_mode_ok flags ->
  let fl := map_flags_to_page_flags flags in
  (let ptde := load (assign_data table index pa flags m) (ptde_at table index) in
   ptde_present ptde = true /\ ptde_data ptde = ALIGN pa PAGE_SIZE /\ ptde_raw_flags ptde = fl) /\
  (let pmde := load (assign_data_2mib table index pa flags m) (pmde_at table index) in
   pmde_present pmde = true /\ pmde_2mib pmde = true /\ pmde_data_2mib pmde = ALIGN pa PAGE_SIZE_2MIB /\
   pmde_raw_flags_2mib pmde = (PAGE_FLAG_PSE |: fl)%u64) /\
  (let pude := load (assign_data_1gib table index pa flags m) (pude_at table index) in
   pude_present pude = true /\ pude_1gib pude = true /\ pude_data_1gib pude = ALIGN pa PAGE_SIZE_1GIB /\
   pude_raw_flags_1gib pude = (PAGE_FLAG_PSE |: fl)%u64).
Proof.
  intros Hpa Hmode fl. pose proof (map_flags_data_flags flags Hmode) as Hfl. fold fl in Hfl.
  unfold assign_data, assign_data_2mib, assign_data_1gib. rewrite !load_store_eq. cbv zeta. fold fl.
  rewrite PAGE_SIZE_pow, PAGE_SIZE_2MIB_pow, PAGE_SIZE_1GIB_pow, !ALIGN_pow by (unfold is_u; lia).
  change PAGE_MASK with (2 ^ 12 - 1). change PAGE_MASK_2MIB with (2 ^ 21 - 1). change PAGE_MASK_1GIB with (2 ^ 30 - 1).
  rewrite !land_not_mask by (unfold is_u; lia).
  unfold ptde_present, pmde_present, pude_present, pmde_2mib, pude_1gib. rewrite !IS_BIT_SET_testbit by done.
  destruct (entry_fields pa fl 12 false Hfl Hpa) as (H1 & H2 & H3 & H4 & _); [lia|]. rewrite Z.lor_0_r in H1, H2, H3, H4.
  destruct (entry_fields pa fl 21 true Hfl Hpa) as (H5 & H6 & H7 & H8 & _); [lia|].
  destruct (entry_fields pa fl 30 true Hfl Hpa) as (H9 & H10 & H11 & H12 & _); [lia|]. by repeat split.
Qed.

Lemma data_entry_roundtrip_witness :
  let pmde := load (assign_data_2mib 0x7000 3 0x40200000 (Z.lor MAP_KERNEL MAP_CODE) ∅) (pmde_at 0x7000 3) in
  pmde_data_2mib pmde = 0x40200000 /\ pmde_raw_flags_2mib pmde = 0x183.
Proof.
  destruct (data_entry_roundtrip 0x7000 3 0x40200000 (Z.lor MAP_KERNEL MAP_CODE) ∅) as (_ & (_ & _ & H1 & H2) & _);
    [lia|by vm_compute|]. split; [by rewrite H1|by rewrite H2].
Defined.

(** The direct map is inverted exactly ([virt_to_phys] after
    [phys_to_virt]) for the physical memory below the kernel image's window. For
    an address [o > 0] bytes into the kernel image the result is [o], whereas the
    image is mapped from [KERNEL_ELF_ADDRESS_PHYS]; at its first byte it is taken
    for a direct-map address. *)
Theorem virt_to_phys_direct :
  (forall pa, 0 <= pa <= KERNEL_ELF_ADDRESS - KERNEL_DIRECT_MAP_BASE -> virt_to_phys (phys_to_virt pa) = pa) /\
  (forall o, 0 < o < 2 ^ 32 ->
     virt_to_phys (KERNEL_ELF_ADDRESS + o)%u64 = o /\ o <> KERNEL_ELF_ADDRESS_PHYS + o) /\
  virt_to_phys KERNEL_ELF_ADDRESS = KERNEL_ELF_ADDRESS - KERNEL_DIRECT_MAP_BASE.
Proof.
  split; [|split; [|by vm_compute]].
  - apply virt_to_phys_of_phys.
  - intros o Ho. split; [|unfold KERNEL_ELF_ADDRESS_PHYS; lia]. unfold virt_to_phys. change KERNEL_ELF_ADDRESS with 0xffffc00001000000.
    rewrite (add64_small _ o) by (unfold is_u; lia). rewrite (proj2 (Z.ltb_lt _ _)) by lia.
    rewrite sub64_small by (unfold is_u; lia). lia.
Qed.
