(* ===== verification/PageMap.v ===== *)
(** * Mapping and walking page tables (mm/page.c)

    The code runs on a [machine]: table memory and the state of whatever
    allocator the caller passes in its [struct page_allocators]. What the
    mapping code needs of an allocator is the class [AllocatorLaws]; the
    theorems are proved against it.

    The loops carry the fuel that their exit conditions allow: a table has 512
    entries and the loop of a level leaves it after the last one; the outermost
    loop passes one table of [NUM_PAGES_PUD] pages per iteration. *)

From stdpp Require Import base gmap list strings numbers.
From Stdlib Require Import ZArith Lia.
From S2P Require Import Prelude Macros MmDefs Page.

(** ** The machine and the allocator interface *)

Record machine (A : Type) := mk_machine { mem : words; alloc_st : A }.

Arguments mk_machine {A} mem alloc_st.
Arguments mem {A} m.
Arguments alloc_st {A} m.

(** [struct page_allocators]; its [panic] member is the [Panic] outcome. *)
Record page_allocators (A : Type) := mk_allocators {
  alloc_pud : M (machine A) Z;
  alloc_pmd : M (machine A) Z;
  alloc_ptd : M (machine A) Z;
  alloc_data : M (machine A) Z;
}.

Arguments alloc_pud {A} p.
Arguments alloc_pmd {A} p.
Arguments alloc_ptd {A} p.
Arguments alloc_data {A} p.

Inductive page_level_t := PGD | PUD | PMD | PTD.

#[global] Instance page_level_eq_dec : EqDecision page_level_t.
Proof. solve_decision. Defined.

(** [struct page_map_state], without the pointer to the allocators. *)
Record page_map_state := mk_map_state {
  va : Z;
  pa : Z;
  num_remaining_pages : Z;
  num_pagetables_allocated : Z;
  flags : Z;
}.

(** Advance the cursor by [n] pages. *)
Definition advance (n : Z) (state : page_map_state) : page_map_state :=
  mk_map_state (virt_offset_pages (va state) n) (phys_offset_pages (pa state) n)
    (i64 (num_remaining_pages state - n)) (num_pagetables_allocated state) (flags state).

Definition count_pagetable (state : page_map_state) : page_map_state :=
  mk_map_state (va state) (pa state) (num_remaining_pages state)
    (num_pagetables_allocated state + 1)%u64 (flags state).

(** How an iteration of a loop ends. *)
Inductive step (L : Type) := Continue (l : L) | Break (l : L).

Arguments Continue {L} l.
Arguments Break {L} l.

(** [while (true) body], with the local variables [L] threaded through. *)
Fixpoint loop {S L} (fuel : nat) (body : L -> M S (step L)) (l : L) : M S L :=
  match fuel with
  | O => hang
  | Datatypes.S fuel' =>
      r ← body l;
      match r with
      | Continue l' => loop fuel' body l'
      | Break l' => mret l'
      end
  end.

Section code.
Context {A : Type} (alloc : page_allocators A).

Definition read_word (ptr : Z) : M (machine A) Z := gets (fun s => load (mem s) ptr).

Definition write_mem (f : words -> words) : M (machine A) unit :=
  modify (fun s => mk_machine (f (mem s)) (alloc_st s)).

Definition map_ptd_body (ptd : Z) (state : page_map_state) : M (machine A) (step page_map_state) :=
  if negb (0 <? num_remaining_pages state) then mret (Break state)
  else
    let index := virt_ptde_index (va state) in
    ptde ← read_word (ptde_at ptd index);
    (if ptde_present ptde then
       if IS_MASK_SET (flags state) MAP_SKIP_IF_MAPPED then mret tt
       else panic "Trying to map VA 0x%lx to PA 0x%lx but already mapped to 0x%lx"
     else write_mem (assign_data ptd index (pa state) (flags state)));;
    let state' := advance 1 state in
    if index =? NUM_PAGE_TABLE_ENTRIES - 1 then mret (Break state') else mret (Continue state').

Definition _map_page_range_ptd (ptd : Z) (state : page_map_state) : M (machine A) page_map_state :=
  loop 513 (map_ptd_body ptd) state.

Definition map_pmd_body (pmd : Z) (state : page_map_state) : M (machine A) (step page_map_state) :=
  if negb (0 <? num_remaining_pages state) then mret (Break state)
  else
    let index := virt_pmde_index (va state) in
    pmde ← read_word (pmde_at pmd index);
    let present := pmde_present pmde in
    let next state' :=
      if index =? NUM_PAGE_TABLE_ENTRIES - 1 then mret (Break state') else mret (Continue state') in
    let descend ptd state' :=
      state'' ← _map_page_range_ptd ptd state';
      if num_remaining_pages state'' <=? 0 then mret (Break state'')
      else if negb (IS_ALIGNED (va state'') PAGE_SIZE_2MIB) then
        panic "%lu pages unassigned under PMD for VA 0x%lx"
      else next state'' in
    if negb present && IS_ALIGNED (va state) PAGE_SIZE_2MIB && IS_ALIGNED (pa state) PAGE_SIZE_2MIB
       && (NUM_PAGES_PTD <=? num_remaining_pages state) then
      write_mem (assign_data_2mib pmd index (pa state) (flags state));;
      next (advance NUM_PAGES_PTD state)
    else if present && pmde_2mib pmde then
      panic "Unable to map VA 0x%lx at PA 0x%lx as 2 MiB PMDE already maps to 0x%lx"
    else if negb present then
      ptd ← alloc_ptd alloc;
      write_mem (assign_ptd pmd index ptd);;
      descend ptd (count_pagetable state)
    else descend (pmde_ptd pmde) state.

Definition _map_page_range_pmd (pmd : Z) (state : page_map_state) : M (machine A) page_map_state :=
  loop 513 (map_pmd_body pmd) state.

Definition map_pud_body (pud : Z) (state : page_map_state) : M (machine A) (step page_map_state) :=
  if negb (0 <? num_remaining_pages state) then mret (Break state)
  else
    let index := virt_pude_index (va state) in
    pude ← read_word (pude_at pud index);
    let present := pude_present pude in
    let next state' :=
      if index =? NUM_PAGE_TABLE_ENTRIES - 1 then mret (Break state') else mret (Continue state') in
    let descend pmd state' :=
      state'' ← _map_page_range_pmd pmd state';
      if num_remaining_pages state'' <=? 0 then mret (Break state'')
      else if negb (IS_ALIGNED (va state'') PAGE_SIZE_1GIB) then
        panic "%lu pages unassigned under PUD for VA 0x%lx"
      else next state'' in
    if negb present && IS_ALIGNED (va state) PAGE_SIZE_1GIB && IS_ALIGNED (pa state) PAGE_SIZE_1GIB
       && (NUM_PAGES_PMD <=? num_remaining_pages state) then
      write_mem (assign_data_1gib pud index (pa state) (flags state));;
      next (advance NUM_PAGES_PMD state)
    else if present && pude_1gib pude then
      panic "Unable to map VA 0x%lx at PA 0x%lx as 1 GiB PUDE already maps to 0x%lx"
    else if negb present then
      pmd ← alloc_pmd alloc;
      write_mem (assign_pmd pud index pmd);;
      descend pmd (count_pagetable state)
    else descend (pude_pmd pude) state.

Definition _map_page_range_pud (pud : Z) (state : page_map_state) : M (machine A) page_map_state :=
  loop 513 (map_pud_body pud) state.

Definition map_pgd_body (pgd : Z) (state : page_map_state) : M (machine A) (step page_map_state) :=
  if negb (0 <? num_remaining_pages state) then mret (Break state)
  else
    let index := virt_pgde_index (va state) in
    pgde ← read_word (pgde_at pgd index);
    let descend pud state' :=
      state'' ← _map_page_range_pud pud state';
      if num_remaining_pages state'' <=? 0 then mret (Break state'')
      else if negb (IS_ALIGNED (va state'') PGD_SIZE) then
        panic "%lu pages unassigned under PGD for VA 0x%lx"
      else mret (Continue state'') in
    if negb (pgde_present pgde) then
      pud ← alloc_pud alloc;
      write_mem (assign_pud pgd index pud);;
      descend pud (count_pagetable state)
    else descend (pgde_pud pgde) state.

Definition _map_page_range (pgd start_va start_pa num_pages flags : Z) : M (machine A) Z :=
  let state := mk_map_state start_va start_pa num_pages 0 flags in
  state' ← loop (Z.to_nat (num_pages / NUM_PAGES_PUD + 3)) (map_pgd_body pgd) state;
  mret (num_pagetables_allocated state').

(** Returns the entry and the level it was found at. *)
Definition walk_to_data (pgd va : Z) : M (machine A) (Z * page_level_t) :=
  pgde ← read_word (pgde_at pgd (virt_pgde_index va));
  if negb (pgde_present pgde) then panic "0x%lx: PGDE not present"
  else
    let pud := pgde_pud pgde in
    pude ← read_word (pude_at pud (virt_pude_index va));
    if negb (pude_present pude) then panic "0x%lx: PUDE not present"
    else if pude_1gib pude then mret (pude, PUD)
    else
      let pmd := pude_pmd pude in
      pmde ← read_word (pmde_at pmd (virt_pmde_index va));
      if negb (pmde_present pmde) then panic "0x%lx: PMDE not present"
      else if pmde_2mib pmde then mret (pmde, PMD)
      else
        let ptd := pmde_ptd pmde in
        ptde ← read_word (ptde_at ptd (virt_ptde_index va));
        if negb (ptde_present ptde) then panic "0x%lx: PTDE not present"
        else mret (ptde, PTD).

Definition _walk_virt_to_raw_flags (pgd va : Z) : M (machine A) Z :=
  '(raw, level) ← walk_to_data pgd va;
  match level with
  | PUD => mret (pude_raw_flags_1gib raw)
  | PMD => mret (pmde_raw_flags_2mib raw)
  | PTD => mret (ptde_raw_flags raw)
  | PGD => panic "Bug in walk_to_data()"
  end.

Definition _walk_virt_to_phys (pgd va : Z) : M (machine A) Z :=
  '(raw, level) ← walk_to_data pgd va;
  match level with
  | PUD => mret (pude_data_1gib raw)
  | PMD => mret (pmde_data_2mib raw)
  | PTD => mret (ptde_data raw)
  | PGD => panic "Bug in walk_to_data()"
  end.
End code.

(** ** Specification: the tree of tables and the translation it defines

    Page numbers run over [0, 2^36). A table of depth [k] (0 is the PGD, 3 a
    PTD) has height [h = 3 - k]; its entries cover [W h] pages each. Table [t]
    of depth [k] is the one that translates the page numbers [v] with
    [v / W (h + 1) = t]. *)

Definition W (h : nat) : Z := 512 ^ Z.of_nat h.

Definition entry (m : words) (p i : Z) : Z := load m (pgde_at p i).

(** The table an entry of a table of depth [k] points to. *)
Definition child (k : nat) (e : Z) : option Z :=
  if Z.testbit e 0 && ((k =? 0)%nat || negb (Z.testbit e 7))
  then Some (Z.land e PAGE_TABLE_PHYS_ADDR_MASK) else None.

Fixpoint table (m : words) (pgd : Z) (k : nat) (t : Z) : option Z :=
  match k with
  | O => Some pgd
  | S k' => p ← table m pgd k' (t / 512); child k' (entry m p (t mod 512))
  end.

(** The data entry page number [v] leads to from table [p] of height [h]
    (depth [k]), with the height it was found at. *)
Fixpoint walk_from (m : words) (k h : nat) (p v : Z) : option (Z * nat) :=
  let e := entry m p (v / W h mod 512) in
  if negb (Z.testbit e 0) then None
  else
    match h with
    | O => Some (e, O)
    | S h' =>
        match child k e with
        | Some q => walk_from m (S k) h' q v
        | None => Some (e, h)
        end
    end.

Definition walk (m : words) (pgd v : Z) : option (Z * nat) := walk_from m 0 3 pgd v.

(** What an address space promises: a page number is unmapped, or maps to a
    page frame with flags (the page size bit aside). *)
Definition translate (m : words) (pgd v : Z) : option (Z * Z) :=
  '(e, h) ← walk m pgd v;
  Some (Z.land e (Z.land PHYS_ADDR_MASK (BIT_MASK_ABOVE (12 + 9 * Z.of_nat h))) / 2 ^ 12 + v mod W h,
        Z.ldiff (Z.land e PAGE_TABLE_FLAG_MASK) PAGE_FLAG_PSE).

Definition level_of (h : nat) : page_level_t :=
  match h with O => PTD | 1%nat => PMD | 2%nat => PUD | _ => PGD end.

Definition table_id (k : nat) (t : Z) : Prop := (k <= 3)%nat /\ 0 <= t < W k.

(** The tables of [pgd] are distinct pages in use: a tree. *)
Record tree (m : words) (in_use : Z -> Prop) (pgd : Z) : Prop := {
  tree_page k t p : table_id k t -> table m pgd k t = Some p -> page_ok p /\ in_use p;
  tree_inj k t k' t' p : table_id k t -> table_id k' t' ->
    table m pgd k t = Some p -> table m pgd k' t' = Some p -> k = k' /\ t = t';
}.

(** What the mapping code relies on: an allocator with pages left returns a page
    nobody uses, zeroed, and touches no other page. *)
Definition allocates {A} (alloc_ok : A -> Prop) (in_use : A -> Z -> Prop) (avail : A -> Z)
    (f : M (machine A) Z) : Prop :=
  forall s, alloc_ok (alloc_st s) -> 0 < avail (alloc_st s) ->
    wp f s (fun p s' =>
      page_ok p /\ ~ in_use (alloc_st s) p /\ alloc_ok (alloc_st s') /\
      (forall q, in_use (alloc_st s') q <-> q = p \/ in_use (alloc_st s) q) /\
      avail (alloc_st s') = avail (alloc_st s) - 1 /\
      forall q i, page_ok q -> 0 <= i < 512 ->
        entry (mem s') q i = if decide (q = p) then 0 else entry (mem s) q i).

Class AllocatorLaws {A} (alloc : page_allocators A) := {
  alloc_ok : A -> Prop;
  in_use : A -> Z -> Prop;
  avail : A -> Z;
  alloc_pud_law : allocates alloc_ok in_use avail (alloc_pud alloc);
  alloc_pmd_law : allocates alloc_ok in_use avail (alloc_pmd alloc);
  alloc_ptd_law : allocates alloc_ok in_use avail (alloc_ptd alloc);
}.

(** Every table of [m] is still where it was in [m']. *)
Definition tables_kept (m m' : words) (pgd : Z) : Prop :=
  forall k t p, table_id k t -> table m pgd k t = Some p -> table m' pgd k t = Some p.

(** A page in use that is no table of [pgd]. *)
Definition plain (m : words) (in_use : Z -> Prop) (pgd q : Z) : Prop :=
  page_ok q /\ in_use q /\ forall k t, table_id k t -> table m pgd k t <> Some q.

(** The pages in use that are no tables keep their words, and do not become
    tables. *)
Definition plain_kept (m m' : words) (U U' : Z -> Prop) (pgd : Z) : Prop :=
  forall q, plain m U pgd q -> plain m' U' pgd q /\ forall i, 0 <= i < 512 -> entry m' q i = entry m q i.

(** How many entries of [W h] pages the [c] pages from [v] touch. *)
Definition slots (h : nat) (v c : Z) : Z := (v + c - 1) / W h - v / W h + 1.

(** The tables that mapping [c] pages from [v] can need below a table of height
    [h]: one for each entry touched, down to the PMD entries. *)
Fixpoint tables_below (h : nat) (v c : Z) : Z :=
  match h with
  | O => 0
  | S h' => slots h v c + tables_below h' v c
  end.

(** The pages one entry ([h]) or one table ([S h]) can take of the [n] pages from
    [v]. *)
Definition chunk (h : nat) (v n : Z) : Z := Z.min n (W h - v mod W h).

(** Mapping the [n] pages from [v] meets no page it may not map. *)
Definition mappable (m : words) (pgd flags v n : Z) : Prop :=
  forall u, v <= u < v + n ->
    walk m pgd u = None \/
    IS_MASK_SET flags MAP_SKIP_IF_MAPPED = true /\ exists e, walk m pgd u = Some (e, O).

(** [m'] maps the [c] pages from [v] to the frames from [f], except those mapped
    before, and nothing else changed. *)
Definition mapped (m m' : words) (pgd flags v f c : Z) : Prop :=
  forall u, 0 <= u < 2 ^ 36 ->
    if decide (v <= u < v + c) then
      match walk m pgd u with
      | Some x => walk m' pgd u = Some x
      | None => translate m' pgd u = Some (f + (u - v), map_flags_to_page_flags flags)
      end
    else walk m' pgd u = walk m pgd u.

(** The cursor stands at page [v], frame [f], with [n] pages to go. *)
Record at_page (st : page_map_state) (v f n : Z) : Prop := {
  at_va : is_u64 (va st);
  at_vpn : vpn (va st) = v mod 2 ^ 36;
  at_pa : pa st / 2 ^ 12 = f;
  at_n : num_remaining_pages st = n;
}.

Definition in_range (v f n : Z) : Prop := 0 <= v /\ 0 <= n /\ v + n <= 2 ^ 36 /\ 0 <= f /\ f + n <= 2 ^ 36.

Section progress.
Context {A : Type} {alloc : page_allocators A} {L : AllocatorLaws alloc}.

Definition pages_left (s : machine A) : Z := avail (alloc_st s).

(** The machine's invariant while [pgd] is mapped into. *)
Definition pt_ok (pgd : Z) (s : machine A) : Prop :=
  alloc_ok (alloc_st s) /\ tree (mem s) (in_use (alloc_st s)) pgd.

(** From [s] and [st] to [s'] and [st'], [c] pages were mapped with at most
    [budget] tables allocated, each counted. *)
Record progress (pgd : Z) (s : machine A) (st : page_map_state) (s' : machine A) (st' : page_map_state)
    (v f n c budget : Z) : Prop := {
  pr_at : at_page st' (v + c) (f + c) (n - c);
  pr_aligned : va st' mod 2 ^ 12 = 0;
  pr_flags : flags st' = flags st;
  pr_ok : pt_ok pgd s';
  pr_kept : tables_kept (mem s) (mem s') pgd;
  pr_mapped : mapped (mem s) (mem s') pgd (flags st) v f c;
  pr_count : u64 (num_pagetables_allocated st') =
    u64 (num_pagetables_allocated st + (pages_left s - pages_left s'));
  pr_budget : 0 <= pages_left s - pages_left s' <= budget;
  pr_plain : plain_kept (mem s) (mem s') (in_use (alloc_st s)) (in_use (alloc_st s')) pgd;
}.

(** What a level is called with: table [p] of height [h] for page [v], with [g]
    pages from [v] known to be mappable. *)
Record level_pre (pgd : Z) (k h : nat) (p : Z) (s : machine A) (st : page_map_state) (v f n g budget : Z)
    : Prop := {
  pre_kh : (k + h = 3)%nat;
  pre_ok : pt_ok pgd s;
  pre_table : table (mem s) pgd k (v / W (S h)) = Some p;
  pre_at : at_page st v f n;
  pre_range : in_range v f n;
  pre_pos : 0 < n;
  pre_mode : map_mode_ok (flags st);
  pre_mappable : mappable (mem s) pgd (flags st) v g;
  pre_budget : budget <= pages_left s;
}.

(** One iteration at height [h] maps the pages of one entry, and the loop goes on
    exactly when entries and pages are left. *)
Definition body_ok (k h : nat) (body : Z -> page_map_state -> M (machine A) (step page_map_state)) : Prop :=
  (forall p st, num_remaining_pages st <= 0 -> body p st = mret (Break st)) /\
  forall pgd p s st v f n, let c := chunk h v n in
    level_pre pgd k h p s st v f n c (tables_below h v c) ->
    wp (body p st) s (fun r s' => exists st',
      progress pgd s st s' st' v f n c (tables_below h v c) /\
      (r = Break st' /\ (c = n \/ v / W h mod 512 = 511) \/ r = Continue st' /\ v / W h mod 512 <> 511)).

(** The PMD and the PUD loop as one iteration at height [h]: the end of an
    iteration, the call of the level below, and the whole of it. *)
Definition next_entry (i : Z) (state : page_map_state) : M (machine A) (step page_map_state) :=
  if i =? NUM_PAGE_TABLE_ENTRIES - 1 then mret (Break state) else mret (Continue state).

Definition go_down (h : nat) (below : Z -> page_map_state -> M (machine A) page_map_state) (msg : string)
    (next : page_map_state -> M (machine A) (step page_map_state)) (q : Z) (state : page_map_state)
    : M (machine A) (step page_map_state) :=
  state' ← below q state;
  if num_remaining_pages state' <=? 0 then mret (Break state')
  else if negb (IS_ALIGNED (va state') (BIT_MASK (12 + 9 * Z.of_nat h))) then panic msg
  else next state'.

Definition mid_body (h : nat) (index : Z -> Z) (allocate : M (machine A) Z)
    (below : Z -> page_map_state -> M (machine A) page_map_state) (msg_huge msg_left : string)
    (p : Z) (state : page_map_state) : M (machine A) (step page_map_state) :=
  if negb (0 <? num_remaining_pages state) then mret (Break state)
  else
    let i := index (va state) in
    let size := BIT_MASK (12 + 9 * Z.of_nat h) in
    e ← read_word (pgde_at p i);
    let present := IS_BIT_SET e PAGE_FLAG_PRESENT_BIT in
    if negb present && IS_ALIGNED (va state) size && IS_ALIGNED (pa state) size
       && (W h <=? num_remaining_pages state) then
      write_mem (fun m => store m (pgde_at p i)
        ((pa state & ~: (BIT_MASK_BELOW (12 + 9 * Z.of_nat h))) |: PAGE_FLAG_PSE
         |: map_flags_to_page_flags (flags state))%u64);;
      next_entry i (advance (W h) state)
    else if present && IS_BIT_SET e PAGE_FLAG_PSE_BIT then panic msg_huge
    else if negb present then
      q ← allocate;
      write_mem (fun m => store m (pgde_at p i) ((q & ~: PAGE_MASK) |: PAGE_FLAG_DEFAULT)%u64);;
      go_down h below msg_left (next_entry i) q (count_pagetable state)
    else go_down h below msg_left (next_entry i) (e & PAGE_TABLE_PHYS_ADDR_MASK)%u64 state.

Definition panics {S B} (m : M S B) (s : S) : Prop := exists msg, m s = Panic msg.

(** An iteration, or a whole level, that meets a page it may not map panics. *)
Definition body_panics (k h : nat) (body : Z -> page_map_state -> M (machine A) (step page_map_state)) : Prop :=
  forall pgd p s st v f n, let c := chunk h v n in
    level_pre pgd k h p s st v f n 0 (tables_below h v c) -> ~ mappable (mem s) pgd (flags st) v c -> panics (body p st) s.

Definition level_panics (k h : nat) (level : Z -> page_map_state -> M (machine A) page_map_state) : Prop :=
  forall pgd p s st v f n, let c := chunk (S h) v n in
    level_pre pgd k h p s st v f n 0 (tables_below h v c) -> ~ mappable (mem s) pgd (flags st) v c -> panics (level p st) s.

(** A whole level maps the pages its table covers. *)
Definition level_ok (k h : nat) (level : Z -> page_map_state -> M (machine A) page_map_state) : Prop :=
  forall pgd p s st v f n, let c := chunk (S h) v n in
    level_pre pgd k h p s st v f n c (tables_below h v c) ->
    wp (level p st) s (fun st' s' => progress pgd s st s' st' v f n c (tables_below h v c)).
End progress.

(** An allocator that hands out page frames in order, below frame [bump_end]. *)
Definition bump_end : Z := 2 ^ 20.

Definition bump_page : M (machine Z) Z :=
  s ← get;
  let next := alloc_st s in
  if bump_end <=? next then panic "Out of memory"
  else put (mk_machine (zero_page (next * 2 ^ 12) (mem s)) (next + 1));; mret (next * 2 ^ 12).

Definition bump : page_allocators Z := mk_allocators Z bump_page bump_page bump_page bump_page.

(** An empty address space whose PGD is frame 1. *)
Definition empty_machine : machine Z := mk_machine ∅ 2.

(** ** Arithmetic of table numbers *)

Lemma W_succ h : W (S h) = 512 * W h.
Proof. unfold W. rewrite Nat2Z.inj_succ. apply Z.pow_succ_r. lia. Qed.

Lemma W_pos h : 0 < W h.
Proof. unfold W. apply Z.pow_pos_nonneg; lia. Qed.

Lemma div_W_succ v h : v / W (S h) = v / W h / 512.
Proof. pose proof (W_pos h). rewrite W_succ, Z.mul_comm. symmetry. apply Z.div_div; lia. Qed.

Lemma W_4 : W 4 = 2 ^ 36.
Proof. reflexivity. Qed.

(** Entry [v / W h mod 512] of table [v / W (S h)]. *)
Lemma slot_number v h : v / W h = v / W (S h) * 512 + v / W h mod 512.
Proof. rewrite div_W_succ. pose proof (Z.div_mod (v / W h) 512). lia. Qed.

Lemma index_range x : 0 <= x mod 512 < 512.
Proof. apply Z.mod_pos_bound. lia. Qed.

Lemma table_id_parent k t : table_id (S k) t -> table_id k (t / 512).
Proof.
  intros [Hk Ht]. split; [lia|]. rewrite W_succ in Ht. split; [by apply Z.div_pos; lia|].
  apply Z.div_lt_upper_bound; lia.
Qed.

Lemma table_id_page k h v : (k + h = 3)%nat -> 0 <= v < 2 ^ 36 -> table_id k (v / W (S h)).
Proof.
  intros Hkh Hv. pose proof (W_pos (S h)). split; [lia|]. split; [by apply Z.div_pos; lia|].
  apply Z.div_lt_upper_bound; [done|]. rewrite <- W_4 in Hv. unfold W in *.
  rewrite <- Z.pow_add_r by lia. replace (Z.of_nat (S h) + Z.of_nat k) with (Z.of_nat 4) by lia. lia.
Qed.

(** The indexes of the code are those of the tree. *)
Lemma index_W va :
  virt_pgde_index va = vpn va / W 3 mod 512 /\ virt_pude_index va = vpn va / W 2 mod 512 /\
  virt_pmde_index va = vpn va / W 1 mod 512 /\ virt_ptde_index va = vpn va / W 0 mod 512.
Proof.
  destruct (index_vpn va) as (-> & -> & -> & ->). pose proof (Z.mod_pos_bound (va / 2 ^ 12) (2 ^ 36)). fold (vpn va) in *.
  change (W 3) with (2 ^ 27). change (W 2) with (2 ^ 18). change (W 1) with (2 ^ 9). change (W 0) with 1.
  rewrite Z.div_1_r. split; [|done]. symmetry. apply Z.mod_small.
  split; [apply Z.div_pos; lia|apply Z.div_lt_upper_bound; lia].
Qed.

(** ** Walking *)

#[local] Arguments Z.testbit : simpl never.

Lemma child_Some k e q :
  child k e = Some q -> Z.testbit e 0 = true /\ q = Z.land e PAGE_TABLE_PHYS_ADDR_MASK.
Proof. unfold child. destruct (Z.testbit e 0); [|done]. simpl. destruct (_ || _); [|done]. by intros [= <-]. Qed.

Lemma child_absent k e : Z.testbit e 0 = false -> child k e = None.
Proof. unfold child. by intros ->. Qed.

Lemma table_succ m pgd k t p :
  table m pgd k (t / 512) = Some p -> table m pgd (S k) t = child k (entry m p (t mod 512)).
Proof. simpl. by intros ->. Qed.

Lemma table_succ_page m pgd k h v p :
  table m pgd k (v / W (S h)) = Some p ->
  table m pgd (S k) (v / W h) = child k (entry m p (v / W h mod 512)).
Proof. intros H. apply table_succ. by rewrite <- div_W_succ. Qed.

(** A walk passes through every table of its page number. *)
Lemma table_walk m pgd k : forall h v p,
  (k + h = 3)%nat -> table m pgd k (v / W (S h)) = Some p -> walk m pgd v = walk_from m k h p v.
Proof.
  induction k as [|k IH]; intros h v p Hkh Ht.
  - injection Ht as <-. by replace h with 3%nat by lia.
  - simpl in Ht. rewrite <- div_W_succ in Ht.
    destruct (table m pgd k (v / W (S (S h)))) as [p'|] eqn:Hp; [|done]. simpl in Ht.
    rewrite (IH (S h) v p') by (done || lia). simpl. rewrite Ht.
    apply child_Some in Ht as [-> _]. done.
Qed.

(** Two memories that agree on every table have the same tables and walks. *)
Lemma table_agree m m' pgd (P : Z -> Prop) :
  (forall k t p, table_id k t -> table m pgd k t = Some p -> P p) ->
  (forall p i, P p -> 0 <= i < 512 -> entry m' p i = entry m p i) ->
  forall k t, table_id k t -> table m' pgd k t = table m pgd k t.
Proof.
  intros HP Hag k. induction k as [|k IH]; intros t Hid; [done|]. simpl.
  rewrite IH by by apply table_id_parent. destruct (table m pgd k (t / 512)) as [p|] eqn:Hp; [|done]. simpl.
  rewrite Hag; [done| |apply index_range]. eapply HP; [|done]. by apply table_id_parent.
Qed.

(** The walks of a page number agree when its entries do. *)
Lemma walk_agree m m' pgd v :
  0 <= v < 2 ^ 36 ->
  (forall k h p, (k + h = 3)%nat -> table m pgd k (v / W (S h)) = Some p ->
     entry m' p (v / W h mod 512) = entry m p (v / W h mod 512)) ->
  walk m' pgd v = walk m pgd v.
Proof.
  intros Hv Hag.
  assert (forall h k p, (k + h = 3)%nat -> table m pgd k (v / W (S h)) = Some p ->
            walk_from m' k h p v = walk_from m k h p v) as Hw; [|by apply (Hw 3%nat 0%nat)].
  induction h as [|h IH]; intros k p Hkh Hp; simpl; rewrite (Hag _ _ _ Hkh Hp); [done|].
  destruct (negb _) eqn:Hpres; [done|]. destruct (child k _) as [q|] eqn:Hc; [|done].
  apply IH; [lia|]. by rewrite (table_succ_page _ _ _ _ _ _ Hp).
Qed.

(** ** Writing one entry *)

Section write.
Context (m : words) (in_use : Z -> Prop) (pgd : Z) (Htree : tree m in_use pgd).
Context (k h : nat) (t p i x : Z) (Hkh : (k + h = 3)%nat) (Hid : table_id k t).
Context (Hp : table m pgd k t = Some p) (Hi : 0 <= i < 512).

Abbreviation m' := (store m (pgde_at p i) x).

Lemma entry_write_ne k' t' p' j :
  table_id k' t' -> table m pgd k' t' = Some p' -> 0 <= j < 512 ->
  (k' <> k \/ t' <> t \/ j <> i) -> entry m' p' j = entry m p' j.
Proof.
  intros Hid' Hp' Hj Hne. apply load_store_ne. intros Ha.
  destruct (tree_page _ _ _ Htree _ _ _ Hid Hp) as [Hpok _], (tree_page _ _ _ Htree _ _ _ Hid' Hp') as [Hpok' _].
  apply entry_addr_inj in Ha as [<- <-]; [|done..].
  destruct (tree_inj _ _ _ Htree _ _ _ _ _ Hid Hid' Hp Hp') as [<- <-]. naive_solver.
Qed.

(** A page that is no table is not written. *)
Lemma plain_write q j : plain m in_use pgd q -> 0 <= j < 512 -> entry m' q j = entry m q j.
Proof.
  intros (Hq & _ & Hno) Hj. apply load_store_ne. intros Ha. destruct (tree_page _ _ _ Htree _ _ _ Hid Hp) as [Hpok _].
  apply entry_addr_inj in Ha as [<- _]; [|done..]. by apply (Hno k t).
Qed.

Lemma entry_write_eq : entry m' p i = x.
Proof. apply load_store_eq. Qed.

(** Tables no deeper than the one written stay. *)
Lemma table_write_above k' t' : (k' <= k)%nat -> table_id k' t' -> table m' pgd k' t' = table m pgd k' t'.
Proof.
  revert t'. induction k' as [|k' IH]; intros t' Hk' Hid'; [done|]. simpl.
  rewrite IH by (lia || by apply table_id_parent).
  destruct (table m pgd k' (t' / 512)) as [p'|] eqn:Hp'; [|done]. simpl.
  rewrite (entry_write_ne k' (t' / 512) p');
    [done|by apply table_id_parent|done|apply index_range|lia].
Qed.

(** Writing where no table hung, an entry that leads to none or to a table
    whose entries are all empty, adds that table and changes no other. *)
Lemma table_write k' t' :
  table m pgd (S k) (t * 512 + i) = None ->
  (forall q j, child k x = Some q -> 0 <= j < 512 -> child (S k) (entry m' q j) = None) ->
  table_id k' t' ->
  table m' pgd k' t' =
    if decide (k' = S k /\ t' = t * 512 + i) then child k x else table m pgd k' t'.
Proof.
  intros Hnone Hempty. revert t'. induction k' as [|k' IH]; intros t' Hid'; [by rewrite decide_False by lia|].
  destruct (decide (k' < k)%nat) as [Hlt|Hge].
  { rewrite decide_False by lia. apply table_write_above; [lia|done]. }
  destruct (table_id_parent _ _ Hid') as [Hk3 Hr]. pose proof (index_range t'). pose proof (Z.div_mod t' 512).
  simpl. rewrite IH by by apply table_id_parent.
  destruct (decide (k' = S k /\ t' / 512 = t * 512 + i)) as [[-> Ht]|Hn1].
  - rewrite decide_False by lia. rewrite Ht, Hnone. simpl.
    destruct (child k x) as [q|] eqn:Hq; [|done]. simpl. by apply Hempty.
  - destruct (decide (S k' = S k /\ t' = t * 512 + i)) as [[[= ->] ->]|Hn2].
    + replace ((t * 512 + i) / 512) with t by (rewrite Z.div_add_l, Z.div_small; lia). rewrite Hp. simpl.
      replace ((t * 512 + i) mod 512) with i; [by rewrite entry_write_eq|].
      rewrite Z.add_comm, Z.mod_add, Z.mod_small; lia.
    + destruct (table m pgd k' (t' / 512)) as [p'|] eqn:Hp'; [|done]. simpl.
      rewrite (entry_write_ne k' (t' / 512) p'); [done|by apply table_id_parent|done|done|].
      destruct (decide (k' = k)) as [->|]; [|lia]. destruct (decide (t' / 512 = t)); [|lia]. lia.
Qed.

(** Pages outside the entry's range keep their walk. *)
Lemma walk_write_outside v : 0 <= v < 2 ^ 36 -> v / W h <> t * 512 + i -> walk m' pgd v = walk m pgd v.
Proof.
  intros Hv Hout. apply walk_agree; [done|]. intros k' h' p' Hkh' Hp'.
  apply (entry_write_ne k' (v / W (S h'))); [by apply table_id_page|done|apply index_range|].
  destruct (decide (k' = k)) as [->|]; [|by left]. assert (h' = h) as -> by lia.
  destruct (decide (v / W (S h) = t)) as [Ht|]; [|by right; left]. right; right. intros Hidx.
  apply Hout. by rewrite (slot_number v h), Ht, Hidx.
Qed.

Lemma walk_write_inside v : v / W h = t * 512 + i -> walk m' pgd v = walk_from m' k h p v.
Proof.
  intros Hs. apply table_walk; [done|]. assert (v / W (S h) = t) as ->.
  { rewrite div_W_succ, Hs, Z.div_add_l, Z.div_small; lia. }
  rewrite table_write_above; done.
Qed.
End write.

(** ** The three kinds of step *)

(** An entry that points to table [q], as [assign_pud], [assign_pmd] and
    [assign_ptd] write it. *)
Lemma child_table_entry k q :
  page_ok q -> child k (Z.lor (Z.land q (not64 PAGE_MASK)) PAGE_FLAG_DEFAULT) = Some q.
Proof.
  intros [Hq Hal]. change PAGE_MASK with (2 ^ 12 - 1). rewrite land_not_mask by (unfold is_u; lia).
  pose proof (entry_fields q PAGE_FLAG_DEFAULT 12 false PAGE_FLAG_DEFAULT_ok) as He. cbv zeta in He.
  rewrite Z.lor_0_r in He. destruct He as (Hm & H0 & H7 & _); [lia..|].
  unfold child. rewrite H0, H7, orb_true_r. simpl. f_equal.
  change PAGE_TABLE_PHYS_ADDR_MASK with (Z.land PHYS_ADDR_MASK (BIT_MASK_ABOVE 12)). rewrite Hm. lia.
Qed.

(** Writing a data entry over an absent one. *)
Lemma leaf_write m in_use pgd k h t p i x :
  tree m in_use pgd -> (k + h = 3)%nat -> table_id k t -> table m pgd k t = Some p -> 0 <= i < 512 ->
  Z.testbit (entry m p i) 0 = false -> Z.testbit x 0 = true -> (h = O \/ child k x = None) ->
  let m' := store m (pgde_at p i) x in
  tree m' in_use pgd /\ tables_kept m m' pgd /\ plain_kept m m' in_use in_use pgd /\
  forall v, 0 <= v < 2 ^ 36 ->
    (v / W h = t * 512 + i -> walk m pgd v = None /\ walk m' pgd v = Some (x, h)) /\
    (v / W h <> t * 512 + i -> walk m' pgd v = walk m pgd v).
Proof.
  intros Htree Hkh Hid Hp Hi Habs Hx Hleaf m'.
  assert (forall k' t', table_id k' t' -> table m' pgd k' t' = table m pgd k' t') as Hsame.
  { intros k' t' Hid'. destruct Hleaf as [->|Hc].
    - apply (table_write_above m in_use pgd Htree k 0 t p i x); [done..| |done]. destruct Hid'. lia.
    - assert (table m pgd (S k) (t * 512 + i) = None) as Hnone.
      { replace i with ((t * 512 + i) mod 512) in Habs at 1
          by (rewrite Z.add_comm, Z.mod_add, Z.mod_small; lia).
        rewrite (table_succ _ _ _ _ p); [by apply child_absent|].
        by replace ((t * 512 + i) / 512) with t by (rewrite Z.div_add_l, Z.div_small; lia). }
      unfold m'. rewrite (table_write m in_use pgd Htree k h t p i x); [|done..|by rewrite Hc|done].
      case_decide as Hd; [|done]. destruct Hd as [-> ->]. by rewrite Hc, Hnone. }
  split; [|split; [|split]].
  - split.
    + intros k' t' p' Hid'. rewrite Hsame by done. by apply (tree_page _ _ _ Htree).
    + intros k1 t1 k2 t2 p' Hid1 Hid2. rewrite !Hsame by done. by apply (tree_inj _ _ _ Htree).
  - intros k' t' p' Hid'. by rewrite Hsame.
  - intros q Hq. split; [|intros j Hj; by eapply plain_write].
    destruct Hq as (Hq & HU & Hno). split; [done|]. split; [done|]. intros k' t' Hid'. rewrite Hsame by done. by apply Hno.
  - intros v Hv. split; [|by apply (walk_write_outside m in_use pgd Htree k h t p i x)]. intros Hs.
    assert (v / W h mod 512 = i) as Hidx by (rewrite Hs, Z.add_comm, Z.mod_add, Z.mod_small; lia).
    assert (v / W (S h) = t) as Ht by (rewrite div_W_succ, Hs, Z.div_add_l, Z.div_small; lia).
    split.
    + rewrite (table_walk m pgd k h v p) by (done || by rewrite Ht). destruct h; simpl; by rewrite Hidx, Habs.
    + unfold m'. rewrite (walk_write_inside m in_use pgd Htree k h t p i x) by done.
      assert (entry (store m (pgde_at p i) x) p (v / W h mod 512) = x) as He by (rewrite Hidx; apply load_store_eq).
      destruct h; simpl; rewrite He, Hx; simpl; [done|]. destruct Hleaf as [?| ->]; done.
Qed.

(** Pages nobody uses can be handed out and written without disturbing the tree. *)
Lemma tree_grows m m1 (U U1 : Z -> Prop) pgd :
  tree m U pgd -> (forall q, U q -> U1 q) ->
  (forall q j, page_ok q -> U q -> 0 <= j < 512 -> entry m1 q j = entry m q j) ->
  tree m1 U1 pgd /\ (forall k t, table_id k t -> table m1 pgd k t = table m pgd k t) /\
  forall v, 0 <= v < 2 ^ 36 -> walk m1 pgd v = walk m pgd v.
Proof.
  intros Htree HU Hm1.
  assert (forall k t, table_id k t -> table m1 pgd k t = table m pgd k t) as Hsame.
  { apply (table_agree m m1 pgd (fun p => page_ok p /\ U p)); [apply (tree_page _ _ _ Htree)|].
    intros p j [Hp HUp] Hj. by apply Hm1. }
  split; [|split; [done|]].
  - split.
    + intros k t p Hid. rewrite Hsame by done. intros Hp. apply (tree_page _ _ _ Htree) in Hp as [Hp HUp]; [|done].
      split; [done|]. by apply HU.
    + intros k1 t1 k2 t2 p Hid1 Hid2. rewrite !Hsame by done. by apply (tree_inj _ _ _ Htree).
  - intros v Hv. apply walk_agree; [done|]. intros k h p Hkh Hp.
    apply (tree_page _ _ _ Htree) in Hp as [Hp HUp]; [|by apply table_id_page].
    apply Hm1; [done|done|apply index_range].
Qed.

(** One fresh page. *)
Lemma fresh_page m m1 (U U1 : Z -> Prop) pgd q :
  tree m U pgd -> ~ U q -> (forall q', U1 q' <-> q' = q \/ U q') ->
  (forall q' j, page_ok q' -> 0 <= j < 512 -> entry m1 q' j = if decide (q' = q) then 0 else entry m q' j) ->
  tree m1 U1 pgd /\ (forall k t, table_id k t -> table m1 pgd k t = table m pgd k t) /\
  forall v, 0 <= v < 2 ^ 36 -> walk m1 pgd v = walk m pgd v.
Proof.
  intros Htree Hq HU Hm1. apply (tree_grows m m1 U U1); [done|intros q' Hq'; apply HU; by right|].
  intros q' j Hp HUq Hj. rewrite Hm1 by done. apply decide_False. by intros ->.
Qed.

Lemma plain_fresh m m1 (U U1 : Z -> Prop) pgd q q' :
  plain m U pgd q' -> ~ U q -> (forall p, U1 p <-> p = q \/ U p) -> (forall k t, table_id k t -> table m1 pgd k t = table m pgd k t) ->
  (forall p j, page_ok p -> 0 <= j < 512 -> entry m1 p j = if decide (p = q) then 0 else entry m p j) ->
  q' <> q /\ plain m1 U1 pgd q' /\ forall j, 0 <= j < 512 -> entry m1 q' j = entry m q' j.
Proof.
  intros (Hp & HU & Hno) Hq HU1 Htab Hm1. assert (q' <> q) as Hne by congruence. split; [done|]. split.
  - split; [done|]. split; [apply HU1; by right|]. intros k t Hid. rewrite Htab by done. by apply Hno.
  - intros j Hj. rewrite Hm1 by done. by apply decide_False.
Qed.

Lemma plain_kept_trans m m1 m2 U U1 U2 pgd : plain_kept m m1 U U1 pgd -> plain_kept m1 m2 U1 U2 pgd -> plain_kept m m2 U U2 pgd.
Proof.
  intros H1 H2 q Hq. destruct (H1 q Hq) as [Hq1 E1]. destruct (H2 q Hq1) as [Hq2 E2]. split; [done|].
  intros i Hi. by rewrite E2, E1.
Qed.

(** Hanging a fresh, empty table [q] under an absent entry. *)
Lemma table_write_fresh m U pgd k h t p i q x :
  tree m U pgd -> (S k + h = 3)%nat -> table_id k t -> table m pgd k t = Some p -> 0 <= i < 512 ->
  Z.testbit (entry m p i) 0 = false -> page_ok q -> U q ->
  (forall k' t', table_id k' t' -> table m pgd k' t' <> Some q) ->
  (forall j, 0 <= j < 512 -> entry m q j = 0) -> child k x = Some q ->
  let m' := store m (pgde_at p i) x in
  tree m' U pgd /\ tables_kept m m' pgd /\ table m' pgd (S k) (t * 512 + i) = Some q /\
  (forall q', q' <> q -> plain m U pgd q' -> plain m' U pgd q' /\ forall j, 0 <= j < 512 -> entry m' q' j = entry m q' j) /\
  forall v, 0 <= v < 2 ^ 36 -> walk m' pgd v = walk m pgd v.
Proof.
  intros Htree Hkh Hid Hp Hi Habs Hq HUq Hfresh Hzero Hc m'.
  assert (p <> q) as Hpq by (intros ->; by apply (Hfresh k t)).
  pose proof (tree_page _ _ _ Htree _ _ _ Hid Hp) as [Hpok _].
  assert (forall j, 0 <= j < 512 -> entry m' q j = 0) as Hzero'.
  { intros j Hj. unfold entry, m'. rewrite load_store_ne; [by apply Hzero|].
    intros [? ?]%entry_addr_inj; done. }
  assert ((t * 512 + i) / 512 = t) as Hdiv by (rewrite Z.div_add_l, Z.div_small; lia).
  assert ((t * 512 + i) mod 512 = i) as Hmod by (rewrite Z.add_comm, Z.mod_add, Z.mod_small; lia).
  assert (table m pgd (S k) (t * 512 + i) = None) as Hnone.
  { rewrite (table_succ _ _ _ _ p) by by rewrite Hdiv. rewrite Hmod. by apply child_absent. }
  assert (table_id (S k) (t * 512 + i)) as Hid'.
  { destruct Hid as [_ Ht]. split; [lia|]. rewrite W_succ. lia. }
  assert (forall k' t', table_id k' t' -> table m' pgd k' t' =
            if decide (k' = S k /\ t' = t * 512 + i) then Some q else table m pgd k' t') as Htab.
  { intros k' t' Hid''. rewrite <- Hc. apply (table_write m U pgd Htree k (S h) t p i x); try done; [lia|].
    rewrite Hc. intros q' j [= <-] Hj. apply child_absent. fold m'. by rewrite Hzero'. }
  split; [|split; [|split; [|split]]].
  - split.
    + intros k' t' p' Hid''. rewrite Htab by done. case_decide; [by intros [= <-]|]. by apply (tree_page _ _ _ Htree).
    + intros k1 t1 k2 t2 p' Hid1 Hid2. rewrite !Htab by done.
      case_decide as Hd1; case_decide as Hd2; [naive_solver lia| | |by apply (tree_inj _ _ _ Htree)].
      * intros [= <-] Hp2. by apply Hfresh in Hp2.
      * intros Hp1 [= <-]. by apply Hfresh in Hp1.
  - intros k' t' p' Hid'' Hp'. rewrite Htab by done. case_decide as Hd; [|done]. destruct Hd as [-> ->]. congruence.
  - rewrite Htab by done. by rewrite decide_True.
  - intros q' Hne Hq'. split; [|intros j Hj; by eapply (plain_write m U pgd Htree k t p i x)].
    destruct Hq' as (Hq' & HU' & Hno). split; [done|]. split; [done|]. intros k' t' Hid''. rewrite Htab by done.
    case_decide; [congruence|by apply Hno].
  - intros v Hv. destruct (decide (v / W (S h) = t * 512 + i)) as [Hs|Hs].
    + rewrite (table_walk m' pgd (S k) h v q); [|done|rewrite Hs, Htab by done; by rewrite decide_True].
      rewrite (table_walk m pgd k (S h) v p); [|lia|by rewrite div_W_succ, Hs, Hdiv]. simpl.
      rewrite Hs, Hmod, Habs. simpl. destruct h; simpl; rewrite Hzero' by apply index_range; done.
    + apply (walk_write_outside m U pgd Htree k (S h) t p i x); try done. lia.
Qed.

(** ** Chunks *)

Lemma mod_W_succ v h : v mod W (S h) = v / W h mod 512 * W h + v mod W h.
Proof.
  pose proof (W_pos h). rewrite W_succ, Z.mul_comm, Z.rem_mul_r by lia. lia.
Qed.

Lemma chunk_bounds h v n : 0 < n -> 0 < chunk h v n <= n.
Proof. pose proof (W_pos h). pose proof (Z.mod_pos_bound v (W h)). unfold chunk. lia. Qed.

(** The last entry of a table, or the last pages, end the table's chunk. *)
Lemma chunk_last h v n :
  chunk h v n = n \/ v / W h mod 512 = 511 -> chunk (S h) v n = chunk h v n.
Proof.
  pose proof (W_pos h). pose proof (Z.mod_pos_bound v (W h)). pose proof (index_range (v / W h)).
  unfold chunk. rewrite mod_W_succ, W_succ. intros [Hn|Hl]; [|rewrite Hl; lia]. nia.
Qed.

(** After an entry that is not the last, the cursor stands at the next one. *)
Lemma chunk_next h v n :
  0 <= v -> chunk h v n < n ->
  (v + chunk h v n) mod W h = 0 /\ (v + chunk h v n) / W h = v / W h + 1.
Proof.
  pose proof (W_pos h). pose proof (Z.mod_pos_bound v (W h)). pose proof (Z.div_mod v (W h)). intros Hv Hn.
  assert (v + chunk h v n = (v / W h + 1) * W h) as -> by (unfold chunk in *; lia).
  split; [apply Z.mod_mul|apply Z.div_mul]; lia.
Qed.

Lemma chunk_rest h v n :
  0 <= v -> chunk h v n < n -> v / W h mod 512 <> 511 ->
  (v + chunk h v n) / W (S h) = v / W (S h) /\
  chunk (S h) (v + chunk h v n) (n - chunk h v n) = chunk (S h) v n - chunk h v n.
Proof.
  intros Hv Hn Hl. destruct (chunk_next h v n Hv Hn) as [Hm Hd].
  pose proof (index_range (v / W h)). pose proof (Z.div_mod (v / W h) 512) as Hdm.
  assert ((v / W h + 1) / 512 = v / W h / 512) as Hq.
  { symmetry. apply Z.div_unique with (v / W h mod 512 + 1); lia. }
  assert ((v / W h + 1) mod 512 = v / W h mod 512 + 1) as Hr.
  { symmetry. apply Z.mod_unique with (v / W h / 512); lia. }
  split; [by rewrite !div_W_succ, Hd|].
  assert (chunk h v n = W h - v mod W h) as Hc by (unfold chunk in *; lia).
  set (c := chunk h v n) in *. clearbody c. unfold chunk. rewrite mod_W_succ, Hm, Hd, Hr, (mod_W_succ v).
  rewrite W_succ. pose proof (W_pos h). nia.
Qed.

Lemma slots_split h' h v c c' :
  (h' <= h)%nat -> (v + c) mod W h = 0 -> slots h' v (c + c') = slots h' v c + slots h' (v + c) c'.
Proof.
  intros Hle Hm. pose proof (W_pos h'). assert (exists q, v + c = q * W h') as [q Hq].
  { pose proof (W_pos h). apply Z.div_exact in Hm; [|lia]. exists ((v + c) / W h * 512 ^ Z.of_nat (h - h')).
    rewrite Hm at 1. unfold W. rewrite <- Z.mul_assoc, <- Z.pow_add_r by lia.
    replace (Z.of_nat (h - h') + Z.of_nat h') with (Z.of_nat h) by lia. lia. }
  unfold slots. rewrite Z.add_assoc, Hq. replace (q * W h' - 1) with (W h' - 1 + (q - 1) * W h') by lia.
  rewrite Z.div_add, (Z.div_small (W h' - 1)), Z.div_mul by lia. lia.
Qed.

Lemma tables_below_split h' h v c c' :
  (h' <= h)%nat -> (v + c) mod W h = 0 ->
  tables_below h' v (c + c') = tables_below h' v c + tables_below h' (v + c) c'.
Proof.
  induction h' as [|h' IH]; intros Hle Hm; [done|]. simpl. rewrite IH by (done || lia).
  rewrite (slots_split _ h) by done. lia.
Qed.

Lemma slots_chunk h v n : 0 < n -> slots h v (chunk h v n) = 1.
Proof.
  intros Hn. pose proof (W_pos h). pose proof (Z.mod_pos_bound v (W h)). pose proof (Z.div_mod v (W h)).
  pose proof (chunk_bounds h v n Hn). unfold slots.
  replace ((v + chunk h v n - 1) / W h) with (v / W h); [lia|].
  apply Z.div_unique with (v mod W h + chunk h v n - 1); [|lia]. unfold chunk in *. lia.
Qed.

Lemma slots_nonneg h v c : 0 < c -> 0 < slots h v c.
Proof. intros Hc. pose proof (W_pos h). unfold slots. pose proof (Z.div_le_mono v (v + c - 1) (W h)). lia. Qed.

Lemma tables_below_nonneg h v c : 0 < c -> 0 <= tables_below h v c.
Proof. intros Hc. induction h as [|h IH]; simpl; [lia|]. pose proof (slots_nonneg (S h) v c Hc). lia. Qed.

(** What is left of a table's chunk after an entry that is not the last. *)
Lemma chunk_split h v n (c1 := chunk h v n) (c := chunk (S h) v n) :
  0 <= v -> c1 < n -> v / W h mod 512 <> 511 -> 0 < n ->
  (v + c1) / W (S h) = v / W (S h) /\ chunk (S h) (v + c1) (n - c1) = c - c1 /\ c1 < c /\
  tables_below h v c = tables_below h v c1 + tables_below h (v + c1) (c - c1) /\
  slots h v c = 1 + slots h (v + c1) (c - c1).
Proof.
  intros Hv Hlt Hl Hn. destruct (chunk_next h v n Hv Hlt) as [Hm _].
  destruct (chunk_rest h v n Hv Hlt Hl) as [Hs Hr]. fold c1 c in Hm, Hs, Hr.
  pose proof (chunk_bounds (S h) (v + c1) (n - c1) ltac:(lia)).
  pose proof (tables_below_split h h v c1 (c - c1) (le_n h) Hm) as Ht.
  pose proof (slots_split h h v c1 (c - c1) (le_n h) Hm) as Hsl.
  unfold c1 in Hsl at 3. rewrite slots_chunk in Hsl by done.
  replace (c1 + (c - c1)) with c in * by lia. repeat split; try done; lia.
Qed.

Lemma tables_below_chunk h v n :
  0 <= v -> 0 < n -> tables_below h v (chunk h v n) <= tables_below h v (chunk (S h) v n).
Proof.
  intros Hv Hn. pose proof (chunk_bounds h v n Hn).
  destruct (decide (chunk h v n = n \/ v / W h mod 512 = 511)) as [Hl|Hl]; [by rewrite chunk_last|].
  destruct (chunk_split h v n) as (_ & Hr & Hlt & Ht & _); [lia..|]. rewrite Ht.
  pose proof (tables_below_nonneg h (v + chunk h v n) (chunk (S h) v n - chunk h v n)). lia.
Qed.

Lemma chunk_mono h v n : 0 <= v -> 0 < n -> chunk h v n <= chunk (S h) v n.
Proof.
  intros Hv Hn. pose proof (chunk_bounds h v n Hn).
  destruct (decide (chunk h v n = n \/ v / W h mod 512 = 511)) as [Hl|Hl]; [by rewrite chunk_last|].
  destruct (chunk_split h v n) as (_ & _ & Hlt & _); [lia..|]. lia.
Qed.

(** A table has 512 entries. *)
Lemma slots_table h v n : 0 <= v -> slots h v (chunk (S h) v n) <= 512.
Proof.
  intros Hv. pose proof (W_pos h). pose proof (W_succ h) as HS. unfold slots, chunk.
  pose proof (Z.div_mod v (W (S h))). pose proof (Z.mod_pos_bound v (W (S h))).
  assert ((v + Z.min n (W (S h) - v mod W (S h)) - 1) / W h < (v / W (S h) + 1) * 512)
    by (apply Z.div_lt_upper_bound; nia).
  assert (v / W (S h) * 512 <= v / W h) by (apply Z.div_le_lower_bound; nia). lia.
Qed.

(** ** Progress of the cursor *)

Lemma advance_at st v f n c :
  at_page st v f n -> in_range v f n -> 0 < c <= n ->
  at_page (advance c st) (v + c) (f + c) (n - c) /\ va (advance c st) mod 2 ^ 12 = 0.
Proof.
  intros [Hva Hv Hpa Hn] (Hr1 & Hr2 & Hr3 & Hr4 & Hr5) Hc. unfold advance.
  assert (phys_offset_pages (pa st) c = (f + c) * 2 ^ 12) as Hp.
  { change (virt_offset_pages (pa st) c = (f + c) * 2 ^ 12).
    rewrite offset_pages_spec, Hpa, Z.mod_small by lia. lia. }
  split; [split; simpl|]; simpl.
  - rewrite offset_pages_spec. pose proof (Z.mod_pos_bound (va st / 2 ^ 12 + c) (2 ^ 52)). unfold is_u. lia.
  - rewrite vpn_offset, Hv. apply Z.add_mod_idemp_l. lia.
  - rewrite Hp. apply Z.div_mul. lia.
  - unfold i64, swrap. rewrite Z.mod_small by lia. lia.
  - rewrite offset_pages_spec. apply Z.mod_mul. lia.
Qed.

(** An address whose page number is a multiple of [W h] is aligned to that many
    pages once its offset is 0. *)
Lemma page_aligned x h :
  (h <= 3)%nat -> x mod 2 ^ 12 = 0 -> x / 2 ^ 12 mod W h = 0 -> x mod 2 ^ (12 + 9 * Z.of_nat h) = 0.
Proof.
  intros Hh H0 Hv. rewrite Z.pow_add_r, Z.rem_mul_r by lia. rewrite H0.
  replace (2 ^ (9 * Z.of_nat h)) with (W h); [rewrite Hv; lia|].
  unfold W. rewrite Z.pow_mul_r by lia. done.
Qed.

Lemma vpn_aligned x h : (h <= 3)%nat -> x / 2 ^ 12 mod W h = vpn x mod W h.
Proof.
  intros Hh. unfold vpn. assert (W h = 2 ^ (9 * Z.of_nat h)) as -> by (unfold W; by rewrite Z.pow_mul_r by lia).
  symmetry. apply mod_mod_pow. lia.
Qed.

Lemma at_page_aligned st v f n h :
  at_page st v f n -> in_range v f n -> 0 < n -> (h <= 3)%nat ->
  va st mod 2 ^ 12 = 0 -> v mod W h = 0 -> va st mod 2 ^ (12 + 9 * Z.of_nat h) = 0.
Proof.
  intros [_ Hv _ _] Hr Hn Hh H0 Hm. apply page_aligned; [done|done|].
  rewrite vpn_aligned, Hv, (Z.mod_small v) by (unfold in_range in *; lia). done.
Qed.

Lemma aligned_page x h : x mod 2 ^ (12 + 9 * Z.of_nat h) = 0 -> x / 2 ^ 12 mod W h = 0 /\ x mod 2 ^ 12 = 0.
Proof.
  rewrite Z.pow_add_r, Z.rem_mul_r by lia. intros H.
  replace (2 ^ (9 * Z.of_nat h)) with (W h) in H by (unfold W; by rewrite Z.pow_mul_r by lia).
  pose proof (Z.mod_pos_bound x (2 ^ 12)). pose proof (W_pos h).
  pose proof (Z.mod_pos_bound (x / 2 ^ 12) (W h)). lia.
Qed.

Lemma mapped_refl m pgd fl v f : mapped m m pgd fl v f 0.
Proof. intros u Hu. rewrite decide_False by lia. done. Qed.

Lemma mapped_inside m m' pgd fl v f c u :
  mapped m m' pgd fl v f c -> 0 <= u < 2 ^ 36 -> v <= u < v + c -> walk m pgd u = None ->
  translate m' pgd u = Some (f + (u - v), map_flags_to_page_flags fl).
Proof. intros Hm Hu Hin Hw. specialize (Hm u Hu). rewrite decide_True in Hm by done. by rewrite Hw in Hm. Qed.

(** A step that keeps every walk can be prepended. *)
Lemma mapped_after m m1 m2 pgd fl v f c :
  (forall u, 0 <= u < 2 ^ 36 -> walk m1 pgd u = walk m pgd u) ->
  mapped m1 m2 pgd fl v f c -> mapped m m2 pgd fl v f c.
Proof. intros Hw Hm u Hu. specialize (Hm u Hu). by rewrite Hw in Hm. Qed.

Lemma mapped_trans m m1 m2 pgd fl v f c1 c2 :
  0 <= c1 -> 0 <= c2 -> mapped m m1 pgd fl v f c1 -> mapped m1 m2 pgd fl (v + c1) (f + c1) c2 ->
  mapped m m2 pgd fl v f (c1 + c2).
Proof.
  intros Hc1 Hc2 H1 H2 u Hu. specialize (H1 u Hu). specialize (H2 u Hu).
  destruct (decide (v <= u < v + c1)) as [Hin|Hout].
  - rewrite decide_True by lia. rewrite decide_False in H2 by lia.
    destruct (walk m pgd u); [by rewrite H2|]. unfold translate in *. by rewrite H2.
  - destruct (decide (v + c1 <= u < v + c1 + c2)) as [Hin2|Hout2].
    + rewrite decide_True by lia. rewrite H1 in H2. destruct (walk m pgd u); [done|]. rewrite H2. do 2 f_equal. lia.
    + rewrite decide_False by lia. by rewrite H2.
Qed.

Lemma mappable_prefix m pgd fl v n c : c <= n -> mappable m pgd fl v n -> mappable m pgd fl v c.
Proof. intros Hc Hm u Hu. apply Hm. lia. Qed.

Lemma mappable_rest m m1 pgd fl v f n c :
  0 <= v -> v + n <= 2 ^ 36 -> 0 <= c -> mappable m pgd fl v n -> mapped m m1 pgd fl v f c ->
  mappable m1 pgd fl (v + c) (n - c).
Proof.
  intros Hv Hn Hc Hm H1 u Hu. specialize (H1 u ltac:(lia)). rewrite decide_False in H1 by lia.
  rewrite H1. apply Hm. lia.
Qed.

Lemma tables_kept_trans m m1 m2 pgd : tables_kept m m1 pgd -> tables_kept m1 m2 pgd -> tables_kept m m2 pgd.
Proof. intros H1 H2 k t p Hid Hp. by apply H2, H1. Qed.

Section map_range.
Context {A : Type} {alloc : page_allocators A} {L : AllocatorLaws alloc}.

Lemma progress_trans pgd s st s1 st1 s2 st2 v f n c1 c2 b1 b2 :
  0 <= c1 -> 0 <= c2 -> progress pgd s st s1 st1 v f n c1 b1 ->
  progress pgd s1 st1 s2 st2 (v + c1) (f + c1) (n - c1) c2 b2 ->
  progress pgd s st s2 st2 v f n (c1 + c2) (b1 + b2).
Proof.
  intros Hc1 Hc2 [Ha1 Hal1 Hf1 Ho1 Hk1 Hm1 Hn1 Hb1 Hp1] [Ha2 Hal2 Hf2 Ho2 Hk2 Hm2 Hn2 Hb2 Hp2].
  rewrite Hf1 in Hm2. split; try done; try congruence; try lia.
  - by rewrite !Z.add_assoc, Z.sub_add_distr.
  - by eapply tables_kept_trans.
  - by eapply mapped_trans.
  - rewrite Hn2. unfold u64, wrap in *. rewrite <- Z.add_mod_idemp_l, Hn1, Z.add_mod_idemp_l by lia.
    f_equal. lia.
  - by eapply plain_kept_trans.
Qed.

(** Repeating the body until the table or the pages are used up. *)
Lemma loop_ok k h body :
  body_ok k h body ->
  forall fuel pgd p s st v f n, let c := chunk (S h) v n in
    level_pre pgd k h p s st v f n c (tables_below h v c) -> slots h v c < Z.of_nat fuel ->
    wp (loop fuel (body p) st) s (fun st' s' => progress pgd s st s' st' v f n c (tables_below h v c)).
Proof.
  intros [Hstop Hbody] fuel. induction fuel as [|fuel IH]; intros pgd p s st v f n c Hpre Hfuel.
  { pose proof (pre_pos _ _ _ _ _ _ _ _ _ _ _ Hpre). pose proof (chunk_bounds (S h) v n).
    pose proof (slots_nonneg h v c). unfold c in *. lia. }
  destruct Hpre as [Hkh Hok Htab Hat Hr Hn Hmode Hmap Hbud]. assert (0 <= v) as Hv by (unfold in_range in Hr; lia).
  pose proof (chunk_bounds h v n Hn) as Hc1. pose proof (tables_below_chunk h v n Hv Hn) as Hle.
  pose proof (chunk_split h v n Hv) as Hsplit. pose proof (chunk_last h v n) as Hend. fold c in Hle, Hsplit, Hend.
  pose proof (slots_chunk h v n Hn) as Hs1. simpl. apply wp_bind.
  eapply wp_mono; [apply (Hbody pgd p s st v f n); split; try done; [by eapply mappable_prefix, Hmap; apply chunk_mono|lia]|].
  set (c1 := chunk h v n) in *. cbv beta. intros r s' (st' & Hp & [[-> Hlast]|[-> Hl]]).
  { apply wp_ret. by rewrite (Hend Hlast). }
  destruct (decide (c1 = n)) as [He|Hne].
  { rewrite Hend in * by by left. destruct fuel as [|fuel]; [lia|].
    simpl. rewrite Hstop; [by apply wp_bind, wp_ret|]. rewrite (at_n _ _ _ _ (pr_at _ _ _ _ _ _ _ _ _ _ Hp)). lia. }
  destruct Hsplit as (Hsame & Hrest & Hlt & Ht & Hs); [lia..|]. rewrite Ht in Hbud |- *.
  pose proof Hp as [Ha1 Hal1 Hf1 Ho1 Hk1 Hm1 Hn1 Hb1].
  eapply wp_mono; [apply (IH pgd p s' st' (v + c1) (f + c1) (n - c1)); rewrite ?Hrest; [|lia]|].
  - split; try done; rewrite ?Hf1; try done; try lia.
    + rewrite Hsame. apply Hk1; [|done]. apply table_id_page; [done|unfold in_range in Hr; lia].
    + unfold in_range in *. lia.
    + pose proof (chunk_bounds (S h) v n Hn). eapply mappable_rest; [..|exact Hmap|done]; unfold in_range in *; lia.
  - cbv beta. rewrite Hrest. intros st2 s2 Hp2. replace c with (c1 + (c - c1)) at 1 by lia.
    eapply progress_trans; [lia|lia|done|done].
Qed.
(** *** Data entries *)

Lemma leaf_translate m pgd h u v pa fl (huge : bool) :
  let hb := if huge then PAGE_FLAG_PSE else 0 in
  let sh := 12 + 9 * Z.of_nat h in
  (h <= 2)%nat -> data_flags fl -> 0 <= pa < 2 ^ 48 -> pa / 2 ^ 12 mod W h = 0 -> v mod W h = 0 ->
  u / W h = v / W h -> walk m pgd u = Some (Z.lor (Z.lor (pa - pa mod 2 ^ sh) hb) fl, h) ->
  translate m pgd u = Some (pa / 2 ^ 12 + (u - v), fl).
Proof.
  intros hb sh Hh Hfl Hpa Hf Hv Hu Hw. unfold translate. rewrite Hw. simpl.
  destruct (entry_fields pa fl sh huge Hfl Hpa) as (Hm & _ & _ & Hl & _); [unfold sh; lia|].
  fold hb in Hm, Hl. fold sh. rewrite Hm, Hl. f_equal. f_equal.
  - assert (pa mod 2 ^ sh = pa mod 2 ^ 12) as ->.
    { unfold sh. rewrite Z.pow_add_r, Z.rem_mul_r by lia.
      replace (2 ^ (9 * Z.of_nat h)) with (W h) by (unfold W; by rewrite Z.pow_mul_r by lia). rewrite Hf. lia. }
    pose proof (W_pos h). pose proof (Z.div_mod u (W h)). pose proof (Z.div_mod v (W h)).
    replace (pa - pa mod 2 ^ 12) with (pa / 2 ^ 12 * 2 ^ 12) by (pose proof (Z.div_mod pa (2 ^ 12)); lia).
    rewrite Z.div_mul by lia. nia.
  - destruct Hfl as (_ & _ & H7 & _). apply Z.bits_inj'. intros i Hi. rewrite Z.ldiff_spec, Z.lor_spec.
    change PAGE_FLAG_PSE with (2 ^ 7) in *. rewrite Z.pow2_bits_eqb by lia. unfold hb.
    destruct (Z.eqb_spec 7 i) as [<-|Hne]; [by rewrite H7, andb_false_r|].
    destruct huge; [rewrite Z.pow2_bits_false by lia|rewrite Z.bits_0]; by rewrite andb_true_r.
Qed.

Lemma at_page_pa st v f n : at_page st v f n -> in_range v f n -> 0 < n -> 0 <= pa st < 2 ^ 48.
Proof.
  intros Hat (_ & _ & _ & ? & ?) Hn. pose proof (at_pa _ _ _ _ Hat). pose proof (Z.div_mod (pa st) (2 ^ 12)).
  pose proof (Z.mod_pos_bound (pa st) (2 ^ 12)). lia.
Qed.

Lemma leaf_step pgd k h p s st v f n g b (huge : bool) x :
  level_pre pgd k h p s st v f n g b -> (h <= 2)%nat -> huge = negb (h =? 0)%nat ->
  v mod W h = 0 -> f mod W h = 0 -> W h <= n -> 0 <= b ->
  Z.testbit (entry (mem s) p (v / W h mod 512)) 0 = false ->
  x = Z.lor (Z.lor (pa st - pa st mod 2 ^ (12 + 9 * Z.of_nat h)) (if huge then PAGE_FLAG_PSE else 0))
        (map_flags_to_page_flags (flags st)) ->
  progress pgd s st (mk_machine (store (mem s) (pgde_at p (v / W h mod 512)) x) (alloc_st s)) (advance (W h) st)
    v f n (W h) b.
Proof.
  intros [Hkh [Hal Htree] Htab Hat Hr Hn Hmode Hmap Hbud] Hh Hhuge Hv Hf Hle Hb Habs Hx.
  pose proof (W_pos h). pose proof (map_flags_data_flags _ Hmode) as Hfl. pose proof Hr as (? & _ & ? & ? & ?).
  pose proof (at_page_pa st v f n Hat Hr Hn) as Hpa.
  destruct (entry_fields (pa st) _ (12 + 9 * Z.of_nat h) huge Hfl Hpa) as (_ & Hx0 & Hx7 & _); [lia|].
  rewrite <- Hx in Hx0, Hx7.
  destruct (leaf_write _ _ _ k h (v / W (S h)) p (v / W h mod 512) x Htree Hkh) as (Ht & Hk & Hpl & Hw); try done.
  { apply table_id_page; [done|lia]. }
  { apply index_range. }
  { destruct h as [|h']; [by left|]. right. unfold child. rewrite Hx0, Hx7, Hhuge.
    destruct k; [lia|]. done. }
  rewrite <- (slot_number v h) in Hw.
  destruct (advance_at st v f n (W h) Hat Hr) as [Hat' Hal']; [lia|].
  split; try done; simpl.
  - intros u Hu. destruct (Hw u Hu) as [Hin Hout]. pose proof (Z.div_mod u (W h)). pose proof (Z.div_mod v (W h)).
    pose proof (Z.mod_pos_bound u (W h)). destruct (decide (v <= u < v + W h)) as [Hd|Hd].
    + assert (u / W h = v / W h) as Hs by (symmetry; apply Z.div_unique with (u - v); lia).
      destruct (Hin Hs) as [-> Hw']. rewrite <- (at_pa _ _ _ _ Hat).
      apply (leaf_translate _ _ h u v _ _ huge); [done..|by rewrite (at_pa _ _ _ _ Hat)|done|done|by rewrite <- Hx].
    + apply Hout. intros Hs. apply Hd. nia.
  - unfold pages_left. simpl. f_equal. lia.
  - unfold pages_left. simpl. lia.
Qed.
(** The level-independent part of an iteration: the index it reads. *)
Lemma at_page_index st v f n :
  at_page st v f n -> 0 <= v < 2 ^ 36 ->
  virt_pgde_index (va st) = v / W 3 mod 512 /\ virt_pude_index (va st) = v / W 2 mod 512 /\
  virt_pmde_index (va st) = v / W 1 mod 512 /\ virt_ptde_index (va st) = v / W 0 mod 512.
Proof. intros [_ Hv _ _] Hr. rewrite <- (Z.mod_small v (2 ^ 36)), <- Hv by done. apply index_W. Qed.

Lemma map_ptd_body_ok : body_ok 3 0 map_ptd_body.
Proof.
  split. { intros p st Hn. unfold map_ptd_body. by rewrite (proj2 (Z.ltb_ge _ _)). }
  intros pgd p s st v f n c Hpre. pose proof Hpre as [_ Hok Htab Hat Hr Hn Hmode Hmap _].
  assert (c = 1) as Hc by (unfold c, chunk; change (W 0) with 1; rewrite Z.mod_1_r; lia). rewrite Hc.
  unfold map_ptd_body. rewrite (at_n _ _ _ _ Hat), (proj2 (Z.ltb_lt 0 n)) by done. simpl negb. cbv iota.
  destruct (at_page_index st v f n Hat) as (_ & _ & _ & ->); [unfold in_range in Hr; lia|].
  set (i := v / W 0 mod 512). apply wp_bind, wp_gets. change (load (mem s) (ptde_at p i)) with (entry (mem s) p i).
  unfold ptde_present. rewrite IS_BIT_SET_testbit by done. unfold PAGE_FLAG_PRESENT_BIT.
  pose proof (table_walk _ _ 3 0 v p eq_refl Htab) as Hwalk. simpl in Hwalk. fold i in Hwalk.
  destruct (advance_at st v f n 1 Hat Hr) as [Hat' Hal']; [lia|].
  assert (forall s', progress pgd s st s' (advance 1 st) v f n 1 0 ->
    wp (if i =? NUM_PAGE_TABLE_ENTRIES - 1 then mret (Break (advance 1 st)) else mret (Continue (advance 1 st))) s'
      (fun r s' => exists st', progress pgd s st s' st' v f n 1 (tables_below 0 v 1) /\
         (r = Break st' /\ (1 = n \/ i = 511) \/ r = Continue st' /\ i <> 511))) as Hnext.
  { intros s' Hp. unfold NUM_PAGE_TABLE_ENTRIES. destruct (Z.eqb_spec i (512 - 1)); apply wp_ret; eauto 10. }
  apply wp_bind. destruct (Z.testbit (entry (mem s) p i) 0) eqn:Hpres.
  - simpl in Hwalk. destruct (Hmap v) as [Hw|[Hskip _]]; [lia|by rewrite Hwalk in Hw|]. rewrite Hskip.
    apply wp_ret, Hnext. split; try done; [by intros ?| |simpl; f_equal; lia|unfold pages_left; lia].
    intros u Hu. destruct (decide (v <= u < v + 1)); [|done]. replace u with v by lia. by rewrite Hwalk.
  - apply wp_modify, Hnext. unfold assign_data. change (ptde_at p i) with (pgde_at p i).
    apply (leaf_step pgd 3 0 p s st v f n c 0 false); try done; try (change (W 0) with 1; rewrite ?Z.mod_1_r; lia).
    rewrite Z.lor_0_r. change PAGE_MASK with (2 ^ 12 - 1).
    pose proof (at_page_pa st v f n Hat Hr Hn). by rewrite land_not_mask by (unfold is_u; lia).
Qed.
(** *** Tables *)

(** The allocator's page becomes the table below an absent entry. *)
Lemma grow_ok pgd k h p s st v f n g b allocate :
  allocates alloc_ok in_use avail allocate -> level_pre pgd k (S h) p s st v f n g (b + 1) -> 0 <= b -> v + g <= 2 ^ 36 ->
  Z.testbit (entry (mem s) p (v / W (S h) mod 512)) 0 = false ->
  wp allocate s (fun q s1 =>
    let s2 := mk_machine (store (mem s1) (pgde_at p (v / W (S h) mod 512))
                (Z.lor (Z.land q (not64 PAGE_MASK)) PAGE_FLAG_DEFAULT)) (alloc_st s1) in
    level_pre pgd (S k) h q s2 (count_pagetable st) v f n g b /\
    forall s' st' c, progress pgd s2 (count_pagetable st) s' st' v f n c b ->
      progress pgd s st s' st' v f n c (b + 1)).
Proof.
  intros Halloc [Hkh [Hal Htree] Htab Hat Hr Hn Hmode Hmap Hbud] Hb Hg Habs. unfold pages_left in *.
  eapply wp_mono; [apply (Halloc s Hal); lia|]. cbv beta. intros q s1 (Hq & Hnew & Hal1 & HU & Hav & Hm1).
  destruct (fresh_page _ _ _ _ pgd q Htree Hnew HU Hm1) as (Htree1 & Htab1 & Hw1).
  assert (0 <= v < 2 ^ 36) as Hv by (unfold in_range in Hr; lia).
  assert (table_id k (v / W (S (S h)))) as Hid by (by apply table_id_page).
  pose proof (tree_page _ _ _ Htree _ _ _ Hid Htab) as [Hpok Hpu].
  destruct (table_write_fresh (mem s1) _ pgd k h (v / W (S (S h))) p (v / W (S h) mod 512) q
              (Z.lor (Z.land q (not64 PAGE_MASK)) PAGE_FLAG_DEFAULT) Htree1) as (Htree2 & Hk2 & Htab2 & Hpl2 & Hw2);
    try done; try (by apply index_range).
  { lia. }
  { by rewrite Htab1. }
  { rewrite Hm1 by (done || apply index_range). rewrite decide_False; [done|]. by intros ->. }
  { apply HU. by left. }
  { intros k' t' Hid'. rewrite Htab1 by done. intros Hp'. by apply (tree_page _ _ _ Htree) in Hp' as [_ ?]. }
  { intros j Hj. rewrite Hm1 by done. by rewrite decide_True. }
  { by apply child_table_entry. }
  rewrite <- (slot_number v (S h)) in Htab2.
  set (s2 := mk_machine (store (mem s1) (pgde_at p (v / W (S h) mod 512)) _) (alloc_st s1)).
  assert (forall u, 0 <= u < 2 ^ 36 -> walk (mem s2) pgd u = walk (mem s) pgd u) as Hw.
  { intros u Hu. simpl. by rewrite Hw2, Hw1. }
  split.
  - split; try done; [lia|by destruct Hat| |unfold pages_left; simpl; lia].
    intros u Hu. rewrite Hw by (unfold in_range in Hr; lia). by apply Hmap.
  - intros s' st' c [Ha1 Hal2 Hf1 Ho1 Hkp1 Hmp1 Hn1 Hb1 Hpl1]. unfold pages_left in *. simpl in Hn1, Hb1. split; try done.
    + eapply tables_kept_trans; [|done]. intros k' t' p' Hid' Hp'. apply Hk2; [done|]. by rewrite Htab1.
    + by eapply mapped_after.
    + rewrite Hn1. unfold add64, u64, wrap, pages_left. rewrite Z.add_mod_idemp_l by lia. f_equal. lia.
    + unfold pages_left. lia.
    + intros q' Hq'. destruct (plain_fresh _ _ _ _ _ _ _ Hq' Hnew HU Htab1 Hm1) as (Hne & Hp1 & E1).
      destruct (Hpl2 q' Hne Hp1) as [Hp2 E2]. destruct (Hpl1 q' Hp2) as [Hp3 E3]. split; [done|].
      intros j Hj. cbn [mem] in E3. by rewrite E3, E2, E1.
Qed.
(** Going down one level: either all pages are mapped, or the cursor is aligned
    to the next entry. *)
Lemma descend_ok pgd k h below q s st v f n msg K Q :
  let c := chunk (S h) v n in
  level_ok k h below -> level_pre pgd k h q s st v f n c (tables_below h v c) -> (h <= 2)%nat ->
  (forall st' s', progress pgd s st s' st' v f n c (tables_below h v c) -> c = n -> Q (Break st') s') ->
  (forall st' s', progress pgd s st s' st' v f n c (tables_below h v c) -> c < n -> wp (K st') s' Q) ->
  wp (go_down (S h) below msg K q st) s Q.
Proof.
  intros c Hbelow Hpre Hh Hdone Hmore. unfold go_down. apply wp_bind. eapply wp_mono; [by apply Hbelow|].
  cbv beta. fold c. intros st' s' Hp. destruct Hpre as [_ _ _ _ Hr Hn _ _ _]. pose proof (pr_at _ _ _ _ _ _ _ _ _ _ Hp) as Hat.
  rewrite (at_n _ _ _ _ Hat). pose proof (chunk_bounds (S h) v n Hn) as Hc. fold c in Hc.
  destruct (Z.leb_spec (n - c) 0); [apply wp_ret, Hdone; [done|lia]|].
  destruct (chunk_next (S h) v n) as [Hm _]; [unfold in_range in Hr; lia|unfold c in *; lia|]. fold c in Hm.
  rewrite BIT_MASK_pow, IS_ALIGNED_pow by lia.
  rewrite (at_page_aligned st' (v + c) (f + c) (n - c) (S h));
    [by apply Hmore; [|lia]|done|unfold in_range in *; lia|lia|lia|by destruct Hp|done].
Qed.

Lemma level_pre_budget pgd k h p s st v f n g b b' :
  b' <= b -> level_pre pgd k h p s st v f n g b -> level_pre pgd k h p s st v f n g b'.
Proof. intros Hb []. split; try done. lia. Qed.

(** An entry that is present and not a data page leads to the table below. *)
Lemma present_pre pgd k h p s st v f n g b :
  level_pre pgd k (S h) p s st v f n g b ->
  let e := entry (mem s) p (v / W (S h) mod 512) in
  Z.testbit e 0 = true -> (k = O \/ Z.testbit e 7 = false) ->
  level_pre pgd (S k) h (Z.land e PAGE_TABLE_PHYS_ADDR_MASK) s st v f n g b.
Proof.
  intros [Hkh Hok Htab Hat Hr Hn Hmode Hmap Hbud] e He0 He7. split; try done; [lia|].
  rewrite (table_succ_page _ _ _ _ _ _ Htab). fold e. unfold child. rewrite He0.
  destruct He7 as [->| ->]; [done|]. by rewrite orb_true_r.
Qed.

(** No data page larger than 4 KiB is in the way. *)
Lemma no_huge pgd k h p s st v f n g b :
  level_pre pgd k (S h) p s st v f n g b -> 0 < g -> (0 < k)%nat ->
  let e := entry (mem s) p (v / W (S h) mod 512) in
  Z.testbit e 0 = true -> Z.testbit e 7 = false.
Proof.
  intros [Hkh Hok Htab Hat Hr Hn Hmode Hmap Hbud] Hg Hk e He0. apply not_true_is_false. intros He7.
  pose proof (table_walk _ _ k (S h) v p Hkh Htab) as Hw. simpl in Hw. fold e in Hw. rewrite He0 in Hw.
  assert (child k e = None) as Hc by (unfold child; rewrite He0, He7; by destruct k; [lia|]).
  rewrite Hc in Hw. simpl in Hw. destruct (Hmap v) as [Hn'|[_ [e' He']]]; [lia|congruence|congruence].
Qed.

(** A large data page is used only where it fits exactly. *)
Lemma at_page_huge st v f n h :
  at_page st v f n -> 0 <= v < 2 ^ 36 -> (h <= 3)%nat -> va st mod 2 ^ (12 + 9 * Z.of_nat h) = 0 ->
  pa st mod 2 ^ (12 + 9 * Z.of_nat h) = 0 -> W h <= n ->
  v mod W h = 0 /\ f mod W h = 0 /\ chunk h v n = W h.
Proof.
  intros [_ Hvpn Hpa _] Hv Hh [Ha _]%aligned_page [Hb _]%aligned_page Hn. rewrite Hpa in Hb.
  rewrite vpn_aligned, Hvpn, (Z.mod_small v) in Ha by done. repeat split; try done.
  unfold chunk. rewrite Ha. lia.
Qed.

Lemma mid_body_ok k h index allocate below msg1 msg2 :
  (k + S h = 3)%nat -> (0 < k)%nat -> allocates alloc_ok in_use avail allocate -> level_ok (S k) h below ->
  (forall st v f n, at_page st v f n -> 0 <= v < 2 ^ 36 -> index (va st) = v / W (S h) mod 512) ->
  body_ok k (S h) (mid_body (S h) index allocate below msg1 msg2).
Proof.
  intros Hkh Hk Halloc Hbelow Hindex.
  split. { intros p st Hn. unfold mid_body. by rewrite (proj2 (Z.ltb_ge _ _)). }
  intros pgd p s st v f n c Hpre. pose proof Hpre as [_ Hok Htab Hat Hr Hn Hmode Hmap _].
  assert (0 <= v < 2 ^ 36) as Hv by (unfold in_range in Hr; lia). pose proof (chunk_bounds (S h) v n Hn) as Hc.
  pose proof (slots_chunk (S h) v n Hn) as Hslot. pose proof (tables_below_nonneg h v c) as Hnn. fold c in Hc, Hslot.
  assert (tables_below (S h) v c = tables_below h v c + 1) as Hb by (simpl; lia). rewrite Hb in Hpre |- *.
  unfold mid_body. rewrite (at_n _ _ _ _ Hat), (proj2 (Z.ltb_lt 0 n)) by done. simpl negb. cbv iota zeta.
  rewrite (Hindex _ _ _ _ Hat Hv). set (i := v / W (S h) mod 512). apply wp_bind, wp_gets.
  change (load (mem s) (pgde_at p i)) with (entry (mem s) p i). rewrite !IS_BIT_SET_testbit by done.
  unfold PAGE_FLAG_PRESENT_BIT, PAGE_FLAG_PSE_BIT. set (Q := fun (r : step page_map_state) (s' : machine A) => _).
  assert (forall st' s', progress pgd s st s' st' v f n c (tables_below h v c + 1) -> wp (next_entry i st') s' Q) as Hnext.
  { intros st' s' Hp. unfold next_entry, NUM_PAGE_TABLE_ENTRIES.
    destruct (Z.eqb_spec i (512 - 1)); apply wp_ret; unfold Q; eauto 10. }
  assert (forall q s' st0, level_pre pgd (S k) h q s' st0 v f n c (tables_below h v c) ->
    (forall s'' st' c', progress pgd s' st0 s'' st' v f n c' (tables_below h v c) ->
       progress pgd s st s'' st' v f n c' (tables_below h v c + 1)) ->
    wp (go_down (S h) below msg2 (next_entry i) q st0) s' Q) as Hdown.
  { intros q s' st0 Hpre' Hlift. apply (descend_ok pgd (S k) h below q s' st0 v f n); [done|done|lia| |]; fold c; intros st' s'' Hp Hcn;
      [unfold Q; eauto 10|by apply Hnext, Hlift]. }
  destruct (Z.testbit (entry (mem s) p i) 0) eqn:Hpres; simpl.
  - pose proof (no_huge _ _ _ _ _ _ _ _ _ _ _ Hpre (proj1 Hc) Hk Hpres) as H7. fold i in H7. rewrite H7.
    apply Hdown.
    + apply level_pre_budget with (tables_below h v c + 1); [lia|]. apply (present_pre pgd k h p); [done..|by right].
    + intros s'' st' c' []. split; try done. lia.
  - destruct (IS_ALIGNED (va st) _ && IS_ALIGNED (pa st) _ && _) eqn:Hal.
    + apply wp_bind, wp_modify. rewrite BIT_MASK_pow, !IS_ALIGNED_pow in Hal by lia. bool_to_prop.
      destruct (at_page_huge st v f n (S h)) as (Hvm & Hfm & Hcw); [done|done|lia|done..|]. fold c in Hcw. rewrite <- Hcw.
      apply Hnext. rewrite Hcw in Hpre, Hnn, Hc |- *. pose proof (at_page_pa st v f n Hat Hr Hn).
      rewrite BIT_MASK_BELOW_pow, land_not_mask by (unfold is_u; lia).
      eapply (leaf_step _ k _ _ _ _ _ _ _ _ _ true); [exact Hpre|lia|done|exact Hvm|exact Hfm|lia|lia|exact Hpres|reflexivity].
    + apply wp_bind. eapply wp_mono; [by apply (grow_ok pgd k h p s st v f n c (tables_below h v c)); [..|lia|unfold in_range in Hr; lia|]|].
      cbv beta zeta. intros q s1 [Hpre' Hlift]. apply wp_bind, wp_modify. by apply Hdown.
Qed.
(** *** The levels *)

Lemma table_loop_ok k h body :
  body_ok k h body -> level_ok k h (fun p st => loop 513 (body p) st).
Proof.
  intros Hbody pgd p s st v f n c Hpre. apply (loop_ok k h); [done|done|].
  pose proof (slots_table h v n). destruct Hpre as [_ _ _ _ [? _] _ _ _ _]. lia.
Qed.

Lemma map_page_range_ptd_ok : level_ok 3 0 _map_page_range_ptd.
Proof. apply table_loop_ok, map_ptd_body_ok. Qed.

Lemma map_page_range_pmd_ok : level_ok 2 1 (_map_page_range_pmd alloc).
Proof.
  apply table_loop_ok. refine (mid_body_ok 2 0 virt_pmde_index (alloc_ptd alloc) _map_page_range_ptd _ _ _ _ _ _ _);
    [done|lia|apply alloc_ptd_law|apply map_page_range_ptd_ok|].
  intros st v f n Hat Hv. by destruct (at_page_index st v f n Hat Hv) as (_ & _ & -> & _).
Qed.

Lemma map_page_range_pud_ok : level_ok 1 2 (_map_page_range_pud alloc).
Proof.
  apply table_loop_ok.
  refine (mid_body_ok 1 1 virt_pude_index (alloc_pmd alloc) (_map_page_range_pmd alloc) _ _ _ _ _ _ _);
    [done|lia|apply alloc_pmd_law|apply map_page_range_pmd_ok|].
  intros st v f n Hat Hv. by destruct (at_page_index st v f n Hat Hv) as (_ & -> & _ & _).
Qed.

Lemma map_pgd_body_ok : body_ok 0 3 (map_pgd_body alloc).
Proof.
  split. { intros p st Hn. unfold map_pgd_body. by rewrite (proj2 (Z.ltb_ge _ _)). }
  intros pgd p s st v f n c Hpre. pose proof Hpre as [_ Hok Htab Hat Hr Hn Hmode Hmap _].
  assert (0 <= v < 2 ^ 36) as Hv by (unfold in_range in Hr; lia). pose proof (chunk_bounds 3 v n Hn) as Hc.
  pose proof (slots_chunk 3 v n Hn) as Hslot. pose proof (tables_below_nonneg 2 v c) as Hnn. fold c in Hc, Hslot.
  assert (tables_below 3 v c = tables_below 2 v c + 1) as Hb by (change (tables_below 3 v c) with (slots 3 v c + tables_below 2 v c); lia).
  rewrite Hb in Hpre |- *.
  unfold map_pgd_body. rewrite (at_n _ _ _ _ Hat), (proj2 (Z.ltb_lt 0 n)) by done. simpl negb. cbv iota zeta.
  destruct (at_page_index st v f n Hat Hv) as (-> & _). set (i := v / W 3 mod 512). apply wp_bind, wp_gets.
  change (load (mem s) (pgde_at p i)) with (entry (mem s) p i). unfold pgde_present. rewrite IS_BIT_SET_testbit by done.
  set (Q := fun (r : step page_map_state) (s' : machine A) => _).
  assert (c < n -> i <> 511) as Hlast.
  { intros Hlt Hi. pose proof (chunk_last 3 v n (or_intror Hi)) as Hc4. fold c in Hc4. unfold chunk in Hc4.
    rewrite W_4, Z.mod_small in Hc4 by done. unfold in_range in Hr. lia. }
  assert (forall q s' st0, level_pre pgd 1 2 q s' st0 v f n c (tables_below 2 v c) ->
    (forall s'' st' c', progress pgd s' st0 s'' st' v f n c' (tables_below 2 v c) ->
       progress pgd s st s'' st' v f n c' (tables_below 2 v c + 1)) ->
    wp (go_down 3 (_map_page_range_pud alloc) "%lu pages unassigned under PGD for VA 0x%lx" (fun st' => mret (Continue st')) q st0) s' Q)
    as Hdown.
  { intros q s' st0 Hpre' Hlift. apply (descend_ok pgd 1 2 _ q s' st0 v f n); [apply map_page_range_pud_ok|done|lia| |];
      fold c; intros st' s'' Hp Hcn; [unfold Q; eauto 10|apply wp_ret; unfold Q; eauto 10]. }
  destruct (Z.testbit (entry (mem s) p i) PAGE_FLAG_PRESENT_BIT) eqn:Hpres; simpl negb; cbv iota.
  - apply Hdown.
    + apply level_pre_budget with (tables_below 2 v c + 1); [lia|]. apply (present_pre pgd 0 2 p); [done..|by left].
    + intros s'' st' c' []. split; try done. lia.
  - apply wp_bind. eapply wp_mono.
    { apply (grow_ok pgd 0 2 p s st v f n c (tables_below 2 v c)); [apply alloc_pud_law|done|lia|unfold in_range in Hr; lia|done]. }
    cbv beta zeta. intros q s1 [Hpre' Hlift]. apply wp_bind, wp_modify. by apply Hdown.
Qed.

(** The PGD loop's fuel covers every entry the range touches. *)
Lemma pgd_loop_fuel v n : 0 <= v -> 0 < n -> slots 3 v n < Z.of_nat (Z.to_nat (n / NUM_PAGES_PUD + 3)).
Proof.
  intros Hv Hn. change NUM_PAGES_PUD with (W 3). pose proof (W_pos 3). unfold slots.
  pose proof (Z.div_mod v (W 3)). pose proof (Z.div_mod n (W 3)). pose proof (Z.mod_pos_bound v (W 3)).
  pose proof (Z.mod_pos_bound n (W 3)).
  assert ((v + n - 1) / W 3 < v / W 3 + n / W 3 + 2) by (apply Z.div_lt_upper_bound; nia).
  pose proof (Z.div_pos n (W 3)). rewrite Z2Nat.id by lia. lia.
Qed.

Lemma map_page_range_ok pgd s start_va start_pa n fl (v := vpn start_va) (f := start_pa / 2 ^ 12) :
  pt_ok pgd s -> is_u64 start_va -> in_range v f n -> map_mode_ok fl ->
  mappable (mem s) pgd fl v n -> 0 < n -> tables_below 3 v n <= pages_left s ->
  wp (_map_page_range alloc pgd start_va start_pa n fl) s (fun r s' => exists st',
    r = num_pagetables_allocated st' /\
    progress pgd s (mk_map_state start_va start_pa n 0 fl) s' st' v f n n (tables_below 3 v n)).
Proof.
  intros Hok Hva Hr Hmode Hmap Hn Hbud. unfold _map_page_range. apply wp_bind. pose proof Hr as (? & ? & ? & ? & ?).
  assert (0 <= v < 2 ^ 36) as Hv by (split; lia).
  assert (chunk 4 v n = n) as Hc by (unfold chunk; rewrite W_4, Z.mod_small by done; lia).
  eapply wp_mono; [apply (loop_ok 0 3 _ map_pgd_body_ok _ pgd pgd s _ v f n); rewrite Hc|].
  - split; try done. split; try done. simpl. by rewrite Z.mod_small.
  - by apply pgd_loop_fuel.
  - cbv beta. rewrite Hc. intros st' s' Hp. apply wp_ret. eauto.
Qed.

(** *** Meeting a page that may not be mapped *)

Lemma panics_bind {S B C} (m : M S B) (k : B -> M S C) s : panics m s -> panics (m ≫= k) s.
Proof. intros [msg Hm]. exists msg. unfold mbind, M_bind. by rewrite Hm. Qed.

Lemma panics_next {S B C} (m : M S B) (k : B -> M S C) s a s' : m s = Done a s' -> panics (k a) s' -> panics (m ≫= k) s.
Proof. intros Hm [msg Hk]. exists msg. unfold mbind, M_bind. by rewrite Hm. Qed.

Lemma mappable_dec m pgd fl v c : mappable m pgd fl v c \/ ~ mappable m pgd fl v c.
Proof.
  assert (forall u, Decision (walk m pgd u = None \/
    IS_MASK_SET fl MAP_SKIP_IF_MAPPED = true /\ exists e, walk m pgd u = Some (e, O))) as Hdec.
  { intros u. destruct (walk m pgd u) as [[e [|h]]|] eqn:Hw; [| |by left; left].
    - destruct (IS_MASK_SET fl MAP_SKIP_IF_MAPPED) eqn:Hs; [left; right; eauto|]. right. by intros [?|[? _]].
    - right. by intros [?|[_ [e' ?]]]. }
  destruct (decide (Forall (fun u => walk m pgd u = None \/
    IS_MASK_SET fl MAP_SKIP_IF_MAPPED = true /\ exists e, walk m pgd u = Some (e, O)) (seqZ v c))) as [Hf|Hf].
  - left. intros u Hu. by apply (proj1 (Forall_seqZ _ _ _) Hf).
  - right. intros Hm. by apply Hf, Forall_seqZ.
Qed.

Lemma mappable_split m pgd fl v c1 c :
  mappable m pgd fl v c1 -> mappable m pgd fl (v + c1) (c - c1) -> mappable m pgd fl v c.
Proof. intros H1 H2 u Hu. destruct (Z.lt_ge_cases u (v + c1)); [apply H1; lia|apply H2; lia]. Qed.

Lemma loop_panics k h body :
  body_ok k h body -> body_panics k h body ->
  forall fuel pgd p s st v f n, let c := chunk (S h) v n in
    level_pre pgd k h p s st v f n 0 (tables_below h v c) -> slots h v c < Z.of_nat fuel ->
    ~ mappable (mem s) pgd (flags st) v c -> panics (loop fuel (body p) st) s.
Proof.
  intros [_ Hbody] Hpan fuel. induction fuel as [|fuel IH]; intros pgd p s st v f n c Hpre Hfuel Hbad.
  { pose proof (pre_pos _ _ _ _ _ _ _ _ _ _ _ Hpre). pose proof (chunk_bounds (S h) v n).
    pose proof (slots_nonneg h v c). unfold c in *. lia. }
  destruct Hpre as [Hkh Hok Htab Hat Hr Hn Hmode _ Hbud]. assert (0 <= v) as Hv by (unfold in_range in Hr; lia).
  pose proof (chunk_bounds h v n Hn) as Hc1. pose proof (tables_below_chunk h v n Hv Hn) as Hle.
  pose proof (chunk_split h v n Hv) as Hsplit. pose proof (chunk_last h v n) as Hend. fold c in Hle, Hsplit, Hend.
  pose proof (slots_chunk h v n Hn) as Hs1. pose proof (chunk_bounds (S h) v n Hn) as Hcn. fold c in Hcn. cbn [loop].
  destruct (mappable_dec (mem s) pgd (flags st) v (chunk h v n)) as [Hmap|Hnm].
  2:{ apply panics_bind, (Hpan pgd p s st v f n); [|done]. split; try done; [intros u Hu; lia|lia]. }
  destruct (wp_done _ _ _ (Hbody pgd p s st v f n ltac:(split; try done; lia))) as (r & s' & Hrun & st' & Hp & Hres).
  set (c1 := chunk h v n) in *. eapply panics_next; [exact Hrun|].
  assert (c1 <> n /\ v / W h mod 512 <> 511) as [Hne Hl].
  { split; intros E; apply Hbad; [rewrite (Hend (or_introl E))|rewrite (Hend (or_intror E))]; done. }
  destruct Hres as [[-> [?|?]]|[-> _]]; [done|done|].
  destruct Hsplit as (Hsame & Hrest & Hlt & Ht & Hs); [lia..|]. rewrite Ht in Hbud.
  pose proof Hp as [Ha1 Hal1 Hf1 Ho1 Hk1 Hm1 Hn1 Hb1].
  apply (IH pgd p s' st' (v + c1) (f + c1) (n - c1)); rewrite ?Hrest; [|lia|].
  - split; try done; rewrite ?Hf1; try done; try lia; [|unfold in_range in *; lia|intros u Hu; lia].
    rewrite Hsame. apply Hk1; [|done]. apply table_id_page; [done|unfold in_range in Hr; lia].
  - rewrite Hf1. intros Hm2. apply Hbad. apply (mappable_split _ _ _ _ c1); [done|]. intros u Hu.
    specialize (Hm1 u ltac:(unfold in_range in Hr; lia)). rewrite decide_False in Hm1 by lia. rewrite <- Hm1. by apply Hm2.
Qed.

Lemma table_loop_panics k h body : body_ok k h body -> body_panics k h body -> level_panics k h (fun p st => loop 513 (body p) st).
Proof.
  intros Hbody Hpan pgd p s st v f n c Hpre. apply (loop_panics k h body Hbody Hpan _ _ _ _ _ _ f n); [done|].
  pose proof (slots_table h v n). destruct Hpre as [_ _ _ _ [? _] _ _ _ _]. lia.
Qed.

(** Below an absent entry nothing is mapped. *)
Lemma absent_mappable pgd k h p s st v f n g b c :
  level_pre pgd k h p s st v f n g b -> c <= chunk h v n ->
  Z.testbit (entry (mem s) p (v / W h mod 512)) 0 = false -> mappable (mem s) pgd (flags st) v c.
Proof.
  intros [Hkh Hok Htab Hat Hr Hn Hmode _ _] Hc Habs u Hu. left. pose proof (W_pos h). pose proof (Z.mod_pos_bound v (W h)).
  pose proof (Z.div_mod v (W h)). unfold chunk in Hc.
  assert (u / W h = v / W h) as Hs by (symmetry; apply Z.div_unique with (u - v / W h * W h); lia).
  assert (u / W (S h) = v / W (S h)) as Hs' by (by rewrite !div_W_succ, Hs).
  rewrite (table_walk _ _ k h u p Hkh) by (by rewrite Hs'). destruct h; cbn [walk_from]; by rewrite Hs, Habs.
Qed.

Lemma map_ptd_body_panics : body_panics 3 0 map_ptd_body.
Proof.
  intros pgd p s st v f n c Hpre Hbad. pose proof Hpre as [_ Hok Htab Hat Hr Hn Hmode _ _].
  unfold map_ptd_body. rewrite (at_n _ _ _ _ Hat), (proj2 (Z.ltb_lt 0 n)) by done. cbn [negb]. cbv iota zeta.
  destruct (at_page_index st v f n Hat) as (_ & _ & _ & ->); [unfold in_range in Hr; lia|].
  set (i := v / W 0 mod 512). eapply panics_next; [done|]. cbv beta. change (load (mem s) (ptde_at p i)) with (entry (mem s) p i).
  unfold ptde_present. rewrite IS_BIT_SET_testbit by done. unfold PAGE_FLAG_PRESENT_BIT.
  destruct (Z.testbit (entry (mem s) p i) 0) eqn:Hpres;
    [|by destruct Hbad; apply (absent_mappable pgd 3 0 p s st v f n 0 (tables_below 0 v c))].
  destruct (IS_MASK_SET (flags st) MAP_SKIP_IF_MAPPED) eqn:Hskip; [|by apply panics_bind; eexists].
  destruct Hbad. intros u Hu. right. split; [done|].
  assert (c = 1) as Hc by (unfold c, chunk; change (W 0) with 1; rewrite Z.mod_1_r; lia). replace u with v by lia.
  pose proof (table_walk _ _ 3 0 v p eq_refl Htab) as Hwalk. simpl in Hwalk. fold i in Hwalk. rewrite Hpres in Hwalk. simpl in Hwalk. eauto.
Qed.

Lemma mid_body_panics k h index allocate below msg1 msg2 :
  (k + S h = 3)%nat -> level_panics (S k) h below ->
  (forall st v f n, at_page st v f n -> 0 <= v < 2 ^ 36 -> index (va st) = v / W (S h) mod 512) ->
  body_panics k (S h) (mid_body (S h) index allocate below msg1 msg2).
Proof.
  intros Hkh Hbelow Hindex pgd p s st v f n c Hpre Hbad. pose proof Hpre as [_ Hok Htab Hat Hr Hn Hmode _ _].
  assert (0 <= v < 2 ^ 36) as Hv by (unfold in_range in Hr; lia). pose proof (chunk_bounds (S h) v n Hn) as Hc.
  pose proof (slots_chunk (S h) v n Hn) as Hslot. fold c in Hc, Hslot.
  unfold mid_body. rewrite (at_n _ _ _ _ Hat), (proj2 (Z.ltb_lt 0 n)) by done. cbn [negb]. cbv iota zeta.
  rewrite (Hindex _ _ _ _ Hat Hv). set (i := v / W (S h) mod 512). eapply panics_next; [done|]. cbv beta.
  change (load (mem s) (pgde_at p i)) with (entry (mem s) p i). rewrite !IS_BIT_SET_testbit by done.
  unfold PAGE_FLAG_PRESENT_BIT, PAGE_FLAG_PSE_BIT.
  destruct (Z.testbit (entry (mem s) p i) 0) eqn:Hpres;
    [|destruct Hbad; by apply (absent_mappable pgd k (S h) p s st v f n 0 (tables_below (S h) v c))]. cbn [negb andb]. cbv iota.
  destruct (Z.testbit (entry (mem s) p i) 7) eqn:Hpse; [by eexists|]. apply panics_bind, (Hbelow pgd _ s st v f n); [|done].
  apply level_pre_budget with (tables_below (S h) v c); [cbn [tables_below]; fold c; lia|].
  apply (present_pre pgd k h p); [done..|by right].
Qed.

Lemma map_page_range_pud_panics : level_panics 1 2 (_map_page_range_pud alloc).
Proof.
  assert (level_panics 2 1 (_map_page_range_pmd alloc)) as Hpmd.
  { apply table_loop_panics.
    - refine (mid_body_ok 2 0 virt_pmde_index (alloc_ptd alloc) _map_page_range_ptd _ _ _ _ _ _ _);
        [done|lia|apply alloc_ptd_law|apply map_page_range_ptd_ok|].
      intros st v f n Hat Hv. by destruct (at_page_index st v f n Hat Hv) as (_ & _ & -> & _).
    - refine (mid_body_panics 2 0 virt_pmde_index (alloc_ptd alloc) _map_page_range_ptd _ _ _ _ _);
        [done|apply table_loop_panics; [apply map_ptd_body_ok|apply map_ptd_body_panics]|].
      intros st v f n Hat Hv. by destruct (at_page_index st v f n Hat Hv) as (_ & _ & -> & _). }
  apply table_loop_panics.
  - refine (mid_body_ok 1 1 virt_pude_index (alloc_pmd alloc) (_map_page_range_pmd alloc) _ _ _ _ _ _ _);
      [done|lia|apply alloc_pmd_law|apply map_page_range_pmd_ok|].
    intros st v f n Hat Hv. by destruct (at_page_index st v f n Hat Hv) as (_ & -> & _ & _).
  - refine (mid_body_panics 1 1 virt_pude_index (alloc_pmd alloc) (_map_page_range_pmd alloc) _ _ _ Hpmd _); [done|].
    intros st v f n Hat Hv. by destruct (at_page_index st v f n Hat Hv) as (_ & -> & _ & _).
Qed.

Lemma map_pgd_body_panics : body_panics 0 3 (map_pgd_body alloc).
Proof.
  intros pgd p s st v f n c Hpre Hbad. pose proof Hpre as [_ Hok Htab Hat Hr Hn Hmode _ _].
  assert (0 <= v < 2 ^ 36) as Hv by (unfold in_range in Hr; lia). pose proof (chunk_bounds 3 v n Hn) as Hc.
  pose proof (slots_chunk 3 v n Hn) as Hslot. fold c in Hc, Hslot.
  unfold map_pgd_body. rewrite (at_n _ _ _ _ Hat), (proj2 (Z.ltb_lt 0 n)) by done. cbn [negb]. cbv iota zeta.
  destruct (at_page_index st v f n Hat Hv) as (-> & _). set (i := v / W 3 mod 512). eapply panics_next; [done|]. cbv beta.
  change (load (mem s) (pgde_at p i)) with (entry (mem s) p i). unfold pgde_present. rewrite IS_BIT_SET_testbit by done.
  destruct (Z.testbit (entry (mem s) p i) PAGE_FLAG_PRESENT_BIT) eqn:Hpres;
    [|destruct Hbad; by apply (absent_mappable pgd 0 3 p s st v f n 0 (tables_below 3 v c))]. cbn [negb]. cbv iota.
  apply panics_bind, (map_page_range_pud_panics pgd _ s st v f n); [|done].
  apply level_pre_budget with (tables_below 3 v c); [cbn [tables_below]; fold c; lia|].
  apply (present_pre pgd 0 2 p); [done..|by left].
Qed.

Lemma map_page_range_panics pgd s start_va start_pa n fl (v := vpn start_va) (f := start_pa / 2 ^ 12) :
  pt_ok pgd s -> is_u64 start_va -> in_range v f n -> map_mode_ok fl -> ~ mappable (mem s) pgd fl v n -> 0 < n ->
  tables_below 3 v n <= pages_left s -> panics (_map_page_range alloc pgd start_va start_pa n fl) s.
Proof.
  intros Hok Hva Hr Hmode Hbad Hn Hbud. unfold _map_page_range. apply panics_bind. pose proof Hr as (? & ? & ? & ? & ?).
  assert (0 <= v < 2 ^ 36) as Hv by (split; lia).
  assert (chunk 4 v n = n) as Hc by (unfold chunk; rewrite W_4, Z.mod_small by done; lia).
  apply (loop_panics 0 3 _ map_pgd_body_ok map_pgd_body_panics _ pgd pgd s _ v f n); rewrite Hc; [| |done].
  - split; try done; [|intros u Hu; lia]. split; try done. simpl. by rewrite Z.mod_small.
  - by apply pgd_loop_fuel.
Qed.
End map_range.

(** ** Walking, as the code does it *)

Lemma masked_page e sh :
  12 <= sh < 64 ->
  Z.land e (Z.land PHYS_ADDR_MASK (BIT_MASK_ABOVE sh)) / 2 ^ 12 * 2 ^ 12 =
  Z.land e (Z.land PHYS_ADDR_MASK (BIT_MASK_ABOVE sh)).
Proof.
  intros Hs. apply Z.bits_inj'. intros i Hi. destruct (Z.ltb_spec i 12).
  - rewrite Z.mul_pow2_bits_low, Z.land_spec, phys_mask_testbit by lia.
    rewrite (proj2 (Z.leb_gt sh i)) by lia. by rewrite andb_false_r.
  - rewrite Z.mul_pow2_bits, Z.div_pow2_bits by lia. f_equal. lia.
Qed.

(** The base of a data page is a multiple of its size. *)
Lemma masked_frame e h :
  (h <= 2)%nat -> Z.land e (Z.land PHYS_ADDR_MASK (BIT_MASK_ABOVE (12 + 9 * Z.of_nat h))) / 2 ^ 12 mod W h = 0.
Proof.
  intros Hh. replace (W h) with (2 ^ (9 * Z.of_nat h)) by (unfold W; by rewrite Z.pow_mul_r by lia).
  apply Z.bits_inj'. intros i Hi. rewrite Z.bits_0. destruct (Z.ltb_spec i (9 * Z.of_nat h)).
  - rewrite Z.mod_pow2_bits_low, Z.div_pow2_bits, Z.land_spec, phys_mask_testbit by lia.
    rewrite (proj2 (Z.leb_gt _ (i + 12))) by lia. by rewrite andb_false_r.
  - by rewrite Z.mod_pow2_bits_high by lia.
Qed.

Lemma walk_to_data_spec {A} pgd va (s : machine A) :
  exists msg, walk_to_data pgd va s =
    match walk (mem s) pgd (vpn va) with
    | Some (e, h) => Done (e, level_of h) s
    | None => Panic msg
    end.
Proof.
  unfold walk_to_data, walk. destruct (index_W va) as (-> & -> & -> & ->).
  unfold mbind, M_bind, read_word, gets, pgde_present, pude_present, pmde_present, ptde_present, pude_1gib, pmde_2mib.
  cbn [walk_from]. change pude_at with pgde_at. change pmde_at with pgde_at. change ptde_at with pgde_at.
  unfold PAGE_FLAG_PRESENT_BIT, PAGE_FLAG_PSE_BIT, pgde_pud, pude_pmd, pmde_ptd, entry, child.
  rewrite !IS_BIT_SET_testbit by done. set (v := vpn va).
  set (e3 := load (mem s) (pgde_at pgd (v / W 3 mod 512))). destruct (Z.testbit e3 0); [simpl|by eexists].
  set (e2 := load (mem s) (pgde_at _ (v / W 2 mod 512))). rewrite !IS_BIT_SET_testbit by done.
  destruct (Z.testbit e2 0); [simpl|by eexists]. destruct (Z.testbit e2 7); [by exists ""|simpl].
  set (e1 := load (mem s) (pgde_at _ (v / W 1 mod 512))). rewrite !IS_BIT_SET_testbit by done.
  destruct (Z.testbit e1 0); [simpl|by eexists]. destruct (Z.testbit e1 7); [by exists ""|simpl].
  set (e0 := load (mem s) (pgde_at _ (v / W 0 mod 512))). rewrite !IS_BIT_SET_testbit by done.
  destruct (Z.testbit e0 0); [by exists ""|by eexists].
Qed.

Lemma walk_from_height m h : forall k p v e h', walk_from m k h p v = Some (e, h') -> (h' <= h)%nat.
Proof.
  induction h as [|h IH]; intros k p v e h'; simpl; destruct (negb _); try done; [by intros [= _ <-]|].
  destruct (child _ _); [intros Hw%IH; lia|by intros [= _ <-]].
Qed.

Lemma walk_height m pgd v e h : walk m pgd v = Some (e, h) -> (h <= 2)%nat.
Proof.
  unfold walk. cbn [walk_from]. destruct (negb _) eqn:H3; [done|]. apply negb_false_iff in H3.
  unfold child. rewrite H3. apply (walk_from_height m 2).
Qed.

(** ** Mapping over a mapped page *)

Lemma loop_panic {S L} n (body : L -> M S (step L)) l s msg :
  body l s = Panic msg -> loop (Datatypes.S n) body l s = Panic msg.
Proof. intros H. simpl. unfold mbind, M_bind. by rewrite H. Qed.

Section remap.
Context {A : Type} (alloc : page_allocators A) (s : machine A) (st : page_map_state).
Context (Hn : 0 < num_remaining_pages st) (Hskip : IS_MASK_SET (flags st) MAP_SKIP_IF_MAPPED = false).

Lemma ptd_remap p :
  walk_from (mem s) 3 0 p (vpn (va st)) <> None -> exists msg, _map_page_range_ptd p st s = Panic msg.
Proof.
  intros Hw. eexists. apply loop_panic. unfold map_ptd_body. rewrite (proj2 (Z.ltb_lt 0 _)) by done.
  destruct (index_W (va st)) as (_ & _ & _ & ->). unfold mbind, M_bind, read_word, gets. cbn [negb]. cbv beta iota.
  unfold ptde_present. rewrite IS_BIT_SET_testbit, Hskip by done. unfold PAGE_FLAG_PRESENT_BIT.
  simpl in Hw. change ptde_at with pgde_at. unfold entry in Hw. by destruct (Z.testbit _ 0).
Qed.

Lemma mid_remap k h index allocate below msg1 msg2 p :
  (0 < k)%nat -> index (va st) = vpn (va st) / W (S h) mod 512 ->
  (forall q, walk_from (mem s) (S k) h q (vpn (va st)) <> None -> exists msg, below q st s = Panic msg) ->
  walk_from (mem s) k (S h) p (vpn (va st)) <> None ->
  exists msg, loop 513 (mid_body (S h) index allocate below msg1 msg2 p) st s = Panic msg.
Proof.
  intros Hk Hi Hbelow Hw.
  assert (exists msg, mid_body (S h) index allocate below msg1 msg2 p st s = Panic msg) as [msg Hm];
    [|exists msg; by apply loop_panic].
  unfold mid_body. rewrite (proj2 (Z.ltb_lt 0 _)), Hi by done. unfold go_down, mbind, M_bind, read_word, gets.
  cbn [negb]. cbv beta iota zeta. unfold PAGE_FLAG_PRESENT_BIT, PAGE_FLAG_PSE_BIT. rewrite !IS_BIT_SET_testbit by done.
  cbn [walk_from] in Hw. unfold entry, child in Hw.
  destruct (Z.testbit (load _ _) 0); [simpl in *|done]. destruct (Z.testbit (load _ _) 7); [by eexists|].
  destruct k; [lia|]. destruct (Hbelow _ Hw) as [msg ->]. by exists msg.
Qed.

Lemma pud_remap p :
  walk_from (mem s) 1 2 p (vpn (va st)) <> None -> exists msg, _map_page_range_pud alloc p st s = Panic msg.
Proof.
  destruct (index_W (va st)) as (_ & Hu & Hm & _).
  refine (mid_remap 1 1 virt_pude_index (alloc_pmd alloc) (_map_page_range_pmd alloc) _ _ p _ Hu _); [lia|].
  intros q. refine (mid_remap 2 0 virt_pmde_index (alloc_ptd alloc) _map_page_range_ptd _ _ q _ Hm _); [lia|].
  intros q'. apply ptd_remap.
Qed.
End remap.

(** The first page of a range is mapped: no allocator is reached. *)
Lemma first_page_remap {A} (alloc : page_allocators A) pgd (s : machine A) start_va start_pa n fl :
  0 < n -> IS_MASK_SET fl MAP_SKIP_IF_MAPPED = false -> walk (mem s) pgd (vpn start_va) <> None ->
  exists msg, _map_page_range alloc pgd start_va start_pa n fl s = Panic msg.
Proof.
  intros Hn Hskip Hw. pose proof (W_pos 3). pose proof (Z.div_pos n (W 3)).
  unfold _map_page_range, mbind, M_bind. change NUM_PAGES_PUD with (W 3).
  destruct (Z.to_nat _) as [|fuel] eqn:Hf; [lia|]. set (st := mk_map_state _ _ _ _ _).
  assert (exists msg, map_pgd_body alloc pgd st s = Panic msg) as [msg Hm];
    [|exists msg; by rewrite (loop_panic _ _ _ _ _ Hm)].
  unfold map_pgd_body. rewrite (proj2 (Z.ltb_lt 0 _)) by done. destruct (index_W (va st)) as (-> & _).
  unfold mbind, M_bind, read_word, gets, pgde_present, PAGE_FLAG_PRESENT_BIT. cbn [negb]. cbv beta iota.
  rewrite IS_BIT_SET_testbit by done. unfold walk in Hw. cbn [walk_from] in Hw. unfold entry at 1, child in Hw.
  change (vpn start_va) with (vpn (va st)) in Hw. unfold entry in Hw at 1 2.
  destruct (Z.testbit (load _ _) 0); [simpl in Hw; cbn [negb]; cbv beta iota|done].
  destruct (pud_remap alloc s st Hn Hskip _ Hw) as [msg Hm]. exists msg. unfold pgde_pud.
  change (vpn (va st)) with (vpn start_va). unfold entry in Hm. by rewrite Hm.
Qed.

(** ** The bump allocator meets the laws *)

Lemma bump_page_law :
  allocates (fun next => 0 <= next <= bump_end) (fun next q => q mod 2 ^ 12 = 0 /\ q < next * 2 ^ 12)
    (fun next => bump_end - next) bump_page.
Proof.
  intros [m next] Hok Hav. simpl in *. unfold wp, bump_page, mbind, M_bind, get, put, mret, M_ret. simpl.
  rewrite (proj2 (Z.leb_gt _ _)) by lia. unfold bump_end in *.
  assert (page_ok (next * 2 ^ 12)) as Hp by (split; [lia|by apply Z.mod_mul]).
  cbn [alloc_st mem]. cbv beta. split; [done|]. split; [intros [_ ?]; lia|]. split; [lia|]. split; [|split; [lia|]].
  - intros q. destruct Hp as [_ Hm]. pose proof (Z.div_mod q (2 ^ 12)). split; [|intros [->|]; [split; [done|lia]|lia]].
    intros [Hq Hlt]. lia.
  - intros q i Hq Hi. unfold entry. rewrite zero_page_load by done.
    destruct (decide (next * 2 ^ 12 = q)), (decide (q = next * 2 ^ 12)); congruence.
Qed.

#[global] Instance bump_laws : AllocatorLaws bump := {
  alloc_pud_law := bump_page_law;
  alloc_pmd_law := bump_page_law;
  alloc_ptd_law := bump_page_law;
}.

Lemma entry_empty p i : entry ∅ p i = 0.
Proof. unfold entry, load. by rewrite lookup_empty. Qed.

Lemma empty_machine_ok : pt_ok 4096 empty_machine.
Proof.
  assert (forall k t p, table ∅ 4096 k t = Some p -> k = O /\ p = 4096) as H0.
  { intros [|k] t p; simpl; [by intros [= <-]|]. destruct (table _ _ _ _); [|done]. simpl.
    by rewrite entry_empty, child_absent. }
  split; [by vm_compute|]. split.
  - intros k t p _ [_ ->]%H0. by vm_compute.
  - intros k t k' t' p [_ Ht] [_ Ht'] [-> _]%H0 [-> _]%H0. split; [done|]. unfold W in *. simpl in *. lia.
Qed.

Lemma walk_empty pgd v : walk ∅ pgd v = None.
Proof. unfold walk. simpl. by rewrite entry_empty. Qed.

Lemma empty_machine_mappable fl v n : mappable ∅ 4096 fl v n.
Proof. intros u _. left. apply walk_empty. Qed.

(** ** Properties *)

(** C1: [_map_page_range] refines the update of an address space. From a tree
    of tables, for a range inside the 48-bit space that meets no mapped page
    (or, with [MAP_SKIP_IF_MAPPED], only 4 KiB pages), with a known mode and an
    allocator that has as many pages as the range can need tables: it returns,
    whatever mix of 1 GiB, 2 MiB and 4 KiB pages it used; page [i] of the range
    translates to frame [i] of the target with the flags asked for, unless it
    was mapped before and is kept; every other page keeps its walk; the tables
    are a tree again; and the value returned counts the tables allocated. *)
Theorem map_page_range_maps {A} (alloc : page_allocators A) {L : AllocatorLaws alloc}
    pgd s start_va start_pa n fl (v := vpn start_va) (f := start_pa / 2 ^ 12) :
  pt_ok pgd s -> is_u64 start_va -> in_range v f n -> map_mode_ok fl -> mappable (mem s) pgd fl v n -> 0 < n ->
  tables_below 3 v n <= pages_left s ->
  wp (_map_page_range alloc pgd start_va start_pa n fl) s (fun r s' =>
    mapped (mem s) (mem s') pgd fl v f n /\ pt_ok pgd s' /\
    u64 r = u64 (pages_left s - pages_left s') /\ 0 <= pages_left s - pages_left s' <= tables_below 3 v n).
Proof.
  intros Hok Hva Hr Hmode Hmap Hn Hb. eapply wp_mono; [by apply map_page_range_ok|].
  cbv beta. intros r s' (st' & -> & Hp). by destruct Hp.
Qed.

Lemma map_page_range_maps_witness :
  wp (_map_page_range bump 4096 0xffffc00000000000 0x200000 514 MAP_KERNEL) empty_machine (fun r s' =>
    translate (mem s') 4096 (vpn 0xffffc00000200000 + 1) = Some (0x401, map_flags_to_page_flags MAP_KERNEL) /\ r = 3).
Proof.
  apply wp_and; [|by vm_compute].
  eapply wp_mono.
  - apply (map_page_range_maps bump); [apply empty_machine_ok|by vm_compute|by vm_compute|by vm_compute| |done|by vm_compute].
    apply empty_machine_mappable.
  - cbv beta. intros r s' [Hm _].
    rewrite (mapped_inside _ _ _ _ _ _ _ (vpn 0xffffc00000200000 + 1) Hm);
      [by vm_compute|by vm_compute|by vm_compute|apply walk_empty].
Defined.

(** C19: the walkers read the translation. For a mapped page
    [_walk_virt_to_raw_flags] returns its flags, and [_walk_virt_to_phys] the
    base of its data page: that of the frame [va] translates to for a 4 KiB page,
    and for a 2 MiB or 1 GiB page, as the level of the walk says, the address
    that many pages lower as [va] lies into the page, a multiple of the page's
    size. For an unmapped page both panic. *)
Theorem walk_virt_refines {A} pgd va (s : machine A) :
  match walk (mem s) pgd (vpn va), translate (mem s) pgd (vpn va) with
  | Some (e, h), Some (frame, fl) =>
      (h <= 2)%nat /\
      exists raw, Z.ldiff raw PAGE_FLAG_PSE = fl /\ raw = Z.land e PAGE_TABLE_FLAG_MASK /\
        _walk_virt_to_raw_flags pgd va s = Done raw s /\
        _walk_virt_to_phys pgd va s = Done ((frame - vpn va mod W h) * 2 ^ 12) s /\
        (frame - vpn va mod W h) mod W h = 0
  | None, None =>
      exists msg, _walk_virt_to_raw_flags pgd va s = Panic msg /\ _walk_virt_to_phys pgd va s = Panic msg
  | _, _ => False
  end.
Proof.
  unfold _walk_virt_to_raw_flags, _walk_virt_to_phys, mbind, M_bind, translate.
  destruct (walk_to_data_spec pgd va s) as [msg ->].
  destruct (walk (mem s) pgd (vpn va)) as [[e h]|] eqn:Hw; simpl; [|eauto].
  apply walk_height in Hw. split; [done|]. exists (Z.land e PAGE_TABLE_FLAG_MASK). split; [done|]. split; [done|].
  replace (_ + _ - _) with (Z.land e (Z.land PHYS_ADDR_MASK (BIT_MASK_ABOVE (12 + 9 * Z.of_nat h))) / 2 ^ 12) by lia.
  pose proof (masked_frame e h Hw). rewrite masked_page by lia. by destruct h as [|[|[|h]]]; [..|lia].
Qed.

(** C20: mapping never overwrites. From a tree of tables, for a range inside the
    48-bit space with a known mode and pages enough for its tables,
    [_map_page_range] panics whenever any page of the range, not only the first,
    is one it may not map: a page mapped by a page of any size, or with
    [MAP_SKIP_IF_MAPPED] by one larger than 4 KiB. If it is the first page, it
    panics before any allocator is called, whatever the tables are. *)
Theorem map_page_range_no_remap {A} (alloc : page_allocators A) {L : AllocatorLaws alloc} pgd (s : machine A) start_va start_pa n fl
    (v := vpn start_va) (f := start_pa / 2 ^ 12) :
  0 < n ->
  (pt_ok pgd s -> is_u64 start_va -> in_range v f n -> map_mode_ok fl -> tables_below 3 v n <= pages_left s ->
   (exists u e h, v <= u < v + n /\ walk (mem s) pgd u = Some (e, h) /\
      (IS_MASK_SET fl MAP_SKIP_IF_MAPPED = false \/ h <> O)) ->
   exists msg, _map_page_range alloc pgd start_va start_pa n fl s = Panic msg) /\
  (IS_MASK_SET fl MAP_SKIP_IF_MAPPED = false -> walk (mem s) pgd v <> None ->
   forall alloc' : page_allocators A, exists msg, _map_page_range alloc' pgd start_va start_pa n fl s = Panic msg).
Proof.
  intros Hn. split.
  - intros Hok Hva Hr Hmode Hbud (u & e & h & Hu & Hw & Hbad). apply map_page_range_panics; try done.
    intros Hmap. destruct (Hmap u Hu) as [?|[? [e' ?]]]; [congruence|]. destruct Hbad; congruence.
  - intros Hskip Hw alloc'. by apply first_page_remap.
Qed.

Lemma map_page_range_no_remap_witness :
  exists r s msg, _map_page_range bump 4096 0x3000 0x5000 1 MAP_KERNEL empty_machine = Done r s /\
    _map_page_range bump 4096 0 0x6000 8 MAP_KERNEL s = Panic msg.
Proof.
  assert (vpn 0x3000 = 3) as E by by vm_compute.
  destruct (wp_done _ _ _ (map_page_range_ok (alloc := bump) 4096 empty_machine 0x3000 0x5000 1 MAP_KERNEL
    empty_machine_ok ltac:(by vm_compute) ltac:(by vm_compute) ltac:(by vm_compute)
    (empty_machine_mappable _ _ _) ltac:(lia) ltac:(by vm_compute))) as (r & s & Hr & st' & _ & Hp). rewrite E in Hp.
  destruct (walk (mem s) 4096 3) as [[e h]|] eqn:Hw.
  - destruct (map_page_range_no_remap bump 4096 s 0 0x6000 8 MAP_KERNEL ltac:(lia)) as [Hpan _].
    destruct Hpan as [msg Hm].
    + exact (pr_ok _ _ _ _ _ _ _ _ _ _ Hp).
    + clear. by vm_compute.
    + clear. by vm_compute.
    + clear. by vm_compute.
    + pose proof (pr_budget _ _ _ _ _ _ _ _ _ _ Hp) as Hb. change (pages_left empty_machine) with (bump_end - 2) in Hb.
      change (tables_below 3 3 1) with 3 in Hb. change (tables_below 3 (vpn 0) 8) with 3. change bump_end with 0x100000 in Hb. lia.
    + exists 3, e, h. split; [clear; by vm_compute|]. split; [exact Hw|by left].
    + exists r, s, msg. exact (conj Hr Hm).
  - exfalso. pose proof (pr_mapped _ _ _ _ _ _ _ _ _ _ Hp) as Hm. apply mapped_inside with (u := 3) in Hm.
    + unfold translate in Hm. rewrite Hw in Hm. discriminate Hm.
    + split; lia.
    + lia.
    + apply walk_empty.
Defined.
