(* ===== verification/EarlyAlloc.v ===== *)
(** * The scratch and early page allocators (early/mem.c, include/early_mem.h)

    State: the static [scratch_state] and the [early_page_alloc_state] that
    [alloc_state] points to, with its spans. The four bitmaps of a span lie in
    scratch pages of their own, so each is part of the span's value. The code
    runs on a [machine] of [PageMap], since it zeroes the pages it hands out and
    its table allocations are what the mapping code calls. *)

From stdpp Require Import base strings numbers gmap list sets sorting.
From Stdlib Require Import ZArith Lia.
From S2P Require Import Prelude Macros MmDefs Bitwise Bitmap Range E820 Page PageMap.

Inductive early_alloc_type :=
| EARLY_ALLOC_NORMAL
| EARLY_ALLOC_EPHEMERAL
| EARLY_ALLOC_PAGETABLE
| EARLY_ALLOC_PHYSBLOCK.

#[global] Instance early_alloc_type_eq_dec : EqDecision early_alloc_type.
Proof. solve_decision. Defined.

Definition EARLY_MAX_SCRATCH_PAGES : Z := 1024.

Record scratch_alloc_state := mk_scratch { scratch_start : Z; scratch_pages : Z }.

Record early_page_alloc_span := mk_span {
  start : Z;
  num_pages : Z;
  span_allocated : Z;
  alloc_bitmap : bitmap;
  ephemeral_bitmap : bitmap;
  pagetable_bitmap : bitmap;
  physblock_bitmap : bitmap;
}.

Record early_page_alloc_state := mk_state {
  total_pages : Z;
  num_allocated_pages : Z;
  num_ephemeral_pages : Z;
  num_pagetable_pages : Z;
  num_physblock_pages : Z;
  spans : list early_page_alloc_span;
}.

(** The static variables of early/mem.c. *)
Record early_mem := mk_early { scratch_state : scratch_alloc_state; alloc_state : early_page_alloc_state }.

Abbreviation EM := (M (machine early_mem)).

Definition set_alloc_state (st : early_page_alloc_state) : EM unit :=
  modify (fun s => mk_machine (mem s) (mk_early (scratch_state (alloc_st s)) st)).

Definition get_alloc_state : EM early_page_alloc_state := gets (fun s => alloc_state (alloc_st s)).

Definition zero_page_m (pa : Z) : EM unit := modify (fun s => mk_machine (zero_page pa (mem s)) (alloc_st s)).

(** ** The scratch allocator *)

Definition early_scratch_alloc_init : EM unit :=
  let offset := (KERNEL_ELF_ADDRESS_PHYS - (EARLY_MAX_SCRATCH_PAGES << PAGE_SHIFT))%u64 in
  modify (fun s => mk_machine (mem s) (mk_early (mk_scratch offset 0) (alloc_state (alloc_st s)))).

Definition early_scratch_page_alloc : EM Z :=
  sc ← gets (fun s => scratch_state (alloc_st s));
  if EARLY_MAX_SCRATCH_PAGES <=? scratch_pages sc then panic "Out of scratch memory!"
  else
    let addr := (scratch_start sc + PAGE_SIZE * scratch_pages sc)%u64 in
    modify (fun s => mk_machine (mem s)
      (mk_early (mk_scratch (scratch_start sc) (scratch_pages sc + 1)%u64) (alloc_state (alloc_st s))));;
    zero_page_m addr;;
    mret addr.

(** A run of [pages] zeroed scratch pages, one after the other. *)
Definition scratch_run (pages : Z) : EM Z :=
  first ← early_scratch_page_alloc;
  for_loop (Z.to_nat (i32 pages - 1)) 1 (fun _ => early_scratch_page_alloc;; mret tt);;
  mret first.

(** A [struct bitmap] at the start of a run of [pages] zeroed pages: after the
    8-byte header, [data] is what the array of [words] words finds there. *)
Definition bitmap_in_run (pages words : Z) : bitmap :=
  mk_bitmap 0 0 (take (Z.to_nat words) (replicate (Z.to_nat (pages * 512 - 1)) 0)).

(** The span with its four bitmaps, and the number of pages they take. *)
Definition alloc_span_bitmaps (start num_pages : Z) : EM (early_page_alloc_span * Z) :=
  let bitmap_bytes := bitmap_calc_size num_pages in
  let bitmap_pages := bytes_to_pages bitmap_bytes in
  let fresh := bitmap_in_run bitmap_pages (bitmap_calc_words num_pages) in
  scratch_run bitmap_pages;;
  scratch_run bitmap_pages;;
  scratch_run bitmap_pages;;
  scratch_run bitmap_pages;;
  alloc_b ← lift (bitmap_init fresh num_pages);
  eph_b ← lift (bitmap_init fresh num_pages);
  pt_b ← lift (bitmap_init fresh num_pages);
  pb_b ← lift (bitmap_init fresh num_pages);
  mret (mk_span start num_pages 0 alloc_b eph_b pt_b pb_b, (bitmap_pages * 4)%u64).

(** ** Spans *)

(** The index of the span that contains [pa], or [None] for a null pointer. *)
Fixpoint find_span_in (l : list early_page_alloc_span) (i pa : Z) : option (Z * early_page_alloc_span) :=
  match l with
  | [] => None
  | span :: l' =>
      if (start span <=? pa) && (pa <? (start span + num_pages span * PAGE_SIZE)%u64)
      then Some (i, span) else find_span_in l' (i + 1) pa
  end.

Definition find_span (pa : Z) : EM (option (Z * early_page_alloc_span)) :=
  st ← get_alloc_state;
  mret (find_span_in (spans st) 0 pa).

Definition phys_to_span_offset (span : early_page_alloc_span) (pa : Z) : Z :=
  ((pa - start span) >> PAGE_SHIFT)%u64.

Definition span_offset_to_pa (span : early_page_alloc_span) (offset : Z) : Z :=
  (start span + (offset << PAGE_SHIFT))%u64.

Definition span_to_phys (span : early_page_alloc_span) (i : Z) : Z :=
  (start span + PAGE_SIZE * i)%u64.

Definition mark_page_allocated (index : Z) (span : early_page_alloc_span) (offset : Z)
    (type : early_alloc_type) : EM early_page_alloc_span :=
  st ← get_alloc_state;
  a ← lift (bitmap_set (alloc_bitmap span) offset);
  let allocated := (num_allocated_pages st + 1)%u64 in
  let n := (span_allocated span + 1)%u64 in
  r ← match type with
      | EARLY_ALLOC_NORMAL =>
          mret (mk_span (start span) (num_pages span) n a (ephemeral_bitmap span) (pagetable_bitmap span)
                  (physblock_bitmap span),
                (num_ephemeral_pages st, num_pagetable_pages st, num_physblock_pages st))
      | EARLY_ALLOC_EPHEMERAL =>
          e ← lift (bitmap_set (ephemeral_bitmap span) offset);
          mret (mk_span (start span) (num_pages span) n a e (pagetable_bitmap span) (physblock_bitmap span),
                ((num_ephemeral_pages st + 1)%u64, num_pagetable_pages st, num_physblock_pages st))
      | EARLY_ALLOC_PAGETABLE =>
          p ← lift (bitmap_set (pagetable_bitmap span) offset);
          mret (mk_span (start span) (num_pages span) n a (ephemeral_bitmap span) p (physblock_bitmap span),
                (num_ephemeral_pages st, (num_pagetable_pages st + 1)%u64, num_physblock_pages st))
      | EARLY_ALLOC_PHYSBLOCK =>
          b ← lift (bitmap_set (physblock_bitmap span) offset);
          mret (mk_span (start span) (num_pages span) n a (ephemeral_bitmap span) (pagetable_bitmap span) b,
                (num_ephemeral_pages st, num_pagetable_pages st, (num_physblock_pages st + 1)%u64))
      end;
  let '(span', (e, p, b)) := r in
  set_alloc_state (mk_state (total_pages st) allocated e p b (zinsert index span' (spans st)));;
  mret span'.

(** ** Allocating *)

Definition alloc_at (pa : Z) (type : early_alloc_type) : EM unit :=
  r ← find_span pa;
  match r with
  | None => panic "Unable to locate span for %lx"
  | Some (index, span) =>
      let offset := phys_to_span_offset span pa in
      set ← lift (bitmap_is_set (alloc_bitmap span) offset);
      if (set : bool) then panic "Page containing %lx is already allocated?"
      else mark_page_allocated index span offset type;; mret tt
  end.

(** The loop of [alloc] over the spans [l] from index [i]. *)
Fixpoint alloc_loop (l : list early_page_alloc_span) (i : Z) (type : early_alloc_type) : EM Z :=
  match l with
  | [] => panic "Out of memory, %lu pages of %lu allocated!"
  | span :: l' =>
      offset ← lift (bitmap_first_clear (alloc_bitmap span));
      if offset =? -1 then alloc_loop l' (i + 1) type
      else
        span' ← mark_page_allocated i span offset type;
        mret (span_offset_to_pa span' offset)
  end.

Definition alloc (type : early_alloc_type) : EM Z :=
  st ← get_alloc_state;
  alloc_loop (spans st) 0 type.

Definition early_page_alloc_ephemeral_at (pa : Z) : EM unit := alloc_at pa EARLY_ALLOC_EPHEMERAL.

Definition early_page_alloc_at (pa : Z) : EM unit := alloc_at pa EARLY_ALLOC_NORMAL.

Definition early_page_alloc : EM Z := alloc EARLY_ALLOC_NORMAL.

(** [for (j = offset; j < offset + pages; j++) mark_page_allocated(span, j, ...)],
    where [span] is the array element: each call sees the one before. *)
Fixpoint mark_run (n : nat) (index : Z) (span : early_page_alloc_span) (j : Z) : EM early_page_alloc_span :=
  match n with
  | O => mret span
  | S n' =>
      span' ← mark_page_allocated index span j EARLY_ALLOC_NORMAL;
      mark_run n' index span' (j + 1)
  end.

Fixpoint pages_alloc_loop (l : list early_page_alloc_span) (i pages : Z) : EM Z :=
  match l with
  | [] => panic "Unable to allocate %d physically contiguous pages"
  | span :: l' =>
      offset ← lift (bitmap_zero_string_longer_than (alloc_bitmap span) pages);
      if offset =? -1 then pages_alloc_loop l' (i + 1) pages
      else
        span' ← mark_run (Z.to_nat pages) i span offset;
        mret (span_offset_to_pa span' offset)
  end.

Definition early_pages_alloc (pages : Z) : EM Z :=
  if 8 <? pages then
    panic "Can only allocate up to %d pages using the early allocator, attempting to allocate %d"
  else
    st ← get_alloc_state;
    pages_alloc_loop (spans st) 0 pages.

Definition early_page_alloc_ephemeral : EM Z := alloc EARLY_ALLOC_EPHEMERAL.

Definition early_pagetable_alloc : EM Z :=
  pa ← alloc EARLY_ALLOC_PAGETABLE;
  zero_page_m pa;;
  mret pa.

Definition early_physblock_page_alloc : EM Z :=
  pa ← alloc EARLY_ALLOC_PHYSBLOCK;
  zero_page_m pa;;
  mret pa.

Definition early_page_alloc_zero : EM Z :=
  pa ← early_page_alloc;
  zero_page_m pa;;
  mret pa.

Fixpoint zero_run_pages (n : nat) (curr : Z) : EM unit :=
  match n with
  | O => mret tt
  | S n' => zero_page_m curr;; zero_run_pages n' (phys_next_page curr)
  end.

Definition early_pages_alloc_zero (pages : Z) : EM Z :=
  pa ← early_pages_alloc pages;
  zero_run_pages (Z.to_nat pages) pa;;
  mret pa.

(** ** Freeing *)

(** [if (bitmap_is_set(b, offset)) { bitmap_clear(b, offset); count--; }]. *)
Definition clear_if_set (b : bitmap) (offset count : Z) : option (bitmap * Z) :=
  set ← bitmap_is_set b offset;
  if (set : bool) then b' ← bitmap_clear b offset; Some (b', (count - 1)%u64) else Some (b, count).

Definition early_page_free (pa : Z) : EM unit :=
  r ← find_span pa;
  match r with
  | None => panic "Cannot find span for PA %lx"
  | Some (index, span) =>
      let offset := phys_to_span_offset span pa in
      set ← lift (bitmap_is_set (alloc_bitmap span) offset);
      if negb (set : bool) then panic "Attempt to free unallocated PA %lx"
      else
        st ← get_alloc_state;
        a ← lift (bitmap_clear (alloc_bitmap span) offset);
        e ← lift (clear_if_set (ephemeral_bitmap span) offset (num_ephemeral_pages st));
        p ← lift (clear_if_set (pagetable_bitmap span) offset (num_pagetable_pages st));
        b ← lift (clear_if_set (physblock_bitmap span) offset (num_physblock_pages st));
        let span' := mk_span (start span) (num_pages span) (span_allocated span - 1)%u64 a e.1 p.1 b.1 in
        set_alloc_state (mk_state (total_pages st) (num_allocated_pages st - 1)%u64 e.2 p.2 b.2
                           (zinsert index span' (spans st)))
  end.

(** The table allocators and the interface the mapping code takes
    ([GEN_PAGE_ALLOC], [early_allocators]). *)
Definition early_alloc_pgd : EM Z := early_pagetable_alloc.

Definition early_alloc_pud : EM Z := early_pagetable_alloc.

Definition early_alloc_pmd : EM Z := early_pagetable_alloc.

Definition early_alloc_ptd : EM Z := early_pagetable_alloc.

Definition early_allocators : page_allocators early_mem :=
  mk_allocators early_mem early_alloc_pud early_alloc_pmd early_alloc_ptd early_page_alloc_zero.

Definition early_free_pgd (addr : Z) : EM unit := early_page_free addr.

Definition early_free_pud (addr : Z) : EM unit := early_page_free addr.

Definition early_free_pmd (addr : Z) : EM unit := early_page_free addr.

Definition early_free_ptd (addr : Z) : EM unit := early_page_free addr.

(** ** Initialisation *)

Definition EARLY_BOOT_INFO_ADDRESS : Z := (KERNEL_DIRECT_MAP_BASE + 0x6000)%u64.

Definition X86_EARLY_PGD : Z := 0x1000.

Definition X86_EARLY_PUD_DIRECT_MAP : Z := 0x3000.

Definition X86_EARLY_PUD_KERNEL_ELF : Z := 0x4000.

Definition X86_EARLY_VIDEO_BUFFER_ADDRESS_PHYS : Z := 0x7000.

(** [for (n times) { reserve(pa); pa = next(pa); }]. *)
Fixpoint reserve_pages (n : nat) (reserve : Z -> EM unit) (next : Z -> Z) (pa : Z) : EM unit :=
  match n with
  | O => mret tt
  | S n' => reserve pa;; reserve_pages n' reserve next (next pa)
  end.

Definition alloc_init_pages (info : early_boot_info) (first_scratch_page num_scratch_pages : Z) : EM unit :=
  reserve_pages (Z.to_nat (i32 num_scratch_pages)) early_page_alloc_ephemeral_at phys_next_page first_scratch_page;;
  reserve_pages (Z.to_nat KERNEL_STACK_PAGES) early_page_alloc_at phys_prev_page KERNEL_STACK_ADDRESS_PHYS;;
  early_page_alloc_at (virt_ptr_to_phys EARLY_BOOT_INFO_ADDRESS);;
  reserve_pages (Z.to_nat (i32 (bytes_to_pages (kernel_elf_size_bytes info)))) early_page_alloc_at phys_next_page
    KERNEL_ELF_ADDRESS_PHYS;;
  early_page_alloc_ephemeral_at X86_EARLY_PGD;;
  early_page_alloc_ephemeral_at X86_EARLY_PUD_DIRECT_MAP;;
  early_page_alloc_ephemeral_at X86_EARLY_PUD_KERNEL_ELF;;
  early_page_alloc_at X86_EARLY_VIDEO_BUFFER_ADDRESS_PHYS;;
  early_page_alloc_at (X86_EARLY_VIDEO_BUFFER_ADDRESS_PHYS + 0x1000)%u64.

(** One span for each RAM entry, with the scratch pages used so far. The array
    [spans] shares one scratch page with the state: an element past the page's
    end would lie in the bitmaps, which is not modelled further. *)
Fixpoint init_spans (l : list e820_entry) (acc : list early_page_alloc_span) (num_scratch_pages : Z)
    : EM (list early_page_alloc_span * Z) :=
  match l with
  | [] => mret (acc, num_scratch_pages)
  | entry :: l' =>
      if negb (type entry =? E820_TYPE_RAM) then init_spans l' acc num_scratch_pages
      else if MAX_E820_RAM_ENTRIES <=? zlength acc then undef
      else
        r ← alloc_span_bitmaps (base entry) (Z.shiftr (size entry) PAGE_SHIFT);
        init_spans l' (acc ++ [r.1]) (num_scratch_pages + r.2)%u64
  end.

(** An element of [spans] that was never written: zero bytes, so an empty span
    whose bitmaps are null pointers, of which no word can be read. *)
Definition null_bitmap : bitmap := mk_bitmap 0 1 [].

Definition null_span : early_page_alloc_span := mk_span 0 0 0 null_bitmap null_bitmap null_bitmap null_bitmap.

(** The elements of [spans] that the loops up to [num_spans] visit, which need
    not be as many as were written. *)
Definition seen_spans (num_spans : Z) (written : list early_page_alloc_span) : option (list early_page_alloc_span) :=
  if i32 num_spans <=? MAX_E820_RAM_ENTRIES then
    Some (take (Z.to_nat (i32 num_spans)) (written ++ replicate (Z.to_nat (MAX_E820_RAM_ENTRIES - zlength written)) null_span))
  else None.

Definition early_page_alloc_init (info : early_boot_info) : EM unit :=
  first_scratch_page ← early_scratch_page_alloc;
  if negb (IS_ALIGNED (total_avail_ram_bytes info) PAGE_SIZE) then panic "e820 entries not normalised to page size?"
  else
    let total := bytes_to_pages (total_avail_ram_bytes info) in
    r ← init_spans (entries info) [] 1;
    visible ← lift (seen_spans (num_ram_spans info) r.1);
    set_alloc_state (mk_state total 0 0 0 0 visible);;
    alloc_init_pages info first_scratch_page r.2.

(** [early_map_direct]: every RAM entry at its direct-map address. *)
Fixpoint map_direct_loop (l : list e820_entry) (pgd : Z) : EM unit :=
  match l with
  | [] => mret tt
  | entry :: l' =>
      if negb (type entry =? E820_TYPE_RAM) then map_direct_loop l' pgd
      else
        let pa := base entry in
        _map_page_range early_allocators pgd (phys_to_virt pa) pa (bytes_to_pages (size entry)) MAP_KERNEL;;
        map_direct_loop l' pgd
  end.

Definition early_map_direct (info : early_boot_info) (pgd : Z) : EM unit := map_direct_loop (entries info) pgd.

(** ** Specification: the state of each page *)

(** What page [i] of a span is used for; [None] is a free page. *)
Definition page_kind (span : early_page_alloc_span) (i : Z) : option early_alloc_type :=
  if negb (bit_at (alloc_bitmap span) i) then None
  else if bit_at (ephemeral_bitmap span) i then Some EARLY_ALLOC_EPHEMERAL
  else if bit_at (pagetable_bitmap span) i then Some EARLY_ALLOC_PAGETABLE
  else if bit_at (physblock_bitmap span) i then Some EARLY_ALLOC_PHYSBLOCK
  else Some EARLY_ALLOC_NORMAL.

(** The page an address lies in: in no span, free, or allocated as a type. *)
Definition status (st : early_page_alloc_state) (pa : Z) : option (option early_alloc_type) :=
  match find_span_in (spans st) 0 pa with
  | Some (_, span) => Some (page_kind span ((pa - start span) / 2 ^ 12))
  | None => None
  end.

(** The page of [pa] becomes [k]; every other keeps its status. *)
Definition status_set (st st' : early_page_alloc_state) (pa : Z) (k : option early_alloc_type) : Prop :=
  forall q, status st' q = if decide (q / 2 ^ 12 = pa / 2 ^ 12) then Some k else status st q.

(** A span: page-aligned memory inside the direct map, four bitmaps of its size,
    the three special kinds exclusive and allocated, the count right. *)
Record span_wf (span : early_page_alloc_span) : Prop := {
  span_start : 0 <= start span /\ start span mod 2 ^ 12 = 0;
  span_pages : 0 <= num_pages span <= 2 ^ 31 - 64;
  span_end : start span + num_pages span * 2 ^ 12 <= 2 ^ 47;
  span_alloc_wf : bitmap_wf (alloc_bitmap span) /\ num_bits (alloc_bitmap span) = num_pages span;
  span_eph_wf : bitmap_wf (ephemeral_bitmap span) /\ num_bits (ephemeral_bitmap span) = num_pages span;
  span_pt_wf : bitmap_wf (pagetable_bitmap span) /\ num_bits (pagetable_bitmap span) = num_pages span;
  span_pb_wf : bitmap_wf (physblock_bitmap span) /\ num_bits (physblock_bitmap span) = num_pages span;
  span_kinds : forall i, 0 <= i < num_pages span ->
    match page_kind span i with
    | None => bit_at (ephemeral_bitmap span) i = false /\ bit_at (pagetable_bitmap span) i = false /\
              bit_at (physblock_bitmap span) i = false
    | Some k =>
        bit_at (ephemeral_bitmap span) i = bool_decide (k = EARLY_ALLOC_EPHEMERAL) /\
        bit_at (pagetable_bitmap span) i = bool_decide (k = EARLY_ALLOC_PAGETABLE) /\
        bit_at (physblock_bitmap span) i = bool_decide (k = EARLY_ALLOC_PHYSBLOCK)
    end;
  span_count : span_allocated span = count_bits (alloc_bitmap span);
}.

Fixpoint sum_spans (f : early_page_alloc_span -> Z) (l : list early_page_alloc_span) : Z :=
  match l with
  | [] => 0
  | span :: l' => f span + sum_spans f l'
  end.

Definition spans_apart (a b : early_page_alloc_span) : Prop :=
  start a + num_pages a * 2 ^ 12 <= start b \/ start b + num_pages b * 2 ^ 12 <= start a.

Record state_wf (st : early_page_alloc_state) : Prop := {
  state_spans : Forall span_wf (spans st);
  state_apart : forall i j a b, i <> j -> zlookup (spans st) i = Some a -> zlookup (spans st) j = Some b ->
    spans_apart a b;
  state_size : sum_spans num_pages (spans st) < 2 ^ 63;
  state_alloc : num_allocated_pages st = sum_spans (fun s => count_bits (alloc_bitmap s)) (spans st);
  state_eph : num_ephemeral_pages st = sum_spans (fun s => count_bits (ephemeral_bitmap s)) (spans st);
  state_pt : num_pagetable_pages st = sum_spans (fun s => count_bits (pagetable_bitmap s)) (spans st);
  state_pb : num_physblock_pages st = sum_spans (fun s => count_bits (physblock_bitmap s)) (spans st);
}.

Definition free_pages (st : early_page_alloc_state) : Z :=
  sum_spans num_pages (spans st) - num_allocated_pages st.

(** The state [s'] differs from [s] in the early allocator's state only. *)
Definition alloc_only (s s' : machine early_mem) : Prop :=
  mem s' = mem s /\ scratch_state (alloc_st s') = scratch_state (alloc_st s).

Abbreviation ast s := (alloc_state (alloc_st s)).

(** [b'] is [b], with bit [off] set when [hit]. *)
Definition bit_marked (b b' : bitmap) (off : Z) (hit : bool) : Prop :=
  bitmap_wf b' /\ num_bits b' = num_bits b /\ forall i, bit_at b' i = bit_at b i || (hit && (off =? i)).

(** [b'] is [b] with bit [off] clear. *)
Definition bit_unmarked (b b' : bitmap) (off : Z) : Prop :=
  bitmap_wf b' /\ num_bits b' = num_bits b /\ forall i, bit_at b' i = bit_at b i && negb (off =? i).

(** The span at index [i] was replaced by [span'], whose page [off] is now [k],
    and the counters follow. *)
Record span_updated (s s' : machine early_mem) (i : Z) (span span' : early_page_alloc_span) (off : Z)
    (k : option early_alloc_type) : Prop := {
  up_only : alloc_only s s';
  up_wf : state_wf (ast s');
  up_spans : spans (ast s') = zinsert i span' (spans (ast s));
  up_start : start span' = start span;
  up_pages : num_pages span' = num_pages span;
  up_kind : forall o, page_kind span' o = if decide (o = off) then k else page_kind span o;
  up_total : total_pages (ast s') = total_pages (ast s);
}.

(** Every page of the span is allocated. *)
Definition span_full (span : early_page_alloc_span) : Prop :=
  forall o, 0 <= o < num_pages span -> page_kind span o <> None.

(** The spans lie in memory in the order of the array. *)
Definition spans_sorted (st : early_page_alloc_state) : Prop :=
  forall i j a b, i < j -> zlookup (spans st) i = Some a -> zlookup (spans st) j = Some b ->
    start a + num_pages a * 2 ^ 12 <= start b.

(** Where the spans are; no operation after the initialisation changes it. *)
Definition shape (st : early_page_alloc_state) : list (Z * Z) := (fun a => (start a, num_pages a)) <$> spans st.

(** What an allocation of a single page does. *)
Definition allocated_page (s s' : machine early_mem) (t : early_alloc_type) (p : Z) : Prop :=
  exists i span span' off, zlookup (spans (ast s)) i = Some span /\ 0 <= off < num_pages span /\
    p = start span + off * 2 ^ 12 /\ page_kind span off = None /\
    (forall o, 0 <= o < off -> page_kind span o <> None) /\
    (forall j a, j < i -> zlookup (spans (ast s)) j = Some a -> span_full a) /\
    span_updated s s' i span span' off (Some t) /\
    num_allocated_pages (ast s') = num_allocated_pages (ast s) + 1.

(** [n] free pages from [p] were allocated. *)
Definition allocated_run (s s' : machine early_mem) (n p : Z) : Prop :=
  page_ok p /\ alloc_only s s' /\ shape (ast s') = shape (ast s) /\ state_wf (ast s') /\ free_pages (ast s') = free_pages (ast s) - n /\
  (forall q, p <= q < p + n * 2 ^ 12 -> status (ast s) q = Some None) /\
  forall q, status (ast s') q =
    if decide (p <= q < p + n * 2 ^ 12) then Some (Some EARLY_ALLOC_NORMAL) else status (ast s) q.

(** The run at [p] is one that the search reports in some span. *)
Definition found_run (s : machine early_mem) (n p : Z) : Prop :=
  exists i span r, zlookup (spans (ast s)) i = Some span /\ p = start span + r * 2 ^ 12 /\ 0 <= r /\
    bitmap_zero_string_longer_than (alloc_bitmap span) n = Some r.

(** What must not change while the allocator is used: where the spans are, and
    some pages that are allocated, with their types. *)
Record frozen := mk_frozen { fz_shape : list (Z * Z); fz_pages : list (Z * early_alloc_type) }.

Record frozen_ok (fz : frozen) (a : early_mem) : Prop := {
  fo_wf : state_wf (alloc_state a);
  fo_shape : shape (alloc_state a) = fz_shape fz;
  fo_pages : forall r, r ∈ fz_pages fz -> status (alloc_state a) r.1 = Some (Some r.2);
}.

(** A place where the search for a run of pages finds one: a word of a span's
    bitmap whose first page, at [ld_base], is allocated, and whose pages from
    index [ld_first] on are free. *)
Record landing := mk_landing { ld_base : Z; ld_first : Z }.

(** The pages of the spans that are not below [B]. *)
Definition pages_above (B : Z) (a : Z * Z) : Z := Z.max 0 (Z.min a.2 ((a.1 + a.2 * 2 ^ 12 - B) / 2 ^ 12)).

Fixpoint shape_above (B : Z) (sh : list (Z * Z)) : Z :=
  match sh with
  | [] => 0
  | a :: sh' => pages_above B a + shape_above B sh'
  end.

Definition shape_sorted (sh : list (Z * Z)) : Prop := StronglySorted (fun a b => a.1 + a.2 * 2 ^ 12 <= b.1) sh.

Record landing_ok (fz : frozen) (l : landing) (a : early_mem) : Prop := {
  lk_sorted : shape_sorted (fz_shape fz);
  lk_word : exists x k, x ∈ fz_shape fz /\ 0 <= k /\ ld_base l = x.1 + 64 * k * 2 ^ 12 /\ 64 * k + 64 <= x.2;
  lk_first : 1 <= ld_first l;
  lk_taken : exists t, status (alloc_state a) (ld_base l) = Some (Some t);
  lk_free : forall i, ld_first l <= i < 64 -> status (alloc_state a) (ld_base l + i * 2 ^ 12) = Some None;
}.

(** What is frozen, and a landing that is kept while free pages below it are
    left: single pages are taken from the lowest. *)
Definition held_ok (fz : frozen) (h : option landing) (a : early_mem) : Prop :=
  match h with
  | None => frozen_ok fz a
  | Some l => frozen_ok fz a /\ landing_ok fz l a
  end.

Definition held_avail (fz : frozen) (h : option landing) (a : early_mem) : Z :=
  match h with
  | None => free_pages (alloc_state a)
  | Some l => free_pages (alloc_state a) - shape_above (ld_base l) (fz_shape fz)
  end.

(** Nothing is frozen but the spans. *)
Definition spans_only (st : early_page_alloc_state) : frozen := mk_frozen (shape st) [].

(** A page the early allocator has handed out for good. *)
Definition early_in_use (a : early_mem) (p : Z) : Prop :=
  p mod 2 ^ 12 = 0 /\ exists t, t <> EARLY_ALLOC_EPHEMERAL /\ status (alloc_state a) p = Some (Some t).

(** A RAM entry as normalising leaves it, inside the direct map. *)
Definition direct_entry (e : e820_entry) : Prop :=
  type e = E820_TYPE_RAM ->
  0 <= base e /\ 0 < size e /\ base e + size e <= 2 ^ 47 /\ base e mod 2 ^ 12 = 0 /\ size e mod 2 ^ 12 = 0.

(** Page [u] is the direct-map page of a page of a RAM entry; the direct map
    starts at page 2^35. *)
Definition direct_page (l : list e820_entry) (u : Z) : Prop :=
  exists e, e ∈ l /\ type e = E820_TYPE_RAM /\
    2 ^ 35 + base e / 2 ^ 12 <= u < 2 ^ 35 + (base e + size e) / 2 ^ 12.

(** The tables that mapping the entries can take. *)
Fixpoint direct_tables (l : list e820_entry) : Z :=
  match l with
  | [] => 0
  | e :: l' =>
      (if type e =? E820_TYPE_RAM then tables_below 3 (2 ^ 35 + base e / 2 ^ 12) (size e / 2 ^ 12) else 0)
      + direct_tables l'
  end.

(** A span of 96 pages at 1 MiB with nothing allocated, for the witnesses. *)
Definition sample_span : early_page_alloc_span :=
  let b := mk_bitmap 96 2 [0; 0] in mk_span 0x100000 96 0 b b b b.

Definition sample_machine : machine early_mem :=
  mk_machine ∅ (mk_early (mk_scratch 0xc00000 0) (mk_state 96 0 0 0 0 [sample_span])).

(** ** Sums over spans *)

Lemma sum_spans_zinsert f l i a b :
  zlookup l i = Some a -> sum_spans f (zinsert i b l) = sum_spans f l - f a + f b.
Proof.
  intros [Hi Hl]%zlookup_Some. unfold zinsert. rewrite decide_True by done.
  revert Hl. generalize (Z.to_nat i). clear Hi. intros n. revert n.
  induction l as [|x l IH]; intros [|n] Hl; simpl in *; try done; [injection Hl as ->; lia|].
  rewrite IH by done. lia.
Qed.

Lemma sum_spans_le f g l :
  (forall a, a ∈ l -> 0 <= f a <= g a) -> 0 <= sum_spans f l <= sum_spans g l.
Proof.
  induction l as [|x l IH]; intros H; simpl; [lia|].
  pose proof (H x (list_elem_of_here _ _)). assert (0 <= sum_spans f l <= sum_spans g l); [|lia].
  apply IH. intros a Ha. apply H. by apply list_elem_of_further.
Qed.

Lemma sum_spans_lt f g l :
  (forall a, a ∈ l -> 0 <= f a <= g a) -> sum_spans f l < sum_spans g l ->
  exists a, a ∈ l /\ f a < g a.
Proof.
  induction l as [|x l IH]; intros H Hlt; simpl in Hlt; [lia|].
  destruct (decide (f x < g x)) as [?|Hn]; [exists x; split; [apply list_elem_of_here|done]|].
  destruct IH as (a & Ha & Hlt'); [intros a Ha; apply H; by apply list_elem_of_further| |].
  - pose proof (H x (list_elem_of_here _ _)). lia.
  - exists a. split; [by apply list_elem_of_further|done].
Qed.

Lemma count_bits_bounds b : 0 <= num_bits b -> 0 <= count_bits b <= num_bits b.
Proof.
  intros Hb. unfold count_bits. pose proof (count_true_bounds (bit_at b) (seqZ 0 (num_bits b))) as H.
  unfold zlength in H. rewrite length_seqZ in H. lia.
Qed.

(** A bitmap not full has a clear bit. *)
Lemma count_bits_clear_bit b :
  0 <= num_bits b -> count_bits b < num_bits b -> exists i, 0 <= i < num_bits b /\ bit_at b i = false.
Proof.
  intros Hb Hlt. destruct (decide (Exists (fun i => bit_at b i = false) (seqZ 0 (num_bits b)))) as [He|Hn].
  - apply Exists_exists in He as (i & Hi & Hc). apply elem_of_seqZ in Hi. exists i. split; [lia|done].
  - exfalso. unfold count_bits in Hlt. rewrite count_true_all in Hlt.
    + unfold zlength in Hlt. rewrite length_seqZ in Hlt. lia.
    + intros i Hi. apply not_false_is_true. intros Hf. apply Hn, Exists_exists. eauto.
Qed.

(** ** Finding the span of an address *)

Lemma in_span_spec span pa :
  span_wf span ->
  (start span <=? pa) && (pa <? (start span + num_pages span * PAGE_SIZE)%u64) = true <->
  start span <= pa < start span + num_pages span * 2 ^ 12.
Proof.
  intros [[H0 _] Hn He _ _ _ _ _ _]. rewrite PAGE_SIZE_pow. unfold mul64.
  rewrite (u64_small (num_pages span * _)), add64_small by (unfold is_u; lia).
  rewrite andb_true_iff, Z.leb_le, Z.ltb_lt. done.
Qed.

Lemma find_span_in_Some l : forall i pa j span,
  Forall span_wf l -> find_span_in l i pa = Some (j, span) ->
  i <= j /\ zlookup l (j - i) = Some span /\ start span <= pa < start span + num_pages span * 2 ^ 12.
Proof.
  induction l as [|x l IH]; intros i pa j span Hwf; simpl; [done|]. apply Forall_cons in Hwf as [Hx Hwf].
  destruct (_ && _) eqn:Hin.
  - intros [= <- <-]. apply in_span_spec in Hin; [|done]. split; [lia|]. by rewrite Z.sub_diag.
  - intros Hf. destruct (IH _ _ _ _ Hwf Hf) as (Hj & Hl & Hr). split; [lia|]. split; [|done].
    apply zlookup_Some in Hl as [_ Hl]. apply zlookup_Some. split; [lia|].
    by replace (Z.to_nat (j - i)) with (S (Z.to_nat (j - (i + 1)))) by lia.
Qed.

Lemma find_span_in_at l : forall i k pa span,
  Forall span_wf l -> zlookup l k = Some span -> start span <= pa < start span + num_pages span * 2 ^ 12 ->
  (forall j a, j <> k -> zlookup l j = Some a -> spans_apart a span) ->
  find_span_in l i pa = Some (i + k, span).
Proof.
  induction l as [|x l IH]; intros i k pa span Hwf Hk Hin Hap; [apply zlookup_Some in Hk as [_ ?]; done|].
  apply Forall_cons in Hwf as [Hx Hwf]. simpl. destruct (decide (k = 0)) as [->|Hk0].
  - apply zlookup_Some in Hk as [_ [= ->]]. apply in_span_spec in Hin; [|done]. rewrite Hin. do 2 f_equal. lia.
  - assert (~ (start x <= pa < start x + num_pages x * 2 ^ 12)) as Hout.
    { assert (zlookup (x :: l) 0 = Some x) as H0 by done. specialize (Hap 0 x ltac:(lia) H0). unfold spans_apart in Hap. lia. }
    destruct (_ && _) eqn:Hd; [by apply in_span_spec in Hd|].
    assert (forall j, 0 <= j -> zlookup l j = zlookup (x :: l) (j + 1)) as Hsh.
    { intros j Hj. unfold zlookup. rewrite !decide_True by lia. by replace (Z.to_nat (j + 1)) with (S (Z.to_nat j)) by lia. }
    pose proof (proj1 (zlookup_Some _ _ _) Hk) as [Hk1 _].
    rewrite (IH (i + 1) (k - 1) pa span Hwf); [do 2 f_equal; lia| |done|].
    + rewrite Hsh by lia. by replace (k - 1 + 1) with k by lia.
    + intros j a Hj Ha. pose proof (proj1 (zlookup_Some _ _ _) Ha) as [Hj0 _]. rewrite Hsh in Ha by done.
      by apply (Hap (j + 1)); [lia|].
Qed.

(** Replacing a span by one of the same extent. *)
Lemma find_span_in_zinsert l : forall i k pa span span',
  zlookup l k = Some span -> start span' = start span -> num_pages span' = num_pages span ->
  find_span_in (zinsert k span' l) i pa =
    match find_span_in l i pa with
    | Some (j, a) => Some (j, if decide (j = i + k) then span' else a)
    | None => None
    end.
Proof.
  intros i k pa span span' [Hk Hl]%zlookup_Some Hs Hn. unfold zinsert. rewrite decide_True by done.
  destruct (Z_of_nat_complete k Hk) as [n ->]. rewrite Nat2Z.id in *. clear Hk. rename n into k.
  revert i k Hl. induction l as [|x l IH]; intros i [|k] Hl; try done; simpl.
  - injection Hl as ->. rewrite Hs, Hn. destruct (_ && _); [by rewrite decide_True by lia|].
    destruct (find_span_in l (i + 1) pa) as [[j a]|] eqn:Hf; [|done]. rewrite decide_False; [done|].
    assert (i + 1 <= j); [|lia]. clear -Hf. revert i Hf. induction l as [|x l IH]; intros i; simpl; [done|].
    destruct (_ && _); [by intros [= <- _]|]. intros Hf%IH. lia.
  - destruct (_ && _); [rewrite decide_False by lia; done|]. rewrite (IH (i + 1) k Hl).
    destruct (find_span_in l (i + 1) pa) as [[j a]|]; [|done]. do 2 f_equal.
    destruct (decide (j = i + 1 + Z.of_nat k)), (decide (j = i + Z.of_nat (S k))); done || lia.
Qed.

Lemma zlookup_zinsert {A} (l : list A) i j x a :
  zlookup l i = Some a -> zlookup (zinsert i x l) j = if decide (i = j) then Some x else zlookup l j.
Proof.
  intros Hi. destruct (decide (i = j)) as [<-|Hne]; [|by apply zlookup_zinsert_ne].
  apply zlookup_zinsert_eq. apply zlookup_is_Some. eauto.
Qed.

(** ** Marking a page *)

Lemma bit_marked_set b off :
  bitmap_wf b -> 0 <= off < num_bits b -> exists b', bitmap_set b off = Some b' /\ bit_marked b b' off true.
Proof.
  intros Hwf Hoff. destruct (bitmap_set_spec b off Hwf Hoff) as (b' & Hb & Hwf' & Hn & _ & Hat).
  exists b'. split; [done|]. by split.
Qed.

Lemma bit_marked_refl b off : bitmap_wf b -> bit_marked b b off false.
Proof. intros Hwf. split; [done|]. split; [done|]. intros i. by rewrite orb_false_r. Qed.

Lemma bit_marked_count b b' off hit :
  bit_marked b b' off hit -> 0 <= off < num_bits b -> bit_at b off = false ->
  count_bits b' = count_bits b + if hit then 1 else 0.
Proof.
  intros (Hwf & Hn & Hat) Hoff Hf. destruct hit; simpl in *.
  - unfold count_bits. rewrite Hn. apply count_true_flip with off; [apply NoDup_seqZ|apply elem_of_seqZ; lia|done| |].
    + by rewrite Hat, Z.eqb_refl, orb_true_r.
    + intros y Hy. rewrite Hat, (proj2 (Z.eqb_neq off y)) by congruence. by rewrite orb_false_r.
  - unfold count_bits. rewrite Hn, Z.add_0_r. apply count_true_ext. intros i _. by rewrite Hat, orb_false_r.
Qed.

Lemma page_kind_free span i : page_kind span i = None <-> bit_at (alloc_bitmap span) i = false.
Proof. unfold page_kind. destruct (bit_at _ i); simpl; [|done]. by repeat destruct (bit_at _ _). Qed.

Lemma mark_span span off t a e p b :
  span_wf span -> 0 <= off < num_pages span -> page_kind span off = None ->
  bit_marked (alloc_bitmap span) a off true ->
  bit_marked (ephemeral_bitmap span) e off (bool_decide (t = EARLY_ALLOC_EPHEMERAL)) ->
  bit_marked (pagetable_bitmap span) p off (bool_decide (t = EARLY_ALLOC_PAGETABLE)) ->
  bit_marked (physblock_bitmap span) b off (bool_decide (t = EARLY_ALLOC_PHYSBLOCK)) ->
  let span' := mk_span (start span) (num_pages span) (span_allocated span + 1) a e p b in
  span_wf span' /\ forall o, page_kind span' o = if decide (o = off) then Some t else page_kind span o.
Proof.
  intros Hwf Hoff Hfree Ha He Hp Hb span'.
  pose proof (span_kinds _ Hwf off Hoff) as Hk. rewrite Hfree in Hk. destruct Hk as (Hke & Hkp & Hkb).
  pose proof Hwf as [H1 H2 H3 [Hwa Hna] [Hwe Hne] [Hwp Hnp] [Hwb Hnb] Hkinds Hcount].
  pose proof (bit_marked_count _ _ _ _ Ha ltac:(lia) (proj1 (page_kind_free _ _) Hfree)) as Hc.
  destruct Ha as (Hwa' & Hna' & Ha), He as (Hwe' & Hne' & He), Hp as (Hwp' & Hnp' & Hp), Hb as (Hwb' & Hnb' & Hb).
  assert (forall o, page_kind span' o = if decide (o = off) then Some t else page_kind span o) as Hkind.
  { intros o. unfold page_kind, span'. simpl. rewrite Ha, He, Hp, Hb. destruct (decide (o = off)) as [->|Hne'2].
    - rewrite Z.eqb_refl, Hke, Hkp, Hkb, orb_true_r. by destruct t.
    - rewrite (proj2 (Z.eqb_neq off o)) by congruence. by rewrite !andb_false_r, !orb_false_r. }
  split; [|done]. split; try done; simpl; try (by split; congruence).
  - intros i Hi. specialize (Hkinds i Hi). rewrite Hkind, He, Hp, Hb. destruct (decide (i = off)) as [->|Hne2].
    + rewrite Z.eqb_refl, Hke, Hkp, Hkb. by rewrite !andb_true_r.
    + rewrite (proj2 (Z.eqb_neq off i)) by congruence. by rewrite !andb_false_r, !orb_false_r.
  - rewrite Hc. lia.
Qed.

Lemma state_update st i span span' :
  state_wf st -> zlookup (spans st) i = Some span -> span_wf span' ->
  start span' = start span -> num_pages span' = num_pages span ->
  state_wf (mk_state (total_pages st)
    (num_allocated_pages st - count_bits (alloc_bitmap span) + count_bits (alloc_bitmap span'))
    (num_ephemeral_pages st - count_bits (ephemeral_bitmap span) + count_bits (ephemeral_bitmap span'))
    (num_pagetable_pages st - count_bits (pagetable_bitmap span) + count_bits (pagetable_bitmap span'))
    (num_physblock_pages st - count_bits (physblock_bitmap span) + count_bits (physblock_bitmap span'))
    (zinsert i span' (spans st))).
Proof.
  intros [Hs Hap Hsz Ha He Hp Hb] Hi Hwf' Hst Hn. split; simpl.
  - by apply Forall_zinsert.
  - intros j k x y Hne. rewrite !(zlookup_zinsert _ _ _ _ span Hi).
    destruct (decide (i = j)) as [<-|Hj], (decide (i = k)) as [<-|Hk]; try done.
    + intros [= <-] Hy. unfold spans_apart. rewrite Hst, Hn. by apply (Hap i k).
    + intros Hx [= <-]. unfold spans_apart. rewrite Hst, Hn. by apply (Hap j i).
    + by apply Hap.
  - rewrite (sum_spans_zinsert _ _ _ _ _ Hi). lia.
  - by rewrite (sum_spans_zinsert _ _ _ _ _ Hi), Ha.
  - by rewrite (sum_spans_zinsert _ _ _ _ _ Hi), He.
  - by rewrite (sum_spans_zinsert _ _ _ _ _ Hi), Hp.
  - by rewrite (sum_spans_zinsert _ _ _ _ _ Hi), Hb.
Qed.

(** The counters are at most the pages of all spans, so none can wrap. *)
Lemma state_counters st :
  state_wf st ->
  let total := sum_spans num_pages (spans st) in
  (0 <= num_allocated_pages st <= total) /\ (0 <= num_ephemeral_pages st <= total) /\
  (0 <= num_pagetable_pages st <= total) /\ (0 <= num_physblock_pages st <= total) /\ total < 2 ^ 63.
Proof.
  intros [Hs _ Hsz Ha He Hp Hb] total. rewrite Ha, He, Hp, Hb.
  assert (forall bm, (forall a, span_wf a -> num_bits (bm a) = num_pages a) ->
    0 <= sum_spans (fun a => count_bits (bm a)) (spans st) <= total) as Hle.
  { intros bm Hbm. apply sum_spans_le. intros a Hin. pose proof (proj1 (Forall_forall _ _) Hs a Hin) as Hw.
    rewrite <- (Hbm a Hw). apply count_bits_bounds. rewrite (Hbm a Hw). apply (span_pages _ Hw). }
  repeat (split; [apply Hle; intros a [_ _ _ [] [] [] [] _ _]; done|]). done.
Qed.

Lemma mark_ok s i span off t :
  state_wf (ast s) -> zlookup (spans (ast s)) i = Some span -> 0 <= off < num_pages span ->
  page_kind span off = None ->
  wp (mark_page_allocated i span off t) s (fun span' s' =>
    span_updated s s' i span span' off (Some t) /\ span_wf span' /\
    num_allocated_pages (ast s') = num_allocated_pages (ast s) + 1).
Proof.
  intros Hwf Hi Hoff Hfree. pose proof (Forall_zlookup _ _ _ _ (state_spans _ Hwf) Hi) as Hsp.
  pose proof Hsp as [_ _ _ [Hwa Hna] [Hwe Hne] [Hwp Hnp] [Hwb Hnb] _ Hcnt].
  destruct (bit_marked_set (alloc_bitmap span) off Hwa ltac:(lia)) as (a & Hsa & Ha).
  destruct (bit_marked_set (ephemeral_bitmap span) off Hwe ltac:(lia)) as (e & Hse & He).
  destruct (bit_marked_set (pagetable_bitmap span) off Hwp ltac:(lia)) as (p & Hspt & Hp).
  destruct (bit_marked_set (physblock_bitmap span) off Hwb ltac:(lia)) as (b & Hsb & Hb).
  pose proof (bit_marked_refl _ off Hwe) as He0. pose proof (bit_marked_refl _ off Hwp) as Hp0.
  pose proof (bit_marked_refl _ off Hwb) as Hb0.
  pose proof (span_kinds _ Hsp off Hoff) as Hk. rewrite Hfree in Hk. destruct Hk as (Hke & Hkp & Hkb).
  pose proof (state_counters _ Hwf) as (C1 & C2 & C3 & C4 & C5).
  assert (0 <= count_bits (alloc_bitmap span) < 2 ^ 63) as C6.
  { pose proof (count_bits_bounds (alloc_bitmap span)). destruct Hsp. lia. }
  assert (forall x, 0 <= x < 2 ^ 63 -> (x + 1)%u64 = x + 1) as Hu by (intros; apply add64_small; unfold is_u; lia).
  unfold mark_page_allocated. apply wp_bind, wp_gets. rewrite Hsa. apply wp_bind, (wp_lift _ _ _ a eq_refl).
  rewrite (Hu (span_allocated span)), (Hu (num_allocated_pages (ast s))) by lia.
  apply wp_bind.
  assert (forall e' p' b' ne np nb,
    bit_marked (ephemeral_bitmap span) e' off (bool_decide (t = EARLY_ALLOC_EPHEMERAL)) ->
    bit_marked (pagetable_bitmap span) p' off (bool_decide (t = EARLY_ALLOC_PAGETABLE)) ->
    bit_marked (physblock_bitmap span) b' off (bool_decide (t = EARLY_ALLOC_PHYSBLOCK)) ->
    ne = num_ephemeral_pages (ast s) + (if bool_decide (t = EARLY_ALLOC_EPHEMERAL) then 1 else 0) ->
    np = num_pagetable_pages (ast s) + (if bool_decide (t = EARLY_ALLOC_PAGETABLE) then 1 else 0) ->
    nb = num_physblock_pages (ast s) + (if bool_decide (t = EARLY_ALLOC_PHYSBLOCK) then 1 else 0) ->
    let span' := mk_span (start span) (num_pages span) (span_allocated span + 1) a e' p' b' in
    wp (set_alloc_state (mk_state (total_pages (ast s)) (num_allocated_pages (ast s) + 1) ne np nb
         (zinsert i span' (spans (ast s))));; mret span') s (fun span' s' =>
    span_updated s s' i span span' off (Some t) /\ span_wf span' /\
    num_allocated_pages (ast s') = num_allocated_pages (ast s) + 1)) as Hset.
  { intros e' p' b' ne np nb He' Hp' Hb' -> -> ->.
    destruct (mark_span span off t a e' p' b' Hsp Hoff Hfree Ha He' Hp' Hb') as [Hsp' Hkind].
    apply wp_bind, wp_modify, wp_ret. split; [|done]. split; try done. simpl.
    pose proof (state_update (ast s) i span _ Hwf Hi Hsp' eq_refl eq_refl) as Hst. simpl in Hst.
    rewrite (bit_marked_count _ _ _ _ Ha), (bit_marked_count _ _ _ _ He'), (bit_marked_count _ _ _ _ Hp'),
      (bit_marked_count _ _ _ _ Hb') in Hst by (lia || done || by apply page_kind_free).
    match type of Hst with state_wf ?x => match goal with |- state_wf ?y => replace y with x; [done|] end end.
    f_equal; lia. }
  destruct t.
  - apply wp_ret. by apply Hset; rewrite ?Z.add_0_r.
  - rewrite Hse. apply wp_bind, (wp_lift _ _ _ e eq_refl), wp_ret. rewrite Hu by lia. by apply Hset; rewrite ?Z.add_0_r.
  - rewrite Hspt. apply wp_bind, (wp_lift _ _ _ p eq_refl), wp_ret. rewrite Hu by lia. by apply Hset; rewrite ?Z.add_0_r.
  - rewrite Hsb. apply wp_bind, (wp_lift _ _ _ b eq_refl), wp_ret. rewrite Hu by lia. by apply Hset; rewrite ?Z.add_0_r.
Qed.

(** ** The status of pages *)

(** The span [i] is the one found for any address in it. *)
Lemma find_span_at st i span q :
  state_wf st -> zlookup (spans st) i = Some span -> start span <= q < start span + num_pages span * 2 ^ 12 ->
  find_span_in (spans st) 0 q = Some (i, span).
Proof.
  intros Hwf Hi Hq. apply (find_span_in_at _ 0 i q span (state_spans _ Hwf) Hi Hq).
  intros j a Hj Ha. by apply (state_apart _ Hwf j i).
Qed.

(** Page [off] of a span is the page number of its addresses. *)
Lemma span_page span off q :
  span_wf span -> (q / 2 ^ 12 = (start span + off * 2 ^ 12) / 2 ^ 12 <-> (q - start span) / 2 ^ 12 = off).
Proof.
  intros Hwf. pose proof (span_start _ Hwf) as [_ Hm]. pose proof (Z.div_mod (start span) (2 ^ 12)).
  set (k := start span / 2 ^ 12) in *. replace (start span) with (k * 2 ^ 12) by lia.
  rewrite <- Z.mul_add_distr_r, Z.div_mul by lia. replace (q - k * 2 ^ 12) with (q + (- k) * 2 ^ 12) by lia.
  rewrite Z.div_add by lia. lia.
Qed.

Lemma span_offset_in span q :
  span_wf span -> (start span <= q < start span + num_pages span * 2 ^ 12 <->
    0 <= (q - start span) / 2 ^ 12 < num_pages span).
Proof.
  intros Hwf. pose proof (Z.div_mod (q - start span) (2 ^ 12)). pose proof (Z.mod_pos_bound (q - start span) (2 ^ 12)).
  lia.
Qed.

Lemma updated_status s s' i span span' off k :
  state_wf (ast s) -> zlookup (spans (ast s)) i = Some span -> 0 <= off < num_pages span ->
  span_updated s s' i span span' off k ->
  status_set (ast s) (ast s') (start span + off * 2 ^ 12) k.
Proof.
  intros Hwf Hi Hoff [_ _ Hspans Hst Hn Hkind _] q. pose proof (Forall_zlookup _ _ _ _ (state_spans _ Hwf) Hi) as Hsp.
  pose proof (span_page span off q Hsp) as Hpage. pose proof (span_offset_in span q Hsp) as Hin.
  unfold status. rewrite Hspans, (find_span_in_zinsert _ _ _ _ span span' Hi Hst Hn).
  destruct (decide (start span <= q < start span + num_pages span * 2 ^ 12)) as [Hq|Hq].
  - rewrite (find_span_at _ i span q Hwf Hi Hq). rewrite decide_True by lia. rewrite Hkind, Hst.
    destruct (decide ((q - start span) / 2 ^ 12 = off)) as [He|He], (decide (q / 2 ^ 12 = _)) as [He2|He2]; try done;
      exfalso; tauto.
  - rewrite (decide_False (P := q / 2 ^ 12 = _)) by lia.
    destruct (find_span_in (spans (ast s)) 0 q) as [[j a]|] eqn:Hf; [|done].
    apply find_span_in_Some in Hf as (_ & Ha & Hqa); [|apply (state_spans _ Hwf)]. rewrite Z.sub_0_r in Ha.
    destruct (decide (j = 0 + i)) as [->|]; [|done]. rewrite Z.add_0_l in Ha. congruence.
Qed.

Lemma updated_shape s s' i span span' off k :
  zlookup (spans (ast s)) i = Some span -> span_updated s s' i span span' off k -> shape (ast s') = shape (ast s).
Proof.
  intros Hi Hup. unfold shape. rewrite (up_spans _ _ _ _ _ _ _ Hup).
  apply zlookup_Some in Hi as [H0 Hi]. unfold zinsert. rewrite decide_True by done. rewrite list_fmap_insert.
  apply list_insert_id. rewrite list_lookup_fmap, Hi. simpl. by rewrite (up_start _ _ _ _ _ _ _ Hup), (up_pages _ _ _ _ _ _ _ Hup).
Qed.

(** What [status] says of an address, in terms of its span. *)
Lemma status_cases st pa :
  state_wf st ->
  (status st pa = None /\ find_span_in (spans st) 0 pa = None) \/
  exists i span off, find_span_in (spans st) 0 pa = Some (i, span) /\ zlookup (spans st) i = Some span /\
    span_wf span /\ 0 <= off < num_pages span /\ phys_to_span_offset span pa = off /\
    pa / 2 ^ 12 = (start span + off * 2 ^ 12) / 2 ^ 12 /\ status st pa = Some (page_kind span off).
Proof.
  intros Hwf. unfold status. destruct (find_span_in (spans st) 0 pa) as [[i span]|] eqn:Hf; [|by left].
  right. apply find_span_in_Some in Hf as (_ & Hi & Hpa); [|apply (state_spans _ Hwf)]. rewrite Z.sub_0_r in Hi.
  pose proof (Forall_zlookup _ _ _ _ (state_spans _ Hwf) Hi) as Hsp. exists i, span, ((pa - start span) / 2 ^ 12).
  split; [done|]. split; [done|]. split; [done|]. split; [by apply span_offset_in|].
  split; [|split; [by apply span_page|done]].
  unfold phys_to_span_offset, PAGE_SHIFT. destruct Hsp.
  rewrite sub64_small, Z.shiftr_div_pow2 by (unfold is_u; lia). done.
Qed.

Lemma status_page st pa q : state_wf st -> q / 2 ^ 12 = pa / 2 ^ 12 -> status st q = status st pa.
Proof.
  intros Hwf He.
  assert (forall x y, x / 2 ^ 12 = y / 2 ^ 12 -> status st x <> None -> status st y = status st x) as Hgen.
  { intros x y Hxy Hx. destruct (status_cases _ x Hwf) as [[? _]|(i & span & off & _ & Hi & Hsp & Hoff & _ & Hp & ->)]; [done|].
    rewrite Hxy in Hp. apply span_page in Hp; [|done]. unfold status.
    rewrite (find_span_at _ i span y Hwf Hi) by (apply span_offset_in; [done|lia]). by rewrite Hp. }
  destruct (status st q) eqn:Hq; [symmetry; rewrite <- Hq; apply Hgen; congruence|].
  destruct (status st pa) eqn:Hpa; [|done]. rewrite <- Hq, <- Hpa. apply Hgen; congruence.
Qed.

Lemma status_set_same_page st st' pa pa' k :
  pa / 2 ^ 12 = pa' / 2 ^ 12 -> status_set st st' pa' k -> status_set st st' pa k.
Proof. intros He Hs q. by rewrite (Hs q), He. Qed.

(** ** Allocating at an address *)

Lemma alloc_at_ok s pa t :
  state_wf (ast s) -> status (ast s) pa = Some None ->
  wp (alloc_at pa t) s (fun _ s' =>
    alloc_only s s' /\ state_wf (ast s') /\ status_set (ast s) (ast s') pa (Some t) /\
    num_allocated_pages (ast s') = num_allocated_pages (ast s) + 1 /\ shape (ast s') = shape (ast s)).
Proof.
  intros Hwf Hst. destruct (status_cases _ pa Hwf) as [[Hn _]|(i & span & off & Hf & Hi & Hsp & Hoff & Ho & Hp & Hk)];
    [congruence|]. rewrite Hst in Hk. injection Hk as Hk. symmetry in Hk.
  unfold alloc_at, find_span. apply wp_bind, wp_bind, wp_gets, wp_ret. rewrite Hf, Ho.
  destruct (span_alloc_wf _ Hsp) as [Hwa Hna]. rewrite bitmap_is_set_spec by (done || lia).
  rewrite (proj1 (page_kind_free _ _) Hk). apply wp_bind, (wp_lift _ _ _ false eq_refl).
  apply wp_bind. eapply wp_mono; [by apply mark_ok|]. cbv beta. intros span' s' (Hup & _ & Hc). apply wp_ret.
  split; [apply Hup|]. split; [apply Hup|]. split; [|split; [done|by eapply updated_shape]].
  eapply status_set_same_page; [done|]. by eapply updated_status.
Qed.

Lemma alloc_at_panics s pa t :
  state_wf (ast s) -> status (ast s) pa <> Some None -> exists msg, alloc_at pa t s = Panic msg.
Proof.
  intros Hwf Hst. unfold alloc_at, find_span, mbind, M_bind, get_alloc_state, gets, mret, M_ret.
  destruct (status_cases _ pa Hwf) as [[_ ->]|(i & span & off & -> & Hi & Hsp & Hoff & -> & Hp & Hk)]; [by eexists|].
  destruct (span_alloc_wf _ Hsp) as [Hwa Hna]. rewrite bitmap_is_set_spec by (done || lia).
  destruct (bit_at _ off) eqn:Hb; simpl; [by eexists|]. apply page_kind_free in Hb. congruence.
Qed.

(** ** Allocating the next page *)

Lemma span_offset_to_pa_spec span off :
  span_wf span -> 0 <= off <= num_pages span -> span_offset_to_pa span off = start span + off * 2 ^ 12.
Proof.
  intros [[H0 _] Hn He _ _ _ _ _ _] Hoff. unfold span_offset_to_pa, PAGE_SHIFT.
  rewrite shl64_small by lia. apply add64_small. unfold is_u. lia.
Qed.

Lemma alloc_loop_ok s t l : forall pre,
  state_wf (ast s) -> spans (ast s) = pre ++ l -> Forall span_full pre ->
  (exists a o, a ∈ l /\ 0 <= o < num_pages a /\ page_kind a o = None) ->
  wp (alloc_loop l (zlength pre) t) s (fun p s' => allocated_page s s' t p).
Proof.
  induction l as [|x l IH]; intros pre Hwf Hs Hpre Hfree; [destruct Hfree as (a & _ & ?%elem_of_nil & _); done|].
  assert (zlookup (spans (ast s)) (zlength pre) = Some x) as Hx.
  { rewrite Hs. unfold zlength. rewrite zlookup_lookup. by apply lookup_middle. }
  pose proof (Forall_zlookup _ _ _ _ (state_spans _ Hwf) Hx) as Hsp. destruct (span_alloc_wf _ Hsp) as [Hwa Hna].
  simpl. destruct (bitmap_first_clear_cases (alloc_bitmap x) Hwa) as (r & -> & Hr).
  apply wp_bind, (wp_lift _ _ _ r eq_refl). rewrite Hna in Hr.
  assert (forall o, bit_at (alloc_bitmap x) o = true -> page_kind x o <> None) as Hbit.
  { intros o Ho Hk%page_kind_free. congruence. }
  destruct Hr as [[-> Hfull]|(Hr & Hclear & Hlow)].
  - simpl. replace (zlength pre + 1) with (zlength (pre ++ [x])) by (unfold zlength; rewrite length_app; simpl; lia).
    apply IH; [done|by rewrite <- app_assoc| |].
    + apply Forall_app. split; [done|]. apply Forall_singleton. intros o Ho. by apply Hbit, Hfull.
    + destruct Hfree as (a & o & Ha & Ho & Hk). apply elem_of_cons in Ha as [->|Ha]; [|eauto].
      exfalso. by apply (Hbit o); [apply Hfull|].
  - rewrite (proj2 (Z.eqb_neq r (-1))) by lia. apply wp_bind.
    eapply wp_mono; [apply mark_ok; [done|done|done|by apply page_kind_free]|]. cbv beta.
    intros x' s' (Hup & Hsp' & Hc). apply wp_ret. exists (zlength pre), x, x', r.
    rewrite span_offset_to_pa_spec by (done || rewrite (up_pages _ _ _ _ _ _ _ Hup); lia).
    rewrite (up_start _ _ _ _ _ _ _ Hup). repeat (split; [done|]). split; [by apply page_kind_free|].
    split; [intros o Ho; by apply Hbit, Hlow|]. split; [|done].
    intros j a Hj Ha. rewrite Hs, zlookup_app_l in Ha by done. by apply (Forall_zlookup _ _ _ _ Hpre Ha).
Qed.

Lemma free_page_exists st :
  state_wf st -> 0 < free_pages st -> exists a o, a ∈ spans st /\ 0 <= o < num_pages a /\ page_kind a o = None.
Proof.
  intros Hwf Hfree. unfold free_pages in Hfree. rewrite (state_alloc _ Hwf) in Hfree.
  assert (forall a, a ∈ spans st -> span_wf a) as Hw
    by (intros a Ha; exact (proj1 (Forall_forall _ _) (state_spans _ Hwf) a Ha)).
  destruct (sum_spans_lt (fun a => count_bits (alloc_bitmap a)) num_pages (spans st)) as (a & Ha & Hlt); [|lia|].
  - intros a Ha. destruct (Hw a Ha) as [_ Hn _ [_ Hb] _ _ _ _ _]. rewrite <- Hb. apply count_bits_bounds. lia.
  - destruct (Hw a Ha) as [_ Hn _ [_ Hb] _ _ _ _ _].
    destruct (count_bits_clear_bit (alloc_bitmap a)) as (o & Ho & Hc); [lia|lia|].
    exists a, o. split; [done|]. split; [lia|]. by apply page_kind_free.
Qed.

Lemma alloc_ok_page s t :
  state_wf (ast s) -> 0 < free_pages (ast s) -> wp (alloc t) s (fun p s' => allocated_page s s' t p).
Proof.
  intros Hwf Hfree. unfold alloc. apply wp_bind, wp_gets. apply (alloc_loop_ok s t (spans (ast s)) []);
    [done|done|by constructor|]. by apply free_page_exists.
Qed.

Lemma allocated_page_ok s s' t p :
  state_wf (ast s) -> allocated_page s s' t p ->
  page_ok p /\ status (ast s) p = Some None /\ status_set (ast s) (ast s') p (Some t) /\
  alloc_only s s' /\ state_wf (ast s') /\ free_pages (ast s') = free_pages (ast s) - 1.
Proof.
  intros Hwf (i & span & span' & off & Hi & Hoff & -> & Hk & _ & _ & Hup & Hc).
  pose proof (Forall_zlookup _ _ _ _ (state_spans _ Hwf) Hi) as Hsp. pose proof Hsp as [[H0 Hm] Hn He _ _ _ _ _ _].
  split; [split; [lia|rewrite Z.mod_add by lia; done]|]. split; [|split; [by eapply updated_status|]].
  - unfold status. rewrite (find_span_at _ i span) by (done || lia). f_equal. rewrite <- Hk. f_equal.
    replace (start span + off * 2 ^ 12 - start span) with (off * 2 ^ 12) by lia. apply Z.div_mul. lia.
  - split; [apply Hup|]. split; [apply Hup|]. unfold free_pages. rewrite Hc, (up_spans _ _ _ _ _ _ _ Hup).
    rewrite (sum_spans_zinsert _ _ _ _ _ Hi), (up_pages _ _ _ _ _ _ _ Hup). lia.
Qed.

(** In sorted spans the page is the lowest free one. *)
Lemma allocated_page_lowest s s' t p q :
  state_wf (ast s) -> spans_sorted (ast s) -> allocated_page s s' t p -> status (ast s) q = Some None -> p <= q.
Proof.
  intros Hwf Hsort (i & span & span' & off & Hi & Hoff & -> & Hk & Hlow & Hfull & _ & _) Hq.
  destruct (status_cases _ q Hwf) as [[Hn _]|(j & a & o & Hf & Hj & Hsp & Ho & _ & Hp & Hs)]; [congruence|].
  rewrite Hq in Hs. injection Hs as Hs. symmetry in Hs.
  pose proof (Forall_zlookup _ _ _ _ (state_spans _ Hwf) Hi) as Hspi.
  pose proof (proj1 (span_page a o q Hsp) Hp) as Hqo. pose proof (Z.div_mod (q - start a) (2 ^ 12)).
  pose proof (Z.mod_pos_bound (q - start a) (2 ^ 12)).
  destruct (Z.lt_trichotomy j i) as [Hlt|[->|Hgt]].
  - exfalso. by apply (Hfull j a Hlt Hj o Ho).
  - assert (a = span) as -> by congruence. destruct (decide (o < off)); [|lia]. exfalso. by apply (Hlow o); [lia|].
  - pose proof (Hsort i j span a Hgt Hi Hj). lia.
Qed.

Lemma alloc_loop_full s t l : forall i,
  Forall span_wf l -> Forall span_full l -> exists msg, alloc_loop l i t s = Panic msg.
Proof.
  induction l as [|x l IH]; intros i Hwf Hfull; [by eexists|].
  apply Forall_cons in Hwf as [Hx Hwf]. apply Forall_cons in Hfull as [Hxf Hfull]. simpl.
  destruct (span_alloc_wf _ Hx) as [Hwa Hna].
  destruct (bitmap_first_clear_cases (alloc_bitmap x) Hwa) as (r & -> & [[-> _]|(Hr & Hc & _)]).
  - unfold mbind, M_bind. simpl. by apply IH.
  - exfalso. apply (Hxf r); [lia|]. by apply page_kind_free.
Qed.

Lemma alloc_full s t :
  state_wf (ast s) -> free_pages (ast s) = 0 -> exists msg, alloc t s = Panic msg.
Proof.
  intros Hwf Hz. unfold alloc, mbind, M_bind, get_alloc_state, gets. apply alloc_loop_full; [apply (state_spans _ Hwf)|].
  apply Forall_forall. intros a Ha o Ho Hk. pose proof (proj1 (Forall_forall _ _) (state_spans _ Hwf) a Ha) as Hsp.
  apply page_kind_free in Hk. unfold free_pages in Hz. rewrite (state_alloc _ Hwf) in Hz.
  assert (forall a, a ∈ spans (ast s) -> 0 <= count_bits (alloc_bitmap a) <= num_pages a) as Hle.
  { intros x Hx. pose proof (proj1 (Forall_forall _ _) (state_spans _ Hwf) x Hx) as [_ Hn _ [_ Hb] _ _ _ _ _].
    rewrite <- Hb. apply count_bits_bounds. lia. }
  assert (count_bits (alloc_bitmap a) < num_pages a) as Hlt.
  { destruct (span_alloc_wf _ Hsp) as [Hwa Hna]. rewrite <- Hna.
    destruct (bit_marked_set (alloc_bitmap a) o Hwa ltac:(lia)) as (b' & _ & Hm).
    pose proof (bit_marked_count _ _ _ _ Hm ltac:(lia) Hk) as Hc. destruct Hm as (_ & Hn & _).
    simpl in Hc. pose proof (count_bits_bounds b'). lia. }
  clear -Hz Hle Hlt Ha. induction (spans (ast s)) as [|x l IH]; [by apply elem_of_nil in Ha|]. simpl in Hz.
  pose proof (Hle x (list_elem_of_here _ _)).
  pose proof (sum_spans_le (fun s => count_bits (alloc_bitmap s)) num_pages l
    (fun y Hy => Hle y (list_elem_of_further _ _ _ Hy))).
  apply elem_of_cons in Ha as [->|Ha]; [lia|]. apply IH; try done; [lia|intros y Hy; apply Hle; by apply list_elem_of_further].
Qed.

(** ** Freeing *)

Lemma bit_unmarked_count b b' off :
  bit_unmarked b b' off -> 0 <= off < num_bits b ->
  count_bits b' = count_bits b - if bit_at b off then 1 else 0.
Proof.
  intros (Hwf & Hn & Hat) Hoff. destruct (bit_at b off) eqn:Hb.
  - enough (count_bits b = count_bits b' + 1) by lia. unfold count_bits. rewrite Hn.
    apply count_true_flip with off; [apply NoDup_seqZ|apply elem_of_seqZ; lia| |done|].
    + by rewrite Hat, Z.eqb_refl, andb_false_r.
    + intros y Hy. rewrite Hat, (proj2 (Z.eqb_neq off y)) by congruence. by rewrite andb_true_r.
  - unfold count_bits. rewrite Hn, Z.sub_0_r. apply count_true_ext. intros i _. rewrite Hat.
    destruct (Z.eqb_spec off i) as [<-|]; [by rewrite Hb|by rewrite andb_true_r].
Qed.

Lemma bitmap_clear_unmarks b off :
  bitmap_wf b -> 0 <= off < num_bits b -> bit_at b off = true ->
  exists b', bitmap_clear b off = Some b' /\ bit_unmarked b b' off.
Proof.
  intros Hwf Hoff Hb. destruct (bitmap_clear_spec b off Hwf Hoff) as (b' & Hc & Hwf' & Hn & _ & Hat).
  exists b'. split; [done|]. split; [done|]. split; [done|]. intros i. rewrite Hat.
  destruct (Z.eqb_spec off i) as [<-|]; [by rewrite Hb|]. by rewrite xorb_false_r, andb_true_r.
Qed.

Lemma clear_if_set_spec b off count :
  bitmap_wf b -> 0 <= off < num_bits b -> count_bits b <= count < 2 ^ 63 ->
  exists b', clear_if_set b off count = Some (b', count - if bit_at b off then 1 else 0) /\ bit_unmarked b b' off.
Proof.
  intros Hwf Hoff Hc. unfold clear_if_set. rewrite bitmap_is_set_spec by done. simpl.
  destruct (bit_at b off) eqn:Hb.
  - destruct (bitmap_clear_unmarks b off Hwf Hoff Hb) as (b' & -> & Hu). exists b'. split; [|done]. simpl.
    pose proof (bit_unmarked_count _ _ _ Hu Hoff) as Hcc. rewrite Hb in Hcc.
    pose proof (count_bits_bounds b') as Hb0. destruct Hu as (_ & Hn & _).
    rewrite sub64_small by (unfold is_u; lia). done.
  - exists b. rewrite Z.sub_0_r. split; [done|]. split; [done|]. split; [done|]. intros i.
    destruct (Z.eqb_spec off i) as [<-|]; [by rewrite Hb|by rewrite andb_true_r].
Qed.

Lemma unmark_span span off a e p b :
  span_wf span -> 0 <= off < num_pages span -> page_kind span off <> None ->
  bit_unmarked (alloc_bitmap span) a off -> bit_unmarked (ephemeral_bitmap span) e off ->
  bit_unmarked (pagetable_bitmap span) p off -> bit_unmarked (physblock_bitmap span) b off ->
  let span' := mk_span (start span) (num_pages span) (span_allocated span - 1) a e p b in
  span_wf span' /\ forall o, page_kind span' o = if decide (o = off) then None else page_kind span o.
Proof.
  intros Hwf Hoff Hk Ha He Hp Hb span'. pose proof Hwf as [H1 H2 H3 [Hwa Hna] [Hwe Hne] [Hwp Hnp] [Hwb Hnb] Hkinds Hcount].
  assert (bit_at (alloc_bitmap span) off = true) as Hset
    by (destruct (bit_at (alloc_bitmap span) off) eqn:Hd; [done|by apply page_kind_free in Hd]).
  pose proof (bit_unmarked_count _ _ _ Ha ltac:(lia)) as Hc. rewrite Hset in Hc.
  destruct Ha as (Hwa' & Hna' & Ha), He as (Hwe' & Hne' & He), Hp as (Hwp' & Hnp' & Hp), Hb as (Hwb' & Hnb' & Hb).
  assert (forall o, page_kind span' o = if decide (o = off) then None else page_kind span o) as Hkind.
  { intros o. unfold page_kind, span'. simpl. rewrite Ha, He, Hp, Hb. destruct (decide (o = off)) as [->|Hne2].
    - by rewrite Z.eqb_refl, andb_false_r.
    - rewrite (proj2 (Z.eqb_neq off o)) by congruence. by rewrite !andb_true_r. }
  split; [|done]. split; try done; simpl; try (by split; congruence).
  - intros i Hi. specialize (Hkinds i Hi). rewrite Hkind, He, Hp, Hb. destruct (decide (i = off)) as [->|Hne2].
    + by rewrite Z.eqb_refl, !andb_false_r.
    + rewrite (proj2 (Z.eqb_neq off i)) by congruence. by rewrite !andb_true_r.
  - rewrite Hc. lia.
Qed.

Lemma sum_spans_elem f l i a :
  zlookup l i = Some a -> (forall x, x ∈ l -> 0 <= f x) -> f a <= sum_spans f l.
Proof.
  intros Hi%zlookup_elem_of. induction l as [|x l IH]; intros Hf; [by apply elem_of_nil in Hi|]. simpl.
  assert (0 <= sum_spans f l).
  { apply (sum_spans_le f f). intros y Hy. split; [|lia]. apply Hf. by apply list_elem_of_further. }
  pose proof (Hf x (list_elem_of_here _ _)).
  apply elem_of_cons in Hi as [->|Hi]; [lia|]. assert (f a <= sum_spans f l); [|lia].
  apply IH; [done|]. intros y Hy. apply Hf. by apply list_elem_of_further.
Qed.

(** Each counter covers the bitmap of each span. *)
Lemma state_counts st i span :
  state_wf st -> zlookup (spans st) i = Some span ->
  count_bits (alloc_bitmap span) <= num_allocated_pages st /\
  count_bits (ephemeral_bitmap span) <= num_ephemeral_pages st /\
  count_bits (pagetable_bitmap span) <= num_pagetable_pages st /\
  count_bits (physblock_bitmap span) <= num_physblock_pages st.
Proof.
  intros Hwf Hi. rewrite (state_alloc _ Hwf), (state_eph _ Hwf), (state_pt _ Hwf), (state_pb _ Hwf).
  assert (forall b, 0 <= count_bits b) as Hn by (intros b; apply count_true_bounds).
  repeat split; [apply (sum_spans_elem (fun s => count_bits (alloc_bitmap s)) _ i)
                |apply (sum_spans_elem (fun s => count_bits (ephemeral_bitmap s)) _ i)
                |apply (sum_spans_elem (fun s => count_bits (pagetable_bitmap s)) _ i)
                |apply (sum_spans_elem (fun s => count_bits (physblock_bitmap s)) _ i)]; done || auto.
Qed.

Lemma early_page_free_ok s pa t :
  state_wf (ast s) -> status (ast s) pa = Some (Some t) ->
  wp (early_page_free pa) s (fun _ s' =>
    alloc_only s s' /\ state_wf (ast s') /\ status_set (ast s) (ast s') pa None /\
    num_allocated_pages (ast s') = num_allocated_pages (ast s) - 1).
Proof.
  intros Hwf Hst. destruct (status_cases _ pa Hwf) as [[Hn _]|(i & span & off & Hf & Hi & Hsp & Hoff & Ho & Hp & Hk)];
    [congruence|]. rewrite Hst in Hk. injection Hk as Hk.
  pose proof (state_counts _ _ _ Hwf Hi) as (N1 & N2 & N3 & N4). pose proof (state_counters _ Hwf) as (C1 & C2 & C3 & C4 & C5).
  pose proof Hsp as [_ _ _ [Hwa Hna] [Hwe Hne] [Hwp Hnp] [Hwb Hnb] _ Hcnt].
  assert (bit_at (alloc_bitmap span) off = true) as Hset.
  { destruct (bit_at (alloc_bitmap span) off) eqn:Hd; [done|]. apply page_kind_free in Hd. congruence. }
  destruct (bitmap_clear_unmarks (alloc_bitmap span) off Hwa ltac:(lia) Hset) as (a & Hca & Ha).
  destruct (clear_if_set_spec (ephemeral_bitmap span) off (num_ephemeral_pages (ast s)) Hwe ltac:(lia) ltac:(lia)) as (e & Hce & He).
  destruct (clear_if_set_spec (pagetable_bitmap span) off (num_pagetable_pages (ast s)) Hwp ltac:(lia) ltac:(lia)) as (p & Hcp & Hpt).
  destruct (clear_if_set_spec (physblock_bitmap span) off (num_physblock_pages (ast s)) Hwb ltac:(lia) ltac:(lia)) as (b & Hcb & Hb).
  destruct (unmark_span span off a e p b Hsp Hoff ltac:(congruence) Ha He Hpt Hb) as [Hsp' Hkind].
  pose proof (bit_unmarked_count _ _ _ Ha ltac:(lia)) as Da. rewrite Hset in Da.
  pose proof (count_bits_bounds a) as Ba. destruct (Ha) as (_ & Hna' & _).
  unfold early_page_free, find_span. apply wp_bind, wp_bind, wp_gets, wp_ret. rewrite Hf, Ho.
  rewrite bitmap_is_set_spec, Hset by (done || lia). apply wp_bind, (wp_lift _ _ _ true eq_refl). simpl negb. cbv iota.
  apply wp_bind, wp_gets. rewrite Hca. apply wp_bind, (wp_lift _ _ _ a eq_refl). rewrite Hce.
  apply wp_bind, (wp_lift _ _ _ _ eq_refl). rewrite Hcp. apply wp_bind, (wp_lift _ _ _ _ eq_refl). rewrite Hcb.
  apply wp_bind, (wp_lift _ _ _ _ eq_refl), wp_modify. cbn [fst snd].
  rewrite !(sub64_small _ 1) by (unfold is_u; lia).
  set (span' := mk_span _ _ _ _ _ _ _) in *. set (s' := mk_machine _ _).
  assert (span_updated s s' i span span' off None) as Hup.
  { split; try done. simpl. pose proof (state_update (ast s) i span span' Hwf Hi Hsp' eq_refl eq_refl) as Hnew. simpl in Hnew.
    rewrite (bit_unmarked_count _ _ _ He), (bit_unmarked_count _ _ _ Hpt), (bit_unmarked_count _ _ _ Hb), Da in Hnew by lia.
    match type of Hnew with state_wf ?x => match goal with |- state_wf ?y => replace y with x; [done|] end end.
    f_equal; lia. }
  split; [done|]. split; [apply Hup|]. split; [|done].
  eapply status_set_same_page; [done|]. by eapply updated_status.
Qed.

Lemma early_page_free_panics s pa :
  state_wf (ast s) -> (forall t, status (ast s) pa <> Some (Some t)) -> exists msg, early_page_free pa s = Panic msg.
Proof.
  intros Hwf Hst. unfold early_page_free, find_span, mbind, M_bind, get_alloc_state, gets, mret, M_ret.
  destruct (status_cases _ pa Hwf) as [[_ ->]|(i & span & off & -> & Hi & Hsp & Hoff & -> & Hp & Hk)]; [by eexists|].
  destruct (span_alloc_wf _ Hsp) as [Hwa Hna]. rewrite bitmap_is_set_spec by (done || lia). simpl.
  destruct (bit_at _ off) eqn:Hb; simpl; [|by eexists]. destruct (page_kind span off) as [t|] eqn:Hpk.
  - by exfalso; apply (Hst t).
  - apply page_kind_free in Hpk. congruence.
Qed.

(** ** Contiguous pages *)

Lemma updated_free s s' i span span' off k d :
  zlookup (spans (ast s)) i = Some span -> span_updated s s' i span span' off k ->
  num_allocated_pages (ast s') = num_allocated_pages (ast s) + d -> free_pages (ast s') = free_pages (ast s) - d.
Proof.
  intros Hi Hup Hc. unfold free_pages. rewrite Hc, (up_spans _ _ _ _ _ _ _ Hup).
  rewrite (sum_spans_zinsert _ _ _ _ _ Hi), (up_pages _ _ _ _ _ _ _ Hup). lia.
Qed.

Lemma mark_run_ok n : forall s i span j,
  state_wf (ast s) -> zlookup (spans (ast s)) i = Some span -> 0 <= j -> j + Z.of_nat n <= num_pages span ->
  (forall o, j <= o < j + Z.of_nat n -> page_kind span o = None) ->
  wp (mark_run n i span j) s (fun span' s' =>
    alloc_only s s' /\ shape (ast s') = shape (ast s) /\ state_wf (ast s') /\ span_wf span' /\ start span' = start span /\ num_pages span' = num_pages span /\
    free_pages (ast s') = free_pages (ast s) - Z.of_nat n /\
    forall q, status (ast s') q =
      if decide (start span + j * 2 ^ 12 <= q < start span + (j + Z.of_nat n) * 2 ^ 12)
      then Some (Some EARLY_ALLOC_NORMAL) else status (ast s) q).
Proof.
  induction n as [|n IH]; intros s i span j Hwf Hi Hj Hn Hfree;
    pose proof (Forall_zlookup _ _ _ _ (state_spans _ Hwf) Hi) as Hsp.
  { apply wp_ret. repeat (split; [done || lia|]). intros q. by rewrite decide_False by lia. }
  simpl. apply wp_bind. eapply wp_mono; [apply mark_ok; [done|done|lia|apply Hfree; lia]|].
  cbv beta. intros span1 s1 (Hup & Hsp1 & Hc1). pose proof (updated_status s s1 i span span1 j _ Hwf Hi ltac:(lia) Hup) as Hst1.
  pose proof (updated_free s s1 i span span1 j _ 1 Hi Hup Hc1) as Hf1. pose proof (updated_shape _ _ _ _ _ _ _ Hi Hup) as Hsh1. destruct Hup as [[Hm Hsc] Hwf1 Hspans Hstart Hpages Hkind Htot].
  eapply wp_mono; [apply (IH s1 i span1 (j + 1)); [done| |lia|lia|]|].
  - rewrite Hspans. apply zlookup_zinsert_eq. apply zlookup_is_Some. eauto.
  - intros o Ho. rewrite Hkind, decide_False by lia. apply Hfree. lia.
  - cbv beta. intros span2 s2 ([Hm2 Hsc2] & Hsh2 & Hwf2 & Hsp2 & Hst2 & Hn2 & Hc2 & Hq). split; [split; congruence|]. split; [congruence|].
    split; [done|]. split; [done|]. split; [congruence|]. split; [congruence|]. split; [lia|].
    intros q. rewrite Hq, Hstart, (Hst1 q).
    assert (q / 2 ^ 12 = (start span + j * 2 ^ 12) / 2 ^ 12 <-> start span + j * 2 ^ 12 <= q < start span + (j + 1) * 2 ^ 12)
      as Hp by (rewrite span_page by done; Z.div_mod_to_equations; lia).
    destruct Hp as [Hp1 Hp2]. repeat case_decide; try done; exfalso; lia.
Qed.

Lemma zero_string_free span n r :
  span_wf span -> 1 <= n <= 8 -> bitmap_zero_string_longer_than (alloc_bitmap span) n = Some r -> r <> -1 ->
  0 <= r /\ r + n <= num_pages span /\ forall o, r <= o < r + n -> page_kind span o = None.
Proof.
  intros Hsp Hn Hr Hne. destruct (span_alloc_wf _ Hsp) as [Hwa Hna]. pose proof (span_pages _ Hsp).
  destruct (zero_string_run (alloc_bitmap span) n r Hwa) as (H0 & H1 & H2); [lia|lia|done|done|].
  split; [done|]. split; [lia|]. intros o Ho. apply page_kind_free. by apply H2.
Qed.

Lemma pages_alloc_loop_cases s n l : forall pre,
  state_wf (ast s) -> spans (ast s) = pre ++ l -> 1 <= n <= 8 ->
  match pages_alloc_loop l (zlength pre) n s with
  | Done p s' => allocated_run s s' n p /\ found_run s n p
  | Panic _ => Forall (fun a => bitmap_zero_string_longer_than (alloc_bitmap a) n = Some (-1)) l
  | _ => False
  end.
Proof.
  induction l as [|x l IH]; intros pre Hwf Hs Hn; [by constructor|].
  assert (zlookup (spans (ast s)) (zlength pre) = Some x) as Hx.
  { rewrite Hs. unfold zlength. rewrite zlookup_lookup. by apply lookup_middle. }
  pose proof (Forall_zlookup _ _ _ _ (state_spans _ Hwf) Hx) as Hsp. destruct (span_alloc_wf _ Hsp) as [Hwa Hna].
  pose proof (span_pages _ Hsp) as Hnp. pose proof Hsp as [[Hs0 Hal] _ Hend _ _ _ _ _ _].
  destruct (zero_string_cases (alloc_bitmap x) n Hwa) as (r & Hr & _); [lia|lia|].
  cbn [pages_alloc_loop]. rewrite Hr. unfold mbind at 1, M_bind at 1, lift, mret at 1, M_ret at 1.
  destruct (Z.eqb_spec r (-1)) as [->|Hne].
  - replace (zlength pre + 1) with (zlength (pre ++ [x])) by (unfold zlength; rewrite length_app; simpl; lia).
    specialize (IH (pre ++ [x]) Hwf). rewrite <- app_assoc in IH. specialize (IH Hs Hn).
    destruct (pages_alloc_loop l _ n s); try done. by constructor.
  - destruct (zero_string_free x n r Hsp Hn Hr Hne) as (H0 & H1 & Hfree).
    destruct (wp_done _ _ _ (mark_run_ok (Z.to_nat n) s (zlength pre) x r Hwf Hx H0 ltac:(lia) ltac:(intros o Ho; apply Hfree; lia)))
      as (x' & s' & Hrun & Honly & Hshr & Hwf' & Hsp' & Hst' & Hn' & Hc' & Hq). rewrite Z2Nat.id in Hc', Hq by lia.
    unfold mbind, M_bind. rewrite Hrun. unfold mret, M_ret. rewrite span_offset_to_pa_spec by (done || lia). rewrite Hst'.
    split; [|by exists (zlength pre), x, r]. split; [split; [lia|rewrite Z.mod_add by lia; done]|]. split; [done|]. split; [done|]. split; [done|]. split; [|split].
    + lia.
    + intros q Hq'. unfold status. rewrite (find_span_at _ (zlength pre) x) by (done || lia). f_equal. apply Hfree.
      split; [apply Z.div_le_lower_bound|apply Z.div_lt_upper_bound]; lia.
    + intros q. rewrite Hq. by replace (start x + r * 2 ^ 12 + n * 2 ^ 12) with (start x + (r + n) * 2 ^ 12) by lia.
Qed.

(** ** The early allocator as the mapping code's allocator *)

Lemma allocated_shape s s' t p : allocated_page s s' t p -> shape (ast s') = shape (ast s).
Proof. intros (i & span & span' & off & Hi & _ & _ & _ & _ & _ & Hup & _). by eapply updated_shape. Qed.

Lemma spans_only_ok a : state_wf (alloc_state a) -> frozen_ok (spans_only (alloc_state a)) a.
Proof. intros Hwf. split; [done|done|]. intros r Hr. by apply elem_of_nil in Hr. Qed.

(** An allocation keeps what is frozen. *)
Lemma frozen_alloc fz a a' p t :
  frozen_ok fz a -> state_wf (alloc_state a') -> shape (alloc_state a') = shape (alloc_state a) ->
  status (alloc_state a) p = Some None -> status_set (alloc_state a) (alloc_state a') p (Some t) -> frozen_ok fz a'.
Proof.
  intros [Hwf Hsh Hk] Hwf' Hsh' Hp Hset. split; [done|congruence|]. intros r Hr. rewrite (Hset r.1). rewrite decide_False; [by apply Hk|].
  intros E. specialize (Hk r Hr). rewrite (status_page _ p r.1 Hwf E) in Hk. congruence.
Qed.

(** *** The landing *)

Lemma pages_above_nonneg B sh : 0 <= shape_above B sh.
Proof. induction sh as [|a sh IH]; simpl; [done|]. unfold pages_above. lia. Qed.

(** When every free page is at [B] or above, there are no more free pages than
    pages there. *)
Lemma free_pages_above st B :
  state_wf st -> (forall q, status st q = Some None -> B <= q) -> free_pages st <= shape_above B (shape st).
Proof.
  intros Hwf Hall. unfold free_pages. rewrite (state_alloc _ Hwf).
  assert (forall a, a ∈ spans st -> num_pages a - count_bits (alloc_bitmap a) <= pages_above B (start a, num_pages a)) as Hle.
  { intros a Ha. pose proof (proj1 (Forall_forall _ _) (state_spans _ Hwf) a Ha) as Hsp.
    pose proof Hsp as [[Hs0 Hs1] Hn _ [_ Hb] _ _ _ _ _]. apply list_elem_of_lookup in Ha as [i Hi].
    assert (zlookup (spans st) (Z.of_nat i) = Some a) as Hz by by rewrite zlookup_lookup.
    unfold pages_above. cbn [fst snd]. set (x := (start a + num_pages a * 2 ^ 12 - B) / 2 ^ 12).
    pose proof (Z.div_mod (start a + num_pages a * 2 ^ 12 - B) (2 ^ 12) ltac:(lia)) as Hx. fold x in Hx.
    pose proof (Z.mod_pos_bound (start a + num_pages a * 2 ^ 12 - B) (2 ^ 12) ltac:(lia)).
    set (m := num_pages a - Z.max 0 (Z.min (num_pages a) x)). enough (m <= count_bits (alloc_bitmap a)) by lia.
    destruct (Z.le_gt_cases m 0) as [|Hm]; [pose proof (count_bits_bounds (alloc_bitmap a)); lia|].
    pose proof (count_true_ge (seqZ 0 m) (bit_at (alloc_bitmap a)) (seqZ 0 (num_bits (alloc_bitmap a))) (NoDup_seqZ _ _) (NoDup_seqZ _ _)) as Hc.
    unfold zlength in Hc. rewrite length_seqZ, Z2Nat.id in Hc by lia. apply Hc. intros o Ho%elem_of_seqZ.
    split; [apply elem_of_seqZ; lia|]. destruct (bit_at (alloc_bitmap a) o) eqn:Hbit; [done|]. exfalso.
    assert (B <= start a + o * 2 ^ 12); [|lia]. apply Hall. unfold status.
    rewrite (find_span_at st (Z.of_nat i) a) by (done || lia).
    replace (start a + o * 2 ^ 12 - start a) with (o * 2 ^ 12) by lia. rewrite Z.div_mul by lia. by rewrite (proj2 (page_kind_free a o)). }
  unfold shape. clear Hall. induction (spans st) as [|a l IH]; [done|]. cbn [sum_spans fmap list_fmap shape_above].
  pose proof (Hle a (list_elem_of_here _ _)).
  specialize (IH (fun y Hy => Hle y (list_elem_of_further _ _ _ Hy))). lia.
Qed.

Lemma shape_sorted_spans st : shape_sorted (shape st) -> spans_sorted st.
Proof.
  intros Hs i j a b Hij [Hi0 Hi]%zlookup_Some [Hj0 Hj]%zlookup_Some.
  apply (sorted_lookup _ _ Hs (Z.to_nat i) (Z.to_nat j) (start a, num_pages a) (start b, num_pages b)); [lia|..];
    unfold shape; rewrite list_lookup_fmap; [by rewrite Hi|by rewrite Hj].
Qed.

Lemma held_frozen fz h a : held_ok fz h a -> frozen_ok fz a.
Proof. destruct h; [by intros []|done]. Qed.

Lemma held_avail_le fz h a : held_avail fz h a <= free_pages (alloc_state a).
Proof. destruct h as [l|]; simpl; [|done]. pose proof (pages_above_nonneg (ld_base l) (fz_shape fz)). lia. Qed.

(** The pages of a landing are whole pages. *)
Lemma landing_aligned fz l a : frozen_ok fz a -> landing_ok fz l a -> ld_base l mod 2 ^ 12 = 0.
Proof.
  intros [Hwf Hsh _] [_ (x & k & Hx & _ & -> & _) _ _ _]. rewrite <- Hsh in Hx. unfold shape in Hx.
  apply list_elem_of_fmap in Hx as (sp & -> & Hsp). cbn [fst].
  pose proof (proj1 (Forall_forall _ _) (state_spans _ Hwf) sp Hsp) as [[_ Hm] _ _ _ _ _ _ _ _].
  replace (64 * k * 2 ^ 12) with (64 * k * 2 ^ 12) by lia. by rewrite Z.mod_add by lia.
Qed.

(** Taking the lowest page keeps the landing. *)
Lemma held_alloc fz h a a' s s' p t :
  a = alloc_st s -> a' = alloc_st s' -> held_ok fz h a -> 0 < held_avail fz h a -> allocated_page s s' t p ->
  held_ok fz h a' /\ held_avail fz h a' = held_avail fz h a - 1.
Proof.
  intros -> -> Hok Hav Hp. pose proof (held_frozen _ _ _ Hok) as Hfz. pose proof (fo_wf _ _ Hfz) as Hwf.
  pose proof (allocated_shape _ _ _ _ Hp) as Hsh'. destruct (allocated_page_ok _ _ _ _ Hwf Hp) as (Hpok & Hfree & Hset & _ & Hwf' & Hc).
  pose proof (frozen_alloc fz _ _ p t Hfz Hwf' Hsh' Hfree Hset) as Hfz'.
  destruct h as [l|]; cbn [held_ok held_avail] in *; [|by split]. destruct Hok as [_ Hl]. split; [|lia]. split; [done|].
  pose proof (landing_aligned _ _ _ Hfz Hl) as Hal. destruct Hl as [L1 L2 L3 [ty L4] L5].
  assert (p < ld_base l) as Hlow.
  { destruct (Z.lt_ge_cases p (ld_base l)) as [|Hge]; [done|]. exfalso.
    assert (free_pages (ast s) <= shape_above (ld_base l) (shape (ast s))) as Hbad; [|rewrite (fo_shape _ _ Hfz) in Hbad; lia].
    apply free_pages_above; [done|]. intros q Hq.
    pose proof (allocated_page_lowest s s' t p q Hwf ltac:(apply shape_sorted_spans; by rewrite (fo_shape _ _ Hfz)) Hp Hq). lia. }
  assert (forall q, ld_base l <= q -> status (ast s') q = status (ast s) q) as Hkeep.
  { intros q Hq. rewrite (Hset q). rewrite decide_False; [done|]. intros E. 
    pose proof (Z.div_mod p (2 ^ 12)). pose proof (Z.mod_pos_bound p (2 ^ 12)). pose proof (Z.div_mod (ld_base l) (2 ^ 12)).
    pose proof (Z.div_le_mono (ld_base l) q (2 ^ 12) ltac:(lia) Hq). lia. }
  split; try done.
  - exists ty. by rewrite Hkeep.
  - intros i Hi. rewrite Hkeep by lia. by apply L5.
Qed.

(** The landing after [m] runs of pages were taken, perhaps from it. *)
Definition landing_after (h : option landing) (m : Z) : option landing := (fun l => mk_landing (ld_base l) (ld_first l + 8 * m)) <$> h.

(** The landing has room for [m] runs. *)
Definition landing_fits (h : option landing) (m : Z) : Prop := m = 0 \/ exists l, h = Some l /\ ld_first l + 8 * m <= 64.

Lemma held_avail_after fz h m a a' n :
  free_pages (alloc_state a') = free_pages (alloc_state a) - n -> held_avail fz (landing_after h m) a' = held_avail fz h a - n.
Proof. intros Hf. destruct h as [l|]; simpl; lia. Qed.

Lemma landing_after_0 h : landing_after h 0 = h.
Proof. destruct h as [[B c]|]; [|done]. cbn. by rewrite Z.add_0_r. Qed.

Lemma landing_after_add h m n : landing_after (landing_after h m) n = landing_after h (m + n).
Proof. destruct h as [l|]; [|done]. cbn. do 2 f_equal. lia. Qed.

(** Room for more runs is room for one that remains. *)
Lemma landing_fits_after h m n k : 0 <= m -> 0 <= n -> m + n <= k -> landing_fits h k -> landing_fits (landing_after h m) n.
Proof.
  intros Hm Hn Hk [->|(l & -> & Hl)]; [left; lia|]. right. exists (mk_landing (ld_base l) (ld_first l + 8 * m)). split; [done|].
  cbn [ld_first]. lia.
Qed.

(** The span of a landing, and what its bitmap says. *)
Lemma landing_span fz l a (st := alloc_state a) :
  frozen_ok fz a -> landing_ok fz l a ->
  exists j sp k, zlookup (spans st) j = Some sp /\ 0 <= k /\ ld_base l = start sp + 64 * k * 2 ^ 12 /\ 64 * k + 64 <= num_pages sp /\
    bit_at (alloc_bitmap sp) (64 * k) = true /\ forall i, ld_first l <= i < 64 -> bit_at (alloc_bitmap sp) (64 * k + i) = false.
Proof.
  intros [Hwf Hsh _] [_ (x & k & Hx & Hk & HB & Hend) L3 [ty L4] L5]. rewrite <- Hsh in Hx. unfold shape in Hx.
  apply list_elem_of_fmap in Hx as (sp & -> & Hsp). cbn [fst snd] in HB, Hend. apply list_elem_of_lookup in Hsp as [j Hj].
  assert (zlookup (spans st) (Z.of_nat j) = Some sp) as Hz by by rewrite zlookup_lookup.
  assert (forall i, 0 <= i < 64 -> status st (ld_base l + i * 2 ^ 12) = Some (page_kind sp (64 * k + i))) as Hst.
  { intros i Hi. unfold status. rewrite (find_span_at st (Z.of_nat j) sp) by (done || lia). do 2 f_equal.
    replace (ld_base l + i * 2 ^ 12 - start sp) with ((64 * k + i) * 2 ^ 12) by lia. apply Z.div_mul. lia. }
  exists (Z.of_nat j), sp, k. do 4 (split; [done|]). split.
  - specialize (Hst 0 ltac:(lia)). rewrite Z.mul_0_l, !Z.add_0_r in Hst. subst st. rewrite L4 in Hst. injection Hst as Hst.
    destruct (bit_at _ _) eqn:Hb; [done|]. apply page_kind_free in Hb. congruence.
  - intros i Hi. specialize (Hst i ltac:(lia)). subst st. rewrite L5 in Hst by done. injection Hst as Hst. by apply page_kind_free.
Qed.

Lemma landing_run sp k c n :
  0 <= k -> 64 * k + 64 <= num_bits (alloc_bitmap sp) -> 0 <= c -> c + n <= 64 ->
  (forall i, c <= i < 64 -> bit_at (alloc_bitmap sp) (64 * k + i) = false) -> zero_run (alloc_bitmap sp) n (64 * k + c).
Proof.
  intros Hk Hend Hc Hn Hfree. split; [lia|]. split; [lia|]. intros j Hj. replace j with (64 * k + (j - 64 * k)) by lia. apply Hfree. lia.
Qed.

(** A run taken from the spans leaves the landing with at most eight pages
    less. *)
Lemma landing_after_run fz l s s' n p :
  frozen_ok fz (alloc_st s) -> landing_ok fz l (alloc_st s) -> 1 <= n <= 8 -> allocated_run s s' n p -> found_run s n p ->
  landing_ok fz (mk_landing (ld_base l) (ld_first l + 8)) (alloc_st s').
Proof.
  intros Hfz Hl Hn (Hp & _ & _ & _ & _ & Hwas & Hst) (i0 & x & r & Hx & Ep & Hr0 & Hr).
  pose proof (fo_wf _ _ Hfz) as Hwf. destruct (landing_span fz l _ Hfz Hl) as (j & y & k & Hy & Hk & HB & Hend & Hb0 & Hbf).
  pose proof (Forall_zlookup _ _ _ _ (state_spans _ Hwf) Hx) as Hspx. pose proof (Forall_zlookup _ _ _ _ (state_spans _ Hwf) Hy) as Hspy.
  destruct (zero_string_free x n r Hspx Hn Hr ltac:(lia)) as (_ & Hrn & _). destruct Hl as [L1 L2 L3 [ty L4] L5].
  split; cbn [ld_base ld_first]; try done; [lia| |].
  - exists ty. rewrite Hst, decide_False; [done|]. intros Hin. specialize (Hwas _ Hin). congruence.
  - intros i Hi. rewrite Hst, decide_False; [apply L5; lia|]. intros Hin.
    pose proof (find_span_at _ i0 x (ld_base l + i * 2 ^ 12) Hwf Hx ltac:(lia)) as F1.
    rewrite (find_span_at _ j y (ld_base l + i * 2 ^ 12) Hwf Hy ltac:(lia)) in F1. injection F1 as -> ->.
    destruct (span_alloc_wf _ Hspy) as [Hwa Hna]. pose proof (span_pages _ Hspy).
    destruct (zero_string_first (alloc_bitmap x) n r Hwa) as [Hr1 Hr2]; [lia|lia|done|lia|].
    assert (r <= 64 * k + i < r + n) as Hin' by lia. pose proof (Z.div_mod r 64 ltac:(lia)). pose proof (Z.mod_pos_bound r 64 ltac:(lia)).
    assert (r / 64 = k) as Hrk by lia.
    assert (r <= 64 * k + ld_first l); [|lia]. apply Hr2.
    + apply landing_run; lia || done.
    + rewrite Hrk. symmetry. apply Z.div_unique with (ld_first l); lia.
    + replace ((64 * k + ld_first l) mod 64) with (ld_first l) by (apply Z.mod_unique with k; lia). lia.
Qed.

(** With a landing the search for a run succeeds. *)
Lemma pages_alloc_held fz h s n :
  held_ok fz h (alloc_st s) -> 1 <= n <= 8 ->
  completes (early_pages_alloc n) s (fun p s' => allocated_run s s' n p /\ held_ok fz (landing_after h 1) (alloc_st s'))
    (~ landing_fits h 1).
Proof.
  intros Hok Hn. pose proof (held_frozen _ _ _ Hok) as Hfz. pose proof (fo_wf _ _ Hfz) as Hwf. unfold early_pages_alloc.
  destruct (Z.ltb_spec 8 n) as [|_]; [lia|]. pose proof (pages_alloc_loop_cases s n (spans (ast s)) [] Hwf eq_refl Hn) as H0.
  unfold completes, mbind, M_bind, get_alloc_state, gets. change (zlength []) with 0 in H0.
  destruct (pages_alloc_loop _ 0 n s) as [p s'|msg| |]; try done.
  - destruct H0 as [Hrun Hfound]. split; [done|]. pose proof Hrun as (_ & _ & Hsh & Hwf' & _ & Hwas & Hst).
    assert (frozen_ok fz (alloc_st s')) as Hfz'.
    { destruct Hfz as [_ Hs Hk]. split; [done|congruence|]. intros r Hr. rewrite (Hst r.1), decide_False; [by apply Hk|].
      intros Hin. specialize (Hwas _ Hin). specialize (Hk r Hr). congruence. }
    destruct h as [l|]; [|done]. destruct Hok as [_ Hl]. split; [done|]. by apply (landing_after_run fz l s s' n p).
  - intros [?|(l & -> & Hfit)]; [done|]. destruct Hok as [_ Hl].
    destruct (landing_span fz l _ Hfz Hl) as (j & y & k & Hy & Hk & HB & Hend & Hb0 & Hbf).
    pose proof (Forall_zlookup _ _ _ _ (state_spans _ Hwf) Hy) as Hspy. destruct (span_alloc_wf _ Hspy) as [Hwa Hna].
    pose proof (span_pages _ Hspy). pose proof (Forall_zlookup _ _ _ _ H0 Hy) as Hbad. cbv beta in Hbad. destruct Hl as [_ _ L3 _ _].
    revert Hbad. apply (zero_string_found _ n k (ld_first l)); try done; try lia. apply landing_run; lia || done.
Qed.

(** A zeroed page of any kind. *)
Lemma zeroed_page_law t fz h :
  t <> EARLY_ALLOC_EPHEMERAL ->
  allocates (held_ok fz h) early_in_use (held_avail fz h) (pa ← alloc t; zero_page_m pa;; mret pa).
Proof.
  intros Hkeep s Hok Hav. pose proof (held_frozen _ _ _ Hok) as Hfz. pose proof (fo_wf _ _ Hfz) as Hwf. pose proof (held_avail_le fz h (alloc_st s)).
  apply wp_bind. eapply wp_mono; [apply alloc_ok_page; [done|lia]|].
  cbv beta. intros p s' Hp. destruct (held_alloc fz h _ _ s s' p t eq_refl eq_refl Hok Hav Hp) as [Hok' Hav'].
  destruct (allocated_page_ok _ _ _ _ Hwf Hp) as (Hpok & Hfree & Hset & [Hm Hsc] & Hwf' & Hc).
  apply wp_bind, wp_modify, wp_ret. cbn [alloc_st mem]. split; [done|]. split; [|split; [done|split; [|split; [done|]]]].
  - intros [_ (t' & _ & Ht)]. congruence.
  - intros q. unfold early_in_use. rewrite (Hset q). destruct Hpok as [_ Hal].
    destruct (decide (q / 2 ^ 12 = p / 2 ^ 12)) as [He|He].
    + pose proof (Z.div_mod q (2 ^ 12)). pose proof (Z.div_mod p (2 ^ 12)). split.
      * intros [Hq _]. left. lia.
      * intros [->|[Hq _]]; [split; [done|by eexists]|]. split; [done|by eexists].
    + split; [by right|]. intros [->|Hq]; [done|done].
  - intros q i Hq Hi. unfold entry. rewrite Hm, zero_page_load by done.
    destruct (decide (p = q)), (decide (q = p)); congruence.
Qed.

Lemma early_pagetable_law fz h : allocates (held_ok fz h) early_in_use (held_avail fz h) early_pagetable_alloc.
Proof. exact (zeroed_page_law EARLY_ALLOC_PAGETABLE fz h ltac:(done)). Qed.

(** The early allocator as the mapping code's, with a landing or without. *)
Definition held_laws (fz : frozen) (h : option landing) : AllocatorLaws early_allocators :=
  @Build_AllocatorLaws _ early_allocators (held_ok fz h) early_in_use (held_avail fz h)
    (early_pagetable_law fz h) (early_pagetable_law fz h) (early_pagetable_law fz h).

Definition early_laws (fz : frozen) : AllocatorLaws early_allocators := held_laws fz None.

(** The mapping code's invariant, with the early allocator. *)
Abbreviation held_pt_ok fz h := (pt_ok (L := held_laws fz h)).

Abbreviation early_pt_ok fz := (pt_ok (L := early_laws fz)).

Lemma held_pt_early fz h pgd s : held_pt_ok fz h pgd s -> early_pt_ok fz pgd s.
Proof. intros [Hok Htree]. split; [|done]. by apply held_frozen in Hok. Qed.

(** ** The direct map *)

Lemma vpn_direct pa : 0 <= pa < 2 ^ 47 -> vpn (phys_to_virt pa) = 2 ^ 35 + pa / 2 ^ 12.
Proof.
  intros Hpa. unfold phys_to_virt, KERNEL_DIRECT_MAP_BASE. rewrite add64_small by (unfold is_u; lia).
  unfold vpn. change 0xffff800000000000 with (34359738368 * 2 ^ 12 + (2 ^ 52 - 2 ^ 36) * 2 ^ 12).
  Z.div_mod_to_equations. lia.
Qed.

Lemma direct_page_one e u :
  direct_page [e] u <-> type e = E820_TYPE_RAM /\ 2 ^ 35 + base e / 2 ^ 12 <= u < 2 ^ 35 + (base e + size e) / 2 ^ 12.
Proof.
  split; [by intros (x & ->%list_elem_of_singleton & Hx)|]. intros Hx. exists e. by split; [apply list_elem_of_here|].
Qed.

Lemma direct_page_cons e l u : direct_page (e :: l) u <-> direct_page [e] u \/ direct_page l u.
Proof.
  split.
  - intros (x & [->|Hx]%elem_of_cons & Hr); [left; by apply direct_page_one|right; by exists x].
  - intros [Hr%direct_page_one|(x & Hx & Hr)]; [exists e|exists x]; (split; [|done]);
      [apply list_elem_of_here|by apply list_elem_of_further].
Qed.

Lemma direct_tables_nonneg l : Forall direct_entry l -> 0 <= direct_tables l.
Proof.
  induction 1 as [|x l Hx _ IH]; cbn [direct_tables]; [lia|].
  destruct (Z.eqb_spec (type x) E820_TYPE_RAM) as [Ht|]; [|lia].
  destruct (Hx Ht) as (_ & H1 & _ & _ & H4). apply Z.div_exact in H4; [|lia].
  pose proof (tables_below_nonneg 3 (2 ^ 35 + base x / 2 ^ 12) (size x / 2 ^ 12)). lia.
Qed.

Lemma direct_page_range l u : Forall direct_entry l -> direct_page l u -> 0 <= u < 2 ^ 36.
Proof.
  intros Hl (x & Hx & Ht & Hu). destruct (proj1 (Forall_forall _ _) Hl x Hx Ht) as (H0 & H1 & H2 & _).
  assert (0 <= base x / 2 ^ 12) by (apply Z.div_pos; lia).
  assert ((base x + size x) / 2 ^ 12 <= 2 ^ 35) by (apply Z.div_le_upper_bound; lia). lia.
Qed.

Lemma map_direct_loop_ok fz h l : forall pgd (s : machine early_mem),
  held_pt_ok fz h pgd s -> Forall direct_entry l -> StronglySorted separated l ->
  (forall u, direct_page l u -> walk (mem s) pgd u = None) -> direct_tables l <= held_avail fz h (alloc_st s) ->
  wp (map_direct_loop l pgd) s (fun _ s' => held_pt_ok fz h pgd s' /\
    held_avail fz h (alloc_st s) - direct_tables l <= held_avail fz h (alloc_st s') /\
    forall u, 0 <= u < 2 ^ 36 ->
      (direct_page l u -> translate (mem s') pgd u = Some (u - 2 ^ 35, map_flags_to_page_flags MAP_KERNEL)) /\
      (~ direct_page l u -> walk (mem s') pgd u = walk (mem s) pgd u)).
Proof.
  induction l as [|e l IH]; intros pgd s Hok Hent Hsep Hun Hbud; cbn [map_direct_loop direct_tables].
  { apply wp_ret. split; [done|]. split; [lia|]. intros u Hu. split; [|done]. intros (e & He%elem_of_nil & _). done. }
  apply Forall_cons in Hent as [He Hent]. apply StronglySorted_cons in Hsep as [Hel Hsep]. cbn [direct_tables] in Hbud.
  pose proof (direct_page_cons e l) as Hcons.
  assert (forall u, direct_page [e] u <-> type e = E820_TYPE_RAM /\
    2 ^ 35 + base e / 2 ^ 12 <= u < 2 ^ 35 + (base e + size e) / 2 ^ 12) as Hone by (intros u; apply direct_page_one).
  destruct (Z.eqb_spec (type e) E820_TYPE_RAM) as [Ht|Ht]; simpl negb; cbv iota.
  2:{ eapply wp_mono; [apply (IH pgd s); try done; intros u Hu; apply Hun, Hcons; by right|]. cbv beta. intros _ s' (Hok' & Hleft & Hw). split; [done|]. split; [lia|].
      intros u Hu. destruct (Hw u Hu) as [Hw1 Hw2]. rewrite Hcons, Hone. tauto. }
  destruct (He Ht) as (H0 & H1 & H2 & H3 & H4). apply Z.div_exact in H4; [|lia].
  set (n := size e / 2 ^ 12) in *. assert (bytes_to_pages (size e) = n) as Hn.
  { rewrite H4, Z.mul_comm. apply bytes_to_pages_mul. lia. }
  assert ((base e + size e) / 2 ^ 12 = base e / 2 ^ 12 + n) as Hstop by (rewrite H4, Z.mul_comm, Z.div_add by lia; lia).
  rewrite Hn. apply wp_bind. pose proof (vpn_direct (base e) ltac:(lia)) as Hv.
  assert (0 <= base e / 2 ^ 12) by (apply Z.div_pos; lia). assert (base e / 2 ^ 12 + n <= 2 ^ 35).
  { rewrite <- Hstop. apply Z.div_le_upper_bound; lia. }
  assert (forall u, direct_page l u -> ~ (2 ^ 35 + base e / 2 ^ 12 <= u < 2 ^ 35 + base e / 2 ^ 12 + n)) as Hdis.
  { intros u (x & Hx & Htx & Hux) Hu. pose proof (proj1 (Forall_forall _ _) Hel x Hx) as [Hs _]. unfold stop in Hs.
    pose proof (Z.div_le_mono (base e + size e) (base x) (2 ^ 12) ltac:(lia) Hs). lia. }
  pose proof (direct_tables_nonneg l Hent) as Hnn.
  eapply wp_mono; [apply (map_page_range_ok (L := held_laws fz h) pgd s (phys_to_virt (base e)) (base e) n MAP_KERNEL)|];
    rewrite ?Hv; try done; try lia.
  - apply is_u64_u64.
  - unfold in_range. lia.
  - intros u Hu. left. apply Hun, Hcons. left. apply Hone. split; [done|]. lia.
  - change (pages_left s) with (held_avail fz h (alloc_st s)). lia.
  - cbv beta. intros r s1 (st' & _ & [_ _ _ Hok1 _ Hm _ Hb1]).
    change (pages_left s) with (held_avail fz h (alloc_st s)) in Hb1. change (pages_left s1) with (held_avail fz h (alloc_st s1)) in Hb1.
    eapply wp_mono; [apply (IH pgd s1 Hok1 Hent Hsep); [|lia]|].
    + intros u Hu. specialize (Hm u (direct_page_range l u Hent Hu)). rewrite decide_False in Hm by by apply Hdis. rewrite Hm. apply Hun, Hcons. by right.
    + cbv beta. intros _ s2 (Hok2 & Hleft & Hw). split; [done|]. split; [lia|]. intros u Hu. destruct (Hw u Hu) as [Hw1 Hw2]. specialize (Hm u Hu).
      rewrite Hcons, Hone. simpl in Hm. destruct (decide _) as [Hin|Hout] in Hm.
      * split; [|intros Hn'; exfalso; apply Hn'; left; lia]. intros _.
        assert (walk (mem s2) pgd u = walk (mem s1) pgd u) as Hs2 by (apply Hw2; intros Hd; by apply (Hdis u Hd)).
        unfold translate in *. rewrite Hs2. rewrite (Hun u) in Hm by (apply Hcons; left; apply Hone; lia). rewrite Hm. do 2 f_equal. lia.
      * split; [intros [[_ Hin]|Hd]; [lia|by apply Hw1]|]. intros Hn'. rewrite Hw2 by tauto. done.
Qed.

(** A fresh table page is an empty address space. *)
Lemma early_alloc_pgd_ok fz h s :
  held_ok fz h (alloc_st s) -> 0 < held_avail fz h (alloc_st s) ->
  wp early_alloc_pgd s (fun pgd s' =>
    held_pt_ok fz h pgd s' /\ (forall v, walk (mem s') pgd v = None) /\
    held_avail fz h (alloc_st s') = held_avail fz h (alloc_st s) - 1).
Proof.
  intros Hfz Hfree. eapply wp_mono; [by apply (early_pagetable_law fz h)|]. cbv beta.
  intros p s' (Hp & _ & Hwf' & HU & Hav & Hm).
  assert (forall i, 0 <= i < 512 -> entry (mem s') p i = 0) as Hz by (intros i Hi; rewrite Hm by done; by rewrite decide_True).
  assert (forall k t q, table_id k t -> table (mem s') p k t = Some q -> k = O /\ q = p) as Htab.
  { intros k. induction k as [|k IH]; intros t q Hid; [by intros [= <-]|]. simpl.
    destruct (table (mem s') p k (t / 512)) as [q'|] eqn:Hq'; [|done]. apply IH in Hq' as [-> ->]; [|by apply table_id_parent].
    simpl. rewrite Hz by apply index_range. done. }
  split; [|split; [|done]].
  - split; [done|]. split.
    + intros k t q Hid [_ ->]%Htab; [|done]. split; [done|]. apply HU. by left.
    + intros k t k' t' q Hid Hid' [-> ->]%Htab [-> _]%Htab; [|done..]. split; [done|].
      destruct Hid as [_ Ht], Hid' as [_ Ht']. unfold W in *. simpl in *. lia.
  - intros v. unfold walk. cbn [walk_from]. by rewrite Hz by apply index_range.
Qed.

Lemma clear_bitmap_wf : bitmap_wf (mk_bitmap 96 2 [0; 0]) /\ forall i, bit_at (mk_bitmap 96 2 [0; 0]) i = false.
Proof.
  destruct (bitmap_init_spec (mk_bitmap 0 0 [0; 0]) 96) as (b & Hb & Hwf & _ & Hat); [by vm_compute|by vm_compute|].
  vm_compute in Hb. injection Hb as <-. done.
Qed.

Lemma sample_machine_wf : state_wf (ast sample_machine) /\ spans_sorted (ast sample_machine) /\ free_pages (ast sample_machine) = 96.
Proof.
  destruct clear_bitmap_wf as [Hb Hz].
  assert (count_bits (mk_bitmap 96 2 [0; 0]) = 0) as Hc by (apply count_true_none; intros i _; apply Hz).
  assert (span_wf sample_span) as Hs.
  { split; simpl; try done. intros i Hi. rewrite (proj2 (page_kind_free sample_span i)) by apply Hz.
    by rewrite Hz. }
  assert (forall i a, zlookup [sample_span] i = Some a -> i = 0) as H0.
  { intros i a Hi. assert (is_Some (zlookup [sample_span] i)) as Hr by eauto. apply zlookup_is_Some in Hr.
    unfold zlength in Hr. simpl in Hr. lia. }
  split; [|split; [|by vm_compute]].
  - split; simpl; rewrite ?Hc; try done; [by apply Forall_singleton|].
    intros i j a b Hij Hi%H0 Hj%H0. lia.
  - intros i j a b Hij Hi%H0 Hj%H0. lia.
Qed.

(** ** Properties *)

(** C23: the early allocator hands out free pages, lowest first. From a
    well-formed state [alloc] returns a page-aligned address inside a span that
    was free and now has the type asked for, changes no other page, no memory and
    no scratch state, keeps every counter equal to the bits it counts, and with
    spans in memory order returns the lowest free page; it panics only when no
    page is free. *)
Theorem early_alloc_correct s t :
  state_wf (ast s) ->
  match alloc t s with
  | Done p s' =>
      page_ok p /\ status (ast s) p = Some None /\ status_set (ast s) (ast s') p (Some t) /\
      alloc_only s s' /\ state_wf (ast s') /\ free_pages (ast s') = free_pages (ast s) - 1 /\
      (spans_sorted (ast s) -> forall q, status (ast s) q = Some None -> p <= q)
  | Panic _ => free_pages (ast s) = 0
  | _ => False
  end.
Proof.
  intros Hwf. pose proof (state_counters _ Hwf) as (Hc & _).
  destruct (decide (free_pages (ast s) = 0)) as [Hz|Hz].
  - by destruct (alloc_full s t Hwf Hz) as [msg ->].
  - destruct (wp_done _ _ _ (alloc_ok_page s t Hwf ltac:(unfold free_pages in *; lia))) as (p & s' & -> & Hp).
    destruct (allocated_page_ok _ _ _ _ Hwf Hp) as (H1 & H2 & H3 & H4 & H5 & H6).
    repeat (split; [done|]). intros Hsort q. by apply (allocated_page_lowest s s' t).
Qed.

Lemma early_alloc_correct_witness :
  exists p s', alloc EARLY_ALLOC_PAGETABLE sample_machine = Done p s' /\ state_wf (ast s') /\
    status (ast s') p = Some (Some EARLY_ALLOC_PAGETABLE).
Proof.
  pose proof (early_alloc_correct sample_machine EARLY_ALLOC_PAGETABLE (proj1 sample_machine_wf)) as H.
  destruct (alloc EARLY_ALLOC_PAGETABLE sample_machine) as [p s'|msg| |]; [| |done|done].
  - destruct H as (_ & _ & Hset & _ & Hwf & _). exists p, s'. split; [done|]. split; [done|].
    rewrite (Hset p). by rewrite decide_True.
  - destruct sample_machine_wf as (_ & _ & Hf). rewrite Hf in H. discriminate H.
Defined.

(** C24: allocating at an address and freeing follow the page's status in every
    case: [alloc_at] succeeds exactly on a free page of a span and panics on an
    allocated page or an address in no span; [early_page_free] succeeds exactly
    on an allocated page; each changes the status of that page only and keeps the
    state well-formed; and freeing what [alloc_at] took gives every page its
    status back. *)
Theorem early_alloc_at_free s pa t :
  state_wf (ast s) ->
  match status (ast s) pa with
  | Some None =>
      wp (alloc_at pa t) s (fun _ s1 => alloc_only s s1 /\ state_wf (ast s1) /\ status_set (ast s) (ast s1) pa (Some t) /\
        wp (early_page_free pa) s1 (fun _ s2 => state_wf (ast s2) /\ forall q, status (ast s2) q = status (ast s) q)) /\
      exists msg, early_page_free pa s = Panic msg
  | Some (Some _) =>
      wp (early_page_free pa) s (fun _ s1 => alloc_only s s1 /\ state_wf (ast s1) /\ status_set (ast s) (ast s1) pa None) /\
      exists msg, alloc_at pa t s = Panic msg
  | None => (exists msg, alloc_at pa t s = Panic msg) /\ exists msg, early_page_free pa s = Panic msg
  end.
Proof.
  intros Hwf. destruct (status (ast s) pa) as [[k|]|] eqn:Hst.
  - split; [|apply alloc_at_panics; congruence]. eapply wp_mono; [by eapply early_page_free_ok|]. naive_solver.
  - split; [|apply early_page_free_panics; congruence].
    eapply wp_mono; [by apply alloc_at_ok|]. cbv beta. intros _ s1 (Ho & Hwf1 & Hs1 & _). repeat (split; [done|]).
    eapply wp_mono; [apply (early_page_free_ok s1 pa t Hwf1); rewrite (Hs1 pa); by rewrite decide_True|].
    cbv beta. intros _ s2 (_ & Hwf2 & Hs2 & _). split; [done|]. intros q. rewrite (Hs2 q), (Hs1 q).
    case_decide as Hd; [|done]. by rewrite (status_page _ pa q Hwf Hd), Hst.
  - split; [apply alloc_at_panics|apply early_page_free_panics]; congruence.
Qed.

Lemma early_alloc_at_free_witness :
  status (ast sample_machine) 0x120123 = Some None /\
  wp (alloc_at 0x120123 EARLY_ALLOC_EPHEMERAL) sample_machine (fun _ s1 =>
    status (ast s1) 0x120000 = Some (Some EARLY_ALLOC_EPHEMERAL)).
Proof.
  assert (status (ast sample_machine) 0x120123 = Some None) as Hst by by vm_compute. split; [done|].
  pose proof (early_alloc_at_free sample_machine 0x120123 EARLY_ALLOC_EPHEMERAL (proj1 sample_machine_wf)) as H.
  rewrite Hst in H. eapply wp_mono; [apply H|]. cbv beta. intros _ s1 (_ & _ & Hset & _). rewrite (Hset 0x120000).
  by rewrite decide_True by by vm_compute.
Defined.

(** C39: [early_pages_alloc] for 1 to 8 pages returns contiguous pages that were
    all free, marks exactly them as normal pages and keeps the state well-formed;
    it panics only when the bitmap search finds no run in any span. More than 8
    pages, the size in bytes of a [uint64_t], always panic. *)
Theorem early_pages_alloc_contiguous s n :
  state_wf (ast s) -> 1 <= n ->
  match early_pages_alloc n s with
  | Done p s' => n <= 8 /\ allocated_run s s' n p
  | Panic _ => 8 < n \/
      Forall (fun a => bitmap_zero_string_longer_than (alloc_bitmap a) n = Some (-1)) (spans (ast s))
  | _ => False
  end.
Proof.
  intros Hwf Hn. unfold early_pages_alloc. destruct (Z.ltb_spec 8 n); [by left|].
  pose proof (pages_alloc_loop_cases s n (spans (ast s)) [] Hwf eq_refl ltac:(lia)) as H0.
  unfold mbind, M_bind, get_alloc_state, gets. change (zlength []) with 0 in H0.
  destruct (pages_alloc_loop _ 0 n s); try done; [by destruct H0|by right].
Qed.

Lemma sample_taken :
  match alloc_at 0x100000 EARLY_ALLOC_NORMAL sample_machine with
  | Done _ s1 => (free_pages (ast s1) =? 95) &&
      match spans (ast s1) with
      | a :: _ => match bitmap_zero_string_longer_than (alloc_bitmap a) 4 with Some r => 0 <=? r | None => false end
      | [] => false
      end
  | _ => false
  end = true.
Proof. by vm_compute. Qed.

(** With the first page of the span taken four pages are found; with none taken the
    search finds nothing and the code panics. *)
Lemma early_pages_alloc_contiguous_witness :
  wp (alloc_at 0x100000 EARLY_ALLOC_NORMAL;; early_pages_alloc 4) sample_machine (fun p s' =>
    p mod 2 ^ 12 = 0 /\ state_wf (ast s') /\ free_pages (ast s') = 91 /\
    forall q, p <= q < p + 4 * 2 ^ 12 -> status (ast s') q = Some (Some EARLY_ALLOC_NORMAL)) /\
  exists msg, early_pages_alloc 4 sample_machine = Panic msg /\
    bitmap_zero_string_longer_than (alloc_bitmap sample_span) 4 = Some (-1).
Proof.
  destruct sample_machine_wf as (Hwf & _ & Hfree). split.
  - assert (status (ast sample_machine) 0x100000 = Some None) as Hst by by vm_compute. apply wp_bind.
    pose proof (alloc_at_ok sample_machine 0x100000 EARLY_ALLOC_NORMAL Hwf Hst) as Hal. pose proof sample_taken as Hb.
    unfold wp at 1 in Hal. unfold wp at 1. destruct (alloc_at _ _ _) as [[] s1| | |]; try done.
    destruct Hal as (_ & Hwf1 & _). apply andb_true_iff in Hb as [Hf1 Hrun]. apply Z.eqb_eq in Hf1.
    pose proof (early_pages_alloc_contiguous s1 4 Hwf1 ltac:(lia)) as H.
    unfold wp. destruct (early_pages_alloc 4 s1) as [p s'|msg| |]; try done.
    + destruct H as (_ & [_ Hp] & _ & _ & Hwf2 & Hf2 & _ & Hset). split; [done|]. split; [done|]. split; [lia|].
      intros q Hq. rewrite Hset. by rewrite decide_True.
    + destruct H as [H|H]; [lia|]. destruct (spans (ast s1)) as [|a l]; [done|]. apply Forall_cons in H as [H _]. by rewrite H in Hrun.
  - pose proof (early_pages_alloc_contiguous sample_machine 4 Hwf ltac:(lia)) as H.
    destruct (early_pages_alloc 4 sample_machine) as [p s'|msg| |] eqn:He; [|exists msg; split; [done|]|done|done].
    + vm_compute in He. discriminate He.
    + destruct H as [H|H]; [lia|]. by apply Forall_cons in H as [H _].
Defined.

(** C22: the direct map. A new PGD from the early allocator, followed by
    [early_map_direct] over a sorted, page-aligned memory map below 2^47 bytes
    and enough free pages for the tables: both return, and in the address space
    that results the direct-map address of every page of RAM translates to that
    page with kernel flags, and no other address is mapped. *)
Theorem early_direct_map_correct info s :
  state_wf (ast s) -> Forall direct_entry (entries info) -> StronglySorted separated (entries info) ->
  direct_tables (entries info) < free_pages (ast s) ->
  wp (pgd ← early_alloc_pgd; early_map_direct info pgd;; mret pgd) s (fun pgd s' =>
    state_wf (ast s') /\ forall u, 0 <= u < 2 ^ 36 ->
      (direct_page (entries info) u ->
         translate (mem s') pgd u = Some (u - 2 ^ 35, map_flags_to_page_flags MAP_KERNEL)) /\
      (~ direct_page (entries info) u -> walk (mem s') pgd u = None)).
Proof.
  intros Hwf Hent Hsep Hfree. pose proof (direct_tables_nonneg _ Hent). apply wp_bind.
  eapply wp_mono; [apply (early_alloc_pgd_ok (spans_only (ast s)) None); [by apply spans_only_ok|simpl; lia]|]. cbv beta. cbn [held_avail]. intros pgd s1 (Hok & Hempty & Hleft). apply wp_bind.
  eapply wp_mono; [apply (map_direct_loop_ok _ None _ pgd s1 Hok Hent Hsep); [intros u _; apply Hempty|]|].
  - simpl. lia.
  - cbv beta. intros _ s2 ([[Hwf2 _ _] _] & _ & Hw). apply wp_ret. split; [done|]. intros u Hu. destruct (Hw u Hu) as [Hw1 Hw2].
    split; [done|]. intros Hn. by rewrite Hw2.
Qed.

Lemma early_direct_map_correct_witness :
  wp (pgd ← early_alloc_pgd; early_map_direct (mk_info 0 0 0 0 1 [mk_entry 0x200000 0x203000 1]) pgd;; mret pgd)
    sample_machine (fun pgd s' => translate (mem s') pgd (2 ^ 35 + 0x400) = Some (0x400, map_flags_to_page_flags MAP_KERNEL)).
Proof.
  eapply wp_mono.
  - apply (early_direct_map_correct (mk_info 0 0 0 0 1 [mk_entry 0x200000 0x203000 1]) sample_machine (proj1 sample_machine_wf)).
    + apply Forall_singleton. intros _. by vm_compute.
    + by repeat constructor.
    + destruct sample_machine_wf as (_ & _ & ->). by vm_compute.
  - cbv beta. intros pgd s' [_ Hw]. apply (Hw (2 ^ 35 + 0x400)); [lia|].
    exists (mk_entry 0x200000 0x203000 1). split; [apply list_elem_of_here|]. split; [done|]. by vm_compute.
Defined.
