(* ===== verification/EarlyInit.v ===== *)
(** * Starting the early allocator (early/mem.c)

    [early_page_alloc_init] builds the spans and their bitmaps in scratch memory
    and reserves the pages in use at boot. The proofs reach the first state the
    theorems of [EarlyAlloc] start from. The operations are those of
    [EarlyAlloc]; a computation that reserves pages is described by the list of
    the pages with their types. *)

From stdpp Require Import base strings numbers gmap list sets sorting.
From Stdlib Require Import ZArith Lia.
From S2P Require Import Prelude Macros MmDefs Bitmap Range E820 Page PageMap EarlyAlloc.

(** ** Specification: reservations *)

(** A page of memory and the type it gets. *)
Abbreviation reservation := (Z * early_alloc_type)%type.

Definition same_page (q p : Z) : Prop := q / 2 ^ 12 = p / 2 ^ 12.

#[global] Instance same_page_dec q p : Decision (same_page q p).
Proof. unfold same_page. apply _. Defined.

(** The pages of [rs], and only they, went from free to their types. *)
Record reserved (s s' : machine early_mem) (rs : list reservation) : Prop := {
  rv_wf : state_wf (ast s');
  rv_only : alloc_only s s';
  rv_shape : shape (ast s') = shape (ast s);
  rv_in : forall r q, r ∈ rs -> same_page q r.1 -> status (ast s') q = Some (Some r.2);
  rv_out : forall q, (forall r, r ∈ rs -> ~ same_page q r.1) -> status (ast s') q = status (ast s) q;
  rv_count : num_allocated_pages (ast s') = num_allocated_pages (ast s) + zlength rs;
}.

(** The pages of [rs] are free and apart. *)
Definition reservable (s : machine early_mem) (rs : list reservation) : Prop :=
  (forall r, r ∈ rs -> status (ast s) r.1 = Some None) /\ NoDup ((fun r => r.1 / 2 ^ 12) <$> rs).

(** [m] reserves [rs] whenever it can be done. *)
Definition reserves (m : EM unit) (rs : list reservation) : Prop :=
  forall s, state_wf (ast s) -> reservable s rs -> wp m s (fun _ s' => reserved s s' rs).

(** [n] pages from [pa], upwards or downwards. *)
Definition run_up (t : early_alloc_type) (pa n : Z) : list reservation := (fun i => (pa + 4096 * i, t)) <$> seqZ 0 n.

Definition run_down (t : early_alloc_type) (pa n : Z) : list reservation := (fun i => (pa - 4096 * i, t)) <$> seqZ 0 n.

(** The pages of the kernel's image. *)
Definition elf_pages (info : early_boot_info) : Z := bytes_to_pages (kernel_elf_size_bytes info).

(** What [early_page_alloc_init] reserves: the scratch pages used, the boot
    stack, the boot information, the kernel's image, the boot page tables and
    the video buffer. *)
Definition boot_reservations (info : early_boot_info) (first n : Z) : list reservation :=
  run_up EARLY_ALLOC_EPHEMERAL first n ++
  run_down EARLY_ALLOC_NORMAL KERNEL_STACK_ADDRESS_PHYS KERNEL_STACK_PAGES ++
  [(virt_ptr_to_phys EARLY_BOOT_INFO_ADDRESS, EARLY_ALLOC_NORMAL)] ++
  run_up EARLY_ALLOC_NORMAL KERNEL_ELF_ADDRESS_PHYS (elf_pages info) ++
  [(X86_EARLY_PGD, EARLY_ALLOC_EPHEMERAL); (X86_EARLY_PUD_DIRECT_MAP, EARLY_ALLOC_EPHEMERAL);
   (X86_EARLY_PUD_KERNEL_ELF, EARLY_ALLOC_EPHEMERAL); (X86_EARLY_VIDEO_BUFFER_ADDRESS_PHYS, EARLY_ALLOC_NORMAL);
   (X86_EARLY_VIDEO_BUFFER_ADDRESS_PHYS + 0x1000, EARLY_ALLOC_NORMAL)].

(** ** Reserving pages *)

Lemma reserved_nil s : state_wf (ast s) -> reserved s s [].
Proof.
  intros Hwf. split; try done.
  - intros r q Hr. by apply elem_of_nil in Hr.
  - unfold zlength. simpl. lia.
Qed.

Lemma elem_of_pages r (rs : list reservation) : r ∈ rs -> r.1 / 2 ^ 12 ∈ (fun r => r.1 / 2 ^ 12) <$> rs.
Proof. intros Hr. apply list_elem_of_fmap. by exists r. Qed.

Lemma reserved_app s s1 s2 r1 r2 :
  reserved s s1 r1 -> reserved s1 s2 r2 -> NoDup ((fun r => r.1 / 2 ^ 12) <$> r1 ++ r2) -> reserved s s2 (r1 ++ r2).
Proof.
  intros [A1 [A2 A2'] A3 A4 A5 A6] [B1 [B2 B2'] B3 B4 B5 B6] Hnd. rewrite fmap_app in Hnd. apply NoDup_app in Hnd as (_ & Hd & _). split.
  - done.
  - split; congruence.
  - congruence.
  - intros r q [Hr|Hr]%elem_of_app Hq; [|by apply B4]. rewrite B5; [by apply A4|]. intros r' Hr' Hq'.
    apply (Hd (r.1 / 2 ^ 12)); [by apply elem_of_pages|]. apply elem_of_pages in Hr'. unfold same_page in *. by rewrite <- Hq, Hq'.
  - intros q Hq. rewrite B5, A5; [done|..]; intros r Hr; apply Hq, elem_of_app; tauto.
  - rewrite zlength_app. lia.
Qed.

Lemma reserves_seq m1 m2 r1 r2 : reserves m1 r1 -> reserves m2 r2 -> reserves (m1;; m2) (r1 ++ r2).
Proof.
  intros H1 H2 s Hwf [Hfree Hnd]. pose proof Hnd as Hnd0. rewrite fmap_app in Hnd0. apply NoDup_app in Hnd0 as (Hn1 & Hd & Hn2).
  apply wp_bind. eapply wp_mono; [apply H1; [done|]|].
  - split; [|done]. intros r Hr. apply Hfree, elem_of_app. by left.
  - cbv beta. intros ? s1 Hs1. eapply wp_mono; [apply H2; [apply Hs1|]|].
    + split; [|done]. intros r Hr. rewrite (rv_out _ _ _ Hs1); [apply Hfree, elem_of_app; by right|].
      intros r' Hr' E. apply (Hd (r'.1 / 2 ^ 12)); [by apply elem_of_pages|]. rewrite <- E. by apply elem_of_pages.
    + cbv beta. intros ? s2 Hs2. by eapply reserved_app.
Qed.

Lemma reserves_at pa t : reserves (alloc_at pa t) [(pa, t)].
Proof.
  intros s Hwf [Hfree _]. eapply wp_mono; [apply alloc_at_ok; [done|apply (Hfree (pa, t)), list_elem_of_here]|].
  cbv beta. intros ? s' (H1 & H2 & H3 & H4 & H5). split; try done.
  - intros r q ->%list_elem_of_singleton Hq. rewrite (H3 q). by apply decide_True.
  - intros q Hq. rewrite (H3 q). apply decide_False. apply (Hq (pa, t)), list_elem_of_here.
Qed.

Lemma reserves_run n reserve next t (at_ : Z -> Z) :
  (forall pa, reserve pa = alloc_at pa t) -> forall i, (forall j, i <= j < i + Z.of_nat n -> next (at_ j) = at_ (j + 1)) ->
  reserves (reserve_pages n reserve next (at_ i)) ((fun j => (at_ j, t)) <$> seqZ i (Z.of_nat n)).
Proof.
  intros Hres. induction n as [|n IH]; intros i Hnext; cbn [reserve_pages].
  - intros s Hwf _. apply wp_ret. by apply reserved_nil.
  - replace (Z.of_nat (S n)) with (1 + Z.of_nat n) by lia. rewrite seqZ_app by lia. rewrite fmap_app.
    rewrite Hres, Hnext by lia. apply (reserves_seq _ _ [(at_ i, t)]); [apply reserves_at|].
    apply IH. intros j Hj. apply Hnext. lia.
Qed.

Lemma phys_page_step pa : pa mod 4096 = 0 -> 0 <= pa < 2 ^ 62 -> phys_next_page pa = pa + 4096 /\ (4096 <= pa -> phys_prev_page pa = pa - 4096).
Proof.
  intros Hal Hpa. unfold phys_next_page, phys_prev_page, pfn_to_phys, phys_to_pfn, PAGE_SHIFT. rewrite Z.shiftr_div_pow2 by lia.
  change (2 ^ 12) with 4096. pose proof (Z.div_mod pa 4096 ltac:(lia)) as E. rewrite Hal in E. set (k := pa / 4096) in *. split.
  - rewrite add64_small by (unfold is_u; lia). unfold shl64. rewrite Z.shiftl_mul_pow2, u64_small by (unfold is_u; lia). lia.
  - intros Hge. rewrite sub64_small by (unfold is_u; lia). unfold shl64. rewrite Z.shiftl_mul_pow2, u64_small by (unfold is_u; lia). lia.
Qed.

Lemma reserves_up n t reserve pa :
  (forall pa, reserve pa = alloc_at pa t) -> pa mod 4096 = 0 -> 0 <= pa -> 0 <= n -> pa + 4096 * n < 2 ^ 62 ->
  reserves (reserve_pages (Z.to_nat n) reserve phys_next_page pa) (run_up t pa n).
Proof.
  intros Hres Hal H0 Hn Hmax. pose proof (reserves_run (Z.to_nat n) reserve phys_next_page t (fun j => pa + 4096 * j) Hres 0) as H.
  cbv beta in H. rewrite Z.mul_0_r, Z.add_0_r, Z2Nat.id in H by done. apply H. intros j Hj.
  destruct (phys_page_step (pa + 4096 * j)) as [-> _]; [|lia|lia]. rewrite Z.mul_comm, Z.mod_add by lia. done.
Qed.

Lemma reserves_down n t reserve pa :
  (forall pa, reserve pa = alloc_at pa t) -> pa mod 4096 = 0 -> 0 <= n -> 4096 * n <= pa -> pa < 2 ^ 62 ->
  reserves (reserve_pages (Z.to_nat n) reserve phys_prev_page pa) (run_down t pa n).
Proof.
  intros Hres Hal Hn H0 Hmax. pose proof (reserves_run (Z.to_nat n) reserve phys_prev_page t (fun j => pa - 4096 * j) Hres 0) as H.
  cbv beta in H. rewrite Z.mul_0_r, Z.sub_0_r, Z2Nat.id in H by done. apply H. intros j Hj.
  destruct (phys_page_step (pa - 4096 * j)) as [_ E]; [|lia|rewrite E; lia].
  replace (pa - 4096 * j) with (pa + (- j) * 4096) by lia. by rewrite Z.mod_add.
Qed.

Lemma alloc_init_pages_ok info first n :
  first mod 4096 = 0 -> 0 <= first < 2 ^ 47 -> 0 <= n < 2 ^ 31 -> 0 <= elf_pages info < 2 ^ 31 ->
  reserves (alloc_init_pages info first n) (boot_reservations info first n).
Proof.
  intros Hal Hf Hn He. unfold alloc_init_pages, boot_reservations.
  assert (i32 n = n /\ i32 (bytes_to_pages (kernel_elf_size_bytes info)) = elf_pages info) as [-> ->].
  { fold (elf_pages info). split; apply i32_small; lia. }
  apply reserves_seq; [apply reserves_up; done || lia|].
  apply reserves_seq; [by apply reserves_down|].
  apply reserves_seq; [apply reserves_at|].
  apply reserves_seq; [apply reserves_up; done || (change KERNEL_ELF_ADDRESS_PHYS with 0x1000000; lia)|].
  do 4 (match goal with |- reserves _ (?r :: ?l) => change (r :: l) with ([r] ++ l) end; apply reserves_seq; [apply reserves_at|]).
  apply reserves_at.
Qed.

(** ** The scratch allocator *)

Abbreviation scr s := (scratch_state (alloc_st s)).

(** [n] scratch pages were taken. *)
Definition scratch_taken (s s' : machine early_mem) (n : Z) : Prop :=
  scratch_start (scr s') = scratch_start (scr s) /\ scratch_pages (scr s') = scratch_pages (scr s) + n /\ ast s' = ast s.

Lemma scratch_taken_trans s s1 s2 n m : scratch_taken s s1 n -> scratch_taken s1 s2 m -> scratch_taken s s2 (n + m).
Proof. intros (A1 & A2 & A3) (B1 & B2 & B3). split; [congruence|]. split; [lia|congruence]. Qed.

(** Scratch memory that is in range, with [n] pages left. *)
Definition scratch_has (s : machine early_mem) (n : Z) : Prop :=
  0 <= scratch_start (scr s) < 2 ^ 46 /\ 0 <= scratch_pages (scr s) /\ scratch_pages (scr s) + n <= EARLY_MAX_SCRATCH_PAGES.

Lemma scratch_has_taken s s' n m : scratch_has s (n + m) -> scratch_taken s s' n -> 0 <= n -> scratch_has s' m.
Proof. unfold scratch_has. intros (H1 & H2 & H3) (-> & -> & _) Hn. split; [done|]. lia. Qed.

Lemma scratch_has_le s n m : scratch_has s n -> m <= n -> scratch_has s m.
Proof. unfold scratch_has. lia. Qed.

Lemma scratch_page_ok s :
  scratch_has s 1 ->
  wp early_scratch_page_alloc s (fun a s' => a = scratch_start (scr s) + 4096 * scratch_pages (scr s) /\ scratch_taken s s' 1).
Proof.
  intros (H1 & H2 & H3). unfold early_scratch_page_alloc. apply wp_bind, wp_gets.
  destruct (Z.leb_spec EARLY_MAX_SCRATCH_PAGES (scratch_pages (scr s))); [lia|]. unfold EARLY_MAX_SCRATCH_PAGES in *.
  apply wp_bind, wp_modify, wp_bind, wp_modify, wp_ret. change PAGE_SIZE with 4096. unfold mul64.
  rewrite (u64_small (4096 * _)) by (unfold is_u; lia). rewrite add64_small by (unfold is_u; lia). split; [done|].
  unfold scratch_taken. cbn [alloc_st scratch_state scratch_start scratch_pages alloc_state].
  by rewrite add64_small by (unfold is_u; lia).
Qed.

Lemma scratch_run_ok s n :
  1 <= n -> scratch_has s n -> wp (scratch_run n) s (fun _ s' => scratch_taken s s' n).
Proof.
  intros Hn Hs. unfold scratch_run. pose proof Hs as (_ & H0 & Hmax). unfold EARLY_MAX_SCRATCH_PAGES in Hmax.
  rewrite i32_small by lia. apply wp_bind. eapply wp_mono; [apply scratch_page_ok; apply (scratch_has_le s n); [done|lia]|].
  cbv beta. intros ? s1 [_ H1]. assert (scratch_has s1 (n - 1)) as Hs1.
  { eapply scratch_has_taken; [|exact H1|lia]. by replace (1 + (n - 1)) with n by lia. }
  apply wp_bind. pose proof (wp_for_loop (fun k s' => scratch_taken s1 s' (Z.of_nat k)) (Z.to_nat (n - 1)) 1
    (fun _ => early_scratch_page_alloc;; mret tt) s1) as Hloop. cbv beta in Hloop.
  eapply wp_mono; [apply Hloop|]; clear Hloop.
  - split; [done|]. split; [lia|done].
  - intros k s2 Hk H2. apply wp_bind. eapply wp_mono; [apply scratch_page_ok|].
    + eapply scratch_has_taken; [|exact H2|lia]. eapply scratch_has_le; [exact Hs1|lia].
    + cbv beta. intros ? s3 [_ H3]. apply wp_ret. replace (Z.of_nat (S k)) with (Z.of_nat k + 1) by lia. by eapply scratch_taken_trans.
  - cbv beta. intros ? s2 H2. apply wp_ret. replace n with (1 + Z.of_nat (Z.to_nat (n - 1))) by lia. by eapply scratch_taken_trans.
Qed.

(** ** The spans *)

(** The scratch pages each bitmap of a span of [n] pages takes. *)
Definition bitmap_pages (n : Z) : Z := (8 + 8 * ((n + 63) / 64) + 4095) / 4096.

(** A new span, nothing in it allocated. *)
Record fresh_span (first n : Z) (span : early_page_alloc_span) : Prop := {
  fs_start : start span = first;
  fs_pages : num_pages span = n;
  fs_count : span_allocated span = 0;
  fs_bitmaps : Forall (fun b => bitmap_wf b /\ num_bits b = n /\ forall i, bit_at b i = false)
    [alloc_bitmap span; ephemeral_bitmap span; pagetable_bitmap span; physblock_bitmap span];
}.

Lemma bitmap_pages_spec n : 0 <= n <= 2 ^ 31 - 64 ->
  bytes_to_pages (bitmap_calc_size n) = bitmap_pages n /\ 1 <= bitmap_pages n < 2 ^ 20 /\ bitmap_calc_words n = (n + 63) / 64 /\
  (n + 63) / 64 <= bitmap_pages n * 512 - 1.
Proof.
  intros Hn. unfold bitmap_pages. assert (0 <= (n + 63) / 64 < 2 ^ 26) as Hw.
  { split; [apply Z.div_pos; lia|apply Z.div_lt_upper_bound; lia]. }
  assert (bitmap_calc_words n = (n + 63) / 64) as Ew by (apply bitmap_calc_words_spec; lia).
  assert (bitmap_calc_size n = 8 + 8 * ((n + 63) / 64)) as ->.
  { unfold bitmap_calc_size, sizeof_bitmap. rewrite Ew. unfold mul64. rewrite (u64_small ((n + 63) / 64 * 8)) by (unfold is_u; lia).
    rewrite add64_small by (unfold is_u; lia). lia. }
  rewrite bytes_to_pages_spec by lia. change (2 ^ 12) with 4096. set (w := (n + 63) / 64) in *. clearbody w.
  split; [f_equal; lia|]. split; [split; [apply Z.div_le_lower_bound|apply Z.div_lt_upper_bound]; lia|]. split; [done|].
  pose proof (Z.div_mod (8 + 8 * w + 4095) 4096). pose proof (Z.mod_pos_bound (8 + 8 * w + 4095) 4096). lia.
Qed.

Lemma alloc_span_bitmaps_ok s first n :
  0 <= n <= 2 ^ 31 - 64 -> scratch_has s (4 * bitmap_pages n) ->
  wp (alloc_span_bitmaps first n) s (fun r s' => fresh_span first n r.1 /\ r.2 = 4 * bitmap_pages n /\ scratch_taken s s' (4 * bitmap_pages n)).
Proof.
  intros Hn Hs. destruct (bitmap_pages_spec n Hn) as (Ep & Hp & Ew & Hfit). unfold alloc_span_bitmaps. rewrite Ep.
  set (p := bitmap_pages n) in *. set (fresh := bitmap_in_run p (bitmap_calc_words n)).
  assert (exists b, bitmap_init fresh n = Some b /\ bitmap_wf b /\ num_bits b = n /\ forall i, bit_at b i = false) as (b & Eb & Hb).
  { apply bitmap_init_spec; [unfold is_u; lia|]. cbn [fresh bitmap_in_run data]. unfold zlength. rewrite length_take, length_replicate, Ew.
    assert (0 <= (n + 63) / 64) by (apply Z.div_pos; lia). lia. }
  apply wp_bind. eapply wp_mono; [apply (scratch_run_ok s p); [lia|eapply scratch_has_le; [exact Hs|lia]]|]. cbv beta. intros ? s1 H1.
  apply wp_bind. eapply wp_mono; [apply (scratch_run_ok s1 p); [lia|eapply (scratch_has_taken s s1 p); [|done|lia]; eapply scratch_has_le; [exact Hs|lia]]|].
  cbv beta. intros ? s2 H2. apply (scratch_taken_trans _ _ _ _ _ H1) in H2.
  apply wp_bind. eapply wp_mono; [apply (scratch_run_ok s2 p); [lia|eapply (scratch_has_taken s s2 (p + p)); [|done|lia]; eapply scratch_has_le; [exact Hs|lia]]|].
  cbv beta. intros ? s3 H3. apply (scratch_taken_trans _ _ _ _ _ H2) in H3.
  apply wp_bind. eapply wp_mono; [apply (scratch_run_ok s3 p); [lia|eapply (scratch_has_taken s s3 (p + p + p)); [|done|lia]; eapply scratch_has_le; [exact Hs|lia]]|].
  cbv beta. intros ? s4 H4. apply (scratch_taken_trans _ _ _ _ _ H3) in H4.
  do 4 (apply wp_bind; eapply wp_lift; [exact Eb|]). apply wp_ret. cbn [fst snd]. split; [|split].
  - split; try done. do 4 (apply Forall_cons; split; [exact Hb|]). by apply Forall_nil.
  - unfold mul64. rewrite u64_small by (unfold is_u; lia). lia.
  - by replace (4 * p) with (p + p + p + p) by lia.
Qed.

(** The scratch pages the spans of the entries take. *)
Fixpoint spans_pages (l : list e820_entry) : Z :=
  match l with
  | [] => 0
  | e :: l' => (if is_ram e then 4 * bitmap_pages (size e / 4096) else 0) + spans_pages l'
  end.

(** An entry whose span fits its bitmaps. *)
Definition span_entry (e : e820_entry) : Prop :=
  type e = E820_TYPE_RAM -> 0 <= base e /\ 0 <= size e /\ size e / 4096 <= 2 ^ 31 - 64 /\ base e + size e <= 2 ^ 46 /\
    base e mod 4096 = 0 /\ size e mod 4096 = 0.

Definition ram_entries (l : list e820_entry) : list e820_entry := filter (fun e => type e = E820_TYPE_RAM) l.

Lemma spans_pages_nonneg l : Forall span_entry l -> 0 <= spans_pages l.
Proof.
  induction 1 as [|e l He _ IH]; cbn [spans_pages]; [lia|]. unfold is_ram. destruct (Z.eqb_spec (type e) E820_TYPE_RAM) as [Ht|]; [|lia].
  destruct (He Ht) as (_ & H0 & H1 & _). pose proof (Z.div_pos (size e) 4096 H0 eq_refl).
  destruct (bitmap_pages_spec (size e / 4096) ltac:(lia)) as (_ & ? & _). lia.
Qed.

Lemma early_spans_ok l : forall acc n s,
  Forall span_entry l -> scratch_has s (spans_pages l) -> 0 <= n -> n + spans_pages l < 2 ^ 31 ->
  zlength acc + zlength (ram_entries l) <= MAX_E820_RAM_ENTRIES ->
  wp (init_spans l acc n) s (fun r s' => scratch_taken s s' (spans_pages l) /\ r.2 = n + spans_pages l /\
    exists new, r.1 = acc ++ new /\ Forall2 (fun e span => fresh_span (base e) (size e / 4096) span) (ram_entries l) new).
Proof.
  induction l as [|e l IH]; intros acc n s Hl Hs Hn Hmax Hfit; cbn [init_spans spans_pages] in *.
  - apply wp_ret. split; [split_and!; try done; lia|]. split; [simpl; lia|]. exists []. split; [by rewrite app_nil_r|constructor].
  - apply Forall_cons in Hl as [He Hl]. unfold ram_entries in *. rewrite filter_cons in *. pose proof (spans_pages_nonneg l Hl). unfold is_ram in *.
    destruct (Z.eqb_spec (type e) E820_TYPE_RAM) as [Ht|Ht]; simpl negb; cbv iota; [rewrite decide_True in * by done|rewrite decide_False in * by done; by apply IH].
    change (zlength (e :: ?k)) with (zlength ([e] ++ k)) in Hfit. rewrite zlength_app in Hfit. change (zlength [e]) with 1 in Hfit.
    pose proof (zlength_nonneg (filter (fun e => type e = E820_TYPE_RAM) l)) as Hk.
    rewrite (proj2 (Z.leb_gt _ _)) by lia. destruct (He Ht) as (_ & H0 & H1 & _). pose proof (Z.div_pos (size e) 4096 H0 eq_refl).
    destruct (bitmap_pages_spec (size e / 4096) ltac:(lia)) as (_ & Hp & _).
    unfold PAGE_SHIFT. rewrite Z.shiftr_div_pow2 by lia. change (2 ^ 12) with 4096.
    apply wp_bind. eapply wp_mono; [apply (alloc_span_bitmaps_ok s (base e) (size e / 4096)); [lia|eapply scratch_has_le; [exact Hs|lia]]|].
    cbv beta. intros [span p] s1 (Hspan & -> & H1'). cbn [fst snd] in *. rewrite add64_small by (unfold is_u; lia).
    eapply wp_mono; [apply (IH (acc ++ [span]) (n + 4 * bitmap_pages (size e / 4096)) s1 Hl); [by eapply scratch_has_taken; [|exact H1'|lia]|lia|lia|rewrite zlength_app; change (zlength [span]) with 1; lia]|].
    cbv beta. intros r s2 (Hs2 & -> & new & Hr & Hnew). split; [by eapply scratch_taken_trans|]. split; [lia|].
    exists (span :: new). split; [by rewrite Hr, <- app_assoc|]. by constructor.
Qed.

(** ** The first state *)

Lemma fresh_bitmap b n : bitmap_wf b /\ num_bits b = n /\ (forall i, bit_at b i = false) -> count_bits b = 0.
Proof. intros (_ & _ & Hb). apply count_true_none. intros i _. apply Hb. Qed.

Lemma fresh_span_wf e span :
  type e = E820_TYPE_RAM -> span_entry e -> fresh_span (base e) (size e / 4096) span ->
  span_wf span /\ (forall i, page_kind span i = None) /\ Forall (fun b => count_bits b = 0)
    [alloc_bitmap span; ephemeral_bitmap span; pagetable_bitmap span; physblock_bitmap span].
Proof.
  intros Ht He [E1 E2 E3 Hb]. destruct (He Ht) as (H0 & H1 & H2 & H3 & H4 & H5).
  pose proof (Z.div_pos (size e) 4096 H1 eq_refl). apply Z.div_exact in H5; [|done].
  assert (Forall (fun b => count_bits b = 0) [alloc_bitmap span; ephemeral_bitmap span; pagetable_bitmap span; physblock_bitmap span]) as Hc.
  { eapply Forall_impl; [exact Hb|]. intros b. apply fresh_bitmap. }
  apply Forall_cons in Hb as [(Wa & Na & Za) [(We & Ne & Ze) [(Wp & Np & Zp) [(Wb & Nb & Zb) _]%Forall_cons]%Forall_cons]%Forall_cons].
  assert (forall i, page_kind span i = None) as Hk by (intros i; by apply page_kind_free).
  split; [|done]. split; rewrite ?E1, ?E2, ?E3; try done.
  - change (2 ^ 12) with 4096. lia.
  - intros i _. rewrite Hk. done.
  - by apply Forall_cons in Hc as [-> _].
Qed.

Lemma ram_entries_sorted l : StronglySorted separated l -> StronglySorted separated (ram_entries l).
Proof.
  induction 1 as [|e l _ IH He]; [constructor|]. unfold ram_entries. rewrite filter_cons. case_decide; [|done].
  constructor; [done|]. apply Forall_forall. intros x [_ Hx]%list_elem_of_filter. by apply (proj1 (Forall_forall _ _) He).
Qed.

Lemma sum_spans_zero f l : Forall (fun a => f a = 0) l -> sum_spans f l = 0.
Proof. induction 1 as [|a l Ha _ IH]; cbn [sum_spans]; lia. Qed.

Lemma ram_bytes_whole l : Forall span_entry l -> ram_bytes l mod 2 ^ 12 = 0.
Proof.
  induction 1 as [|e l He _ IH]; cbn [ram_bytes]; [done|]. unfold is_ram. destruct (Z.eqb_spec (type e) E820_TYPE_RAM) as [Ht|]; [|done].
  destruct (He Ht) as (_ & _ & _ & _ & _ & Hm). change (2 ^ 12) with 4096 in *. by rewrite Z.add_mod, Hm, IH.
Qed.

Lemma sum_spans_shape st st' : shape st = shape st' -> sum_spans num_pages (spans st) = sum_spans num_pages (spans st').
Proof.
  unfold shape. generalize (spans st) (spans st'). intros l. induction l as [|a l IH]; intros [|b k] H; try done.
  rewrite !fmap_cons in H. injection H as _ Hn H. cbn [sum_spans]. rewrite (IH k H). lia.
Qed.

Section first_state.
Context (l : list e820_entry) (new : list early_page_alloc_span).
Context (Hl : Forall span_entry l) (Hsort : StronglySorted separated l) (Hlen : zlength l < 2 ^ 31).
Context (Hnew : Forall2 (fun e span => fresh_span (base e) (size e / 4096) span) (ram_entries l) new).

Lemma new_span i span : new !! i = Some span -> exists e, ram_entries l !! i = Some e /\ e ∈ l /\ type e = E820_TYPE_RAM /\
  span_entry e /\ fresh_span (base e) (size e / 4096) span.
Proof using Hl Hnew.
  intros Hi. destruct (Forall2_lookup_r _ _ _ _ _ Hnew Hi) as (e & He & Hf). exists e. split; [done|].
  pose proof He as Hin. apply list_elem_of_lookup_2, list_elem_of_filter in Hin as [Ht Hin]. split; [done|]. split; [done|].
  split; [by apply (proj1 (Forall_forall _ _) Hl)|done].
Qed.

Lemma new_spans_wf : Forall (fun span => span_wf span /\ (forall i, page_kind span i = None) /\ Forall (fun b => count_bits b = 0)
    [alloc_bitmap span; ephemeral_bitmap span; pagetable_bitmap span; physblock_bitmap span]) new.
Proof using Hl Hnew.
  apply Forall_lookup. intros i span Hi. destruct (new_span i span Hi) as (e & _ & _ & Ht & He & Hf). by eapply fresh_span_wf.
Qed.

Lemma new_spans_size : sum_spans num_pages new < 2 ^ 63 /\ ram_bytes l = 4096 * sum_spans num_pages new.
Proof using Hl Hlen Hnew.
  clear Hsort. assert (0 <= sum_spans num_pages new <= 2 ^ 31 * zlength l /\ ram_bytes l = 4096 * sum_spans num_pages new); [|lia].
  clear Hlen. revert new Hnew. induction Hl as [|e l' He Hl' IH]; intros sp Hsp.
  - apply Forall2_nil_inv_l in Hsp as ->. unfold zlength. simpl. lia.
  - specialize (IH Hl'). unfold zlength in *. rewrite length_cons. unfold ram_entries in *. rewrite filter_cons in Hsp. cbn [ram_bytes]. unfold is_ram.
    destruct (Z.eqb_spec (type e) E820_TYPE_RAM) as [Ht|Ht]; [rewrite decide_True in Hsp by done|rewrite decide_False in Hsp by done; specialize (IH sp Hsp); lia].
    apply Forall2_cons_inv_l in Hsp as (span & sp' & Hf & Hsp' & ->). specialize (IH sp' Hsp'). cbn [sum_spans].
    destruct (He Ht) as (_ & H0 & H1 & _ & _ & H2). pose proof (Z.div_pos (size e) 4096 H0 eq_refl). apply Z.div_exact in H2; [|done].
    rewrite (fs_pages _ _ _ Hf). lia.
Qed.

Lemma first_state_wf total : state_wf (mk_state total 0 0 0 0 new).
Proof using Hl Hsort Hlen Hnew.
  pose proof new_spans_wf as Hw. split; cbn [spans num_allocated_pages num_ephemeral_pages num_pagetable_pages num_physblock_pages].
  - eapply Forall_impl; [exact Hw|]. by intros span [? _].
  - intros i j a b Hij [Hi0 Hi]%zlookup_Some [Hj0 Hj]%zlookup_Some.
    destruct (new_span _ _ Hi) as (e & He & _ & Ht & Hs & Hf). destruct (new_span _ _ Hj) as (e' & He' & _ & Ht' & Hs' & Hf').
    destruct (Hs Ht) as (_ & _ & _ & _ & _ & Hm). destruct (Hs' Ht') as (_ & _ & _ & _ & _ & Hm'). apply Z.div_exact in Hm, Hm'; [|done..].
    unfold spans_apart. rewrite (fs_start _ _ _ Hf), (fs_start _ _ _ Hf'), (fs_pages _ _ _ Hf), (fs_pages _ _ _ Hf').
    change (2 ^ 12) with 4096. pose proof (ram_entries_sorted l Hsort) as Hss.
    destruct (decide (i < j)) as [Hlt|Hge].
    + left. destruct (sorted_lookup _ _ Hss (Z.to_nat i) (Z.to_nat j) e e') as [H _]; [lia|done..|]. unfold stop in H. lia.
    + right. destruct (sorted_lookup _ _ Hss (Z.to_nat j) (Z.to_nat i) e' e) as [H _]; [lia|done..|]. unfold stop in H. lia.
  - apply new_spans_size.
  - symmetry. apply sum_spans_zero. eapply Forall_impl; [exact Hw|]. intros span (_ & _ & Hc). by apply Forall_cons in Hc as [? _].
  - symmetry. apply sum_spans_zero. eapply Forall_impl; [exact Hw|]. intros span (_ & _ & Hc). by apply Forall_cons in Hc as [_ [? _]%Forall_cons].
  - symmetry. apply sum_spans_zero. eapply Forall_impl; [exact Hw|]. intros span (_ & _ & Hc).
    by apply Forall_cons in Hc as [_ [_ [? _]%Forall_cons]%Forall_cons].
  - symmetry. apply sum_spans_zero. eapply Forall_impl; [exact Hw|]. intros span (_ & _ & Hc).
    by apply Forall_cons in Hc as [_ [_ [_ [? _]%Forall_cons]%Forall_cons]%Forall_cons].
Qed.

(** Every page of RAM is free, and nothing else is in a span. *)
Lemma first_status total q : 0 <= q ->
  (ram_page l (q / 4096) -> status (mk_state total 0 0 0 0 new) q = Some None) /\
  (~ ram_page l (q / 4096) -> status (mk_state total 0 0 0 0 new) q = None).
Proof using Hl Hsort Hlen Hnew.
  intros Hq. pose proof (first_state_wf total) as Hwf. set (st := mk_state total 0 0 0 0 new) in *.
  pose proof (Z.div_mod q 4096 ltac:(lia)) as Ed. pose proof (Z.mod_pos_bound q 4096 eq_refl). split.
  - intros (e & He & Ht & Hp). assert (e ∈ ram_entries l) as Hin by (by apply list_elem_of_filter).
    apply list_elem_of_lookup in Hin as [i Hi]. destruct (Forall2_lookup_l _ _ _ _ _ Hnew Hi) as (span & Hspan & Hf).
    destruct (proj1 (Forall_forall _ _) Hl e He Ht) as (_ & _ & _ & _ & _ & Hm). apply Z.div_exact in Hm; [|done].
    unfold status. rewrite (find_span_at st (Z.of_nat i) span q Hwf).
    + pose proof (proj1 (Forall_lookup _ _) new_spans_wf i span Hspan) as (_ & Hk & _). by rewrite Hk.
    + apply zlookup_Some. rewrite Nat2Z.id. split; [lia|done].
    + rewrite (fs_start _ _ _ Hf), (fs_pages _ _ _ Hf). change (2 ^ 12) with 4096. unfold page_in, stop in Hp. lia.
  - intros Hn. destruct (status_cases st q Hwf) as [[? _]|(i & span & off & _ & Hi & Hsp & Ho & Hoff & Hp & _)]; [done|]. exfalso. apply Hn.
    apply zlookup_Some in Hi as [_ Hi]. destruct (new_span _ _ Hi) as (e & _ & He & Ht & Hs & Hf). exists e. split; [done|]. split; [done|].
    destruct (Hs Ht) as (_ & _ & _ & _ & Hb & Hm). apply Z.div_exact in Hb, Hm; [|done..].
    rewrite (fs_start _ _ _ Hf) in Hp. rewrite (fs_pages _ _ _ Hf) in Ho. change (2 ^ 12) with 4096 in *. rewrite Hb in Hp.
    replace (4096 * (base e / 4096) + off * 4096) with ((base e / 4096 + off) * 4096) in Hp by lia. rewrite Z.div_mul in Hp by done.
    unfold page_in, stop. lia.
Qed.

Lemma first_shape total : shape (mk_state total 0 0 0 0 new) = (fun e => (base e, size e / 4096)) <$> ram_entries l.
Proof using Hnew.
  unfold shape. cbn [spans]. clear - Hnew. revert Hnew. generalize (ram_entries l) as es. clear l. intros es Hnew.
  induction Hnew as [|e span es sp Hf _ IH]; [done|]. rewrite !fmap_cons, IH. by rewrite (fs_start _ _ _ Hf), (fs_pages _ _ _ Hf).
Qed.
End first_state.

(** With the count right, the allocator sees the spans that were written. *)
Lemma seen_spans_all l new :
  zlength (ram_entries l) <= MAX_E820_RAM_ENTRIES ->
  Forall2 (fun e span => fresh_span (base e) (size e / 4096) span) (ram_entries l) new ->
  seen_spans (zlength (ram_entries l)) new = Some new.
Proof.
  intros Hmax Hnew. pose proof (Forall2_length _ _ _ Hnew) as Hlen. pose proof (zlength_nonneg (ram_entries l)).
  rewrite MAX_E820_RAM_ENTRIES_value in Hmax. unfold seen_spans. rewrite i32_small by lia. rewrite (proj2 (Z.leb_le _ _)); [|by rewrite MAX_E820_RAM_ENTRIES_value].
  f_equal. unfold zlength in *. rewrite Nat2Z.id, Hlen. apply take_app_length.
Qed.

Lemma early_page_alloc_init_ok info s (l := entries info) (n := 1 + spans_pages l) (rs := boot_reservations info 0xc00000 n) :
  Forall span_entry l -> StronglySorted separated l -> zlength l < 2 ^ 31 -> total_avail_ram_bytes info = ram_bytes l ->
  num_ram_spans info = zlength (ram_entries l) -> zlength (ram_entries l) <= MAX_E820_RAM_ENTRIES ->
  n <= EARLY_MAX_SCRATCH_PAGES -> 0 <= elf_pages info < 2 ^ 31 ->
  (forall r, r ∈ rs -> 0 <= r.1 /\ ram_page l (r.1 / 4096)) -> NoDup ((fun r => r.1 / 2 ^ 12) <$> rs) ->
  wp (early_scratch_alloc_init;; early_page_alloc_init info) s (fun _ s' =>
    state_wf (ast s') /\ shape (ast s') = (fun e => (base e, size e / 4096)) <$> ram_entries l /\
    scratch_pages (scr s') = n /\ free_pages (ast s') = ram_bytes l / 4096 - zlength rs /\
    (forall r q, r ∈ rs -> same_page q r.1 -> status (ast s') q = Some (Some r.2)) /\
    forall q, 0 <= q -> (forall r, r ∈ rs -> ~ same_page q r.1) ->
      (ram_page l (q / 4096) -> status (ast s') q = Some None) /\ (~ ram_page l (q / 4096) -> status (ast s') q = None)).
Proof.
  intros Hl Hsort Hlen Htot Hnum Hmax Hn Helf Hram Hnd. pose proof (spans_pages_nonneg l Hl) as Hnn. unfold EARLY_MAX_SCRATCH_PAGES in Hn.
  apply wp_bind, wp_modify. match goal with |- wp _ ?x _ => set (s0 := x) end.
  assert (scratch_start (scr s0) = 0xc00000 /\ scratch_pages (scr s0) = 0) as [Es0 Ep0] by done.
  assert (scratch_has s0 n) as Hs0 by (unfold scratch_has, EARLY_MAX_SCRATCH_PAGES; rewrite Es0, Ep0; lia).
  unfold early_page_alloc_init. apply wp_bind. eapply wp_mono; [apply scratch_page_ok; eapply scratch_has_le; [exact Hs0|lia]|].
  cbv beta. intros first s1 [-> H1]. rewrite Es0, Ep0. change (0xc00000 + 4096 * 0) with 0xc00000.
  rewrite IS_ALIGNED_page, Htot, (ram_bytes_whole l Hl). cbn [Z.eqb negb].
  assert (scratch_has s1 (spans_pages l)) as Hs1 by (eapply scratch_has_taken; [exact Hs0|exact H1|lia]).
  apply wp_bind. eapply wp_mono; [apply (early_spans_ok l [] 1 s1 Hl Hs1); [lia|lia|change (zlength []) with 0; lia]|].
  cbv beta. intros r s2 (H2 & Er2 & new & Er1 & Hnew). rewrite Er2, Er1. simpl app. fold n.
  destruct (new_spans_size l new Hl Hlen Hnew) as [Hsize Hbytes].
  apply wp_bind. eapply wp_lift; [rewrite Hnum; by apply seen_spans_all|].
  apply wp_bind, wp_modify. set (st0 := mk_state (bytes_to_pages (ram_bytes l)) 0 0 0 0 new). match goal with |- wp _ ?x _ => set (s3 := x) end.
  pose proof (first_status l new Hl Hsort Hlen Hnew (bytes_to_pages (ram_bytes l))) as Hst. fold st0 in Hst.
  eapply wp_mono; [apply (alloc_init_pages_ok info 0xc00000 n); [done|lia|lia|done|..]|].
  - apply (first_state_wf l new Hl Hsort Hlen Hnew).
  - split; [|exact Hnd]. intros r' Hr'. destruct (Hram r' Hr') as [Hp0 Hp]. by apply Hst.
  - cbv beta. fold rs. intros ? s4 [R1 [R2 R2'] R3 R4 R5 R6]. split; [done|]. split; [rewrite R3; by eapply first_shape|]. split; [|split; [|split]].
    + rewrite R2'. cbn [alloc_st scratch_state s3]. destruct H1 as (_ & E1 & _), H2 as (_ & E2 & _). rewrite E2, E1, Ep0. unfold n. lia.
    + unfold free_pages. rewrite R6. rewrite (sum_spans_shape (ast s4) st0) by (rewrite R3; done). cbn [spans st0 num_allocated_pages s3 alloc_st alloc_state].
      rewrite Hbytes, Z.mul_comm, Z.div_mul by done. lia.
    + done.
    + intros q Hq Hout. rewrite R5 by done. by apply Hst.
Qed.

(** ** Properties *)


Definition sample_map : early_boot_info := mk_info 0x209f000 2 0 0x30c0 2 [mk_entry 0 0x9f000 1; mk_entry 0x100000 0x2000000 1].

Lemma ram_page_decide l p :
  existsb (fun e => (type e =? E820_TYPE_RAM) && (base e <=? 4096 * p) && (4096 * p + 4096 <=? stop e)) l = true -> ram_page l p.
Proof.
  intros (e & He & Hb)%existsb_exists. apply list_elem_of_In in He. bool_to_prop. exists e. unfold page_in. intuition lia.
Qed.

Lemma sample_map_reserved (l := entries sample_map) (rs := boot_reservations sample_map 0xc00000 (1 + spans_pages l)) :
  (forall r, r ∈ rs -> 0 <= r.1 /\ ram_page l (r.1 / 4096)) /\ NoDup ((fun r => r.1 / 2 ^ 12) <$> rs).
Proof.
  split; [|apply (bool_decide_unpack _); by vm_compute].
  intros r Hr. assert (Forall (fun r => (0 <=? r.1) && existsb (fun e => (type e =? E820_TYPE_RAM) && (base e <=? 4096 * (r.1 / 4096)) &&
    (4096 * (r.1 / 4096) + 4096 <=? stop e)) l = true) rs) as HF.
  { apply Forall_forall. apply (proj1 (Forall_forall _ _)). apply (bool_decide_unpack _). by vm_compute. }
  apply (proj1 (Forall_forall _ _) HF) in Hr. apply andb_true_iff in Hr as [H0 H1]. split; [lia|]. by apply ram_page_decide.
Qed.

