(* ===== verification/ListDL.v ===== *)
(** * Doubly linked ring lists (include/list.h)

    Nodes live at addresses: the memory the list code works on maps an address
    to the two pointers stored there. A [struct list] is a node whose [last] is
    [prev] and whose [first] is [next] (the source asserts that the two structs
    have the same layout and casts between them). Following a pointer to no node
    is [Undef].

    The representation predicate [ring] says that the nodes reached from a list
    head are a given Coq list; the theorems show that the operations are the list
    operations on it, and that they leave every other list alone. *)

From stdpp Require Import base strings numbers gmap list sets.
From Stdlib Require Import ZArith Lia.
From S2P Require Import Prelude.

Record list_node := mk_node { prev : Z; next : Z }.

#[global] Instance list_node_eq_dec : EqDecision list_node.
Proof. solve_decision. Defined.

Abbreviation nodes := (gmap Z list_node).
Abbreviation LM := (M nodes).

(** The accesses [p->prev], [p->next] and the assignments to them. *)

Definition get_prev (p : Z) : LM Z := fun m => lift (prev <$> m !! p) m.

Definition get_next (p : Z) : LM Z := fun m => lift (next <$> m !! p) m.

Definition set_prev (p v : Z) : LM unit := fun m =>
  match m !! p with
  | Some n => Done tt (<[p := mk_node v (next n)]> m)
  | None => Undef
  end.

Definition set_next (p v : Z) : LM unit := fun m =>
  match m !! p with
  | Some n => Done tt (<[p := mk_node (prev n) v]> m)
  | None => Undef
  end.

(** ** The code *)

Definition list_node_init (node : Z) : LM unit :=
  set_next node node;;
  set_prev node node.

Definition list_init (list : Z) : LM unit := list_node_init list.

(** [LIST_INIT_VALUE]: the contents of a list defined at [list]. *)
Definition LIST_INIT_VALUE (list : Z) : list_node := mk_node list list.

Definition list_empty (list : Z) : LM bool :=
  first ← get_next list;
  mret (first =? list).

(** The node [(list)->first] that [list_first_element] takes the element of,
    and [(list)->last] of [list_last_element]; [offset] is the position of the
    [struct list_node] member in the element. *)

Definition list_node_element (node offset : Z) : Z := (node - offset)%u64.

Definition list_first_element (list offset : Z) : LM Z :=
  first ← get_next list;
  mret (list_node_element first offset).

Definition list_last_element (list offset : Z) : LM Z :=
  last ← get_prev list;
  mret (list_node_element last offset).

Definition list_node_insert_before (node it : Z) : LM unit :=
  prev ← get_prev node;
  set_prev node it;;
  set_next prev it;;
  set_prev it prev;;
  set_next it node.

Definition list_node_insert_after (node it : Z) : LM unit :=
  next ← get_next node;
  set_next node it;;
  set_prev next it;;
  set_prev it node;;
  set_next it next.

Definition list_detach (node : Z) : LM unit :=
  p ← get_prev node;
  n ← get_next node;
  set_next p n;;
  n ← get_next node;
  p ← get_prev node;
  set_prev n p;;
  set_prev node node;;
  set_next node node.

Definition list_push_back (list it : Z) : LM unit := list_node_insert_before list it.

Definition list_push_front (list it : Z) : LM unit := list_node_insert_after list it.

(** The loop of [list_count]; a ring has at most as many nodes as the memory. *)
Fixpoint count_loop (fuel : nat) (list node ret : Z) : LM Z :=
  match fuel with
  | O => hang
  | S fuel' =>
      if node =? list then mret ret
      else
        node' ← get_next node;
        count_loop fuel' list node' (ret + 1)%u64
  end.

Definition list_count (list : Z) : LM Z := fun m =>
  (first ← get_next list; count_loop (S (size m)) list first 0) m.

(** [for_each_list_element]: [body] is run on every element, and the next
    pointer is read from the element after it. *)
Fixpoint for_each_loop {S} (view : S -> nodes) (fuel : nat) (list node offset : Z)
    (body : Z -> M S unit) : M S unit :=
  match fuel with
  | O => hang
  | Datatypes.S fuel' =>
      if node =? list then mret tt
      else
        body (list_node_element node offset);;
        m ← gets view;
        node' ← lift (next <$> m !! node);
        for_each_loop view fuel' list node' offset body
  end.

Definition for_each_list_element {S} (view : S -> nodes) (list offset : Z) (body : Z -> M S unit) : M S unit :=
  m ← gets view;
  first ← lift (next <$> m !! list);
  for_each_loop view (Datatypes.S (size m)) list first offset body.

(** [for_each_list_element_safe]: the pointer to the next node, [_tmp], is read
    one iteration ahead, so that [body] may detach its element. *)
Fixpoint for_each_safe_loop {S} (view : S -> nodes) (fuel : nat) (list node tmp offset : Z)
    (body : Z -> M S unit) : M S unit :=
  match fuel with
  | O => hang
  | Datatypes.S fuel' =>
      if node =? list then mret tt
      else
        body (list_node_element node offset);;
        m ← gets view;
        tmp' ← lift (next <$> m !! tmp);
        for_each_safe_loop view fuel' list tmp tmp' offset body
  end.

Definition for_each_list_element_safe {S} (view : S -> nodes) (list offset : Z) (body : Z -> M S unit) : M S unit :=
  m ← gets view;
  first ← lift (next <$> m !! list);
  tmp ← lift (next <$> m !! first);
  for_each_safe_loop view (Datatypes.S (size m)) list first tmp offset body.

(** ** Rings *)

Definition nxt (m : nodes) (p : Z) : option Z := next <$> m !! p.

Definition prv (m : nodes) (p : Z) : option Z := prev <$> m !! p.

(** Following [next] from [a] passes the nodes [l] and arrives at [z], and
    [prev] leads back. *)
Fixpoint linked (m : nodes) (a : Z) (l : list Z) (z : Z) : Prop :=
  match l with
  | [] => nxt m a = Some z /\ prv m z = Some a
  | x :: l' => nxt m a = Some x /\ prv m x = Some a /\ linked m x l' z
  end.

(** The last of the nodes [l] that follow [h]. *)
Fixpoint last_of (h : Z) (l : list Z) : Z :=
  match l with
  | [] => h
  | x :: l' => last_of x l'
  end.

(** The list at [h] holds the nodes [l], in order. *)
Definition ring (m : nodes) (h : Z) (l : list Z) : Prop := NoDup (h :: l) /\ linked m h l h.

(** Nothing outside [P] was touched. *)
Definition same_outside (m m' : nodes) (P : Z -> Prop) : Prop :=
  forall x, ~ P x -> m' !! x = m !! x.

(** [it] was put between the neighbours [a] and [b]. *)
Definition linked_in (m m' : nodes) (a b it : Z) : Prop :=
  (forall x, nxt m' x = if decide (x = it) then Some b else if decide (x = a) then Some it else nxt m x) /\
  (forall x, prv m' x = if decide (x = it) then Some a else if decide (x = b) then Some it else prv m x).

(** [it] was taken from between the neighbours [a] and [b]. *)
Definition linked_out (m m' : nodes) (a b it : Z) : Prop :=
  (forall x, nxt m' x = if decide (x = it) then Some it else if decide (x = a) then Some b else nxt m x) /\
  (forall x, prv m' x = if decide (x = it) then Some it else if decide (x = b) then Some a else prv m x).

(** The uses of the iteration macros the theorem on them is about: visit every
    element and record it, and detach every element while visiting it. *)

Definition record (e : Z) : M (nodes * list Z) unit := modify (fun s => (s.1, s.2 ++ [e])).

Definition visit (h offset : Z) : M (nodes * list Z) unit := for_each_list_element fst h offset record.

Definition detach_record (offset e : Z) : M (nodes * list Z) unit :=
  zoom fst (fun m s => (m, s.2)) (list_detach (e + offset)%u64);;
  record e.

Definition drain (h offset : Z) : M (nodes * list Z) unit :=
  for_each_list_element_safe fst h offset (detach_record offset).

(** A memory with the list at 100 holding 200 and 300, and a free node at 400. *)
Definition sample_nodes : nodes :=
  {[ 100 := mk_node 300 200; 200 := mk_node 100 300; 300 := mk_node 200 100; 400 := mk_node 0 0 ]}.

(** ** Lemmas *)

Lemma node_eq m m' x : nxt m' x = nxt m x -> prv m' x = prv m x -> m' !! x = m !! x.
Proof.
  unfold nxt, prv. destruct (m !! x) as [[]|], (m' !! x) as [[]|]; simpl; congruence.
Qed.

Lemma linked_app m a l1 x l2 z :
  linked m a (l1 ++ x :: l2) z <-> linked m a l1 x /\ linked m x l2 z.
Proof. revert a. induction l1 as [|y l1 IH]; simpl; intros a; [tauto|]. rewrite IH. tauto. Qed.

Lemma linked_frame m m' a l z :
  (forall x, x ∈ a :: l -> nxt m' x = nxt m x) -> (forall x, x ∈ l ++ [z] -> prv m' x = prv m x) ->
  linked m a l z -> linked m' a l z.
Proof.
  revert a. induction l as [|y l IH]; simpl; intros a Hn Hp.
  - intros [H1 H2]. by rewrite Hn, Hp by set_solver.
  - intros (H1 & H2 & H3). split; [by rewrite Hn by set_solver|]. split; [by rewrite Hp by set_solver|].
    apply IH; [set_solver..|done].
Qed.

Lemma ring_frame m m' h l (P : Z -> Prop) :
  same_outside m m' P -> (forall x, x ∈ h :: l -> ~ P x) -> ring m h l -> ring m' h l.
Proof.
  intros Hs Hd [Hnd Hl]. split; [done|].
  eapply linked_frame; [| |exact Hl]; intros x Hx; unfold nxt, prv; rewrite Hs; try done; apply Hd; set_solver.
Qed.

Lemma linked_dom m a l z x : linked m a l z -> x ∈ a :: l -> is_Some (nxt m x).
Proof.
  revert a. induction l as [|y l IH]; simpl; intros a; [intros [H1 _] ->%list_elem_of_singleton; by rewrite H1|].
  intros (H1 & _ & H3) [->|Hx]%elem_of_cons; [by rewrite H1|]. eauto.
Qed.

Lemma ring_dom m h l x : ring m h l -> x ∈ h :: l -> is_Some (m !! x).
Proof. intros [_ Hl] Hx. pose proof (linked_dom _ _ _ _ _ Hl Hx) as H0. unfold nxt in H0. by apply fmap_is_Some in H0. Qed.

(** *** What the operations do to the pointers *)

Lemma set_next_ok m p v :
  is_Some (m !! p) -> wp (set_next p v) m (fun _ m' =>
    (forall x, nxt m' x = if decide (x = p) then Some v else nxt m x) /\ forall x, prv m' x = prv m x).
Proof.
  intros [n Hn]. unfold wp, set_next. rewrite Hn. unfold nxt, prv.
  split; intros x; destruct (decide (x = p)) as [->|]; simplify_map_eq; rewrite ?Hn; done.
Qed.

Lemma set_prev_ok m p v :
  is_Some (m !! p) -> wp (set_prev p v) m (fun _ m' =>
    (forall x, prv m' x = if decide (x = p) then Some v else prv m x) /\ forall x, nxt m' x = nxt m x).
Proof.
  intros [n Hn]. unfold wp, set_prev. rewrite Hn. unfold nxt, prv.
  split; intros x; destruct (decide (x = p)) as [->|]; simplify_map_eq; rewrite ?Hn; done.
Qed.

Lemma get_next_ok m p v : nxt m p = Some v -> wp (get_next p) m (fun r m' => r = v /\ m' = m).
Proof. unfold wp, get_next, nxt. by intros ->. Qed.

Lemma get_prev_ok m p v : prv m p = Some v -> wp (get_prev p) m (fun r m' => r = v /\ m' = m).
Proof. unfold wp, get_prev, prv. by intros ->. Qed.

Lemma dom_nxt m x : is_Some (m !! x) <-> is_Some (nxt m x).
Proof. unfold nxt. by rewrite fmap_is_Some. Qed.

Lemma dom_prv m x : is_Some (m !! x) <-> is_Some (prv m x).
Proof. unfold prv. by rewrite fmap_is_Some. Qed.

(** Run the next pointer access, rewriting reads through the earlier writes. *)
Ltac node_dom :=
  match goal with
  | |- is_Some (?m !! _) => first [apply dom_nxt | idtac];
      repeat match goal with H : forall x, nxt _ x = _ |- _ => rewrite H end;
      repeat case_decide; (eauto || by apply dom_nxt)
  end.
Ltac node_step :=
  match goal with
  | |- wp (_ ≫= _) _ _ => apply wp_bind
  | |- wp (set_next _ _) _ _ => eapply wp_mono; [apply set_next_ok; node_dom|intros [] ? [? ?]]
  | |- wp (set_prev _ _) _ _ => eapply wp_mono; [apply set_prev_ok; node_dom|intros [] ? [? ?]]
  end.

Ltac node_solve :=
  split; intros ?;
  repeat match goal with
  | H : forall x, nxt ?m x = _ |- context [nxt ?m _] => rewrite H
  | H : forall x, prv ?m x = _ |- context [prv ?m _] => rewrite H
  end;
  repeat case_decide; subst; try done; try congruence.

Lemma insert_before_links m node it a :
  prv m node = Some a -> is_Some (m !! a) -> is_Some (m !! it) -> it <> node -> it <> a ->
  wp (list_node_insert_before node it) m (fun _ m' => linked_in m m' a node it).
Proof.
  intros Hp Ha Hit ? ?. assert (is_Some (m !! node)) by (apply dom_prv; eauto).
  apply wp_bind. eapply wp_mono; [by apply get_prev_ok|intros ? ? [-> ->]].
  do 7 node_step. node_solve.
Qed.

Lemma insert_after_links m node it b :
  nxt m node = Some b -> is_Some (m !! b) -> is_Some (m !! it) -> it <> node -> it <> b ->
  wp (list_node_insert_after node it) m (fun _ m' => linked_in m m' node b it).
Proof.
  intros Hn Hb Hit ? ?. assert (is_Some (m !! node)) by (apply dom_nxt; eauto).
  apply wp_bind. eapply wp_mono; [by apply get_next_ok|intros ? ? [-> ->]].
  do 7 node_step. node_solve.
Qed.

Lemma detach_links m node a b :
  prv m node = Some a -> nxt m node = Some b -> is_Some (m !! a) -> is_Some (m !! b) ->
  (a = node <-> b = node) ->
  wp (list_detach node) m (fun _ m' => linked_out m m' a b node).
Proof.
  intros Hp Hn Ha Hb Hab. assert (is_Some (m !! node)) by (apply dom_nxt; eauto).
  apply wp_bind. eapply wp_mono; [by apply get_prev_ok|intros ? ? [-> ->]].
  apply wp_bind. eapply wp_mono; [by apply get_next_ok|intros ? ? [-> ->]].
  do 2 node_step. rename s' into m1.
  apply wp_bind. eapply wp_mono; [apply (get_next_ok _ _ b)|intros ? ? [-> ->]].
  { rewrite H0. case_decide; naive_solver. }
  apply wp_bind. eapply wp_mono; [apply (get_prev_ok _ _ a); by rewrite H1|intros ? ? [-> ->]].
  do 5 node_step. node_solve.
Qed.

(** *** The list operations *)

Lemma last_of_elem h l : last_of h l ∈ h :: l.
Proof. revert h. induction l as [|x l IH]; simpl; intros h; [set_solver|]. right. apply IH. Qed.

(** A segment redirected from its last node to a new end. *)
Lemma linked_end m m' h l b z :
  linked m h l b -> NoDup (h :: l) ->
  (forall x, x ∈ h :: l -> x <> last_of h l -> nxt m' x = nxt m x) ->
  (forall x, x ∈ l -> prv m' x = prv m x) ->
  nxt m' (last_of h l) = Some z -> prv m' z = Some (last_of h l) -> linked m' h l z.
Proof.
  revert h. induction l as [|x l IH]; simpl; intros h Hl Hnd Hn Hp H1 H2; [done|].
  destruct Hl as (Hl1 & Hl2 & Hl3). apply NoDup_cons in Hnd as [Hh Hnd].
  split; [|split].
  - rewrite Hn; [done|set_solver|]. intros ->. apply Hh. apply last_of_elem.
  - by rewrite Hp by set_solver.
  - apply IH; try done; set_solver.
Qed.

Lemma last_link m h l1 l2 z :
  linked m h (l1 ++ l2) z ->
  nxt m (last_of h l1) = Some (hd z l2) /\ prv m (hd z l2) = Some (last_of h l1).
Proof.
  revert h. induction l1 as [|x l1 IH]; simpl; intros h.
  - destruct l2; simpl; tauto.
  - intros (_ & _ & H). by apply IH.
Qed.

(** The memberships that decide which pointers an update at a cut changes. *)
Lemma cut_facts h l1 l2 it :
  NoDup (h :: l1 ++ l2) -> it ∉ h :: l1 ++ l2 ->
  NoDup (h :: l1) /\ it <> h /\ it ∉ h :: l1 /\ it ∉ l1 /\ it ∉ l2 /\ it <> last_of h l1 /\
  (forall x, x ∈ l1 -> x <> hd h l2) /\ (forall x, x ∈ l2 -> x <> last_of h l1) /\
  (forall x, x ∈ tail l2 ++ [h] -> l2 <> [] -> x <> hd h l2).
Proof.
  pose proof (last_of_elem h l1) as Hlast. rewrite !NoDup_cons, NoDup_app. intros (Hh & H1 & H2 & H3) Hit.
  apply not_elem_of_cons in Hit as [? [? ?]%not_elem_of_app]. apply not_elem_of_app in Hh as [Hh1 Hh2].
  repeat split; try done.
  - by apply not_elem_of_cons.
  - intros ->. apply elem_of_cons in Hlast as [?|?]; done.
  - intros x Hx ->. destruct l2 as [|y l2]; simpl in *; [done|]. by apply (H2 y Hx), elem_of_cons; left.
  - intros x Hx ->. apply elem_of_cons in Hlast as [E|?]; [by rewrite E in Hx|]. by apply (H2 (last_of h l1)).
  - intros x Hx Hne ->. destruct l2 as [|y l2]; simpl in *; [done|]. apply NoDup_cons in H3 as [Hy _].
    apply elem_of_app in Hx as [?|E%list_elem_of_singleton]; [done|]. by rewrite E in Hh2; apply Hh2, elem_of_cons; left.
Qed.

(** Decide the pointers of a [linked_in] or [linked_out] state. *)
Ltac cut_solve Hn Hp :=
  intros; rewrite ?Hn, ?Hp; repeat case_decide; subst; try done; exfalso;
  first [ by eauto | match goal with H : forall x, _ -> x <> ?y, K : ?y ∈ _ |- _ => by apply (H y K) end
        | match goal with H : forall x, _ -> _ -> x <> ?y, K : ?y ∈ _ |- _ => by apply (H y K) end ].

Lemma ring_insert m m' h l1 l2 it :
  ring m h (l1 ++ l2) -> it ∉ h :: l1 ++ l2 -> linked_in m m' (last_of h l1) (hd h l2) it ->
  ring m' h (l1 ++ it :: l2).
Proof.
  intros [Hnd Hl] Hit [Hn Hp].
  split; [rewrite !NoDup_cons, !NoDup_app, ?NoDup_cons in *; set_solver|].
  destruct (cut_facts h l1 l2 it Hnd Hit) as (Hnd1 & F1 & F2 & F3 & F4 & F5 & F6 & F7 & F8). clear Hnd Hit.
  apply linked_app. destruct l2 as [|y l2]; simpl in *.
  - rewrite app_nil_r in *. split; [|split; cut_solve Hn Hp].
    eapply linked_end; [eassumption|eassumption|..]; cut_solve Hn Hp.
  - apply linked_app in Hl as [Hl1 Hl2]. apply not_elem_of_cons in F4 as [? F4].
    split; [|split; [|split]]; [|cut_solve Hn Hp..|].
    + eapply linked_end; [eassumption|eassumption|..]; cut_solve Hn Hp.
    + eapply linked_frame; [| |done].
      * intros x Hx. rewrite Hn. rewrite !decide_False; [done|by apply F7|]. intros ->. apply elem_of_cons in Hx as [?|?]; done.
      * intros x Hx. rewrite Hp. rewrite !decide_False; [done|by apply F8|].
        intros ->. apply elem_of_app in Hx as [?|?%list_elem_of_singleton]; done.
Qed.

Lemma ring_remove m m' h l1 l2 it :
  ring m h (l1 ++ it :: l2) -> linked_out m m' (last_of h l1) (hd h l2) it ->
  ring m' h (l1 ++ l2) /\ ring m' it [].
Proof.
  intros [Hnd Hl] [Hn Hp].
  assert (NoDup (h :: l1 ++ l2) /\ it ∉ h :: l1 ++ l2) as [Hnd' Hit].
  { rewrite !NoDup_cons, !NoDup_app, NoDup_cons in *. set_solver. }
  split; [|by repeat split; [apply NoDup_singleton|rewrite Hn, decide_True by done|rewrite Hp, decide_True by done]].
  split; [done|].
  destruct (cut_facts h l1 l2 it Hnd' Hit) as (Hnd1 & F1 & F2 & F3 & F4 & F5 & F6 & F7 & F8). clear Hnd Hit.
  apply linked_app in Hl as [Hl1 Hl2]. destruct l2 as [|y l2]; simpl in *.
  - rewrite app_nil_r in *. eapply linked_end; [eassumption|eassumption|..]; cut_solve Hn Hp.
  - destruct Hl2 as (_ & _ & Hl2). apply linked_app. apply not_elem_of_cons in F4 as [? F4]. split.
    + eapply linked_end; [eassumption|eassumption|..]; cut_solve Hn Hp.
    + eapply linked_frame; [| |done].
      * intros x Hx. rewrite Hn. rewrite !decide_False; [done|by apply F7|]. intros ->. apply elem_of_cons in Hx as [?|?]; done.
      * intros x Hx. rewrite Hp. rewrite !decide_False; [done|by apply F8|].
        intros ->. apply elem_of_app in Hx as [?|?%list_elem_of_singleton]; done.
Qed.

Lemma linked_in_outside m m' a b it (P : Z -> Prop) :
  linked_in m m' a b it -> P a -> P b -> P it -> same_outside m m' P.
Proof.
  intros [Hn Hp] Ha Hb Hit x Hx. apply node_eq; [rewrite Hn|rewrite Hp]; rewrite !decide_False; try done; by intros ->.
Qed.

Lemma linked_out_outside m m' a b it (P : Z -> Prop) :
  linked_out m m' a b it -> P a -> P b -> P it -> same_outside m m' P.
Proof.
  intros [Hn Hp] Ha Hb Hit x Hx. apply node_eq; [rewrite Hn|rewrite Hp]; rewrite !decide_False; try done; by intros ->.
Qed.

Lemma hd_elem (h : Z) l1 l2 : hd h l2 ∈ h :: l1 ++ l2.
Proof. destruct l2; set_solver. Qed.

Lemma last_of_elem_app h l1 l2 : last_of h l1 ∈ h :: l1 ++ l2.
Proof. pose proof (last_of_elem h l1). set_solver. Qed.

Lemma last_of_snoc h l x : last_of h (l ++ [x]) = x.
Proof. revert h. induction l; simpl; auto. Qed.

(** Insertion before the node that follows a cut of the ring. *)
Lemma insert_before_ok m h l1 l2 it :
  ring m h (l1 ++ l2) -> it ∉ h :: l1 ++ l2 -> is_Some (m !! it) ->
  wp (list_node_insert_before (hd h l2) it) m (fun _ m' =>
    ring m' h (l1 ++ it :: l2) /\ same_outside m m' (fun x => x ∈ it :: h :: l1 ++ l2)).
Proof.
  intros Hr Hit Hm. pose proof (last_of_elem_app h l1 l2) as Ha. pose proof (hd_elem h l1 l2) as Hb.
  eapply wp_mono.
  - apply (insert_before_links _ _ _ (last_of h l1)); [| |done|..].
    + by apply last_link, Hr.
    + by eapply ring_dom.
    + intros ->. done.
    + intros ->. done.
  - intros ? m' Hl. split; [by eapply ring_insert|].
    eapply linked_in_outside; [exact Hl|..]; cbv beta; rewrite elem_of_cons; auto.
Qed.

(** Insertion after the node that precedes a cut of the ring. *)
Lemma insert_after_ok m h l1 l2 it :
  ring m h (l1 ++ l2) -> it ∉ h :: l1 ++ l2 -> is_Some (m !! it) ->
  wp (list_node_insert_after (last_of h l1) it) m (fun _ m' =>
    ring m' h (l1 ++ it :: l2) /\ same_outside m m' (fun x => x ∈ it :: h :: l1 ++ l2)).
Proof.
  intros Hr Hit Hm. pose proof (last_of_elem_app h l1 l2) as Ha. pose proof (hd_elem h l1 l2) as Hb.
  eapply wp_mono.
  - apply (insert_after_links _ _ _ (hd h l2)); [| |done|..].
    + by apply last_link, Hr.
    + by eapply ring_dom.
    + intros ->. done.
    + intros ->. done.
  - intros ? m' Hl. split; [by eapply ring_insert|].
    eapply linked_in_outside; [exact Hl|..]; cbv beta; rewrite elem_of_cons; auto.
Qed.

Lemma push_back_ok m h l it :
  ring m h l -> it ∉ h :: l -> is_Some (m !! it) ->
  wp (list_push_back h it) m (fun _ m' =>
    ring m' h (l ++ [it]) /\ same_outside m m' (fun x => x ∈ it :: h :: l)).
Proof.
  intros Hr Hit Hm. pose proof (insert_before_ok m h l [] it) as H0. rewrite app_nil_r in H0. by apply H0.
Qed.

Lemma push_front_ok m h l it :
  ring m h l -> it ∉ h :: l -> is_Some (m !! it) ->
  wp (list_push_front h it) m (fun _ m' =>
    ring m' h (it :: l) /\ same_outside m m' (fun x => x ∈ it :: h :: l)).
Proof. intros Hr Hit Hm. by apply (insert_after_ok m h [] l it). Qed.

Lemma detach_ok m h l1 l2 it :
  ring m h (l1 ++ it :: l2) ->
  wp (list_detach it) m (fun _ m' =>
    ring m' h (l1 ++ l2) /\ ring m' it [] /\ same_outside m m' (fun x => x ∈ h :: l1 ++ it :: l2)).
Proof.
  intros Hr. pose proof (last_of_elem_app h l1 (it :: l2)) as Ha. pose proof (hd_elem h (l1 ++ [it]) l2) as Hb.
  rewrite <- app_assoc in Hb. simpl in Hb. pose proof Hr as [Hnd Hl].
  assert (it ∉ h :: l1 ++ l2) as Hit.
  { rewrite !NoDup_cons, !NoDup_app, NoDup_cons in *. set_solver. }
  eapply wp_mono.
  - apply (detach_links _ _ (last_of h l1) (hd h l2)).
    + apply (last_link m h l1 (it :: l2) h Hl).
    + pose proof (last_link m h (l1 ++ [it]) l2 h) as H0. rewrite <- app_assoc in H0.
      rewrite last_of_snoc in H0. by apply H0.
    + by eapply ring_dom.
    + by eapply ring_dom.
    + pose proof (last_of_elem_app h l1 l2). pose proof (hd_elem h l1 l2). split; intros <-; done.
  - intros ? m' Ho. destruct (ring_remove _ _ _ _ _ _ Hr Ho). split; [done|]. split; [done|].
    eapply linked_out_outside; [exact Ho|exact Ha|exact Hb|]. set_solver.
Qed.

(** Detaching a node that is in no list. *)
Lemma detach_single m it : ring m it [] -> wp (list_detach it) m (fun _ m' => m' = m).
Proof.
  intros [_ [Hn Hp]]. eapply wp_mono; [eapply (detach_links _ _ it it); try done; apply dom_nxt; eauto|].
  intros ? m' [Hn' Hp']. apply map_eq. intros x. apply node_eq; [rewrite Hn'|rewrite Hp']; repeat case_decide; by subst.
Qed.

Lemma node_init_ok m p :
  is_Some (m !! p) -> wp (list_node_init p) m (fun _ m' => ring m' p [] /\ same_outside m m' (fun x => x = p)).
Proof.
  intros Hp. unfold list_node_init. node_step. node_step. node_step. split.
  - repeat split; [apply NoDup_singleton|rewrite H2, H, decide_True by done; done|rewrite H1, decide_True by done; done].
  - intros x Hx. apply node_eq; [rewrite H2, H, decide_False by done|rewrite H1, decide_False by done]; done.
Qed.

Lemma list_empty_ok m h l : ring m h l -> wp (list_empty h) m (fun b m' => b = bool_decide (l = []) /\ m' = m).
Proof.
  intros [Hnd Hl]. pose proof (last_link m h [] l h Hl) as [Hn _]. simpl in Hn.
  apply wp_bind. eapply wp_mono; [by apply get_next_ok|intros ? ? [-> ->]]. split; [|done].
  destruct l as [|x l]; cbn [hd]; [by rewrite Z.eqb_refl|].
  rewrite bool_decide_false by done. apply Z.eqb_neq. intros ->. apply NoDup_cons in Hnd as [Hh _]. set_solver.
Qed.

(** A ring fits in the memory it lives in. *)
Lemma ring_size m h l : ring m h l -> (length l < size m)%nat.
Proof.
  intros Hr. assert (size (list_to_set (h :: l) : gset Z) <= size (dom m))%nat as H0.
  { apply subseteq_size. intros x Hx%elem_of_list_to_set. by apply elem_of_dom, (ring_dom m h l x Hr). }
  rewrite size_list_to_set in H0 by apply Hr. rewrite size_dom in H0. simpl in H0. lia.
Qed.

Lemma count_loop_ok m h a l r fuel :
  linked m a l h -> h ∉ l -> (length l < fuel)%nat -> 0 <= r -> r + Z.of_nat (length l) < 2 ^ 64 ->
  wp (n ← get_next a; count_loop fuel h n r) m (fun c m' => c = r + zlength l /\ m' = m).
Proof.
  revert a r fuel. induction l as [|x l IH]; intros a r fuel Hl Hh Hf Hr Hb; destruct Hl as [Hn Hl];
    (destruct fuel; [simpl in Hf; lia|]); apply wp_bind;
    (eapply wp_mono; [by apply get_next_ok|intros ? ? [-> ->]]); simpl.
  - rewrite Z.eqb_refl. apply wp_ret. unfold zlength. simpl. split; [lia|done].
  - apply not_elem_of_cons in Hh as [Hx Hh]. rewrite (proj2 (Z.eqb_neq x h)) by congruence. destruct Hl as [_ Hl].
    simpl in *. eapply wp_mono; [apply (IH x); try done; try lia|].
    + rewrite add64_small; unfold is_u; lia.
    + rewrite add64_small; unfold is_u; lia.
    + intros c m' [-> ->]. rewrite add64_small by (unfold is_u; lia). unfold zlength. simpl. split; [lia|done].
Qed.

Lemma list_count_ok m h l :
  ring m h l -> zlength l < 2 ^ 64 -> wp (list_count h) m (fun c m' => c = zlength l /\ m' = m).
Proof.
  intros Hr Hb. pose proof (ring_size _ _ _ Hr). destruct Hr as [Hnd Hl]. apply NoDup_cons in Hnd as [Hh _].
  unfold list_count, wp. eapply (count_loop_ok m h h l 0); [done|done|lia|lia|]. unfold zlength in Hb. lia.
Qed.

Lemma list_first_ok m h x l off :
  ring m h (x :: l) -> wp (list_first_element h off) m (fun e m' => e = list_node_element x off /\ m' = m).
Proof.
  intros [_ (Hn & _)]. apply wp_bind. eapply wp_mono; [by apply get_next_ok|]. by intros ? ? [-> ->].
Qed.

(** *** Iteration *)

Lemma ring_nxt m h l1 x l2 : ring m h (l1 ++ x :: l2) -> nxt m x = Some (hd h l2).
Proof.
  intros [_ Hl]. pose proof (last_link m h (l1 ++ [x]) l2 h) as H0. rewrite <- app_assoc, last_of_snoc in H0.
  by apply H0.
Qed.

(** The remaining nodes of an iteration: [a] is passed, [l] still to come. *)
Lemma for_each_loop_ok {S} (view : S -> nodes) (I : list Z -> S -> Prop) h off body l1 l2 fuel s :
  (forall l s, I l s -> ring (view s) h (l1 ++ l2)) ->
  (forall k x r s, l1 ++ l2 = k ++ x :: r -> I k s -> wp (body (list_node_element x off)) s (fun _ s' => I (k ++ [x]) s')) ->
  (length l2 < fuel)%nat -> I l1 s ->
  wp (for_each_loop view fuel h (hd h l2) off body) s (fun _ s' => I (l1 ++ l2) s').
Proof.
  revert l1 fuel s. induction l2 as [|x l2 IH]; intros l1 fuel s Hr Hb Hf HI; (destruct fuel; [simpl in Hf; lia|]); simpl.
  - rewrite Z.eqb_refl. rewrite app_nil_r. by apply wp_ret.
  - destruct (Hr _ _ HI) as [Hnd _].
    rewrite (proj2 (Z.eqb_neq x h)) by (intros ->; apply NoDup_cons in Hnd as [Hh _]; set_solver).
    apply wp_bind. eapply wp_mono; [by apply (Hb l1 x l2)|intros ? s' HI'].
    apply wp_bind, wp_gets, wp_bind.
    eapply wp_lift; [|].
    { by apply (ring_nxt _ h l1 x l2), (Hr (l1 ++ [x])). }
    replace (l1 ++ x :: l2) with ((l1 ++ [x]) ++ l2) by by rewrite <- app_assoc.
    apply IH; rewrite <- ?app_assoc; try done. simpl in Hf. lia.
Qed.

Lemma for_each_ok {S} (view : S -> nodes) (I : list Z -> S -> Prop) h off body l s :
  (forall k s, I k s -> ring (view s) h l) ->
  (forall k x r s, l = k ++ x :: r -> I k s -> wp (body (list_node_element x off)) s (fun _ s' => I (k ++ [x]) s')) ->
  I [] s -> wp (for_each_list_element view h off body) s (fun _ s' => I l s').
Proof.
  intros Hr Hb HI. apply wp_bind, wp_gets, wp_bind. pose proof (Hr _ _ HI) as Hr0.
  eapply wp_lift; [by apply (last_link _ h [] l h), Hr0|].
  apply (for_each_loop_ok view I h off body [] l); try done. pose proof (ring_size _ _ _ Hr0). lia.
Qed.

Lemma node_element_add x off : 0 <= off <= x -> x < 2 ^ 64 -> (list_node_element x off + off)%u64 = x.
Proof.
  intros. unfold list_node_element. rewrite sub64_small by (unfold is_u; lia).
  rewrite add64_small; unfold is_u; lia.
Qed.

Lemma drain_loop_ok h off seen l tmp fuel m :
  ring m h l -> Forall (fun x => 0 <= off <= x /\ x < 2 ^ 64) l -> (length l < fuel)%nat ->
  (l <> [] -> tmp = hd h (tail l)) ->
  wp (for_each_safe_loop fst fuel h (hd h l) tmp off (detach_record off)) (m, seen)
    (fun _ s' => ring s'.1 h [] /\ s'.2 = seen ++ ((fun x => list_node_element x off) <$> l) /\
       same_outside m s'.1 (fun x => x ∈ h :: l) /\ Forall (fun x => ring s'.1 x []) l).
Proof.
  revert m seen tmp fuel. induction l as [|x l IH]; intros m seen tmp fuel Hr Ho Hf Ht;
    (destruct fuel; [simpl in Hf; lia|]); simpl.
  - rewrite Z.eqb_refl. apply wp_ret. simpl. rewrite app_nil_r. split_and!; [done|done|done|constructor].
  - pose proof Hr as [Hnd _]. apply NoDup_cons in Hnd as [Hh Hnd]. apply NoDup_cons in Hnd as [Hx _].
    rewrite (proj2 (Z.eqb_neq x h)) by (intros ->; set_solver).
    apply Forall_cons in Ho as [[Ho1 Ho2] Ho]. rewrite (Ht ltac:(done)). simpl in *.
    apply wp_bind. unfold detach_record at 1. rewrite node_element_add by done.
    destruct (wp_done _ _ _ (detach_ok m h [] l x Hr)) as ([] & m' & E & Hr' & Hx' & Hs).
    apply wp_bind. unfold wp at 1, zoom. simpl fst. rewrite E. apply wp_modify. simpl.
    apply wp_bind, wp_gets, wp_bind. simpl fst.
    assert (exists t, nxt m' (hd h l) = Some t /\ (l <> [] -> t = hd h (tail l))) as (t & Et & Ht').
    { destruct l as [|y l]; simpl in *.
      - destruct Hr' as [_ [Hn _]]. by exists h.
      - exists (hd h l). split; [|done]. by apply (ring_nxt m' h [] y l). }
    eapply wp_lift; [exact Et|]. eapply wp_mono; [apply IH; try done; lia|].
    intros ? [m2 s2] (H1 & H2 & H3 & H4). simpl in *. split; [done|]. split; [by rewrite H2, <- app_assoc|].
    assert (same_outside m m2 (fun y => y ∈ h :: x :: l)).
    { intros y Hy. rewrite H3 by set_solver. apply Hs. set_solver. }
    split; [done|]. constructor; [|done].
    eapply ring_frame; [exact H3| |exact Hx']. intros y ->%list_elem_of_singleton. set_solver.
Qed.

(** ** Properties *)

(** C34: on a ring the operations are the operations on sequences: [push_back]
    and [push_front] add the node at the ends, [insert_before] and
    [insert_after] at any cut, [detach] takes a node out and leaves it an empty
    list of its own, [list_empty], [list_count] and the first element read the
    sequence; nothing outside the ring and the node changes, so every other
    list of the memory keeps its contents. *)
Theorem list_ops_correct m h l1 l2 it :
  ring m h (l1 ++ l2) -> zlength (l1 ++ l2) < 2 ^ 64 ->
  (it ∉ h :: l1 ++ l2 -> is_Some (m !! it) ->
     let grown l m' := ring m' h l /\
       (forall k r, ring m k r -> (forall x, x ∈ k :: r -> x ∉ it :: h :: l1 ++ l2) -> ring m' k r) in
     wp (list_push_back h it) m (fun _ => grown ((l1 ++ l2) ++ [it])) /\
     wp (list_push_front h it) m (fun _ => grown (it :: l1 ++ l2)) /\
     wp (list_node_insert_before (hd h l2) it) m (fun _ => grown (l1 ++ it :: l2)) /\
     wp (list_node_insert_after (last_of h l1) it) m (fun _ => grown (l1 ++ it :: l2))) /\
  (forall x r, l2 = x :: r ->
     wp (list_detach x) m (fun _ m' => ring m' h (l1 ++ r) /\ ring m' x [] /\
       forall k q, ring m k q -> (forall y, y ∈ k :: q -> y ∉ h :: l1 ++ l2) -> ring m' k q)) /\
  wp (list_empty h) m (fun b m' => b = bool_decide (l1 ++ l2 = []) /\ m' = m) /\
  wp (list_count h) m (fun c m' => c = zlength (l1 ++ l2) /\ m' = m).
Proof.
  intros Hr Hlen. split; [|split; [|split; [by apply list_empty_ok|by apply list_count_ok]]].
  - intros Hit Hm grown.
    assert (forall l m', ring m' h l /\ same_outside m m' (fun x => x ∈ it :: h :: l1 ++ l2) -> grown l m') as Hg.
    { intros l m' [H1 H2]. split; [done|]. intros k r Hk Hd. by eapply ring_frame. }
    repeat split; (eapply wp_mono; [|intros ? m'; apply Hg]).
    + by apply push_back_ok.
    + by apply push_front_ok.
    + by apply insert_before_ok.
    + by apply insert_after_ok.
  - intros x r ->. eapply wp_mono; [by apply detach_ok|]. intros ? m' (H1 & H2 & H3). split; [done|]. split; [done|].
    intros k q Hk Hd. by eapply ring_frame.
Qed.

(** C36: the iteration macros visit every element of the list once, in order;
    the safe one does so even though the body detaches each element it visits,
    and leaves the list empty and each node alone. *)
Theorem list_iteration_correct m h l off :
  ring m h l -> Forall (fun x => 0 <= off <= x /\ x < 2 ^ 64) l ->
  let elements := (fun x => list_node_element x off) <$> l in
  wp (visit h off) (m, []) (fun _ s' => s' = (m, elements)) /\
  wp (drain h off) (m, []) (fun _ s' => s'.2 = elements /\ ring s'.1 h [] /\
    Forall (fun x => ring s'.1 x []) l /\ same_outside m s'.1 (fun x => x ∈ h :: l)).
Proof.
  intros Hr Ho elements. split.
  - eapply wp_mono; [apply (for_each_ok fst (fun k s => s = (m, (fun x => list_node_element x off) <$> k)) h off record l)|done].
    + by intros k s ->.
    + intros k x r s _ ->. apply wp_modify. simpl. by rewrite fmap_app.
    + done.
  - apply wp_bind, wp_gets, wp_bind. simpl fst.
    eapply wp_lift; [by apply (last_link _ h [] l h), Hr|]. apply wp_bind.
    assert (exists t, nxt m (hd h l) = Some t /\ (l <> [] -> t = hd h (tail l))) as (t & Et & Ht).
    { destruct l as [|y l]; simpl.
      - destruct Hr as [_ [Hn _]]. by exists h.
      - exists (hd h l). split; [|done]. by apply (ring_nxt m h [] y l). }
    eapply wp_lift; [exact Et|].
    eapply wp_mono; [apply (drain_loop_ok h off [] l t); try done; pose proof (ring_size _ _ _ Hr); lia|].
    intros ? s' (H1 & H2 & H3 & H4). by split_and!.
Qed.


Lemma sample_ring : ring sample_nodes 100 [200; 300].
Proof. split; [apply NoDup_ListNoDup; repeat constructor; set_solver|]. by repeat split. Qed.

Lemma list_ops_correct_witness :
  ring sample_nodes 100 ([200] ++ [300]) /\
  wp (list_push_back 100 400) sample_nodes (fun _ m' => ring m' 100 [200; 300; 400]) /\
  wp (list_detach 300) sample_nodes (fun _ m' => ring m' 100 [200]).
Proof.
  assert (400 ∉ 100 :: [200] ++ [300]) as Hout by set_solver.
  assert (is_Some (sample_nodes !! 400)) as Hnode by (exists (mk_node 0 0); reflexivity).
  pose proof (list_ops_correct sample_nodes 100 [200] [300] 400 sample_ring ltac:(vm_compute; reflexivity)) as (H1 & H2 & _).
  split; [apply sample_ring|]. split.
  - eapply wp_mono; [exact (proj1 (H1 Hout Hnode))|]. intros ? m' [H _]. exact H.
  - eapply wp_mono; [by apply (H2 300 [])|]. intros ? m' [H _]. exact H.
Defined.

Lemma list_iteration_correct_witness :
  ring sample_nodes 100 [200; 300] /\
  wp (drain 100 8) (sample_nodes, []) (fun _ s' => s'.2 = [192; 292]).
Proof.
  split; [apply sample_ring|].
  eapply wp_mono; [apply (list_iteration_correct sample_nodes 100 [200; 300] 8 sample_ring); repeat constructor; lia|].
  intros ? s' [H _]. exact H.
Defined.
