(* ===== verification/Spinlock.v ===== *)
(** * Spinlocks (arch/x86_64/include/spinlock.h, include/atomic.h)

    Two models of the same code. [spinlock_acquire] and [spinlock_release] on
    one lock word, with the fuel of its loops, is what a single CPU executes and
    what the sequential models of the allocators use: on a lock that is held and
    that nobody else releases the acquisition never returns. The step relation
    [lock_step] interleaves any number of CPUs at the granularity of the atomic
    operations on the lock word; a location is coherent under every memory order
    the code uses, so its accesses interleave. *)

From stdpp Require Import base strings numbers gmap list sets relations.
From Stdlib Require Import ZArith Lia.
From S2P Require Import Prelude.

(** ** Atomic operations on a lock word *)

Definition atomic_load_relaxed (x : Z) : Z := x.

(** The new value and the old one, which is returned. *)
Definition atomic_exchange_acquire (x val : Z) : Z * Z := (val, x).

Definition atomic_store_release (x val : Z) : Z := val.

Definition empty_spinlock : Z := 0.

(** ** One CPU *)

(** The inner loop: wait until the lock is seen free. *)
Fixpoint spin_loop (fuel : nat) : M Z unit := fun lock =>
  match fuel with
  | O => Hang
  | S fuel' => if atomic_load_relaxed lock =? 0 then Done tt lock else spin_loop fuel' lock
  end.

Fixpoint acquire_loop (fuel : nat) : M Z unit := fun lock =>
  match fuel with
  | O => Hang
  | S fuel' =>
      let '(lock', old) := atomic_exchange_acquire lock 1 in
      if old =? 0 then Done tt lock' else (spin_loop fuel';; acquire_loop fuel') lock'
  end.

Definition spinlock_acquire_word : M Z unit := acquire_loop 2.

Definition spinlock_release_word : M Z unit := fun lock => Done tt (atomic_store_release lock 0).

(** The lock words of a memory, as the set of the addresses of those that are
    held: the operations of the sequential models. *)

Definition spinlock_acquire (lock : Z) : M (gset Z) unit := fun held =>
  match spinlock_acquire_word (if decide (lock ∈ held) then 1 else 0) with
  | Done _ w => Done tt (if w =? 0 then held ∖ {[lock]} else {[lock]} ∪ held)
  | _ => Hang
  end.

Definition spinlock_release (lock : Z) : M (gset Z) unit := fun held =>
  match spinlock_release_word (if decide (lock ∈ held) then 1 else 0) with
  | Done _ w => Done tt (if w =? 0 then held ∖ {[lock]} else {[lock]} ∪ held)
  | _ => Hang
  end.

(** ** Many CPUs *)

(** Where a CPU is: outside, before the exchange, in the inner loop, or
    returned from the acquisition. *)
Inductive lock_pc := Idle | Exchange | Spin | Critical.

#[global] Instance lock_pc_eq_dec : EqDecision lock_pc.
Proof. solve_decision. Defined.

Record lock_state := mk_lock_state { word : Z; cpus : gmap Z lock_pc }.

Definition at_pc (st : lock_state) (c : Z) (pc : lock_pc) : Prop := cpus st !! c = Some pc.

Definition set_pc (c : Z) (pc : lock_pc) (w : Z) (st : lock_state) : lock_state :=
  mk_lock_state w (<[c := pc]> (cpus st)).

(** One atomic action of CPU [c]. *)
Inductive lock_step (c : Z) : lock_state -> lock_state -> Prop :=
| step_call st : at_pc st c Idle -> lock_step c st (set_pc c Exchange (word st) st)
| step_exchange st w old :
    at_pc st c Exchange -> atomic_exchange_acquire (word st) 1 = (w, old) ->
    lock_step c st (set_pc c (if old =? 0 then Critical else Spin) w st)
| step_load st :
    at_pc st c Spin ->
    lock_step c st (set_pc c (if atomic_load_relaxed (word st) =? 0 then Exchange else Spin) (word st) st)
| step_release st :
    at_pc st c Critical -> lock_step c st (set_pc c Idle (atomic_store_release (word st) 0) st).

(** A release by a CPU that does not hold the lock, which the comment on
    [spinlock_release] allows. *)
Inductive stray_release (c : Z) : lock_state -> lock_state -> Prop :=
| step_stray st : at_pc st c Idle -> stray_release c st (set_pc c Idle (atomic_store_release (word st) 0) st).

Definition any_step (st st' : lock_state) : Prop := exists c, lock_step c st st'.

Definition any_step_or_stray (st st' : lock_state) : Prop := exists c, lock_step c st st' \/ stray_release c st st'.

(** Every CPU outside, the lock free. *)
Definition lock_initial (st : lock_state) : Prop :=
  word st = empty_spinlock /\ forall c pc, at_pc st c pc -> pc = Idle.

Definition lock_inv (st : lock_state) : Prop :=
  (word st = 0 \/ word st = 1) /\
  (forall c d, at_pc st c Critical -> at_pc st d Critical -> c = d) /\
  (word st = 1 <-> exists c, at_pc st c Critical).

Definition two_idle : lock_state := mk_lock_state 0 {[ 1 := Idle; 2 := Idle ]}.

Definition three_idle : lock_state := mk_lock_state 0 {[ 1 := Idle; 2 := Idle; 3 := Idle ]}.

(** ** Lemmas *)

Lemma spinlock_acquire_ok held l Q : l ∉ held -> Q tt ({[l]} ∪ held) -> wp (spinlock_acquire l) held Q.
Proof. intros Hl HQ. unfold wp, spinlock_acquire. by rewrite decide_False by done. Qed.

Lemma spinlock_acquire_hang held l : l ∈ held -> spinlock_acquire l held = Hang.
Proof. intros Hl. unfold spinlock_acquire. by rewrite decide_True by done. Qed.

Lemma spinlock_release_ok held l Q : Q tt (held ∖ {[l]}) -> wp (spinlock_release l) held Q.
Proof. intros HQ. unfold wp, spinlock_release. simpl. by destruct (decide (l ∈ held)). Qed.

(** However long a CPU waits for a held lock, alone it never gets it. *)
Lemma acquire_held_hangs fuel : acquire_loop fuel 1 = Hang.
Proof.
  destruct fuel as [|fuel]; [done|]. simpl. unfold mbind, M_bind.
  replace (spin_loop fuel 1) with (@Hang Z unit); [done|]. by induction fuel.
Qed.

Lemma at_set_pc c pc w st d pc' :
  at_pc (set_pc c pc w st) d pc' <-> (d = c /\ pc' = pc) \/ (d <> c /\ at_pc st d pc').
Proof.
  unfold at_pc, set_pc. simpl. destruct (decide (d = c)) as [->|]; simplify_map_eq; naive_solver.
Qed.

(** A step that neither enters nor leaves the critical section. *)
Lemma lock_inv_keep c pc pc' st :
  lock_inv st -> at_pc st c pc -> pc <> Critical -> pc' <> Critical -> lock_inv (set_pc c pc' (word st) st).
Proof.
  intros (Hw & Hx & Hc) Hpc Hn Hn'. split; [done|]. split.
  - intros d e. rewrite !at_set_pc. naive_solver.
  - simpl. rewrite Hc. split; intros [d Hd]; exists d.
    + apply at_set_pc. right. split; [|done]. intros ->. unfold at_pc in *. congruence.
    + apply at_set_pc in Hd as [[_ ?]|[_ ?]]; [congruence|done].
Qed.

Lemma lock_inv_step c st st' : lock_inv st -> lock_step c st st' -> lock_inv st'.
Proof.
  intros Hinv Hs. destruct Hs as [st Hpc|st w old Hpc [= <- <-]|st Hpc|st Hpc].
  - by eapply lock_inv_keep.
  - destruct (Z.eqb_spec (word st) 0) as [E|E]; destruct Hinv as (Hw & Hx & Hc).
    + assert (forall d, ~ at_pc st d Critical) as Hno.
      { intros d Hd. assert (word st = 1) by (apply Hc; eauto). lia. }
      split; [by right|]. split.
      * intros d e. rewrite !at_set_pc. intros [[? _]|[_ Hd]] [[? _]|[_ He]]; try by (exfalso; eapply Hno). congruence.
      * split; [|done]. intros _. exists c. apply at_set_pc. by left.
    + destruct Hw as [?|Hw]; [done|]. rewrite <- Hw. eapply lock_inv_keep; [by split_and!; [right|..]|done..].
  - eapply lock_inv_keep; [done..|]. by case_match.
  - destruct Hinv as (Hw & Hx & Hc). split; [by left|].
    assert (forall d, ~ at_pc (set_pc c Idle 0 st) d Critical) as Hno.
    { intros d [[_ ?]|[Hd Hd']]%at_set_pc; [done|]. apply Hd. by apply Hx. }
    split; [intros d e Hd; by apply Hno in Hd|]. split; [done|]. intros [d Hd]. by apply Hno in Hd.
Qed.

Lemma lock_inv_reachable st st' : lock_initial st -> rtc any_step st st' -> lock_inv st'.
Proof.
  intros [Hw Hi] Hr. assert (lock_inv st) as H0.
  { assert (forall c, ~ at_pc st c Critical) by (by intros c Hc%Hi). split; [by left|]. split; [naive_solver|].
    rewrite Hw. split; [done|]. naive_solver. }
  clear Hw Hi. induction Hr as [|a b d [c Hs] _ IH]; [done|]. apply IH. by eapply lock_inv_step.
Qed.

(** ** Properties *)

(** C35: mutual exclusion and no lost lock. However the CPUs interleave, at most
    one of them has returned from [spinlock_acquire] without releasing, the lock
    word is 1 exactly then, and a waiting CPU enters in at most three of its own
    steps once the word is 0, so a free lock can always be taken. *)
Theorem spinlock_mutual_exclusion st st' c :
  lock_initial st -> rtc any_step st st' ->
  (forall d e, at_pc st' d Critical -> at_pc st' e Critical -> d = e) /\
  (word st' = 1 <-> exists d, at_pc st' d Critical) /\
  (is_Some (cpus st' !! c) -> word st' = 0 -> exists st'', rtc (lock_step c) st' st'' /\ at_pc st'' c Critical).
Proof.
  intros Hi Hr. destruct (lock_inv_reachable _ _ Hi Hr) as (Hw & Hx & Hc). split; [done|]. split; [done|].
  intros [pc Hpc] H0.
  assert (forall s, word s = 0 -> at_pc s c Exchange -> exists s', rtc (lock_step c) s s' /\ at_pc s' c Critical) as Henter.
  { intros s Hs Hpcs. exists (set_pc c Critical 1 s). split; [|apply at_set_pc; by left].
    apply rtc_once. pose proof (step_exchange c s 1 (word s) Hpcs eq_refl) as H1. by rewrite Hs in H1. }
  assert (forall s', at_pc (set_pc c Exchange 0 s') c Exchange) by (intros; apply at_set_pc; by left).
  destruct pc.
  - destruct (Henter (set_pc c Exchange 0 st')) as (s' & Hs & ?); [done..|]. exists s'. split; [|done].
    eapply rtc_l; [|exact Hs]. pose proof (step_call c st' Hpc) as Hc1. by rewrite H0 in Hc1.
  - by apply Henter.
  - destruct (Henter (set_pc c Exchange 0 st')) as (s' & Hs & ?); [done..|]. exists s'. split; [|done].
    eapply rtc_l; [|exact Hs]. pose proof (step_load c st' Hpc) as Hc1. unfold atomic_load_relaxed in Hc1. by rewrite H0 in Hc1.
  - exists st'. by split; [constructor|].
Qed.

Lemma two_idle_initial : lock_initial two_idle.
Proof.
  split; [done|]. intros c pc. unfold at_pc, two_idle. simpl. intros H.
  apply lookup_insert_Some in H as [[_ <-]|[_ H]]; [done|]. by apply lookup_singleton_Some in H as [_ <-].
Qed.

Lemma spinlock_mutual_exclusion_witness :
  lock_initial two_idle /\ exists st, rtc (lock_step 1) two_idle st /\ at_pc st 1 Critical.
Proof.
  split; [apply two_idle_initial|].
  apply (spinlock_mutual_exclusion two_idle two_idle 1 two_idle_initial (rtc_refl _ _)); [by eexists|reflexivity].
Defined.

(** A release by a CPU that does not hold the lock is not a no-op unless
    the lock is free: if another CPU holds it, two CPUs can be in the critical
    section. [spinlock_release] is documented as a no-op "if already cleared",
    and [_set_tail_physblocks] relies on it for locks it does not know to be
    its own. *)
Theorem stray_release_breaks_exclusion :
  lock_initial three_idle /\
  exists st, rtc any_step_or_stray three_idle st /\ at_pc st 1 Critical /\ at_pc st 2 Critical.
Proof.
  split.
  { split; [done|]. intros c pc H. unfold at_pc, three_idle in H. simpl in H.
    repeat (apply lookup_insert_Some in H as [[_ <-]|[_ H]]; [done|]). by apply lookup_singleton_Some in H as [_ <-]. }
  exists (mk_lock_state 1 {[ 1 := Critical; 2 := Critical; 3 := Idle ]}). split; [|done].
  eapply rtc_l; [exists 1; left; by apply step_call|].
  eapply rtc_l; [exists 1; left; by eapply step_exchange|].
  eapply rtc_l; [exists 3; right; by apply step_stray|].
  eapply rtc_l; [exists 2; left; by apply step_call|].
  eapply rtc_l; [exists 2; left; by eapply step_exchange|].
  match goal with |- rtc _ ?a ?b => replace a with b; [constructor|] end.
  unfold set_pc. simpl. f_equal.
Qed.
