(* ===== verification/Phys.v ===== *)
(** * The physical (buddy) allocator (include/mm.h, mm/phys.c)

    Every 4 KiB page has a [struct physblock] at [KERNEL_MEM_MAP_ADDRESS] plus
    its frame number times the size of the struct. The state keeps the structs
    by address, with two of their members in maps of their own: the embedded
    [struct list_node], at offset 8, is in the node memory the list code works
    on, and the lock, at offset 28, in the set of the locks that are held. The
    list heads and the lock of [struct phys_alloc_state] are at their offsets
    from the static pointer [alloc_state]. Reading a struct that is not there is
    [Undef]; acquiring a held lock is [Hang].

    Pointers to physblocks are addresses, and the frame number is recovered by
    the division the code does. *)

From stdpp Require Import base strings numbers gmap list sets.
From Stdlib Require Import ZArith Lia.
From S2P Require Import Prelude Macros MmDefs Page ListDL Spinlock.

(** ** Data *)

(** [physblock_type_t] and [alloc_flags_t]: a type in the low ten bits, and
    flags above. *)

Definition PHYSBLOCK_UNMANAGED : Z := 0.
Definition PHYSBLOCK_FREE : Z := 1.
Definition PHYSBLOCK_TAIL : Z := 2.
Definition PHYSBLOCK_PAGETABLE : Z := 3.
Definition PHYSBLOCK_PHYSBLOCK : Z := 4.
Definition PHYSBLOCK_KERNEL : Z := 5.
Definition PHYSBLOCK_USER : Z := 6.
Definition PHYSBLOCK_TYPE_MASK : Z := BIT_MASK_BELOW 10.
Definition PHYSBLOCK_MOVABLE : Z := Z.shiftl 1 10.
Definition PHYSBLOCK_PINNED : Z := Z.shiftl 1 11.

Definition ALLOC_KERNEL : Z := 1.
Definition ALLOC_USER : Z := 2.
Definition ALLOC_PAGETABLE : Z := 3.
Definition ALLOC_PHYSBLOCK : Z := 4.
Definition ALLOC_TYPE_MASK : Z := BIT_MASK_BELOW 10.
Definition ALLOC_MOVABLE : Z := Z.shiftl 1 10.
Definition ALLOC_PINNED : Z := Z.shiftl 1 11.

Record physblock := mk_physblock {
  head_offset : Z;
  order : Z;
  type : Z;
  refcount : Z;
}.

#[global] Instance physblock_eq_dec : EqDecision physblock.
Proof. solve_decision. Defined.

(** The layout of [struct physblock]. *)

Definition SIZEOF_PHYSBLOCK : Z := 32.
Definition NODE_OFFSET : Z := 8.
Definition LOCK_OFFSET : Z := 28.

(** [struct phys_alloc_stats]; [order_stats] holds the [num_free_pages] of its
    array of [struct phys_alloc_order_stats]. *)
Record phys_alloc_stats := mk_stats {
  num_4k_pages : Z;
  num_free_4k_pages : Z;
  num_pagetable_pages : Z;
  num_physblock_pages : Z;
  order_stats : list Z;
}.

Record phys_alloc_span := mk_phys_span { start_pfn : Z; num_pages : Z }.

(** The memory the allocator works on: the physblocks, the list nodes, the held
    locks, and [*alloc_state] without its lists and its lock. *)
Record phys_mem := mk_phys {
  blocks : gmap Z physblock;
  pnodes : nodes;
  locks : gset Z;
  stats : phys_alloc_stats;
  spans : list phys_alloc_span;
  alloc_state : Z;
}.

Abbreviation PM := (M phys_mem).

(** [&alloc_state->free_lists[order]] and [&alloc_state->lock]. *)

Definition free_list (s : phys_mem) (order : Z) : Z := alloc_state s + 16 * order.

Definition alloc_lock (s : phys_mem) : Z := alloc_state s + 344.

(** *** Accesses *)

Definition with_blocks (b : gmap Z physblock) (s : phys_mem) : phys_mem :=
  mk_phys b (pnodes s) (locks s) (stats s) (spans s) (alloc_state s).

Definition with_nodes (n : nodes) (s : phys_mem) : phys_mem :=
  mk_phys (blocks s) n (locks s) (stats s) (spans s) (alloc_state s).

Definition with_locks (l : gset Z) (s : phys_mem) : phys_mem :=
  mk_phys (blocks s) (pnodes s) l (stats s) (spans s) (alloc_state s).

Definition with_stats (st : phys_alloc_stats) (s : phys_mem) : phys_mem :=
  mk_phys (blocks s) (pnodes s) (locks s) st (spans s) (alloc_state s).

Definition list_op {A} (m : M nodes A) : PM A := zoom pnodes with_nodes m.

Definition lock_op {A} (m : M (gset Z) A) : PM A := zoom locks with_locks m.

Definition get_block (b : Z) : PM physblock :=
  s ← get;
  lift (blocks s !! b).

Definition set_block (b : Z) (x : physblock) : PM unit :=
  modify (fun s => with_blocks (<[b := x]> (blocks s)) s).

Definition set_stats (f : phys_alloc_stats -> phys_alloc_stats) : PM unit :=
  modify (fun s => with_stats (f (stats s)) s).

(** [stats->order[o].num_free_pages += d]. *)
Definition order_add (o d : Z) : PM unit :=
  s ← get;
  n ← lift (zlookup (order_stats (stats s)) o);
  set_stats (fun st => mk_stats (num_4k_pages st) (num_free_4k_pages st) (num_pagetable_pages st)
    (num_physblock_pages st) (zinsert o (u64 (n + d)) (order_stats st))).

Definition free_4k_add (d : Z) (st : phys_alloc_stats) : phys_alloc_stats :=
  mk_stats (num_4k_pages st) (u64 (num_free_4k_pages st + d)) (num_pagetable_pages st)
    (num_physblock_pages st) (order_stats st).

Definition pagetable_add (d : Z) (st : phys_alloc_stats) : phys_alloc_stats :=
  mk_stats (num_4k_pages st) (num_free_4k_pages st) (u64 (num_pagetable_pages st + d))
    (num_physblock_pages st) (order_stats st).

Definition physblock_add (d : Z) (st : phys_alloc_stats) : phys_alloc_stats :=
  mk_stats (num_4k_pages st) (num_free_4k_pages st) (num_pagetable_pages st)
    (u64 (num_physblock_pages st + d)) (order_stats st).

Definition acquire_block (b : Z) : PM unit := lock_op (spinlock_acquire (b + LOCK_OFFSET)).

Definition release_block (b : Z) : PM unit := lock_op (spinlock_release (b + LOCK_OFFSET)).

Definition acquire_alloc : PM unit := s ← get; lock_op (spinlock_acquire (alloc_lock s)).

Definition release_alloc : PM unit := s ← get; lock_op (spinlock_release (alloc_lock s)).

(** ** include/mm.h *)

Definition _pfn_to_physblock_raw (pfn : Z) : Z := (KERNEL_MEM_MAP_ADDRESS + pfn * SIZEOF_PHYSBLOCK)%u64.

Definition _pfn_to_physblock_raw_lock (pfn : Z) : PM Z :=
  let block := _pfn_to_physblock_raw pfn in
  acquire_block block;;
  mret block.

(** The local [offset] is a [uint8_t]. *)
Definition physblock_tail_to_head (block pfn : Z) : PM Z :=
  b ← get_block block;
  let offset := u8 (head_offset b) in
  release_block block;;
  _pfn_to_physblock_raw_lock (pfn - offset)%u64.

Definition pfn_to_physblock_lock (pfn : Z) : PM Z :=
  block ← _pfn_to_physblock_raw_lock pfn;
  b ← get_block block;
  if head_offset b =? 0 then mret block else physblock_tail_to_head block pfn.

Definition phys_to_physblock_lock (pa : Z) : PM Z := pfn_to_physblock_lock (phys_to_pfn pa).

Definition physblock_to_pfn (block : Z) : Z := (block - KERNEL_MEM_MAP_ADDRESS)%u64 / SIZEOF_PHYSBLOCK.

Definition physblock_to_phys (block : Z) : Z := pfn_to_phys (physblock_to_pfn block).

Definition pfn_to_buddy_pfn (pfn order : Z) : Z := (pfn ^^ (1 << order))%u64.

(** ** mm/phys.c *)

Definition phys_get_alloc_state_lock : PM Z :=
  acquire_alloc;;
  gets alloc_state.

Fixpoint pfn_to_span_in (l : list phys_alloc_span) (i pfn : Z) : Z :=
  match l with
  | [] => -1
  | span :: l' =>
      if (start_pfn span <=? pfn) && (pfn <? (start_pfn span + num_pages span)%u64) then i
      else pfn_to_span_in l' (i + 1) pfn
  end.

Definition pfn_to_span_locked (pfn : Z) : PM Z := gets (fun s => pfn_to_span_in (spans s) 0 pfn).

(** [None] is the null pointer. *)
Definition physblock_to_buddy_lock (block : Z) : PM (option Z) :=
  let pfn := physblock_to_pfn block in
  b ← get_block block;
  let buddy_pfn := pfn_to_buddy_pfn pfn (order b) in
  span ← pfn_to_span_locked pfn;
  buddy_span ← pfn_to_span_locked buddy_pfn;
  if (span =? -1) || negb (span =? buddy_span) then mret None
  else
    buddy ← pfn_to_physblock_lock buddy_pfn;
    mret (Some buddy).

Definition set_tail (start i : Z) : PM unit :=
  let block := start + SIZEOF_PHYSBLOCK * i in
  b ← get_block block;
  set_block block (mk_physblock i 0 PHYSBLOCK_TAIL (refcount b));;
  release_block block.

Definition _set_tail_physblocks (start order : Z) : PM unit :=
  let num_blocks := u16 (Z.shiftl 1 order) in
  for_loop (Z.to_nat (num_blocks - 1)) 1 (set_tail start).

Definition set_order (block order : Z) : PM unit :=
  b ← get_block block;
  set_block block (mk_physblock (head_offset b) order (type b) (refcount b)).

Definition _join_physblocks_locked (head tail order : Z) : PM Z :=
  set_order head order;;
  list_op (list_detach (head + NODE_OFFSET));;
  list_op (list_detach (tail + NODE_OFFSET));;
  s ← get;
  list_op (list_push_back (free_list s order) (head + NODE_OFFSET));;
  _set_tail_physblocks head order;;
  order_add (order - 1) (-2);;
  order_add order 1;;
  mret head.

(** The loop runs for the orders below [MAX_ORDER]. *)
Fixpoint compact_loop (fuel : nat) (o block : Z) : PM Z :=
  match fuel with
  | O => hang
  | S fuel' =>
      if o <=? MAX_ORDER - 1 then
        r ← physblock_to_buddy_lock block;
        match r with
        | None => mret block
        | Some buddy =>
            b ← get_block buddy;
            if negb (Z.land (type b) PHYSBLOCK_TYPE_MASK =? PHYSBLOCK_FREE) || negb (order b =? o) then
              release_block buddy;;
              mret block
            else
              block' ← (if buddy <? block then _join_physblocks_locked buddy block (o + 1)
                        else _join_physblocks_locked block buddy (o + 1));
              compact_loop fuel' (o + 1) block'
        end
      else mret block
  end.

Definition compact_free_blocks_locked (block : Z) : PM Z :=
  b ← get_block block;
  compact_loop 14 (order b) block.

Definition set_refcount (block n : Z) : PM unit :=
  b ← get_block block;
  set_block block (mk_physblock (head_offset b) (order b) (type b) n).

Definition set_type (block t : Z) : PM unit :=
  b ← get_block block;
  set_block block (mk_physblock (head_offset b) (order b) t (refcount b)).

Definition free_physblock_locked (block : Z) : PM unit :=
  b ← get_block block;
  if refcount b =? 0 then release_block block
  else if 1 <? refcount b then
    set_refcount block (refcount b - 1);;
    release_block block
  else
    set_refcount block 0;;
    b ← get_block block;
    let o := order b in
    acquire_alloc;;
    let t := Z.land (type b) PHYSBLOCK_TYPE_MASK in
    (if t =? PHYSBLOCK_FREE then mret tt
     else
       (if t =? PHYSBLOCK_PAGETABLE then set_stats (pagetable_add (-1))
        else if t =? PHYSBLOCK_PHYSBLOCK then set_stats (physblock_add (-1))
        else mret tt);;
       set_type block PHYSBLOCK_FREE;;
       s ← get;
       list_op (list_push_back (free_list s o) (block + NODE_OFFSET));;
       set_stats (free_4k_add (1 << o)%u64);;
       order_add o 1);;
    block' ← compact_free_blocks_locked block;
    release_alloc;;
    release_block block'.

Definition init_page (pfn : Z) : PM unit :=
  block ← pfn_to_physblock_lock pfn;
  b ← get_block block;
  let t := Z.land (type b) PHYSBLOCK_TYPE_MASK in
  if t =? PHYSBLOCK_UNMANAGED then
    set_refcount block 1;;
    free_physblock_locked block
  else
    (if t =? PHYSBLOCK_PAGETABLE then set_stats (pagetable_add 1)
     else if t =? PHYSBLOCK_PHYSBLOCK then set_stats (physblock_add 1)
     else mret tt);;
    release_block block.

Definition phys_alloc_init_span (span : phys_alloc_span) : PM unit :=
  set_stats (fun st => mk_stats (u64 (num_4k_pages st + num_pages span)) (num_free_4k_pages st)
    (num_pagetable_pages st) (num_physblock_pages st) (order_stats st));;
  for_loop (Z.to_nat (num_pages span)) (start_pfn span) (fun pfn => init_page (u64 pfn)).

Fixpoint init_all_spans (l : list phys_alloc_span) : PM unit :=
  match l with
  | [] => mret tt
  | span :: l' => phys_alloc_init_span span;; init_all_spans l'
  end.

Definition phys_alloc_init : PM unit :=
  s ← get;
  init_all_spans (spans s).

Definition split_block_locked (block : Z) : PM unit :=
  b ← get_block block;
  let new_order := u8 (order b - 1) in
  let pfn := physblock_to_pfn block in
  let buddy := _pfn_to_physblock_raw (pfn_to_buddy_pfn pfn new_order) in
  set_order block new_order;;
  set_order buddy new_order;;
  set_type buddy PHYSBLOCK_FREE;;
  c ← get_block buddy;
  set_block buddy (mk_physblock 0 (order c) (type c) (refcount c));;
  _set_tail_physblocks buddy new_order;;
  list_op (list_detach (block + NODE_OFFSET));;
  s ← get;
  list_op (list_push_back (free_list s new_order) (block + NODE_OFFSET));;
  list_op (list_push_back (free_list s new_order) (buddy + NODE_OFFSET));;
  order_add (new_order + 1) (-1);;
  order_add new_order 2;;
  release_block block.

(** The first order above the target with a free block. *)
Fixpoint find_order (fuel : nat) (o : Z) : PM Z :=
  match fuel with
  | O => hang
  | S fuel' =>
      if o <=? MAX_ORDER then
        s ← get;
        empty ← list_op (list_empty (free_list s o));
        if (empty : bool) then find_order fuel' (o + 1) else mret o
      else mret o
  end.

(** A block that is not what its list says is retried at the same order. *)
Fixpoint split_loop (fuel : nat) (target o : Z) : PM unit :=
  match fuel with
  | O => hang
  | S fuel' =>
      if target + 1 <=? o then
        s ← get;
        block ← list_op (list_first_element (free_list s o) NODE_OFFSET);
        acquire_block block;;
        b ← get_block block;
        if negb (type b =? PHYSBLOCK_FREE) || negb (order b =? o) then
          release_block block;;
          split_loop fuel' target o
        else
          split_block_locked block;;
          split_loop fuel' target (o - 1)
      else mret tt
  end.

Definition split_higher_order_blocks (target_order : Z) : PM unit :=
  o ← find_order 14 (u8 (target_order + 1));
  if MAX_ORDER <? o then panic "Out of memory (fragmentation), cannot split pages to obtain one of order %u"
  else split_loop 14 target_order o.

Definition alloc_flags_to_physblock_type (flags : Z) : PM Z :=
  let t := Z.land flags ALLOC_TYPE_MASK in
  type ←
    (if t =? ALLOC_KERNEL then mret PHYSBLOCK_KERNEL
     else if t =? ALLOC_USER then mret PHYSBLOCK_USER
     else if t =? ALLOC_PAGETABLE then mret PHYSBLOCK_PAGETABLE
     else if t =? ALLOC_PHYSBLOCK then mret PHYSBLOCK_PHYSBLOCK
     else panic "Unrecognised alloc flag %d");
  let type := if IS_MASK_SET flags ALLOC_MOVABLE then Z.lor type PHYSBLOCK_MOVABLE else type in
  let type := if IS_MASK_SET flags ALLOC_PINNED then Z.lor type PHYSBLOCK_PINNED else type in
  mret type.

(** The end of [phys_alloc_block]: [block], with contents [b], is handed out. *)
Definition take_block (o flags num_pages block : Z) (b : physblock) : PM Z :=
  list_op (list_detach (block + NODE_OFFSET));;
  t ← alloc_flags_to_physblock_type flags;
  set_type block t;;
  set_refcount block (u32 (refcount b + 1));;
  set_stats (free_4k_add (- num_pages));;
  order_add o (-1);;
  (if Z.land flags ALLOC_TYPE_MASK =? ALLOC_PAGETABLE then set_stats (pagetable_add 1)
   else if Z.land flags ALLOC_TYPE_MASK =? ALLOC_PHYSBLOCK then set_stats (physblock_add 1)
   else mret tt);;
  release_block block;;
  release_alloc;;
  mret block.

(** The code calls itself when the block it found is not free any more; alone
    on the machine the retry meets the same state again. *)
Fixpoint alloc_block_fuel (fuel : nat) (o flags : Z) : PM Z :=
  match fuel with
  | O => hang
  | S fuel' =>
      if MAX_ORDER <? o then panic "Invalid order %u, maximum is %u"
      else
        acquire_alloc;;
        s ← get;
        let num_pages := (1 << o)%u64 in
        if num_free_4k_pages (stats s) <? num_pages then
          panic "Out of memory: %lu pages requested, %lu available (order %u)"
        else
          empty ← list_op (list_empty (free_list s o));
          (if (empty : bool) then split_higher_order_blocks o else mret tt);;
          block ← list_op (list_first_element (free_list s o) NODE_OFFSET);
          acquire_block block;;
          b ← get_block block;
          if negb (type b =? PHYSBLOCK_FREE) || negb (order b =? o) then
            release_block block;;
            release_alloc;;
            alloc_block_fuel fuel' o flags
          else
            take_block o flags num_pages block b
  end.

Definition phys_alloc_block (o flags : Z) : PM Z := alloc_block_fuel 1 o flags.

Definition phys_alloc (o flags : Z) : PM Z :=
  block ← phys_alloc_block o flags;
  mret (physblock_to_phys block).

Definition phys_alloc_one : PM Z := phys_alloc 0 ALLOC_KERNEL.

Definition phys_free_pfn (pfn : Z) : PM unit :=
  block ← pfn_to_physblock_lock pfn;
  free_physblock_locked block.

Definition phys_free (pa : Z) : PM unit := phys_free_pfn (phys_to_pfn pa).

(** ** Specification *)

Definition blk (p : Z) : Z := KERNEL_MEM_MAP_ADDRESS + 32 * p.

Definition node (p : Z) : Z := blk p + 8.

Definition lck (p : Z) : Z := blk p + 28.

Definition tail (i : Z) : physblock := mk_physblock i 0 PHYSBLOCK_TAIL 0.

Definition span_of (sp : list phys_alloc_span) (p : Z) : Z := pfn_to_span_in sp 0 p.

(** The frames of the spans. *)
Definition pfns (sp : list phys_alloc_span) : list Z :=
  concat ((fun a => seqZ (start_pfn a) (num_pages a)) <$> sp).

(** What a page is: part of a free block, or of a block in use with its first
    frame, order, type and reference count. *)
Inductive page_state := Free | Used (head o t refs : Z).

#[global] Instance page_state_eq_dec : EqDecision page_state.
Proof. solve_decision. Defined.

Definition head_state (h : Z) (b : physblock) : page_state :=
  if Z.land (type b) PHYSBLOCK_TYPE_MASK =? PHYSBLOCK_FREE then Free else Used h (order b) (type b) (refcount b).

Definition page_status (B : gmap Z physblock) (p : Z) : option page_state :=
  b ← B !! blk p;
  h ← B !! blk (p - head_offset b);
  Some (head_state (p - head_offset b) h).

Definition is_free (B : gmap Z physblock) (p : Z) : bool := bool_decide (page_status B p = Some Free).

(** [h] is the first frame of a block of order [o]: aligned, in one span, its
    other frames marked as tails that lead back to it. *)
Record block_ok (B : gmap Z physblock) (sp : list phys_alloc_span) (h o : Z) : Prop := {
  bo_order : 0 <= o <= MAX_ORDER;
  bo_align : (2 ^ o | h);
  bo_head : exists b, B !! blk h = Some b /\ head_offset b = 0 /\ order b = o;
  bo_tail : forall i, 1 <= i < 2 ^ o -> B !! blk (h + i) = Some (tail i);
  bo_span : forall i, 0 <= i < 2 ^ o -> span_of sp (h + i) = span_of sp h;
  bo_managed : span_of sp h <> -1;
}.

Definition free_block (B : gmap Z physblock) (sp : list phys_alloc_span) (h o : Z) : Prop :=
  block_ok B sp h o /\ exists b, B !! blk h = Some b /\ type b = PHYSBLOCK_FREE.

(** What holds of every first frame. *)
Definition head_wf (b : physblock) : Prop :=
  (Z.land (type b) PHYSBLOCK_TYPE_MASK = PHYSBLOCK_FREE -> type b = PHYSBLOCK_FREE /\ refcount b = 0) /\
  is_u32 (refcount b).

Record spans_wf (sp : list phys_alloc_span) : Prop := {
  sw_range : Forall (fun a => 0 <= start_pfn a /\ 0 <= num_pages a /\ start_pfn a + num_pages a <= 2 ^ 35) sp;
  sw_nodup : NoDup (pfns sp);
}.

(** The list heads at [base] hold the frames [L o] for each order [o]. *)
Definition rings_ok (ns : nodes) (base : Z) (L : Z -> list Z) : Prop :=
  forall o, 0 <= o <= MAX_ORDER -> ring ns (base + 16 * o) (node <$> L o).

Record phys_inv (s : phys_mem) (L : Z -> list Z) : Prop := {
  pi_spans : spans_wf (spans s);
  pi_ptr : 0 <= alloc_state s /\ alloc_state s + 4096 <= KERNEL_MEM_MAP_ADDRESS;
  pi_part : forall p, span_of (spans s) p <> -1 ->
    exists h o, block_ok (blocks s) (spans s) h o /\ h <= p < h + 2 ^ o;
  pi_head : forall h o b, block_ok (blocks s) (spans s) h o -> blocks s !! blk h = Some b -> head_wf b;
  pi_free : forall o p, 0 <= o <= MAX_ORDER -> p ∈ L o <-> free_block (blocks s) (spans s) p o;
  pi_rings : rings_ok (pnodes s) (alloc_state s) L;
  pi_nodes : forall p, span_of (spans s) p <> -1 -> is_Some (pnodes s !! node p);
  pi_order : order_stats (stats s) = (fun o => zlength (L o)) <$> seqZ 0 13;
  pi_count : num_free_4k_pages (stats s) = count_true (is_free (blocks s)) (pfns (spans s));
}.

(** No two free blocks that could be one, except possibly around [x]. *)
Definition coalesced_but (x : Z -> Prop) (sp : list phys_alloc_span) (L : Z -> list Z) : Prop :=
  forall o p, 0 <= o < MAX_ORDER -> p ∈ L o -> Z.lxor p (2 ^ o) ∈ L o ->
    span_of sp (Z.lxor p (2 ^ o)) = span_of sp p -> x p \/ x (Z.lxor p (2 ^ o)).

Definition coalesced (sp : list phys_alloc_span) (L : Z -> list Z) : Prop := coalesced_but (fun _ => False) sp L.

(** The state between two operations. *)
Definition phys_ok (s : phys_mem) : Prop :=
  exists L, phys_inv s L /\ coalesced (spans s) L /\ locks s = ∅.

Definition upd (o : Z) (l : list Z) (L : Z -> list Z) : Z -> list Z := fun k => if decide (k = o) then l else L k.

(** The lists hold frames in range, and no frame twice. *)
Definition lists_sep (L : Z -> list Z) : Prop :=
  (forall o p, 0 <= o <= MAX_ORDER -> p ∈ L o -> 0 <= p < 2 ^ 35) /\
  (forall o o' p, 0 <= o <= MAX_ORDER -> 0 <= o' <= MAX_ORDER -> o <> o' -> p ∈ L o -> p ∉ L o').

(** [2 ^ o] aligned free frames in one span. *)
Definition free_run (s : phys_mem) (o p : Z) : Prop :=
  (2 ^ o | p) /\ forall i, 0 <= i < 2 ^ o ->
    page_status (blocks s) (p + i) = Some Free /\ span_of (spans s) (p + i) = span_of (spans s) p /\
    span_of (spans s) p <> -1.

(** ** Addresses *)

Lemma blk_inj p q : blk p = blk q -> p = q.
Proof. unfold blk. lia. Qed.

Lemma raw_blk p : 0 <= p < 2 ^ 35 -> _pfn_to_physblock_raw p = blk p.
Proof.
  intros Hp. unfold _pfn_to_physblock_raw, SIZEOF_PHYSBLOCK, blk, KERNEL_MEM_MAP_ADDRESS, mul64.
  rewrite (u64_small (p * 32)) by (unfold is_u; lia). rewrite add64_small by (unfold is_u; lia). lia.
Qed.

Lemma blk_to_pfn p : 0 <= p < 2 ^ 35 -> physblock_to_pfn (blk p) = p.
Proof.
  intros Hp. unfold physblock_to_pfn, SIZEOF_PHYSBLOCK, blk. rewrite sub64_small by (unfold is_u; lia).
  replace (KERNEL_MEM_MAP_ADDRESS + 32 * p - KERNEL_MEM_MAP_ADDRESS) with (p * 32) by lia. by rewrite Z.div_mul by lia.
Qed.

(** ** Spans *)

Lemma span_of_range sp p : spans_wf sp -> span_of sp p <> -1 -> 0 <= p < 2 ^ 35.
Proof.
  intros [Hr _]. unfold span_of. generalize 0 at 1. induction sp as [|a sp IH]; simpl; intros i; [done|].
  apply Forall_cons in Hr as [(? & ? & ?) Hr]. case_match eqn:E; [|by apply IH].
  rewrite add64_small in E by (unfold is_u; lia). bool_to_prop. lia.
Qed.

Lemma span_in_nonneg sp i p : 0 <= i -> pfn_to_span_in sp i p = -1 \/ 0 <= pfn_to_span_in sp i p.
Proof. revert i. induction sp as [|a sp IH]; simpl; intros i Hi; [by left|]. case_match; [by right|]. apply IH. lia. Qed.

Lemma elem_of_pfns sp p : spans_wf sp -> p ∈ pfns sp <-> span_of sp p <> -1.
Proof.
  intros [Hr _]. unfold span_of, pfns. assert (0 <= 0) as H0 by lia. revert H0. generalize 0 at 2 3. induction sp as [|a sp IH]; simpl; intros i Hi.
  - split; [by intros ?%elem_of_nil|done].
  - apply Forall_cons in Hr as [(? & ? & ?) Hr]. rewrite elem_of_app, elem_of_seqZ, (IH Hr (i + 1)) by lia.
    rewrite add64_small by (unfold is_u; lia).
    destruct (Z.leb_spec (start_pfn a) p), (Z.ltb_spec p (start_pfn a + num_pages a)); simpl; lia.
Qed.

Lemma zlength_pfns sp : spans_wf sp -> zlength (pfns sp) <= 2 ^ 35.
Proof.
  intros Hw. assert (length (pfns sp) <= length (seqZ 0 (2 ^ 35)))%nat as Hl.
  { apply submseteq_length, NoDup_submseteq; [apply Hw|]. intros p Hp%elem_of_pfns; [|done].
    apply elem_of_seqZ. pose proof (span_of_range _ _ Hw Hp). lia. }
  rewrite length_seqZ in Hl. unfold zlength. lia.
Qed.

(** ** Blocks *)

Section blocks.
Context (sp : list phys_alloc_span).
Implicit Type B : gmap Z physblock.

Lemma block_page B h o p :
  block_ok B sp h o -> h <= p < h + 2 ^ o -> exists b, B !! blk p = Some b /\ head_offset b = p - h.
Proof.
  intros Hb Hp. destruct (decide (p = h)) as [->|].
  - destruct (bo_head _ _ _ _ Hb) as (b & ? & ? & _). exists b. split; [done|]. lia.
  - exists (tail (p - h)). split; [|done]. rewrite <- (bo_tail _ _ _ _ Hb) by lia. do 2 f_equal. lia.
Qed.

Lemma block_unique B h o h' o' p :
  block_ok B sp h o -> block_ok B sp h' o' -> h <= p < h + 2 ^ o -> h' <= p < h' + 2 ^ o' -> h = h' /\ o = o'.
Proof.
  intros H1 H2 Hp Hp'. destruct (block_page _ _ _ _ H1 Hp) as (b & E & ?), (block_page _ _ _ _ H2 Hp') as (b' & E' & ?).
  assert (h = h') as -> by (simplify_eq; lia). split; [done|].
  destruct (bo_head _ _ _ _ H1) as (c & ? & _ & ?), (bo_head _ _ _ _ H2) as (c' & ? & _ & ?). simplify_eq. done.
Qed.

Lemma block_frame B B' h o :
  (forall p, h <= p < h + 2 ^ o -> B' !! blk p = B !! blk p) -> block_ok B sp h o -> block_ok B' sp h o.
Proof.
  intros Hs Hb. pose proof (bo_order _ _ _ _ Hb). split; try apply Hb.
  - destruct (bo_head _ _ _ _ Hb) as (b & ? & ? & ?). exists b. by rewrite Hs by lia.
  - intros i Hi. rewrite Hs by lia. by apply Hb.
Qed.

Lemma block_managed B h o p : block_ok B sp h o -> h <= p < h + 2 ^ o -> span_of sp p = span_of sp h.
Proof. intros Hb Hp. replace p with (h + (p - h)) by lia. apply (bo_span _ _ _ _ Hb). lia. Qed.

Lemma block_status B h o b p :
  block_ok B sp h o -> B !! blk h = Some b -> h <= p < h + 2 ^ o -> page_status B p = Some (head_state h b).
Proof.
  intros Hb Eb Hp. destruct (block_page _ _ _ _ Hb Hp) as (c & Ec & Hc). unfold page_status.
  rewrite Ec. simpl. rewrite Hc. replace (p - (p - h)) with h by lia. by rewrite Eb.
Qed.

(** A region [a, a + n) is a union of blocks. *)
Definition tiled B (a n : Z) : Prop :=
  forall p, a <= p < a + n -> exists h o, block_ok B sp h o /\ h <= p < h + 2 ^ o /\ a <= h /\ h + 2 ^ o <= a + n.

(** A block outside a tiled region does not meet it. *)
Lemma tiled_apart B a n h o p :
  tiled B a n -> block_ok B sp h o -> ~ (a <= h < a + n) -> h <= p < h + 2 ^ o -> ~ (a <= p < a + n).
Proof.
  intros Ht Hb Hh Hp Hpa. destruct (Ht p Hpa) as (h' & o' & Hb' & Hp' & H1 & H2).
  destruct (block_unique _ _ _ _ _ _ Hb Hb' Hp Hp') as [-> ->]. apply Hh. pose proof (bo_order _ _ _ _ Hb'). lia.
Qed.

Lemma tiled_outside B B' a n h o :
  tiled B a n -> (forall p, ~ (a <= p < a + n) -> B' !! blk p = B !! blk p) ->
  ~ (a <= h < a + n) -> block_ok B sp h o -> block_ok B' sp h o.
Proof.
  intros Ht Hs Hh Hb. eapply block_frame; [|done]. intros p Hp. apply Hs. by eapply tiled_apart.
Qed.

Lemma tiled_one B h o : block_ok B sp h o -> tiled B h (2 ^ o).
Proof. intros Hb p Hp. exists h, o. pose proof (bo_order _ _ _ _ Hb). split_and!; try done; lia. Qed.

Lemma tiled_two B h o : block_ok B sp h o -> block_ok B sp (h + 2 ^ o) o -> tiled B h (2 ^ (o + 1)).
Proof.
  intros H1 H2 p Hp. pose proof (bo_order _ _ _ _ H1). rewrite Z.pow_add_r in * by lia.
  destruct (decide (p < h + 2 ^ o)); [exists h, o|exists (h + 2 ^ o), o]; split_and!; try done; lia.
Qed.

(** Every page of a span stays in a block when a tiled region is re-tiled. *)
Lemma partition_update B B' a n :
  tiled B a n -> tiled B' a n -> (forall p, ~ (a <= p < a + n) -> B' !! blk p = B !! blk p) ->
  (forall p, span_of sp p <> -1 -> exists h o, block_ok B sp h o /\ h <= p < h + 2 ^ o) ->
  forall p, span_of sp p <> -1 -> exists h o, block_ok B' sp h o /\ h <= p < h + 2 ^ o.
Proof.
  intros Ht Ht' Hs Hp p Hsp. destruct (decide (a <= p < a + n)) as [Hin|Hout].
  - destruct (Ht' p Hin) as (h & o & ? & ? & _). eauto.
  - destruct (Hp p Hsp) as (h & o & Hb & Hh). exists h, o. split; [|done].
    eapply tiled_outside; [exact Ht|done| |done]. intros Hin.
    destruct (Ht h Hin) as (h' & o' & Hb' & Hh' & H1 & H2).
    assert (h <= h < h + 2 ^ o) as Hhh by (pose proof (bo_order _ _ _ _ Hb); lia).
    destruct (block_unique _ _ _ _ _ _ Hb Hb' Hhh Hh') as [-> ->]. apply Hout. lia.
Qed.

(** Outside the region the status of a page in a block is kept. *)
Lemma status_outside B B' a n p h o :
  tiled B a n -> (forall p, ~ (a <= p < a + n) -> B' !! blk p = B !! blk p) ->
  block_ok B sp h o -> h <= p < h + 2 ^ o -> ~ (a <= p < a + n) -> page_status B' p = page_status B p.
Proof.
  intros Ht Hs Hb Hp Hout.
  assert (~ (a <= h < a + n)) as Hh.
  { intros Hin. destruct (Ht h Hin) as (h' & o' & Hb' & Hh' & H1 & H2).
    assert (h <= h < h + 2 ^ o) as Hhh by lia.
    destruct (block_unique _ _ _ _ _ _ Hb Hb' Hhh Hh') as [-> ->]. apply Hout. lia. }
  destruct (bo_head _ _ _ _ Hb) as (b & Eb & _).
  rewrite (block_status B h o b p Hb Eb Hp).
  apply (block_status B' h o b p); [by eapply tiled_outside|by rewrite Hs|done].
Qed.
End blocks.

(** ** Buddies *)

Lemma buddy_cases p o :
  0 <= o -> (2 ^ o | p) ->
  (Z.lxor p (2 ^ o) = p + 2 ^ o /\ (2 ^ (o + 1) | p)) \/
  (Z.lxor p (2 ^ o) = p - 2 ^ o /\ (2 ^ (o + 1) | p - 2 ^ o)).
Proof.
  intros Ho [k ->]. rewrite Z.pow_add_r, Z.pow_1_r by lia.
  assert (Z.testbit (k * 2 ^ o) o = Z.odd k) as Hbit.
  { rewrite Z.testbit_odd, Z.shiftr_div_pow2, Z.div_mul by lia. done. }
  destruct (Z.odd k) eqn:Ek; [right|left].
  - split.
    + rewrite Z.sub_nocarry_ldiff.
      * apply Z.bits_inj'. intros i Hi. rewrite Z.lxor_spec, Z.ldiff_spec, Z.pow2_bits_eqb by done.
        destruct (Z.eqb_spec o i) as [<-|]; [by rewrite Hbit|]. by rewrite xorb_false_r, andb_true_r.
      * apply Z.bits_inj'. intros i Hi. rewrite Z.bits_0, Z.ldiff_spec, Z.pow2_bits_eqb by done.
        destruct (Z.eqb_spec o i) as [<-|]; [by rewrite Hbit|done].
    + apply Z.odd_spec in Ek as [j ->]. exists j. lia.
  - split.
    + rewrite Z.add_nocarry_lxor; [done|].
      apply Z.bits_inj'. intros i Hi. rewrite Z.bits_0, Z.land_spec, Z.pow2_bits_eqb by done.
      destruct (Z.eqb_spec o i) as [<-|]; [by rewrite Hbit|]. by rewrite andb_false_r.
    + rewrite <- Z.negb_even in Ek. apply negb_false_iff, Z.even_spec in Ek as [j ->]. exists j. lia.
Qed.

Lemma buddy_pfn_lxor p o : 0 <= p < 2 ^ 35 -> 0 <= o <= MAX_ORDER -> pfn_to_buddy_pfn p o = Z.lxor p (2 ^ o).
Proof.
  intros Hp Ho. unfold pfn_to_buddy_pfn, shl64. rewrite Z.shiftl_1_l, u64_small; [done|].
  unfold MAX_ORDER in Ho. split; [lia|]. apply Z.pow_lt_mono_r; lia.
Qed.

Lemma lxor_pow_involutive p o : Z.lxor (Z.lxor p (2 ^ o)) (2 ^ o) = p.
Proof. by rewrite Z.lxor_assoc, Z.lxor_nilpotent, Z.lxor_0_r. Qed.

(** Two aligned regions are nested or apart. *)
Lemma aligned_nested h o h' o' p :
  0 <= o <= o' -> (2 ^ o | h) -> (2 ^ o' | h') -> h <= p < h + 2 ^ o -> h' <= p < h' + 2 ^ o' ->
  h' <= h /\ h + 2 ^ o <= h' + 2 ^ o'.
Proof.
  intros Ho [k ->] [k' ->] Hp Hp'.
  assert (2 ^ o' = 2 ^ (o' - o) * 2 ^ o) as E by (rewrite <- Z.pow_add_r by lia; f_equal; lia).
  rewrite E in *. set (n := 2 ^ o) in *. set (c := 2 ^ (o' - o)) in *.
  assert (0 < n) by (unfold n; lia). assert (0 < c) by (unfold c; lia).
  replace (k' * (c * n)) with ((k' * c) * n) in * by ring. set (d := k' * c) in *.
  assert (d < k + 1) by nia. assert (k < d + c) by nia. nia.
Qed.

Lemma pow_divide o o' : 0 <= o <= o' -> (2 ^ o | 2 ^ o').
Proof. intros. exists (2 ^ (o' - o)). rewrite <- Z.pow_add_r by lia. f_equal. lia. Qed.

Section buddies.
Context (sp : list phys_alloc_span) (B : gmap Z physblock).
Hypothesis Hpart : forall p, span_of sp p <> -1 -> exists h o, block_ok B sp h o /\ h <= p < h + 2 ^ o.

(** The buddy of a block, when in a span, is the first frame of a block that is
    not larger. *)
Lemma buddy_is_head h o :
  block_ok B sp h o -> o < MAX_ORDER -> span_of sp (Z.lxor h (2 ^ o)) <> -1 ->
  exists o', block_ok B sp (Z.lxor h (2 ^ o)) o' /\ o' <= o.
Proof.
  intros Hb Ho Hq. destruct (Hpart _ Hq) as (h' & o' & Hb' & Hq').
  pose proof (bo_order _ _ _ _ Hb) as Ho1. pose proof (bo_order _ _ _ _ Hb') as Ho2.
  set (q := Z.lxor h (2 ^ o)) in *. pose proof (bo_align _ _ _ _ Hb) as Ha.
  assert ((2 ^ o | q) /\ exists m, (2 ^ (o + 1) | m) /\ m <= h < m + 2 ^ (o + 1) /\ m <= q < m + 2 ^ (o + 1))
    as (Hqa & m & Hm & Hmh & Hmq).
  { assert (2 ^ (o + 1) = 2 * 2 ^ o) as E by (rewrite Z.pow_add_r by lia; lia).
    unfold q. destruct (buddy_cases h o) as [[-> ?]|[-> ?]]; [lia|done|..].
    - split; [by apply Z.divide_add_r; [|exists 1; lia]|]. exists h. split; [done|]. lia.
    - split; [by apply Z.divide_sub_r; [|exists 1; lia]|]. exists (h - 2 ^ o). split; [done|]. lia. }
  destruct (decide (o' <= o)) as [Hle|Hgt].
  - exists o'. split; [|done]. assert (h' = q) as <-; [|done].
    pose proof (Z.divide_trans _ _ _ (pow_divide o' o ltac:(lia)) Hqa) as [k Hk].
    destruct (bo_align _ _ _ _ Hb') as [k' Hk']. rewrite Hk, Hk' in *.
    assert (0 < 2 ^ o') by lia. assert (k' = k) by nia. congruence.
  - exfalso. destruct (aligned_nested m (o + 1) h' o' q) as [H1 H2]; try done; [lia|apply Hb'|].
    destruct (block_unique sp B h o h' o' h) as [_ ?]; try done; lia.
Qed.

(** Aligned runs of free pages are inside one free block when no two free
    buddies are apart. *)
Lemma run_in_block o a :
  0 <= o <= MAX_ORDER -> (2 ^ o | a) ->
  (forall i, 0 <= i < 2 ^ o -> span_of sp (a + i) = span_of sp a) -> span_of sp a <> -1 ->
  (forall i, 0 <= i < 2 ^ o -> page_status B (a + i) = Some Free) ->
  (forall h o b, block_ok B sp h o -> B !! blk h = Some b -> head_wf b) ->
  (forall p k, 0 <= k < MAX_ORDER -> free_block B sp p k -> free_block B sp (Z.lxor p (2 ^ k)) k ->
     span_of sp (Z.lxor p (2 ^ k)) = span_of sp p -> False) ->
  exists h k, free_block B sp h k /\ o <= k /\ h <= a /\ a + 2 ^ o <= h + 2 ^ k.
Proof.
  intros Ho Ha Hsp Hm Hfree Hwf Hco. revert a Ha Hsp Hm Hfree.
  assert (0 <= o) as Ho0 by lia. revert Ho. pattern o. apply natlike_ind; [..|done]; clear o Ho0.
  - intros _ a _ _ Hm Hfree. destruct (Hpart a Hm) as (h & k & Hb & Hin). exists h, k.
    destruct (bo_head _ _ _ _ Hb) as (b & Eb & _). pose proof (bo_order _ _ _ _ Hb).
    assert (page_status B a = Some Free) as Hs by (rewrite <- (Z.add_0_r a); apply Hfree; lia).
    rewrite (block_status sp B h k b a Hb Eb Hin) in Hs. unfold head_state in Hs. case_match eqn:E; [|done].
    apply Z.eqb_eq in E. split; [|lia]. split; [done|]. exists b. split; [done|]. by apply (Hwf _ _ _ Hb Eb).
  - intros o Ho IH Hmax a Ha Hsp Hm Hfree. rewrite <- Z.add_1_r in *.
    assert (2 ^ (o + 1) = 2 * 2 ^ o) as E by (rewrite Z.pow_add_r by lia; lia).
    assert ((2 ^ o | a)) as Ha1 by (eapply Z.divide_trans; [apply (pow_divide o (o + 1)); lia|done]).
    destruct (IH ltac:(lia) a) as (h & k & Hf & Hk & H1 & H2); try done.
    { intros; apply Hsp; lia. } { intros; apply Hfree; lia. }
    destruct (IH ltac:(lia) (a + 2 ^ o)) as (h' & k' & Hf' & Hk' & H1' & H2').
    { by apply Z.divide_add_r; [|exists 1; lia]. }
    { intros. rewrite <- Z.add_assoc, !Hsp by lia. done. } { by rewrite Hsp by lia. }
    { intros. rewrite <- Z.add_assoc. apply Hfree. lia. }
    destruct (decide (o + 1 <= k)) as [|Hlt].
    { exists h, k. split; [done|]. split; [done|].
      apply (aligned_nested a (o + 1) h k a); try done; [lia|apply Hf|lia|lia]. }
    destruct (decide (o + 1 <= k')) as [|Hlt'].
    { exists h', k'. split; [done|]. split; [done|].
      apply (aligned_nested a (o + 1) h' k' (a + 2 ^ o)); try done; [lia|apply Hf'|lia|lia]. }
    exfalso. assert (k = o /\ k' = o) as [-> ->] by lia. assert (h = a) as -> by lia. assert (h' = a + 2 ^ o) as -> by lia.
    assert (Z.lxor a (2 ^ o) = a + 2 ^ o) as Ex.
    { destruct (buddy_cases a o Ho Ha1) as [[? _]|[_ Hd]]; [done|].
      assert ((2 ^ (o + 1) | 2 ^ o)) as [j Hj]; [|rewrite E in Hj; assert (1 = 2 * j) by (apply (Z.mul_cancel_r _ _ (2 ^ o)); lia); lia].
      replace (2 ^ o) with (a - (a - 2 ^ o)) by lia. by apply Z.divide_sub_r. }
    apply (Hco a o); [lia|done|by rewrite Ex|]. rewrite Ex. apply Hsp. lia.
Qed.
End buddies.
