(* ===== verification/PhysProofs.v ===== *)
(** * The buddy allocator is correct (mm/phys.c)

    The proofs about [Phys]: the steps of the allocator (joining and splitting
    blocks, marking tails, taking a block from a free list and putting one back)
    preserve its invariant [phys_inv] and the status of every page they are not
    about; allocation, freeing and initialisation follow. *)

From stdpp Require Import base strings numbers gmap list sets.
From Stdlib Require Import ZArith Lia.
From S2P Require Import Prelude Macros MmDefs Page ListDL Spinlock Phys.

Definition set_orders (l : list Z) (st : phys_alloc_stats) : phys_alloc_stats :=
  mk_stats (num_4k_pages st) (num_free_4k_pages st) (num_pagetable_pages st) (num_physblock_pages st) l.

(** Project from an updated state. *)
Ltac psimpl :=
  cbn [blocks pnodes locks stats spans alloc_state with_blocks with_nodes with_locks with_stats
       num_4k_pages num_free_4k_pages num_pagetable_pages num_physblock_pages order_stats
       free_4k_add pagetable_add physblock_add set_orders] in *.

(** ** Running the accesses *)

Lemma wp_list_op {A} (m : M nodes A) s Q :
  wp m (pnodes s) (fun a n => Q a (with_nodes n s)) -> wp (list_op m) s Q.
Proof. unfold wp, list_op, zoom. by destruct (m (pnodes s)). Qed.

Lemma wp_lock_op {A} (m : M (gset Z) A) s Q :
  wp m (locks s) (fun a l => Q a (with_locks l s)) -> wp (lock_op m) s Q.
Proof. unfold wp, lock_op, zoom. by destruct (m (locks s)). Qed.

Lemma wp_get_block b x s (Q : physblock -> phys_mem -> Prop) : blocks s !! b = Some x -> Q x s -> wp (get_block b) s Q.
Proof. intros E HQ. unfold wp, get_block, mbind, M_bind, get. by rewrite E. Qed.

Lemma wp_acquire_block b s (Q : unit -> phys_mem -> Prop) :
  b + 28 ∉ locks s -> Q tt (with_locks ({[b + 28]} ∪ locks s) s) -> wp (acquire_block b) s Q.
Proof. intros Hl HQ. apply wp_lock_op. by apply spinlock_acquire_ok. Qed.

Lemma wp_release_block b s (Q : unit -> phys_mem -> Prop) :
  Q tt (with_locks (locks s ∖ {[b + 28]}) s) -> wp (release_block b) s Q.
Proof. intros HQ. apply wp_lock_op. by apply spinlock_release_ok. Qed.

Lemma wp_acquire_alloc s (Q : unit -> phys_mem -> Prop) :
  alloc_lock s ∉ locks s -> Q tt (with_locks ({[alloc_lock s]} ∪ locks s) s) -> wp acquire_alloc s Q.
Proof. intros Hl HQ. apply wp_bind, wp_get, wp_lock_op. by apply spinlock_acquire_ok. Qed.

Lemma wp_release_alloc s (Q : unit -> phys_mem -> Prop) :
  Q tt (with_locks (locks s ∖ {[alloc_lock s]}) s) -> wp release_alloc s Q.
Proof. intros HQ. apply wp_bind, wp_get, wp_lock_op. by apply spinlock_release_ok. Qed.

Lemma wp_order_add o d n s (Q : unit -> phys_mem -> Prop) :
  zlookup (order_stats (stats s)) o = Some n ->
  Q tt (with_stats (mk_stats (num_4k_pages (stats s)) (num_free_4k_pages (stats s)) (num_pagetable_pages (stats s))
    (num_physblock_pages (stats s)) (zinsert o (u64 (n + d)) (order_stats (stats s)))) s) ->
  wp (order_add o d) s Q.
Proof.
  intros E HQ. unfold order_add. apply wp_bind, wp_get, wp_bind. eapply wp_lift; [exact E|]. by apply wp_modify.
Qed.

Lemma wp_set_order b o x s (Q : unit -> phys_mem -> Prop) :
  blocks s !! b = Some x ->
  Q tt (with_blocks (<[b := mk_physblock (head_offset x) o (type x) (refcount x)]> (blocks s)) s) ->
  wp (set_order b o) s Q.
Proof. intros E HQ. apply wp_bind. eapply wp_get_block; [exact E|]. by apply wp_modify. Qed.

Lemma wp_set_type b t x s (Q : unit -> phys_mem -> Prop) :
  blocks s !! b = Some x ->
  Q tt (with_blocks (<[b := mk_physblock (head_offset x) (order x) t (refcount x)]> (blocks s)) s) ->
  wp (set_type b t) s Q.
Proof. intros E HQ. apply wp_bind. eapply wp_get_block; [exact E|]. by apply wp_modify. Qed.

Lemma wp_set_refcount b n x s (Q : unit -> phys_mem -> Prop) :
  blocks s !! b = Some x ->
  Q tt (with_blocks (<[b := mk_physblock (head_offset x) (order x) (type x) n]> (blocks s)) s) ->
  wp (set_refcount b n) s Q.
Proof. intros E HQ. apply wp_bind. eapply wp_get_block; [exact E|]. by apply wp_modify. Qed.

(** ** The free lists *)

Lemma node_inj p q : node p = node q -> p = q.
Proof. unfold node, blk. lia. Qed.

#[global] Instance node_Inj : Inj (=) (=) node.
Proof. intros p q. apply node_inj. Qed.

Definition base_ok (base : Z) : Prop := 0 <= base /\ base + 4096 <= KERNEL_MEM_MAP_ADDRESS.

(** A list head is not the node of a frame. *)
Lemma head_not_node base o p : base_ok base -> 0 <= o <= MAX_ORDER -> 0 <= p -> base + 16 * o <> node p.
Proof. unfold base_ok, MAX_ORDER, node, blk. lia. Qed.

Lemma rings_frame ns ns' base L o P :
  same_outside ns ns' P -> rings_ok ns base L -> 0 <= o <= MAX_ORDER ->
  (forall x, x ∈ (base + 16 * o) :: (node <$> L o) -> ~ P x) -> ring ns' (base + 16 * o) (node <$> L o).
Proof. intros Hs Hr Ho Hd. eapply ring_frame; [exact Hs|exact Hd|]. by apply Hr. Qed.

(** The nodes of two different lists are apart. *)
Lemma lists_apart base L o o' x :
  base_ok base -> lists_sep L -> 0 <= o <= MAX_ORDER -> 0 <= o' <= MAX_ORDER -> o <> o' ->
  x ∈ (base + 16 * o') :: (node <$> L o') -> x ∉ (base + 16 * o) :: (node <$> L o).
Proof.
  intros Hb [Hr Hd] Ho Ho' Hne. rewrite !elem_of_cons, !list_elem_of_fmap.
  intros [->|(p & -> & Hp)] [E|(q & E & Hq)].
  - lia.
  - by apply (head_not_node base o' q) in E; [|done..|apply (Hr o)].
  - by symmetry in E; apply (head_not_node base o p) in E; [|done..|apply (Hr o')].
  - apply node_inj in E as ->. by apply (Hd o' o q).
Qed.

Definition dom_kept (ns ns' : nodes) : Prop := forall x, is_Some (ns !! x) -> is_Some (ns' !! x).

Lemma dom_kept_outside ns ns' (l : list Z) :
  same_outside ns ns' (fun x => x ∈ l) -> (forall x, x ∈ l -> is_Some (ns' !! x)) -> dom_kept ns ns'.
Proof. intros Hs Hl x Hx. destruct (decide (x ∈ l)); [by apply Hl|]. by rewrite Hs. Qed.

Lemma rings_detach ns base L o l1 p l2 :
  rings_ok ns base L -> base_ok base -> lists_sep L -> 0 <= o <= MAX_ORDER -> L o = l1 ++ p :: l2 ->
  wp (list_detach (node p)) ns (fun _ ns' => rings_ok ns' base (upd o (l1 ++ l2) L) /\ dom_kept ns ns').
Proof.
  intros Hr Hb Hs Ho E. pose proof (Hr o Ho) as Hring. rewrite E, fmap_app, fmap_cons in Hring.
  eapply wp_mono; [by apply detach_ok|]. intros ? ns' (H1 & H2 & H3). split.
  - intros k Hk. unfold upd. case_decide as Ek; [subst; by rewrite fmap_app|].
    eapply rings_frame; [exact H3|done..|]. intros x Hx.
    rewrite <- fmap_cons, <- fmap_app, <- E. by apply (lists_apart base L o k).
  - eapply dom_kept_outside; [exact H3|]. intros x.
    rewrite elem_of_cons, elem_of_app, elem_of_cons. intros Hx.
    destruct (decide (x = node p)) as [->|]; [by eapply ring_dom; [exact H2|set_solver]|].
    eapply ring_dom; [exact H1|]. set_solver.
Qed.

Lemma rings_push ns base L o p :
  rings_ok ns base L -> base_ok base -> lists_sep L -> 0 <= o <= MAX_ORDER -> 0 <= p ->
  (forall k, 0 <= k <= MAX_ORDER -> p ∉ L k) -> is_Some (ns !! node p) ->
  wp (list_push_back (base + 16 * o) (node p)) ns (fun _ ns' =>
    rings_ok ns' base (upd o (L o ++ [p]) L) /\ dom_kept ns ns').
Proof.
  intros Hr Hb Hs Ho Hp Hnew Hn. pose proof (Hr o Ho) as Hring.
  assert (forall k, 0 <= k <= MAX_ORDER -> node p ∉ (base + 16 * k) :: (node <$> L k)) as Hnot.
  { intros k Hk. rewrite elem_of_cons, list_elem_of_fmap. intros [E|(q & E%node_inj & Hq)].
    - by apply (head_not_node base k p).
    - subst. by apply (Hnew k). }
  eapply wp_mono; [by apply push_back_ok; [|apply Hnot|]|]. intros ? ns' (H1 & H2). split.
  - intros k Hk. unfold upd. case_decide as Ek; [subst; by rewrite fmap_app|].
    eapply rings_frame; [exact H2|done..|]. intros x Hx [->|Hx']%elem_of_cons; [by apply (Hnot k)|].
    by apply (lists_apart base L o k x).
  - eapply dom_kept_outside; [exact H2|]. intros x Hx. eapply ring_dom; [exact H1|]. set_solver.
Qed.

(** [x] was taken from the list of order [o]. *)
Record removed (o x : Z) (L L' : Z -> list Z) : Prop := {
  rm_other : forall k, k <> o -> L' k = L k;
  rm_elem : forall p, p ∈ L' o <-> p ∈ L o /\ p <> x;
  rm_length : zlength (L' o) = zlength (L o) - 1;
  rm_first : forall r, L o = x :: r -> L' o = r;
}.

Lemma removed_elem o x L L' k p : removed o x L L' -> p ∈ L' k <-> p ∈ L k /\ (k = o -> p <> x).
Proof.
  intros Hr. destruct (decide (k = o)) as [->|]; [rewrite (rm_elem _ _ _ _ Hr); tauto|]. rewrite (rm_other _ _ _ _ Hr) by done. tauto.
Qed.

Lemma lists_sep_sub L L' : (forall k p, p ∈ L' k -> p ∈ L k) -> lists_sep L -> lists_sep L'.
Proof. intros Hs [H1 H2]. split; [eauto|]. intros o o' p Ho Ho' Hne Hp%Hs Hp'%Hs. exact (H2 o o' p Ho Ho' Hne Hp Hp'). Qed.

Lemma detach_from ns base L o x :
  rings_ok ns base L -> base_ok base -> lists_sep L -> 0 <= o <= MAX_ORDER -> x ∈ L o ->
  exists L', removed o x L L' /\ lists_sep L' /\
    wp (list_detach (node x)) ns (fun _ ns' => rings_ok ns' base L' /\ dom_kept ns ns').
Proof.
  intros Hr Hb Hs Ho Hx. apply list_elem_of_split in Hx as (l1 & l2 & E).
  destruct (Hr o Ho) as [Hnd _]. rewrite NoDup_cons, E in Hnd. destruct Hnd as [_ Hnd%NoDup_fmap_1].
  assert (x ∉ l1 /\ x ∉ l2) as [Hx1 Hx2] by (apply NoDup_app in Hnd as (? & ? & [? ?]%NoDup_cons); set_solver).
  exists (upd o (l1 ++ l2) L). unfold upd. split_and!; [split| |by eapply rings_detach].
  - intros k Hk. by rewrite decide_False.
  - intros p. rewrite decide_True, E by done. set_solver.
  - rewrite decide_True, E by done. unfold zlength. rewrite !length_app. simpl. lia.
  - intros r Er. rewrite decide_True by done. rewrite E in Er. destruct l1 as [|y l1].
    + by injection Er as ->.
    + exfalso. injection Er as -> _. apply Hx1, elem_of_cons. by left.
  - eapply lists_sep_sub; [|exact Hs]. intros k p. case_decide as Ek; [|done]. rewrite Ek, E. set_solver.
Qed.

(** ** Marking tails *)

Definition tail_of (a p : Z) (b : physblock) : physblock := mk_physblock (p - a) 0 PHYSBLOCK_TAIL (refcount b).

(** The first [n] frames after [a] became its tails and their locks are free. *)
Definition tails_marked (s : phys_mem) (a n : Z) (s' : phys_mem) : Prop :=
  exists B' l', s' = with_blocks B' (with_locks l' s) /\
    (forall p, B' !! blk p = if decide (a < p <= a + n) then tail_of a p <$> blocks s !! blk p else blocks s !! blk p) /\
    (forall x, x ∈ l' <-> x ∈ locks s /\ ~ exists i, 1 <= i <= n /\ x = lck (a + i)).

Lemma set_tail_ok s s0 a n :
  tails_marked s a n s0 -> 0 <= n -> is_Some (blocks s !! blk (a + (1 + n))) ->
  wp (set_tail (blk a) (1 + n)) s0 (fun _ s' => tails_marked s a (n + 1) s').
Proof.
  intros (B' & l' & -> & HB & Hl) Hn [b Hb].
  assert (B' !! blk (a + (1 + n)) = Some b) as Eb by (rewrite HB, decide_False by lia; done).
  unfold set_tail, SIZEOF_PHYSBLOCK. replace (blk a + 32 * (1 + n)) with (blk (a + (1 + n))) by (unfold blk; lia).
  apply wp_bind. eapply wp_get_block; [exact Eb|]. apply wp_bind, wp_modify, wp_release_block.
  exists (<[blk (a + (1 + n)) := mk_physblock (1 + n) 0 PHYSBLOCK_TAIL (refcount b)]> B'), (l' ∖ {[blk (a + (1 + n)) + 28]}).
  split; [reflexivity|]. split.
  - intros p. destruct (decide (p = a + (1 + n))) as [->|Hne].
    + rewrite lookup_insert_eq, decide_True, Hb by lia. simpl. unfold tail_of. do 2 f_equal. lia.
    + rewrite lookup_insert_ne by (intros ?%blk_inj; lia). rewrite HB.
      destruct (decide (a < p <= a + n)), (decide (a < p <= a + (n + 1))); try done; lia.
  - intros x. rewrite elem_of_difference, elem_of_singleton, Hl. split.
    + intros [[Hx Hi] Hne]. split; [done|]. intros (i & Hi1 & ->). destruct (decide (i = n + 1)) as [->|].
      * apply Hne. unfold lck. do 3 f_equal. lia.
      * apply Hi. exists i. split; [lia|done].
    + intros [Hx Hi]. split; [split; [done|]|].
      * intros (i & ? & ->). apply Hi. exists i. split; [lia|done].
      * intros ->. apply Hi. exists (n + 1). split; [lia|]. unfold lck. do 3 f_equal. lia.
Qed.

Lemma set_tails_ok s a k :
  0 <= k <= MAX_ORDER -> (forall i, 1 <= i < 2 ^ k -> is_Some (blocks s !! blk (a + i))) ->
  wp (_set_tail_physblocks (blk a) k) s (fun _ s' => tails_marked s a (2 ^ k - 1) s').
Proof.
  intros Hk Hb. unfold MAX_ORDER in Hk. unfold _set_tail_physblocks.
  assert (u16 (Z.shiftl 1 k) = 2 ^ k) as ->.
  { rewrite Z.shiftl_1_l. apply Z.mod_small. split; [lia|]. apply Z.pow_lt_mono_r; lia. }
  pose proof (wp_for_loop (fun n s' => tails_marked s a (Z.of_nat n) s') (Z.to_nat (2 ^ k - 1)) 1 (set_tail (blk a)) s) as H0.
  cbv beta in H0. rewrite Z2Nat.id in H0 by lia. apply H0; clear H0.
  - exists (blocks s), (locks s). split; [by destruct s|]. split; [intros p; by rewrite decide_False by lia|].
    intros x. split; [|by intros [? _]]. intros Hx. split; [done|]. intros (i & ? & _). lia.
  - intros n s0 Hn HI. replace (Z.of_nat (S n)) with (Z.of_nat n + 1) by lia. apply set_tail_ok; [done|lia|]. apply Hb. lia.
Qed.

(** ** Consequences of the invariant *)

Lemma order_stats_lookup (f : Z -> Z) o : 0 <= o <= MAX_ORDER -> zlookup (f <$> seqZ 0 13) o = Some (f o).
Proof.
  unfold MAX_ORDER. intros Ho. rewrite <- (Z2Nat.id o), zlookup_lookup, list_lookup_fmap by lia.
  rewrite lookup_seqZ_lt by lia. simpl. done.
Qed.

Lemma order_stats_insert (f : Z -> Z) o n :
  0 <= o <= MAX_ORDER ->
  zinsert o n (f <$> seqZ 0 13) = (fun k => if decide (k = o) then n else f k) <$> seqZ 0 13.
Proof.
  unfold MAX_ORDER. intros Ho. unfold zinsert. rewrite decide_True by lia.
  assert (length (seqZ 0 13) = 13%nat) as Hlen by done.
  assert (forall i, (i < 13)%nat -> seqZ 0 13 !! i = Some (Z.of_nat i)) as Hi by (intros; rewrite lookup_seqZ_lt by lia; done).
  revert Hlen Hi. generalize (seqZ 0 13). intros l Hlen Hl. apply list_eq. intros i.
  rewrite !list_lookup_fmap. destruct (decide (i < 13)%nat) as [Hi|Hi].
  - rewrite Hl by done. simpl. destruct (decide (i = Z.to_nat o)) as [->|Hne].
    + rewrite list_lookup_insert_eq by (rewrite length_fmap; lia). by rewrite decide_True by lia.
    + rewrite list_lookup_insert_ne by done. rewrite list_lookup_fmap, Hl by lia. simpl. by rewrite decide_False by lia.
  - rewrite !(lookup_ge_None_2 _ i); rewrite ?length_insert, ?length_fmap; try done; lia.
Qed.

Lemma order_stats_ext (f g : Z -> Z) :
  (forall o, 0 <= o <= MAX_ORDER -> f o = g o) -> f <$> seqZ 0 13 = g <$> seqZ 0 13.
Proof.
  intros H. apply list_fmap_ext. intros i o Ho%lookup_seqZ. apply H. unfold MAX_ORDER. lia.
Qed.

Lemma wp_order_add_fun o d (f : Z -> Z) s (Q : unit -> phys_mem -> Prop) :
  order_stats (stats s) = f <$> seqZ 0 13 -> 0 <= o <= MAX_ORDER ->
  Q tt (with_stats (set_orders ((fun k => if decide (k = o) then u64 (f o + d) else f k) <$> seqZ 0 13) (stats s)) s) ->
  wp (order_add o d) s Q.
Proof.
  intros E Ho HQ. eapply wp_order_add; [rewrite E; by apply order_stats_lookup|]. rewrite E, order_stats_insert by done. done.
Qed.

Section invariant.
Context (s : phys_mem) (L : Z -> list Z) (Hinv : phys_inv s L).
Abbreviation sp := (spans s).
Abbreviation B := (blocks s).

Lemma inv_base : base_ok (alloc_state s).
Proof using Hinv. apply Hinv. Qed.

Lemma inv_block_range h o p : block_ok B sp h o -> h <= p < h + 2 ^ o -> 0 <= p < 2 ^ 35.
Proof using Hinv.
  intros Hb Hp. apply (span_of_range sp); [apply Hinv|]. rewrite (block_managed sp B h o p Hb Hp). apply Hb.
Qed.

Lemma inv_head_range h o : block_ok B sp h o -> 0 <= h < 2 ^ 35.
Proof using Hinv. intros Hb. pose proof (bo_order _ _ _ _ Hb). apply (inv_block_range h o h Hb). lia. Qed.

Lemma free_block_order p o o' : free_block B sp p o -> free_block B sp p o' -> o = o'.
Proof using Hinv.
  intros [H1 _] [H2 _]. destruct (bo_head _ _ _ _ H1) as (b & ? & _ & <-), (bo_head _ _ _ _ H2) as (c & ? & _ & <-). congruence.
Qed.

Lemma inv_lists : lists_sep L.
Proof using Hinv.
  split.
  - intros o p Ho Hp%(pi_free _ _ Hinv o p Ho). by eapply inv_head_range, Hp.
  - intros o o' p Ho Ho' Hne Hp Hp'. apply (pi_free _ _ Hinv) in Hp, Hp'; try done. by apply Hne, (free_block_order p).
Qed.

Lemma inv_list_nodup o : 0 <= o <= MAX_ORDER -> NoDup (L o).
Proof using Hinv.
  intros Ho. destruct (pi_rings _ _ Hinv o Ho) as [Hnd _]. apply NoDup_cons in Hnd as [_ Hnd]. by apply NoDup_fmap in Hnd; [|apply _].
Qed.

Lemma inv_list_frames o : 0 <= o <= MAX_ORDER -> zlength (L o) <= zlength (pfns sp).
Proof using Hinv.
  intros Ho. assert (length (L o) <= length (pfns sp))%nat; [|unfold zlength; lia].
  apply submseteq_length, NoDup_submseteq; [by apply inv_list_nodup|].
  intros p [Hp _]%(pi_free _ _ Hinv o p Ho). apply elem_of_pfns; [apply Hinv|]. apply Hp.
Qed.

Lemma inv_list_length o : 0 <= o <= MAX_ORDER -> zlength (L o) <= 2 ^ 35.
Proof using Hinv. intros Ho. transitivity (zlength (pfns sp)); [by apply inv_list_frames|apply zlength_pfns, Hinv]. Qed.

Lemma inv_order_lookup o : 0 <= o <= MAX_ORDER -> zlookup (order_stats (stats s)) o = Some (zlength (L o)).
Proof using Hinv. intros Ho. rewrite (pi_order _ _ Hinv). by apply (order_stats_lookup (fun o => zlength (L o))). Qed.

(** The free pages counted for each order are frames. *)
Lemma inv_order_counts :
  length (order_stats (stats s)) = 13%nat /\ Forall (fun c => 0 <= c <= zlength (pfns sp)) (order_stats (stats s)).
Proof using Hinv.
  rewrite (pi_order _ _ Hinv). split; [by rewrite length_fmap, length_seqZ|]. apply Forall_fmap, Forall_forall.
  intros o Ho%elem_of_seqZ. cbn. split; [apply zlength_nonneg|]. apply inv_list_frames. unfold MAX_ORDER. lia.
Qed.

(** The status of the pages of a block follows from its first frame. *)
Lemma inv_free_status h o p : free_block B sp h o -> h <= p < h + 2 ^ o -> page_status B p = Some Free.
Proof using Hinv.
  intros [Hb (b & Eb & Ht)] Hp. rewrite (block_status sp B h o b p Hb Eb Hp). unfold head_state. by rewrite Ht.
Qed.

Lemma inv_status_free h o b p :
  block_ok B sp h o -> B !! blk h = Some b -> h <= p < h + 2 ^ o -> page_status B p = Some Free -> free_block B sp h o.
Proof using Hinv.
  intros Hb Eb Hp Hs. split; [done|]. exists b. split; [done|].
  rewrite (block_status sp B h o b p Hb Eb Hp) in Hs. unfold head_state in Hs. case_match eqn:E; [|done].
  apply Z.eqb_eq in E. by apply (pi_head _ _ Hinv h o b Hb Eb).
Qed.

(** A region re-tiled, with the free lists following: the invariant is kept. *)
Lemma inv_region s' L' a n :
  spans s' = sp -> alloc_state s' = alloc_state s ->
  (forall p, ~ (a <= p < a + n) -> blocks s' !! blk p = B !! blk p) ->
  tiled sp B a n -> tiled sp (blocks s') a n ->
  (forall h o b, a <= h < a + n -> block_ok (blocks s') sp h o -> blocks s' !! blk h = Some b -> head_wf b) ->
  (forall o p, 0 <= o <= MAX_ORDER -> ~ (a <= p < a + n) -> p ∈ L' o <-> p ∈ L o) ->
  (forall o p, 0 <= o <= MAX_ORDER -> a <= p < a + n -> p ∈ L' o <-> free_block (blocks s') sp p o) ->
  rings_ok (pnodes s') (alloc_state s) L' -> dom_kept (pnodes s) (pnodes s') ->
  order_stats (stats s') = (fun o => zlength (L' o)) <$> seqZ 0 13 ->
  num_free_4k_pages (stats s') = count_true (is_free (blocks s')) (pfns sp) ->
  phys_inv s' L'.
Proof using Hinv.
  intros Esp Eptr Hout Ht Ht' Hwf HL1 HL2 Hr Hd Hord Hcnt.
  assert (forall h o, ~ (a <= h < a + n) -> block_ok (blocks s') sp h o <-> block_ok B sp h o) as Hiff.
  { intros h o Hh. split; (eapply tiled_outside; [done| |done]); [|done]. intros p Hp. by rewrite Hout. }
  split; rewrite ?Esp, ?Eptr; try done; try apply Hinv.
  - eapply partition_update; [exact Ht|done..|apply Hinv].
  - intros h o b Hb Eb. destruct (decide (a <= h < a + n)) as [?|Hh]; [by eapply Hwf|].
    apply (pi_head _ _ Hinv h o b); [by apply Hiff|]. by rewrite <- Hout.
  - intros o p Ho. destruct (decide (a <= p < a + n)) as [?|Hp]; [by apply HL2|].
    rewrite HL1, (pi_free _ _ Hinv) by done. unfold free_block. by rewrite Hiff, Hout.
  - intros p Hp. by apply Hd, Hinv.
Qed.

Lemma inv_status_outside B' a n p :
  tiled sp B a n -> (forall p, ~ (a <= p < a + n) -> B' !! blk p = B !! blk p) ->
  span_of sp p <> -1 -> ~ (a <= p < a + n) -> page_status B' p = page_status B p.
Proof using Hinv.
  intros Ht Hs Hp Hout. destruct (pi_part _ _ Hinv p Hp) as (h & o & Hb & Hin). by eapply status_outside.
Qed.
End invariant.

(** ** Joining and splitting *)

(** What a step that only rearranges free blocks keeps. *)
Record rearranged (s s' : phys_mem) : Prop := {
  re_spans : spans s' = spans s;
  re_ptr : alloc_state s' = alloc_state s;
  re_status : forall p, span_of (spans s) p <> -1 -> page_status (blocks s') p = page_status (blocks s) p;
  re_4k : num_4k_pages (stats s') = num_4k_pages (stats s);
  re_free : num_free_4k_pages (stats s') = num_free_4k_pages (stats s);
  re_pt : num_pagetable_pages (stats s') = num_pagetable_pages (stats s);
  re_pb : num_physblock_pages (stats s') = num_physblock_pages (stats s);
}.

Lemma rearranged_refl s : rearranged s s.
Proof. by split. Qed.

Lemma rearranged_trans s1 s2 s3 : rearranged s1 s2 -> rearranged s2 s3 -> rearranged s1 s3.
Proof.
  intros H1 H2. destruct H1, H2. split; try congruence. intros p Hp. rewrite re_status1, re_status0; congruence.
Qed.

Lemma free_page_zero B sp h o b p :
  free_block B sp h o -> B !! blk h = Some b -> refcount b = 0 -> h <= p < h + 2 ^ o ->
  exists c, B !! blk p = Some c /\ refcount c = 0.
Proof.
  intros [Hb _] Eb Hr Hp. destruct (decide (p = h)) as [->|]; [by eauto|].
  exists (tail (p - h)). split; [|done]. rewrite <- (bo_tail _ _ _ _ Hb) by lia. do 2 f_equal. lia.
Qed.

Lemma is_free_ext (B B' : gmap Z physblock) sp :
  spans_wf sp -> (forall p, span_of sp p <> -1 -> page_status B' p = page_status B p) ->
  count_true (is_free B') (pfns sp) = count_true (is_free B) (pfns sp).
Proof. intros Hw H. apply count_true_ext. intros p Hp%elem_of_pfns; [|done]. unfold is_free. by rewrite H. Qed.

Section two_halves.
Context (s : phys_mem) (L : Z -> list Z) (Hinv : phys_inv s L).
Abbreviation sp := (spans s).

(** The first frames inside two adjacent blocks. *)
Lemma heads_in_two B h o p k :
  block_ok B sp h o -> block_ok B sp (h + 2 ^ o) o -> block_ok B sp p k -> h <= p < h + 2 ^ (o + 1) ->
  (p = h \/ p = h + 2 ^ o) /\ k = o.
Proof.
  intros H1 H2 Hp Hr. pose proof (bo_order _ _ _ _ H1). pose proof (bo_order _ _ _ _ Hp).
  rewrite Z.pow_add_r in Hr by lia. assert (p <= p < p + 2 ^ k) by lia.
  destruct (decide (p < h + 2 ^ o)).
  - destruct (block_unique sp B p k h o p) as [-> ->]; try done; [lia|]. auto.
  - destruct (block_unique sp B p k (h + 2 ^ o) o p) as [-> ->]; try done; [lia|]. auto.
Qed.

Lemma heads_in_one B h o p k :
  block_ok B sp h o -> block_ok B sp p k -> h <= p < h + 2 ^ o -> p = h /\ k = o.
Proof. intros H1 Hp Hr. pose proof (bo_order _ _ _ _ Hp). apply (block_unique sp B p k h o p); try done; lia. Qed.

(** The joined block. *)
Lemma join_block B B' h o :
  block_ok B sp h o -> block_ok B sp (h + 2 ^ o) o -> (2 ^ (o + 1) | h) -> o < MAX_ORDER ->
  span_of sp (h + 2 ^ o) = span_of sp h ->
  B' !! blk h = Some (mk_physblock 0 (o + 1) PHYSBLOCK_FREE 0) ->
  (forall i, 1 <= i < 2 ^ (o + 1) -> B' !! blk (h + i) = Some (tail i)) ->
  block_ok B' sp h (o + 1).
Proof.
  intros H1 H2 Ha Ho Hs Eh Et. pose proof (bo_order _ _ _ _ H1).
  assert (2 ^ (o + 1) = 2 * 2 ^ o) as E by (rewrite Z.pow_add_r by lia; lia).
  split; try done; [lia|eauto| |apply H1].
  intros i Hi. destruct (decide (i < 2 ^ o)) as [|]; [apply (bo_span _ _ _ _ H1); lia|].
  replace (h + i) with (h + 2 ^ o + (i - 2 ^ o)) by lia. by rewrite (bo_span _ _ _ _ H2) by lia.
Qed.
End two_halves.

Definition join_post (s : phys_mem) (L : Z -> list Z) (h o : Z) (r : Z) (s' : phys_mem) : Prop :=
  r = blk h /\ rearranged s s' /\
  (forall x, x ∈ locks s' <-> x ∈ locks s /\ ~ exists i, 1 <= i < 2 ^ (o + 1) /\ x = lck (h + i)) /\
  exists L', phys_inv s' L' /\ free_block (blocks s') (spans s') h (o + 1) /\
    forall k p, 0 <= k <= MAX_ORDER -> p ∈ L' k -> p ∈ L k \/ (p = h /\ k = o + 1).

(** The blocks after [_join_physblocks_locked]. *)
Lemma join_blocks_map s L h o (B' : gmap Z physblock) :
  phys_inv s L -> free_block (blocks s) (spans s) h o -> free_block (blocks s) (spans s) (h + 2 ^ o) o ->
  (forall p, B' !! blk p =
     if decide (h < p <= h + (2 ^ (o + 1) - 1))
     then tail_of h p <$> <[blk h := mk_physblock 0 (o + 1) PHYSBLOCK_FREE 0]> (blocks s) !! blk p
     else <[blk h := mk_physblock 0 (o + 1) PHYSBLOCK_FREE 0]> (blocks s) !! blk p) ->
  B' !! blk h = Some (mk_physblock 0 (o + 1) PHYSBLOCK_FREE 0) /\
  (forall i, 1 <= i < 2 ^ (o + 1) -> B' !! blk (h + i) = Some (tail i)) /\
  (forall p, ~ (h <= p < h + 2 ^ (o + 1)) -> B' !! blk p = blocks s !! blk p).
Proof.
  intros Hinv Hh Ht HB. pose proof (bo_order _ _ _ _ (proj1 Hh)).
  assert (2 ^ (o + 1) = 2 * 2 ^ o) as E by (rewrite Z.pow_add_r by lia; lia).
  split_and!.
  - by rewrite HB, decide_False, lookup_insert_eq by lia.
  - intros i Hi. rewrite HB, decide_True, lookup_insert_ne by (intros ?%blk_inj; lia) || lia.
    assert (exists c, blocks s !! blk (h + i) = Some c /\ refcount c = 0) as (c & -> & Hc).
    { destruct Hh as [Hh (b & Eb & Tb)], Ht as [Ht (b' & Eb' & Tb')].
      destruct (decide (i < 2 ^ o)).
      - apply (free_page_zero _ (spans s) h o b); [split; eauto|done| |lia].
        by apply (pi_head _ _ Hinv h o b Hh Eb); rewrite Tb.
      - apply (free_page_zero _ (spans s) (h + 2 ^ o) o b'); [split; eauto|done| |lia].
        by apply (pi_head _ _ Hinv (h + 2 ^ o) o b' Ht Eb'); rewrite Tb'. }
    simpl. unfold tail_of, tail. rewrite Hc. do 2 f_equal. lia.
  - intros p Hp. rewrite HB, decide_False, lookup_insert_ne by (intros ?%blk_inj; lia) || lia. done.
Qed.

Lemma free_head_fields s L h o :
  phys_inv s L -> free_block (blocks s) (spans s) h o -> blocks s !! blk h = Some (mk_physblock 0 o PHYSBLOCK_FREE 0).
Proof.
  intros Hinv [Hh (c & Ec & Tc)]. destruct (bo_head _ _ _ _ Hh) as (b & Eb & Hb0 & Hbo). assert (c = b) as -> by congruence.
  rewrite Eb. destruct (pi_head _ _ Hinv h o b Hh Eb) as [Hf _]. rewrite Tc in Hf. destruct (Hf eq_refl) as [_ Hr].
  destruct b; simpl in *. congruence.
Qed.

(** The free lists after two removals and an insertion, inside the region. *)
Lemma join_lists s L h o L1 L2 B' :
  phys_inv s L -> free_block (blocks s) (spans s) h o -> free_block (blocks s) (spans s) (h + 2 ^ o) o ->
  removed o h L L1 -> removed o (h + 2 ^ o) L1 L2 ->
  block_ok B' (spans s) h (o + 1) -> B' !! blk h = Some (mk_physblock 0 (o + 1) PHYSBLOCK_FREE 0) ->
  let L3 := upd (o + 1) (L2 (o + 1) ++ [h]) L2 in
  (forall k p, 0 <= k <= MAX_ORDER -> ~ (h <= p < h + 2 ^ (o + 1)) -> p ∈ L3 k <-> p ∈ L k) /\
  (forall k p, 0 <= k <= MAX_ORDER -> h <= p < h + 2 ^ (o + 1) -> p ∈ L3 k <-> free_block B' (spans s) p k).
Proof.
  intros Hinv Hh Ht R1 R2 Hb Eh L3. pose proof (bo_order _ _ _ _ (proj1 Hh)).
  assert (2 ^ (o + 1) = 2 * 2 ^ o) as E2 by (rewrite Z.pow_add_r by lia; lia). assert (0 < 2 ^ o) by lia.
  assert (forall k p, p ∈ L3 k <-> (p ∈ L k /\ (k = o -> p <> h /\ p <> h + 2 ^ o)) \/ (k = o + 1 /\ p = h)) as Hel.
  { intros k p. unfold L3, upd. case_decide as Ek.
    - rewrite elem_of_app, list_elem_of_singleton, Ek, (removed_elem _ _ _ _ _ _ R2), (removed_elem _ _ _ _ _ _ R1). intuition lia.
    - rewrite (removed_elem _ _ _ _ _ _ R2), (removed_elem _ _ _ _ _ _ R1). intuition lia. }
  split; intros k p Hk Hp; rewrite Hel.
  - split; [intros [[? _]|[_ ->]]; [done|lia]|]. intros Hin. left. split; [done|]. lia.
  - split.
    + intros [[Hin Hne]|[-> ->]]; [|by split; [|eauto]]. exfalso. apply (pi_free _ _ Hinv) in Hin; [|done].
      destruct (heads_in_two s (blocks s) h o p k) as [? ->]; try done; [apply Hh|apply Ht|apply Hin|]. intuition lia.
    + intros [Hf _]. right. destruct (heads_in_one s B' h (o + 1) p k) as [-> ->]; done.
Qed.

(** Every page keeps its status. *)
Lemma join_status s L h o (B' : gmap Z physblock) p :
  phys_inv s L -> free_block (blocks s) (spans s) h o -> free_block (blocks s) (spans s) (h + 2 ^ o) o -> block_ok B' (spans s) h (o + 1) ->
  B' !! blk h = Some (mk_physblock 0 (o + 1) PHYSBLOCK_FREE 0) -> (forall p, ~ (h <= p < h + 2 ^ (o + 1)) -> B' !! blk p = blocks s !! blk p) ->
  span_of (spans s) p <> -1 -> page_status B' p = page_status (blocks s) p.
Proof.
  intros Hinv Hh Ht Hb' Eh Hout Hp. pose proof (bo_order _ _ _ _ (proj1 Hh)).
  assert (2 ^ (o + 1) = 2 * 2 ^ o) as E2 by (rewrite Z.pow_add_r by lia; lia). destruct (decide (h <= p < h + 2 ^ (o + 1))) as [Hin|Hno].
  - rewrite (block_status (spans s) B' h (o + 1) _ p Hb' Eh Hin).
    destruct (decide (p < h + 2 ^ o)); symmetry.
    + apply (inv_free_status s L Hinv h o p Hh). lia.
    + apply (inv_free_status s L Hinv (h + 2 ^ o) o p Ht). lia.
  - eapply (inv_status_outside s L Hinv B' h); [by apply tiled_two; [apply Hh|apply Ht]|done..].
Qed.

(** The state after the join keeps the invariant and the status of every page. *)
Lemma join_done s L h o L1 L2 s2 (L3 := upd (o + 1) (L2 (o + 1) ++ [h]) L2) :
  phys_inv s L -> free_block (blocks s) (spans s) h o -> free_block (blocks s) (spans s) (h + 2 ^ o) o ->
  removed o h L L1 -> removed o (h + 2 ^ o) L1 L2 -> block_ok (blocks s2) (spans s) h (o + 1) ->
  blocks s2 !! blk h = Some (mk_physblock 0 (o + 1) PHYSBLOCK_FREE 0) ->
  (forall p, ~ (h <= p < h + 2 ^ (o + 1)) -> blocks s2 !! blk p = blocks s !! blk p) ->
  rings_ok (pnodes s2) (alloc_state s) L3 -> dom_kept (pnodes s) (pnodes s2) ->
  stats s2 = set_orders ((fun k => zlength (L3 k)) <$> seqZ 0 13) (stats s) -> spans s2 = spans s -> alloc_state s2 = alloc_state s ->
  rearranged s s2 /\ phys_inv s2 L3 /\ forall k p, 0 <= k <= MAX_ORDER -> p ∈ L3 k -> p ∈ L k \/ (p = h /\ k = o + 1).
Proof.
  intros Hinv Hh Ht R1 R2 Hb' Eh Hout Hr Hd Hst Esp Eal.
  assert (forall p, span_of (spans s) p <> -1 -> page_status (blocks s2) p = page_status (blocks s) p) as Hstat.
  { intros p. by apply (join_status s L h o). }
  destruct (join_lists s L h o L1 L2 _ Hinv Hh Ht R1 R2 Hb' Eh) as [HL1 HL2]. split; [by split; rewrite ?Hst|]. split.
  - eapply (inv_region s L Hinv) with (a := h) (n := 2 ^ (o + 1)); try done.
    + by apply tiled_two; [apply Hh|apply Ht].
    + by apply tiled_one.
    + intros p k b Hp Hbk Eb. destruct (heads_in_one s (blocks s2) h (o + 1) p k) as [-> ->]; try done.
      assert (b = mk_physblock 0 (o + 1) PHYSBLOCK_FREE 0) as -> by congruence. by split.
    + by rewrite Hst.
    + rewrite Hst. cbn [set_orders num_free_4k_pages]. rewrite (pi_count _ _ Hinv). symmetry. by apply is_free_ext; [apply Hinv|].
  - intros k p Hk. unfold L3, upd. case_decide as Ek.
    + rewrite elem_of_app, list_elem_of_singleton, Ek, (removed_elem _ _ _ _ _ _ R2), (removed_elem _ _ _ _ _ _ R1). tauto.
    + rewrite (removed_elem _ _ _ _ _ _ R2), (removed_elem _ _ _ _ _ _ R1). tauto.
Qed.

Lemma join_ok s L h o :
  phys_inv s L -> free_block (blocks s) (spans s) h o -> free_block (blocks s) (spans s) (h + 2 ^ o) o ->
  (2 ^ (o + 1) | h) -> o < MAX_ORDER -> span_of (spans s) (h + 2 ^ o) = span_of (spans s) h ->
  wp (_join_physblocks_locked (blk h) (blk (h + 2 ^ o)) (o + 1)) s (join_post s L h o).
Proof.
  intros Hinv Hh Ht Ha Ho Hs. pose proof (bo_order _ _ _ _ (proj1 Hh)) as Ho'.
  assert (2 ^ (o + 1) = 2 * 2 ^ o) as E2 by (rewrite Z.pow_add_r by lia; lia). assert (0 < 2 ^ o) as Hpos by lia.
  pose proof (inv_lists s L Hinv) as Hsep. pose proof (inv_base s L Hinv) as Hbase.
  pose proof (inv_head_range s L Hinv h o (proj1 Hh)) as Hrange.
  pose proof (proj2 (pi_free _ _ Hinv o h Ho') Hh) as Hhl. pose proof (proj2 (pi_free _ _ Hinv o _ Ho') Ht) as Htl.
  destruct (detach_from (pnodes s) (alloc_state s) L o h) as (L1 & R1 & Hs1 & W1); [apply Hinv|done..|].
  unfold _join_physblocks_locked. apply wp_bind. eapply wp_set_order; [by apply (free_head_fields s L h o)|].
  cbn [head_offset type refcount]. unfold NODE_OFFSET. fold (node h) (node (h + 2 ^ o)).
  apply wp_bind, wp_list_op. psimpl. eapply wp_mono; [exact W1|]. intros ? n1 [Hr1 Hd1].
  destruct (detach_from n1 (alloc_state s) L1 o (h + 2 ^ o)) as (L2 & R2 & Hs2 & W2); try done.
  { rewrite (rm_elem _ _ _ _ R1). split; [done|lia]. }
  apply wp_bind, wp_list_op. psimpl. eapply wp_mono; [exact W2|]. intros ? n2 [Hr2 Hd2].
  apply wp_bind, wp_get, wp_bind, wp_list_op. psimpl. unfold free_list. psimpl.
  eapply wp_mono; [apply (rings_push n2 (alloc_state s) L2 (o + 1) h); try done; try lia|].
  { intros k Hk. rewrite (removed_elem _ _ _ _ _ _ R2), (removed_elem _ _ _ _ _ _ R1). intros [[Hin Hne] _].
    destruct (decide (k = o)) as [->|]; [by apply Hne|]. by apply (proj2 Hsep o k h). }
  { apply Hd2, Hd1, Hinv, Hh. }
  intros ? n3 [Hr3 Hd3]. set (L3 := upd (o + 1) (L2 (o + 1) ++ [h]) L2) in *.
  apply wp_bind. eapply wp_mono; [apply set_tails_ok; [lia|]|].
  { intros i Hi. psimpl. rewrite lookup_insert_ne by (intros ?%blk_inj; lia).
    destruct (decide (i < 2 ^ o)).
    - destruct (block_page (spans s) (blocks s) h o (h + i) (proj1 Hh)) as (? & -> & _); [lia|eauto].
    - destruct (block_page (spans s) (blocks s) (h + 2 ^ o) o (h + i) (proj1 Ht)) as (? & -> & _); [lia|eauto]. }
  intros ? s5 (B' & l' & -> & HB & Hl). psimpl.
  destruct (join_blocks_map s L h o B' Hinv Hh Ht HB) as (Eh & Et & Hout).
  assert (block_ok B' (spans s) h (o + 1)) as Hb' by (by apply (join_block s (blocks s) B' h o (proj1 Hh) (proj1 Ht))).
  assert (2 <= zlength (L o)).
  { pose proof (rm_length _ _ _ _ R1). pose proof (rm_length _ _ _ _ R2). pose proof (zlength_nonneg (L2 o)). lia. }
  pose proof (inv_list_length s L Hinv o ltac:(lia)). pose proof (inv_list_length s L Hinv (o + 1) ltac:(lia)).
  apply wp_bind. rewrite Z.add_simpl_r. eapply wp_order_add_fun; [apply (pi_order _ _ Hinv)|lia|]. psimpl.
  apply wp_bind. eapply wp_order_add_fun; [reflexivity|lia|]. psimpl. apply wp_ret.
  match goal with |- join_post _ _ _ _ _ ?x => set (s2 := x) end.
  destruct (join_done s L h o L1 L2 s2) as (Hre & Hinv3 & HL3); try done.
  { intros x Hx. by apply Hd3, Hd2, Hd1. }
  { unfold s2. psimpl. unfold set_orders. cbn. f_equal. apply order_stats_ext. intros k Hk. unfold upd. repeat case_decide; try lia; subst.
    - rewrite (rm_other _ _ _ _ R2), (rm_other _ _ _ _ R1) by lia. rewrite u64_small by (pose proof (zlength_nonneg (L (o + 1))); unfold is_u; lia).
      unfold zlength. rewrite length_app. simpl. lia.
    - rewrite (rm_length _ _ _ _ R2), (rm_length _ _ _ _ R1). rewrite u64_small by (unfold is_u; lia). lia.
    - by rewrite (rm_other _ _ _ _ R2), (rm_other _ _ _ _ R1). }
  split; [done|]. split; [done|]. split.
  { intros x. unfold s2. psimpl. rewrite Hl. split; intros [Hx Hi]; (split; [done|]); intros (i & ? & ->); apply Hi; exists i; (split; [lia|done]). }
  exists L3. split; [done|]. split; [|done]. split; [done|]. unfold s2. psimpl. eauto.
Qed.

(** ** Compaction *)

Lemma inv_with_locks s L l : phys_inv s L -> phys_inv (with_locks l s) L.
Proof. intros []. by split. Qed.

Lemma lck_inj p q : lck p = lck q -> p = q.
Proof. unfold lck, blk. lia. Qed.

Lemma lck_not_alloc s p : base_ok (alloc_state s) -> 0 <= p -> lck p <> alloc_lock s.
Proof. unfold base_ok, lck, blk, alloc_lock. lia. Qed.

Lemma raw_lock_ok s p :
  0 <= p < 2 ^ 35 -> lck p ∉ locks s ->
  wp (_pfn_to_physblock_raw_lock p) s (fun r s' => r = blk p /\ s' = with_locks ({[lck p]} ∪ locks s) s).
Proof.
  intros Hp Hl. unfold _pfn_to_physblock_raw_lock. rewrite raw_blk by done.
  apply wp_bind, wp_acquire_block; [done|]. by apply wp_ret.
Qed.

Lemma lock_head_ok s p b :
  0 <= p < 2 ^ 35 -> blocks s !! blk p = Some b -> head_offset b = 0 -> lck p ∉ locks s ->
  wp (pfn_to_physblock_lock p) s (fun r s' => r = blk p /\ s' = with_locks ({[lck p]} ∪ locks s) s).
Proof.
  intros Hp Eb Hb Hl. apply wp_bind. eapply wp_mono; [by apply raw_lock_ok|]. intros ? ? [-> ->].
  apply wp_bind. eapply wp_get_block; [exact Eb|]. rewrite Hb. by apply wp_ret.
Qed.

Lemma buddy_lock_ok s L h o :
  phys_inv s L -> block_ok (blocks s) (spans s) h o -> o < MAX_ORDER -> lck (Z.lxor h (2 ^ o)) ∉ locks s ->
  wp (physblock_to_buddy_lock (blk h)) s (fun r s' =>
    match r with
    | None => s' = s /\ span_of (spans s) (Z.lxor h (2 ^ o)) <> span_of (spans s) h
    | Some b => b = blk (Z.lxor h (2 ^ o)) /\ s' = with_locks ({[lck (Z.lxor h (2 ^ o))]} ∪ locks s) s /\
        span_of (spans s) (Z.lxor h (2 ^ o)) = span_of (spans s) h /\
        exists o', block_ok (blocks s) (spans s) (Z.lxor h (2 ^ o)) o' /\ o' <= o
    end).
Proof.
  intros Hinv Hb Ho Hl. pose proof (bo_order _ _ _ _ Hb). pose proof (inv_head_range s L Hinv h o Hb).
  destruct (bo_head _ _ _ _ Hb) as (b & Eb & _ & Eo). unfold physblock_to_buddy_lock.
  rewrite blk_to_pfn by done. apply wp_bind. eapply wp_get_block; [exact Eb|]. rewrite Eo, buddy_pfn_lxor by (unfold MAX_ORDER in *; lia).
  set (q := Z.lxor h (2 ^ o)) in *. apply wp_bind, wp_gets, wp_bind, wp_gets. cbv beta.
  fold (span_of (spans s) h) (span_of (spans s) q).
  pose proof (bo_managed _ _ _ _ Hb) as Hm. rewrite (proj2 (Z.eqb_neq _ _) Hm). simpl orb.
  destruct (Z.eqb_spec (span_of (spans s) h) (span_of (spans s) q)) as [E|E]; simpl negb; [|by apply wp_ret].
  destruct (buddy_is_head (spans s) (blocks s) (pi_part _ _ Hinv) h o) as (o' & Hb' & Ho'); [done|done|fold q; by rewrite <- E|].
  destruct (bo_head _ _ _ _ Hb') as (c & Ec & Hc & _).
  apply wp_bind. eapply wp_mono; [eapply lock_head_ok; [by eapply inv_head_range|exact Ec|done|done]|].
  intros ? ? [-> ->]. apply wp_ret. split_and!; try done. eauto.
Qed.

Definition compact_post (s : phys_mem) (r : Z) (s' : phys_mem) : Prop :=
  exists b L', r = blk b /\ phys_inv s' L' /\ coalesced (spans s') L' /\ rearranged s s' /\
    0 <= b < 2 ^ 35 /\ locks s' = {[lck b; alloc_lock s']}.

Lemma unlock_lock (l : Z) (X : gset Z) : l ∉ X -> ({[l]} ∪ X) ∖ {[l]} = X.
Proof. set_solver. Qed.

Lemma with_locks_self s l : l = locks s -> with_locks l s = s.
Proof. intros ->. by destruct s. Qed.

(** When the block has no free buddy left, the lists are coalesced. *)
Lemma coalesced_stop s L h o :
  phys_inv s L -> free_block (blocks s) (spans s) h o -> coalesced_but (fun x => x = h) (spans s) L ->
  (o < MAX_ORDER -> Z.lxor h (2 ^ o) ∈ L o -> span_of (spans s) (Z.lxor h (2 ^ o)) <> span_of (spans s) h) ->
  coalesced (spans s) L.
Proof.
  intros Hinv Hf Hco Hno k p Hk Hp Hq Hsp. exfalso. destruct (Hco k p Hk Hp Hq Hsp) as [->|E].
  - pose proof (proj1 (pi_free _ _ Hinv k h ltac:(lia)) Hp) as Hp'.
    rewrite <- (free_block_order s L Hinv h o k Hf Hp') in *. by apply Hno; [lia|..].
  - pose proof (proj1 (pi_free _ _ Hinv k _ ltac:(lia)) Hq) as Hq'. rewrite E in *.
    rewrite <- (free_block_order s L Hinv h o k Hf Hq') in *. rewrite <- E, lxor_pow_involutive in Hno.
    apply Hno; [lia|done|]. by rewrite E.
Qed.

Lemma buddy_ne h o : 0 <= o -> 0 <= h -> Z.lxor h (2 ^ o) <> h /\ 0 <= Z.lxor h (2 ^ o).
Proof.
  intros Ho Hh. split.
  - intros E. assert (Z.lxor h (Z.lxor h (2 ^ o)) = Z.lxor h h) as E' by by rewrite E.
    rewrite <- Z.lxor_assoc, Z.lxor_nilpotent, Z.lxor_0_l in E'. lia.
  - apply Z.lxor_nonneg. lia.
Qed.

(** The join of a block and its buddy, whichever is first. *)
Lemma join_buddies_ok s L h o :
  phys_inv s L -> free_block (blocks s) (spans s) h o -> free_block (blocks s) (spans s) (Z.lxor h (2 ^ o)) o ->
  o < MAX_ORDER -> span_of (spans s) (Z.lxor h (2 ^ o)) = span_of (spans s) h ->
  wp (if blk (Z.lxor h (2 ^ o)) <? blk h then _join_physblocks_locked (blk (Z.lxor h (2 ^ o))) (blk h) (o + 1)
      else _join_physblocks_locked (blk h) (blk (Z.lxor h (2 ^ o))) (o + 1)) s
    (fun r s' => exists m, (h = m /\ Z.lxor h (2 ^ o) = m + 2 ^ o \/ h = m + 2 ^ o /\ Z.lxor h (2 ^ o) = m) /\ join_post s L m o r s').
Proof.
  intros Hinv Hf Hq Ho Hs. pose proof (bo_order _ _ _ _ (proj1 Hf)) as Ho'.
  destruct (buddy_cases h o) as [[E Hd]|[E Hd]]; [lia|apply Hf|..]; rewrite E in *.
  - rewrite (proj2 (Z.ltb_ge _ _)) by (unfold blk; lia).
    eapply wp_mono; [by apply (join_ok s L h o)|]. intros r s' H. exists h. split; [by left|done].
  - rewrite (proj2 (Z.ltb_lt _ _)) by (unfold blk; lia).
    assert (h = h - 2 ^ o + 2 ^ o) as Eh by lia. rewrite Eh at 2.
    eapply wp_mono; [apply (join_ok s L (h - 2 ^ o) o)|]; rewrite <- ?Eh; try done.
    intros r s' H. exists (h - 2 ^ o). split; [|done]. right. split; lia.
Qed.

Lemma join_locks s s' h o m (q := Z.lxor h (2 ^ o)) :
  0 <= o -> 0 <= m -> base_ok (alloc_state s) -> locks s = {[lck h; alloc_lock s]} ->
  (h = m /\ q = m + 2 ^ o \/ h = m + 2 ^ o /\ q = m) ->
  (forall x, x ∈ locks s' <-> x ∈ {[lck q]} ∪ locks s /\ ~ exists i, 1 <= i < 2 ^ (o + 1) /\ x = lck (m + i)) ->
  locks s' = {[lck m; alloc_lock s]}.
Proof.
  intros Ho Hm Hb Hl Hcase Hl'. assert (2 ^ (o + 1) = 2 * 2 ^ o) as E2 by (rewrite Z.pow_add_r by lia; lia).
  assert (0 < 2 ^ o) by lia.
  apply set_eq. intros x. rewrite Hl', Hl, !elem_of_union, !elem_of_singleton. split.
  - intros [Hx Hi]. assert (forall y, x = lck y -> y = m \/ y = m + 2 ^ o -> x = lck m) as Hy.
    { intros y -> [->| ->]; [done|]. exfalso. apply Hi. exists (2 ^ o). split; [lia|done]. }
    destruct Hx as [Hx|[Hx|Hx]]; [left; apply (Hy q)|left; apply (Hy h)|by right]; try done; lia.
  - intros Hx. split.
    + destruct Hx as [->|Hx]; [|by right; right]. destruct Hcase as [[-> _]|[_ ->]]; auto.
    + intros (i & Hi & Ei). destruct Hx as [Hx|Hx].
      * rewrite Hx in Ei. apply lck_inj in Ei. lia.
      * rewrite Hx in Ei. by apply (lck_not_alloc s (m + i)); [|lia|].
Qed.

Lemma compact_ok fuel s L h o :
  phys_inv s L -> free_block (blocks s) (spans s) h o -> coalesced_but (fun x => x = h) (spans s) L ->
  locks s = {[lck h; alloc_lock s]} -> MAX_ORDER - o < Z.of_nat fuel ->
  wp (compact_loop fuel o (blk h)) s (compact_post s).
Proof.
  revert s L h o. induction fuel as [|fuel IH]; intros s L h o Hinv Hf Hco Hl Hfuel;
    pose proof (bo_order _ _ _ _ (proj1 Hf)) as Ho; [lia|].
  pose proof (inv_head_range s L Hinv h o (proj1 Hf)) as Hh. pose proof (inv_base s L Hinv) as Hbase.
  assert (coalesced (spans s) L -> compact_post s (blk h) s) as Hstop.
  { intros ?. exists h, L. pose proof (rearranged_refl s). split_and!; done || lia. }
  cbn [compact_loop]. destruct (Z.leb_spec o (MAX_ORDER - 1)) as [Hlt|Hge].
  2:{ apply wp_ret, Hstop, (coalesced_stop s L h o); try done. lia. }
  destruct (buddy_ne h o) as [Hqh Hq0]; [lia..|].
  assert (lck (Z.lxor h (2 ^ o)) ∉ locks s) as Hql.
  { rewrite Hl, elem_of_union, !elem_of_singleton. intros [?%lck_inj|?]; [done|]. by apply (lck_not_alloc s (Z.lxor h (2 ^ o))). }
  apply wp_bind. eapply wp_mono; [apply (buddy_lock_ok s L h o); try done; [apply Hf|lia]|].
  intros [r|] s1; [intros (-> & -> & Hsp & o' & Hb' & Ho')|intros [-> Hsp]].
  2:{ apply wp_ret, Hstop. by apply (coalesced_stop s L h o). }
  destruct (bo_head _ _ _ _ Hb') as (c & Ec & Hc & Hco'). apply wp_bind. eapply wp_get_block; [exact Ec|].
  destruct (_ || _) eqn:Echk.
  - apply wp_bind, wp_release_block, wp_ret. psimpl.
    rewrite unlock_lock by exact Hql. change (with_locks (locks s) _) with (with_locks (locks s) s). rewrite with_locks_self by done.
    apply Hstop, (coalesced_stop s L h o); try done. intros _ Hq _. apply (pi_free _ _ Hinv) in Hq as [Hq (d & Ed & Td)]; [|done].
    assert (d = c) as -> by congruence. assert (order c = o) as Eo by (destruct (bo_head _ _ _ _ Hq) as (e & ? & _ & ?); congruence).
    rewrite Td, Eo, (Z.eqb_refl o) in Echk. vm_compute in Echk. done.
  - apply orb_false_iff in Echk as [Hty%negb_false_iff Hor%negb_false_iff]. apply Z.eqb_eq in Hty, Hor.
    assert (o' = o) as -> by congruence.
    assert (free_block (blocks s) (spans s) (Z.lxor h (2 ^ o)) o) as Hqf.
    { split; [done|]. exists c. split; [done|]. by apply (pi_head _ _ Hinv _ o c Hb' Ec). }
    apply wp_bind. eapply wp_mono; [apply (join_buddies_ok _ L h o); [by apply inv_with_locks|done|done|lia|done]|].
    intros r s' (m & Hm & -> & Hre & Hl' & L' & Hinv' & Hmf & HL'). psimpl.
    pose proof (inv_head_range s' L' Hinv' m _ (proj1 Hmf)) as Hm0.
    assert (alloc_lock s' = alloc_lock s) as Eal by (unfold alloc_lock; by rewrite (re_ptr _ _ Hre)).
    eapply wp_mono; [apply (IH s' L' m (o + 1)); try done; try lia|].
    + rewrite (re_spans _ _ Hre). psimpl. intros k p Hk Hp Hq Hsp'.
      assert (forall x, x = h -> x ∈ L' k -> x = m) as Hhm.
      { intros x -> Hx. apply (pi_free _ _ Hinv') in Hx; [|lia]. 
        apply (heads_in_one s' (blocks s') m (o + 1) h k); [apply Hmf|apply Hx|]. rewrite Z.pow_add_r by lia. lia. }
      destruct (HL' k p) as [Hp1|[? _]]; [lia|done| |by left].
      destruct (HL' k _ ltac:(lia) Hq) as [Hq1|[? _]]; [|by right].
      destruct (Hco k p Hk Hp1 Hq1 Hsp') as [?|?]; [left|right]; by apply Hhm.
    + rewrite Eal. apply (join_locks s s' h o m); try done; lia.
    + intros r s2 (b & L2 & -> & Hinv2 & Hco2 & Hre2 & Hb2 & Hl2). exists b, L2. split_and!; try done; try lia.
      eapply rearranged_trans; [|exact Hre2]. by destruct Hre.
Qed.

(** ** Taking a block and putting it back *)

Lemma retype_block sp B h o t r (B' := <[blk h := mk_physblock 0 o t r]> B) :
  block_ok B sp h o ->
  block_ok B' sp h o /\ tiled sp B h (2 ^ o) /\ tiled sp B' h (2 ^ o) /\
  (forall p, ~ (h <= p < h + 2 ^ o) -> B' !! blk p = B !! blk p) /\
  (forall p, h <= p < h + 2 ^ o -> page_status B' p = Some (head_state h (mk_physblock 0 o t r))).
Proof.
  intros Hb. pose proof (bo_order _ _ _ _ Hb).
  assert (block_ok B' sp h o) as Hb'.
  { split; try apply Hb.
    - exists (mk_physblock 0 o t r). unfold B'. by rewrite lookup_insert_eq.
    - intros i Hi. unfold B'. rewrite lookup_insert_ne by (intros ?%blk_inj; lia). by apply Hb. }
  split; [done|]. split; [by apply tiled_one|]. split; [by apply tiled_one|]. split.
  - intros p Hp. unfold B'. rewrite lookup_insert_ne; [done|]. intros ?%blk_inj. lia.
  - intros p Hp. apply (block_status sp B' h o); [done| |done]. unfold B'. by rewrite lookup_insert_eq.
Qed.

(** The number of free pages when the pages of one block change. *)
Lemma count_block s L h o (B' : gmap Z physblock) (fr fr' : bool) :
  phys_inv s L -> block_ok (blocks s) (spans s) h o -> tiled (spans s) (blocks s) h (2 ^ o) ->
  (forall p, ~ (h <= p < h + 2 ^ o) -> B' !! blk p = blocks s !! blk p) ->
  (forall p, h <= p < h + 2 ^ o -> is_free (blocks s) p = fr /\ is_free B' p = fr') ->
  count_true (is_free B') (pfns (spans s)) =
  count_true (is_free (blocks s)) (pfns (spans s)) + (if fr' then 2 ^ o else 0) - (if fr then 2 ^ o else 0).
Proof.
  intros Hinv Hb Ht Hout Hin. pose proof (bo_order _ _ _ _ Hb). pose proof (pi_spans _ _ Hinv) as Hw.
  set (mem p := bool_decide (p ∈ pfns (spans s))).
  assert (forall B'', count_true (is_free B'') (pfns (spans s)) = count_true (fun p => mem p && is_free B'' p) (pfns (spans s))) as Hmem.
  { intros B''. apply count_true_ext. intros p Hp. unfold mem. by rewrite bool_decide_true. }
  assert (forall p, h <= p < h + 2 ^ o -> mem p = true) as Hmt.
  { intros p Hp. apply bool_decide_true, elem_of_pfns; [done|]. rewrite (block_managed _ _ _ _ _ Hb Hp). apply Hb. }
  assert (forall p, p ∉ seqZ h (2 ^ o) -> mem p && is_free B' p = mem p && is_free (blocks s) p) as Hsame.
  { intros p Hp. rewrite elem_of_seqZ in Hp. destruct (mem p) eqn:Em; [|done]. simpl. unfold is_free.
    rewrite (inv_status_outside s L Hinv B' h (2 ^ o) p); try done.
    apply bool_decide_eq_true in Em. by apply elem_of_pfns in Em. }
  assert (zlength (seqZ h (2 ^ o)) = 2 ^ o) as Hlen by (unfold zlength; rewrite length_seqZ; lia).
  assert (forall p, p ∈ seqZ h (2 ^ o) -> p ∈ pfns (spans s) /\ mem p = true /\ is_free (blocks s) p = fr /\ is_free B' p = fr') as Hrun.
  { intros p Hp%elem_of_seqZ. pose proof (Hmt p Hp) as Hm. split; [by apply bool_decide_eq_true in Hm|]. split; [done|by apply Hin]. }
  rewrite !Hmem. destruct fr, fr'.
  - rewrite (count_true_ext (fun p => mem p && is_free B' p) (fun p => mem p && is_free (blocks s) p)); [lia|].
    intros p _. destruct (decide (p ∈ seqZ h (2 ^ o))) as [Hp|Hp]; [|by apply Hsame]. by destruct (Hrun p Hp) as (_ & -> & -> & ->).
  - rewrite (count_true_flip_list (seqZ h (2 ^ o)) (fun p => mem p && is_free B' p) (fun p => mem p && is_free (blocks s) p)); [lia|apply Hw|apply NoDup_seqZ|..].
    + intros p Hp. by destruct (Hrun p Hp) as (? & -> & -> & ->).
    + intros p Hp. by rewrite Hsame.
  - rewrite (count_true_flip_list (seqZ h (2 ^ o)) (fun p => mem p && is_free (blocks s) p) (fun p => mem p && is_free B' p)); [lia|apply Hw|apply NoDup_seqZ|..].
    + intros p Hp. by destruct (Hrun p Hp) as (? & -> & -> & ->).
    + done.
  - rewrite (count_true_ext (fun p => mem p && is_free B' p) (fun p => mem p && is_free (blocks s) p)); [lia|].
    intros p _. destruct (decide (p ∈ seqZ h (2 ^ o))) as [Hp|Hp]; [|by apply Hsame]. by destruct (Hrun p Hp) as (_ & -> & -> & ->).
Qed.

(** The status of every page after the pages of one block changed. *)
Definition block_becomes (s s' : phys_mem) (h o : Z) (st : page_state) : Prop :=
  forall p, span_of (spans s) p <> -1 ->
    page_status (blocks s') p = if decide (h <= p < h + 2 ^ o) then Some st else page_status (blocks s) p.

(** One block changes its type or count, and its list membership with it. *)
Lemma retype_inv s L h o b t r s' L' :
  phys_inv s L -> block_ok (blocks s) (spans s) h o -> blocks s !! blk h = Some b ->
  head_wf (mk_physblock 0 o t r) ->
  blocks s' = <[blk h := mk_physblock 0 o t r]> (blocks s) -> spans s' = spans s -> alloc_state s' = alloc_state s ->
  (forall k p, 0 <= k <= MAX_ORDER -> p <> h -> p ∈ L' k <-> p ∈ L k) ->
  (forall k, 0 <= k <= MAX_ORDER -> h ∈ L' k <-> k = o /\ t = PHYSBLOCK_FREE) ->
  rings_ok (pnodes s') (alloc_state s) L' -> dom_kept (pnodes s) (pnodes s') ->
  order_stats (stats s') = (fun o => zlength (L' o)) <$> seqZ 0 13 ->
  num_free_4k_pages (stats s') = count_true (is_free (blocks s')) (pfns (spans s)) ->
  phys_inv s' L' /\ block_becomes s s' h o (head_state h (mk_physblock 0 o t r)).
Proof.
  intros Hinv Hb Eb Hwf EB Esp Eptr HL HLh Hr Hd Hord Hcnt. pose proof (bo_order _ _ _ _ Hb).
  destruct (retype_block (spans s) (blocks s) h o t r Hb) as (Hb' & Ht & Ht' & Hout & Hin). rewrite <- EB in *. split.
  - eapply (inv_region s L Hinv) with (a := h) (n := 2 ^ o); try done.
    + intros p k c Hp Hbk Ec. destruct (heads_in_one s (blocks s') h o p k) as [-> ->]; try done.
      rewrite EB, lookup_insert_eq in Ec. congruence.
    + intros k p Hk Hp. apply HL; [done|]. lia.
    + intros k p Hk Hp. split.
      * intros Hpl. destruct (decide (p = h)) as [->|Hne].
        -- apply HLh in Hpl as [-> ->]; [|done]. split; [done|]. rewrite EB, lookup_insert_eq. eauto.
        -- exfalso. apply HL in Hpl; [|done..]. apply (pi_free _ _ Hinv) in Hpl as [Hpl _]; [|done].
           by destruct (heads_in_one s (blocks s) h o p k) as [-> _].
      * intros [Hpb (c & Ec & Tc)]. destruct (heads_in_one s (blocks s') h o p k) as [-> ->]; try done.
        apply HLh; [done|]. split; [done|]. rewrite EB, lookup_insert_eq in Ec. injection Ec as <-. done.
  - intros p Hp. case_decide as Hc; [by apply Hin|]. by eapply (inv_status_outside s L Hinv).
Qed.

(** ** Freeing *)

(** The statistics of special pages after a block of type [t] was freed. *)
Definition uncounted (t : Z) (st st' : phys_alloc_stats) : Prop :=
  num_4k_pages st' = num_4k_pages st /\
  num_pagetable_pages st' =
    (if Z.land t PHYSBLOCK_TYPE_MASK =? PHYSBLOCK_PAGETABLE then u64 (num_pagetable_pages st - 1) else num_pagetable_pages st) /\
  num_physblock_pages st' =
    (if Z.land t PHYSBLOCK_TYPE_MASK =? PHYSBLOCK_PHYSBLOCK then u64 (num_physblock_pages st - 1) else num_physblock_pages st).

Lemma wp_uncount t s (Q : unit -> phys_mem -> Prop) :
  (forall st, uncounted t (stats s) st -> num_free_4k_pages st = num_free_4k_pages (stats s) ->
     order_stats st = order_stats (stats s) -> Q tt (with_stats st s)) ->
  wp (if Z.land t PHYSBLOCK_TYPE_MASK =? PHYSBLOCK_PAGETABLE then set_stats (pagetable_add (-1))
      else if Z.land t PHYSBLOCK_TYPE_MASK =? PHYSBLOCK_PHYSBLOCK then set_stats (physblock_add (-1))
      else mret tt) s Q.
Proof.
  unfold uncounted. generalize (Z.land t PHYSBLOCK_TYPE_MASK). intros k.
  destruct (Z.eqb_spec k PHYSBLOCK_PAGETABLE) as [->|]; intros HQ.
  - apply wp_modify. by apply HQ.
  - destruct (Z.eqb_spec k PHYSBLOCK_PHYSBLOCK) as [->|].
    + apply wp_modify. by apply HQ.
    + apply wp_ret. replace s with (with_stats (stats s) s) by by destruct s. by apply HQ.
Qed.

Lemma not_free_status s L h o b p :
  phys_inv s L -> block_ok (blocks s) (spans s) h o -> blocks s !! blk h = Some b -> refcount b <> 0 ->
  h <= p < h + 2 ^ o ->
  Z.land (type b) PHYSBLOCK_TYPE_MASK <> PHYSBLOCK_FREE /\ is_free (blocks s) p = false /\
  page_status (blocks s) p = Some (Used h o (type b) (refcount b)).
Proof.
  intros Hinv Hb Eb Hr Hp.
  assert (Z.land (type b) PHYSBLOCK_TYPE_MASK <> PHYSBLOCK_FREE) as Hne.
  { intros Ht. by destruct (pi_head _ _ Hinv h o b Hb Eb) as [[_ ?] _]. }
  assert (page_status (blocks s) p = Some (Used h o (type b) (refcount b))) as Hs.
  { rewrite (block_status _ _ h o b p Hb Eb Hp). unfold head_state. rewrite (proj2 (Z.eqb_neq _ _) Hne).
    destruct (bo_head _ _ _ _ Hb) as (c & Ec & _ & <-). by simplify_eq. }
  split_and!; [done| |done]. unfold is_free. rewrite Hs. by apply bool_decide_false.
Qed.

Definition free_post (s : phys_mem) (h o t : Z) (s' : phys_mem) : Prop :=
  phys_ok s' /\ spans s' = spans s /\ alloc_state s' = alloc_state s /\ block_becomes s s' h o Free /\
  uncounted t (stats s) (stats s').

Lemma pow_u64 o : 0 <= o <= MAX_ORDER -> (1 << o)%u64 = 2 ^ o.
Proof.
  unfold MAX_ORDER. intros Ho. unfold shl64. rewrite Z.shiftl_1_l. apply u64_small. split; [lia|]. apply Z.pow_lt_mono_r; lia.
Qed.

(** The last reference to a block in use is dropped. *)
(** A block in use is on no list. *)
Lemma used_gone s L h o b k :
  phys_inv s L -> block_ok (blocks s) (spans s) h o -> blocks s !! blk h = Some b -> refcount b = 1 -> 0 <= k <= MAX_ORDER -> h ∉ L k.
Proof.
  intros Hinv Hb Eb Hr Hk Hin. pose proof (bo_order _ _ _ _ Hb). destruct (not_free_status s L h o b h Hinv Hb Eb) as (Hnf & _ & _); [lia..|].
  apply (pi_free _ _ Hinv) in Hin as [_ (c & Ec & Tc)]; [|done]. apply Hnf. assert (c = b) as -> by congruence. by rewrite Tc.
Qed.

(** The invariant with a block given back, on its list. *)
Lemma give_inv s L h o b s2 (L2 := upd o (L o ++ [h]) L) :
  phys_inv s L -> block_ok (blocks s) (spans s) h o -> blocks s !! blk h = Some b -> refcount b = 1 ->
  blocks s2 = <[blk h := mk_physblock 0 o PHYSBLOCK_FREE 0]> (blocks s) -> spans s2 = spans s -> alloc_state s2 = alloc_state s ->
  rings_ok (pnodes s2) (alloc_state s) L2 -> dom_kept (pnodes s) (pnodes s2) ->
  order_stats (stats s2) = (fun k => if decide (k = o) then u64 (zlength (L o) + 1) else zlength (L k)) <$> seqZ 0 13 ->
  num_free_4k_pages (stats s2) = u64 (num_free_4k_pages (stats s) + 2 ^ o) ->
  phys_inv s2 L2 /\ block_becomes s s2 h o Free.
Proof.
  intros Hinv Hb Eb Hr EB Esp Eal Hr1 Hd1 Hord Hfree. pose proof (bo_order _ _ _ _ Hb) as Ho. assert (0 < 2 ^ o) as Hpos by lia.
  pose proof (fun k => used_gone s L h o b k Hinv Hb Eb Hr) as Hnl.
  destruct (retype_block (spans s) (blocks s) h o PHYSBLOCK_FREE 0 Hb) as (_ & Ht & _ & Hout & Hin).
  assert (count_true (is_free (blocks s2)) (pfns (spans s)) = count_true (is_free (blocks s)) (pfns (spans s)) + 2 ^ o) as Hcnt.
  { rewrite EB, (count_block s L h o _ false true Hinv Hb Ht Hout); [lia|]. intros p Hp. split.
    - by apply (not_free_status s L h o b p); [..|lia|].
    - unfold is_free. rewrite Hin by done. by apply bool_decide_true. }
  apply (retype_inv s L h o b PHYSBLOCK_FREE 0); try done.
  - intros k p Hk Hp. unfold L2, upd. case_decide as Ek; [|done]. rewrite Ek, elem_of_app, list_elem_of_singleton. tauto.
  - intros k Hk. unfold L2, upd. case_decide as Ek; [|split; [by intros ?%Hnl|by intros [? _]]]. rewrite elem_of_app, list_elem_of_singleton. tauto.
  - rewrite Hord. apply order_stats_ext. intros k Hk. unfold L2, upd. case_decide; [|done].
    pose proof (inv_list_length s L Hinv o Ho). pose proof (zlength_nonneg (L o)).
    rewrite u64_small by (unfold is_u; lia). unfold zlength. rewrite length_app. simpl. lia.
  - rewrite Hcnt, Hfree, (pi_count _ _ Hinv). pose proof (zlength_pfns _ (pi_spans _ _ Hinv)).
    pose proof (count_true_bounds (is_free (blocks s2)) (pfns (spans s))). pose proof (count_true_bounds (is_free (blocks s)) (pfns (spans s))).
    apply u64_small. unfold is_u. lia.
Qed.

Lemma free_last_ok s L h o b :
  phys_inv s L -> coalesced (spans s) L -> block_ok (blocks s) (spans s) h o -> blocks s !! blk h = Some b ->
  refcount b = 1 -> locks s = {[lck h]} ->
  wp (free_physblock_locked (blk h)) s (fun _ s' => free_post s h o (type b) s').
Proof.
  intros Hinv Hco Hb Eb Hr Hl. pose proof (bo_order _ _ _ _ Hb) as Ho. pose proof (inv_base s L Hinv) as Hbase.
  pose proof (inv_head_range s L Hinv h o Hb) as Hh. pose proof (inv_lists s L Hinv) as Hsep.
  assert (0 < 2 ^ o) as Hpos by lia.
  destruct (bo_head _ _ _ _ Hb) as (b' & Eb' & Hoff & Hord). assert (b' = b) as -> by congruence. clear Eb'.
  destruct (not_free_status s L h o b h Hinv Hb Eb) as (Hnf & _ & _); [lia..|].
  pose proof (fun k => used_gone s L h o b k Hinv Hb Eb Hr) as Hnl.
  unfold free_physblock_locked. apply wp_bind. eapply wp_get_block; [exact Eb|]. rewrite Hr. simpl.
  apply wp_bind. eapply wp_set_refcount; [exact Eb|].
  apply wp_bind. eapply wp_get_block; [by apply lookup_insert_eq|]. cbn [type order]. rewrite Hoff, Hord.
  apply wp_bind, wp_acquire_alloc; psimpl; unfold alloc_lock; psimpl; fold (alloc_lock s).
  { rewrite Hl, elem_of_singleton. intros E. by apply (lck_not_alloc s h); [|lia|]. }
  rewrite (proj2 (Z.eqb_neq _ _) Hnf). apply wp_bind, wp_bind, wp_uncount. intros st (Hu1 & Hu2 & Hu3) Hst1 Hst2. psimpl.
  apply wp_bind. eapply wp_set_type; [by apply lookup_insert_eq|]. cbn [head_offset order refcount]. psimpl.
  apply wp_bind, wp_get, wp_bind, wp_list_op. psimpl. unfold free_list. psimpl. unfold NODE_OFFSET. fold (node h).
  eapply wp_mono; [apply (rings_push (pnodes s) (alloc_state s) L o h); try done; [apply Hinv|lia|apply Hinv, Hb]|].
  intros ? n1 [Hr1 Hd1]. apply wp_bind, wp_modify. psimpl.
  eapply wp_order_add_fun; [psimpl; rewrite Hst2; apply (pi_order _ _ Hinv)|done|]. psimpl.
  match goal with |- wp _ ?x _ => set (s2 := x) end. set (L2 := upd o (L o ++ [h]) L) in *.
  assert (phys_inv s2 L2 /\ block_becomes s s2 h o Free) as [Hinv2 Hbec].
  { apply (give_inv s L h o b s2); try done; unfold s2; psimpl; [by rewrite insert_insert_eq|]. by rewrite Hst1, pow_u64. }
  unfold compact_free_blocks_locked. apply wp_bind, wp_bind. eapply wp_get_block; [by apply lookup_insert_eq|]. cbn [order].
  eapply wp_mono; [apply (compact_ok 14 s2 L2 h o Hinv2)|].
  - apply (pi_free _ _ Hinv2); [done|]. unfold L2, upd. rewrite decide_True by done. apply elem_of_app. right. by left.
  - intros k p Hk. change (spans s2) with (spans s). unfold L2, upd. case_decide as Ek; [|intros; by destruct (Hco k p)].
    rewrite !elem_of_app, !list_elem_of_singleton. intros [?|?] [?|?] ?; auto. left. subst k. by destruct (Hco o p).
  - unfold s2. psimpl. rewrite Hl. apply (comm_L (∪)).
  - unfold MAX_ORDER in *. lia.
  - intros r s3 (q & L3 & -> & Hinv3 & Hco3 & Hre & Hq & Hl3). apply wp_bind, wp_release_alloc, wp_release_block.
    split; [|split; [apply (re_spans _ _ Hre)|split; [apply (re_ptr _ _ Hre)|split]]].
    + exists L3. split; [by apply inv_with_locks, inv_with_locks|]. split; [done|]. psimpl. rewrite Hl3. fold (lck q). set_solver.
    + intros p Hp. psimpl. rewrite (re_status _ _ Hre) by done. by apply Hbec.
    + psimpl. unfold uncounted. rewrite (re_4k _ _ Hre), (re_pt _ _ Hre), (re_pb _ _ Hre). by split_and!.
Qed.

(** A block that keeps references, or has none. *)
Lemma free_counted_ok s L h o b :
  phys_inv s L -> coalesced (spans s) L -> block_ok (blocks s) (spans s) h o -> blocks s !! blk h = Some b ->
  1 < refcount b -> locks s = {[lck h]} ->
  wp (free_physblock_locked (blk h)) s (fun _ s' =>
    phys_ok s' /\ spans s' = spans s /\ alloc_state s' = alloc_state s /\ stats s' = stats s /\
    block_becomes s s' h o (Used h o (type b) (refcount b - 1))).
Proof.
  intros Hinv Hco Hb Eb Hr Hl. pose proof (bo_order _ _ _ _ Hb) as Ho. pose proof (pi_head _ _ Hinv h o b Hb Eb) as [_ Hu].
  destruct (bo_head _ _ _ _ Hb) as (b' & Eb' & Hoff & Hord). assert (b' = b) as -> by congruence. clear Eb'.
  assert (0 < 2 ^ o) by lia. destruct (not_free_status s L h o b h Hinv Hb Eb) as (Hnf & _ & _); [lia..|].
  assert (forall k, 0 <= k <= MAX_ORDER -> h ∉ L k) as Hnl.
  { intros k Hk Hin. apply (pi_free _ _ Hinv) in Hin as [_ (c & Ec & Tc)]; [|done]. apply Hnf. assert (c = b) as -> by congruence. by rewrite Tc. }
  unfold free_physblock_locked. apply wp_bind. eapply wp_get_block; [exact Eb|].
  rewrite (proj2 (Z.eqb_neq _ _)) by lia. rewrite (proj2 (Z.ltb_lt _ _) Hr).
  apply wp_bind. eapply wp_set_refcount; [exact Eb|]. apply wp_release_block. rewrite Hoff, Hord.
  match goal with |- context [phys_ok ?x] => set (s2 := x) end.
  destruct (retype_block (spans s) (blocks s) h o (type b) (refcount b - 1) Hb) as (_ & Ht & _ & Hout & Hin).
  assert (head_state h (mk_physblock 0 o (type b) (refcount b - 1)) = Used h o (type b) (refcount b - 1)) as Hhs.
  { unfold head_state. simpl. by rewrite (proj2 (Z.eqb_neq _ _) Hnf). }
  assert (phys_inv s2 L /\ block_becomes s s2 h o (Used h o (type b) (refcount b - 1))) as [Hinv2 Hbec].
  { rewrite <- Hhs. apply (retype_inv s L h o b (type b) (refcount b - 1)); try done; unfold s2; psimpl; try apply Hinv.
    - split; [done|]. simpl. unfold is_u in *. lia.
    - intros k Hk. split; [by intros ?%Hnl|]. intros [_ E]. exfalso. apply Hnf. by rewrite E.
    - by intros x Hx.
    - rewrite (pi_count _ _ Hinv). rewrite (count_block s L h o _ false false Hinv Hb Ht Hout); [lia|]. intros p Hp. split.
      + by apply (not_free_status s L h o b p); [..|lia|].
      + unfold is_free. rewrite Hin by done. rewrite Hhs. by apply bool_decide_false. }
  split; [|done]. exists L. split; [done|]. split; [done|]. unfold s2. psimpl. rewrite Hl. fold (lck h). set_solver.
Qed.

(** The page whose lock [pfn_to_physblock_lock] takes: the first frame, if the
    offset fits in a byte. *)
Lemma lock_page_ok s L h o p (q := p - (p - h) mod 256) :
  phys_inv s L -> block_ok (blocks s) (spans s) h o -> h <= p < h + 2 ^ o -> locks s = ∅ ->
  wp (pfn_to_physblock_lock p) s (fun r s' => r = blk q /\ s' = with_locks {[lck q]} s).
Proof.
  intros Hinv Hb Hp Hl. pose proof (inv_block_range s L Hinv h o p Hb Hp) as Hpr.
  pose proof (inv_head_range s L Hinv h o Hb) as Hhr.
  destruct (block_page (spans s) (blocks s) h o p Hb Hp) as (b & Eb & Hoff).
  assert (0 <= (p - h) mod 256 <= p - h) as Hmod by (pose proof (Z.mod_pos_bound (p - h) 256); pose proof (Z.mod_le (p - h) 256); lia).
  apply wp_bind. eapply wp_mono; [apply raw_lock_ok; [done|by rewrite Hl; apply not_elem_of_empty]|]. intros ? ? [-> ->].
  apply wp_bind. eapply wp_get_block; [exact Eb|]. rewrite Hoff, Hl, (right_id_L ∅ (∪)).
  destruct (Z.eqb_spec (p - h) 0) as [E|E].
  - apply wp_ret. unfold q. rewrite E, Z.mod_0_l, Z.sub_0_r by lia. done.
  - apply wp_bind. eapply wp_get_block; [exact Eb|]. apply wp_bind, wp_release_block. rewrite Hoff.
    change (u8 (p - h)) with ((p - h) mod 256). rewrite sub64_small by (unfold is_u; lia). fold q.
    assert ({[lck p]} ∖ {[blk p + 28]} = (∅ : gset Z)) as Hempty by (fold (lck p); set_solver).
    eapply wp_mono; [apply raw_lock_ok; [unfold q; lia|psimpl; rewrite Hempty; apply not_elem_of_empty]|].
    intros ? ? [-> ->]. split; [done|]. psimpl. rewrite Hempty, (right_id_L ∅ (∪)). done.
Qed.

Lemma locks_single_release s h : with_locks (locks (with_locks {[lck h]} s) ∖ {[blk h + 28]}) (with_locks {[lck h]} s) = with_locks ∅ s.
Proof. psimpl. unfold with_locks. f_equal. fold (lck h). set_solver. Qed.

(** A frame with no reference is left alone. *)
Lemma free_zero_ok s q b :
  blocks s !! blk q = Some b -> refcount b = 0 -> locks s = ∅ ->
  wp (free_physblock_locked (blk q)) (with_locks {[lck q]} s) (fun _ s' => s' = s).
Proof.
  intros Eb Hr Hl. unfold free_physblock_locked. apply wp_bind. eapply wp_get_block; [exact Eb|]. rewrite Hr. simpl.
  apply wp_release_block. rewrite locks_single_release. by apply with_locks_self.
Qed.

Definition freed (s : phys_mem) (h o t r : Z) (s' : phys_mem) : Prop :=
  phys_ok s' /\ spans s' = spans s /\ alloc_state s' = alloc_state s /\
  (r = 0 -> s' = s) /\
  (1 < r -> stats s' = stats s /\ block_becomes s s' h o (Used h o t (r - 1))) /\
  (r = 1 -> uncounted t (stats s) (stats s') /\ block_becomes s s' h o Free).

Lemma free_head_ok s L h o b :
  phys_inv s L -> coalesced (spans s) L -> locks s = ∅ -> block_ok (blocks s) (spans s) h o -> blocks s !! blk h = Some b ->
  wp (free_physblock_locked (blk h)) (with_locks {[lck h]} s) (fun _ s' => freed s h o (type b) (refcount b) s').
Proof.
  intros Hinv Hco Hl Hb Eb. destruct (pi_head _ _ Hinv h o b Hb Eb) as [_ Hu]. unfold is_u in Hu.
  destruct (decide (refcount b = 0)) as [H0|H0]; [|destruct (decide (refcount b = 1)) as [H1|H1]].
  - eapply wp_mono; [by apply (free_zero_ok s h b)|]. intros ? s' ->. split_and!; try done; try lia. by exists L.
  - eapply wp_mono; [apply (free_last_ok (with_locks {[lck h]} s) L h o b); try done; by apply inv_with_locks|].
    intros ? s' (? & ? & ? & ? & ?). split_and!; try done; try lia.
  - eapply wp_mono; [apply (free_counted_ok (with_locks {[lck h]} s) L h o b); try done; [by apply inv_with_locks|lia]|].
    intros ? s' (? & ? & ? & ? & ?). split_and!; try done; try lia.
Qed.

(** ** Splitting *)

Record split_post (s : phys_mem) (L : Z -> list Z) (h o : Z) (s' : phys_mem) (L' : Z -> list Z) : Prop := {
  sl_inv : phys_inv s' L';
  sl_re : rearranged s s';
  sl_low : L' (o - 1) = L (o - 1) ++ [h; h + 2 ^ (o - 1)];
  sl_high : forall p, p ∈ L' o -> p ∈ L o /\ p <> h;
  sl_other : forall k, k <> o -> k <> o - 1 -> L' k = L k;
}.

(** The blocks after [split_block_locked]. *)
Lemma split_blocks_map s L h o (B1 B' : gmap Z physblock) (t := h + 2 ^ (o - 1)) :
  phys_inv s L -> free_block (blocks s) (spans s) h o -> 1 <= o ->
  (forall p, B1 !! blk p = if decide (p = h \/ p = t) then Some (mk_physblock 0 (o - 1) PHYSBLOCK_FREE 0) else blocks s !! blk p) ->
  (forall p, B' !! blk p = if decide (t < p <= t + (2 ^ (o - 1) - 1)) then tail_of t p <$> B1 !! blk p else B1 !! blk p) ->
  block_ok B' (spans s) h (o - 1) /\ block_ok B' (spans s) t (o - 1) /\
  (forall p, p = h \/ p = t -> B' !! blk p = Some (mk_physblock 0 (o - 1) PHYSBLOCK_FREE 0)) /\
  (forall p, ~ (h <= p < h + 2 ^ o) -> B' !! blk p = blocks s !! blk p).
Proof.
  intros Hinv [Hf _] Ho HB1 HB'. pose proof (bo_order _ _ _ _ Hf).
  assert (2 ^ o = 2 * 2 ^ (o - 1)) as E2 by (rewrite <- Z.pow_succ_r by lia; f_equal; lia). assert (0 < 2 ^ (o - 1)) by lia.
  pose proof (Z.divide_trans _ _ _ (pow_divide (o - 1) o ltac:(lia)) (bo_align _ _ _ _ Hf)) as Ha.
  assert (forall p, p = h \/ p = t -> B' !! blk p = Some (mk_physblock 0 (o - 1) PHYSBLOCK_FREE 0)) as Hheads.
  { intros p Hp. rewrite HB', decide_False, HB1, decide_True by (unfold t in *; lia). done. }
  assert (forall i, 0 <= i < 2 ^ o -> span_of (spans s) (h + i) = span_of (spans s) h) as Hsp by apply Hf.
  split_and!; [split; try done; try lia..|done|].
  - exists (mk_physblock 0 (o - 1) PHYSBLOCK_FREE 0). split; [|done]. apply Hheads. by left.
  - intros i Hi. rewrite HB', decide_False, HB1, decide_False by (unfold t; lia). apply Hf. lia.
  - intros i Hi. apply Hsp. lia.
  - apply Hf.
  - unfold t. apply Z.divide_add_r; [done|]. by exists 1; lia.
  - exists (mk_physblock 0 (o - 1) PHYSBLOCK_FREE 0). split; [|done]. apply Hheads. by right.
  - intros i Hi. rewrite HB', decide_True, HB1, decide_False by (unfold t; lia). unfold t.
    replace (h + 2 ^ (o - 1) + i) with (h + (2 ^ (o - 1) + i)) by lia. rewrite (bo_tail _ _ _ _ Hf) by lia. simpl. unfold tail_of, tail.
    simpl. do 2 f_equal. lia.
  - intros i Hi. unfold t. rewrite <- Z.add_assoc, !Hsp by lia. done.
  - unfold t. rewrite Hsp by lia. apply Hf.
  - intros p Hp. rewrite HB', decide_False, HB1, decide_False by (unfold t; lia). done.
Qed.

(** The free lists after [split_block_locked]. *)
Lemma split_lists s L h o L1 B' (t := h + 2 ^ (o - 1)) :
  phys_inv s L -> free_block (blocks s) (spans s) h o -> 1 <= o -> removed o h L L1 ->
  block_ok B' (spans s) h (o - 1) -> block_ok B' (spans s) t (o - 1) ->
  (forall p, p = h \/ p = t -> B' !! blk p = Some (mk_physblock 0 (o - 1) PHYSBLOCK_FREE 0)) ->
  let L3 := upd (o - 1) ((L1 (o - 1) ++ [h]) ++ [t]) L1 in
  (forall k p, 0 <= k <= MAX_ORDER -> ~ (h <= p < h + 2 ^ o) -> p ∈ L3 k <-> p ∈ L k) /\
  (forall k p, 0 <= k <= MAX_ORDER -> h <= p < h + 2 ^ o -> p ∈ L3 k <-> free_block B' (spans s) p k).
Proof.
  intros Hinv Hf Ho R1 Hh Ht Hheads L3. pose proof (bo_order _ _ _ _ (proj1 Hf)).
  assert (2 ^ o = 2 * 2 ^ (o - 1)) as E2 by (rewrite <- Z.pow_succ_r by lia; f_equal; lia). assert (0 < 2 ^ (o - 1)) by lia.
  assert (forall k p, p ∈ L3 k <-> (p ∈ L k /\ (k = o -> p <> h)) \/ (k = o - 1 /\ (p = h \/ p = t))) as Hel.
  { intros k p. unfold L3, upd. case_decide as Ek.
    - rewrite !elem_of_app, !list_elem_of_singleton, Ek, (removed_elem _ _ _ _ _ _ R1). intuition lia.
    - rewrite (removed_elem _ _ _ _ _ _ R1). intuition lia. }
  split; intros k p Hk Hp; rewrite Hel.
  - split; [intros [[? _]|[_ Hp']]; [done|unfold t in *; lia]|]. intros Hin. left. split; [done|]. lia.
  - split.
    + intros [[Hin Hne]|[-> Hp']].
      * exfalso. apply (pi_free _ _ Hinv) in Hin; [|done].
        destruct (heads_in_one s (blocks s) h o p k) as [-> ->]; try done; [apply Hf|apply Hin|]. by apply Hne.
      * destruct Hp' as [->| ->]; (split; [done|]); rewrite Hheads by auto; eauto.
    + intros [Hpf _]. right. destruct (heads_in_two s B' h (o - 1) p k) as [? ->]; try done.
      replace (o - 1 + 1) with o by lia. done.
Qed.

(** The four writes to the struct of the upper half. *)
Lemma split_writes (B : gmap Z physblock) h t o p :
  h <> t ->
  <[blk t := mk_physblock 0 (o - 1) PHYSBLOCK_FREE 0]> (<[blk t := mk_physblock (t - h) (o - 1) PHYSBLOCK_FREE 0]>
    (<[blk t := mk_physblock (t - h) (o - 1) PHYSBLOCK_TAIL 0]> (<[blk h := mk_physblock 0 (o - 1) PHYSBLOCK_FREE 0]> B))) !! blk p =
  if decide (p = h \/ p = t) then Some (mk_physblock 0 (o - 1) PHYSBLOCK_FREE 0) else B !! blk p.
Proof.
  intros Hne. destruct (decide (p = t)) as [->|Ht]; [rewrite lookup_insert_eq, decide_True by auto; done|].
  rewrite !(lookup_insert_ne _ (blk t)) by (intros ?%blk_inj; congruence).
  destruct (decide (p = h)) as [->|Hh]; [rewrite lookup_insert_eq, decide_True by auto; done|].
  rewrite lookup_insert_ne by (intros ?%blk_inj; congruence). rewrite decide_False by intuition. done.
Qed.

(** An entry taken off its list is on none. *)
Lemma removed_gone s L h o L1 k :
  phys_inv s L -> free_block (blocks s) (spans s) h o -> removed o h L L1 -> 0 <= k <= MAX_ORDER -> h ∉ L1 k.
Proof.
  intros Hinv Hf R1 Hk. rewrite (removed_elem _ _ _ _ _ _ R1). intros [Hin Hne]. apply (pi_free _ _ Hinv) in Hin; [|done].
  by apply Hne; [symmetry; apply (free_block_order s L Hinv h)|].
Qed.

(** A frame on no list may be pushed on one. *)
Lemma lists_sep_push L o h :
  lists_sep L -> 0 <= o <= MAX_ORDER -> 0 <= h < 2 ^ 35 -> (forall k, 0 <= k <= MAX_ORDER -> h ∉ L k) -> lists_sep (upd o (L o ++ [h]) L).
Proof.
  intros [H1 H2] Ho Hr Hh. unfold upd. split.
  - intros k p Hk. case_decide; [|by apply H1]. rewrite elem_of_app, list_elem_of_singleton. intros [Hin| ->]; [by apply (H1 o)|done].
  - intros k k' p Hk Hk' Hkk. repeat case_decide; try lia; subst; rewrite ?elem_of_app, ?list_elem_of_singleton.
    + intros [Hin| ->]; [by apply (H2 o k')|by apply Hh].
    + intros Hin [Hin'| ->]; [by apply (H2 k o p)|by apply (Hh k)].
    + by apply H2.
Qed.

Lemma split_half o : 1 <= o -> 2 ^ o = 2 * 2 ^ (o - 1) /\ 0 < 2 ^ (o - 1).
Proof. intros Ho. split; [rewrite <- Z.pow_succ_r by lia; f_equal|]; lia. Qed.

(** The buddy of the first half of a block is the second. *)
Lemma split_buddy h o : (2 ^ o | h) -> 1 <= o -> 0 <= h -> Z.lxor h (2 ^ (o - 1)) = h + 2 ^ (o - 1).
Proof.
  intros Ha Ho Hr. destruct (split_half o Ho) as [E2 Hpos]. destruct (buddy_cases h (o - 1)) as [[? _]|[_ Hd]]; [lia| |done|].
  - eapply Z.divide_trans; [apply (pow_divide (o - 1) o); lia|done].
  - exfalso. replace (o - 1 + 1) with o in Hd by lia. assert ((2 ^ o | 2 ^ (o - 1))) as Hdiv.
    { replace (2 ^ (o - 1)) with (h - (h - 2 ^ (o - 1))) by lia. by apply Z.divide_sub_r. }
    apply Z.divide_pos_le in Hdiv; lia.
Qed.

(** The first frame of the second half is a tail, on no list. *)
Lemma split_tail s L h o (t := h + 2 ^ (o - 1)) :
  phys_inv s L -> free_block (blocks s) (spans s) h o -> 1 <= o ->
  0 <= t < 2 ^ 35 /\ blocks s !! blk t = Some (mk_physblock (t - h) 0 PHYSBLOCK_TAIL 0) /\
  span_of (spans s) t <> -1 /\ forall k, 0 <= k <= MAX_ORDER -> t ∉ L k.
Proof.
  intros Hinv Hf Ho. destruct (split_half o Ho) as [E2 Hpos]. split_and!.
  1-2: apply (inv_block_range s L Hinv h o t (proj1 Hf)); unfold t; lia.
  - unfold t. rewrite (bo_tail _ _ _ _ (proj1 Hf)) by lia. unfold tail. do 2 f_equal. lia.
  - rewrite (block_managed _ _ h o t (proj1 Hf)) by (unfold t; lia). apply Hf.
  - intros k Hk [Hin _]%(pi_free _ _ Hinv k t Hk).
    destruct (heads_in_one s (blocks s) h o t k) as [? _]; try done; [apply Hf|unfold t; lia|unfold t in *; lia].
Qed.

(** Every page keeps its status. *)
Lemma split_status s L h o (B' : gmap Z physblock) (t := h + 2 ^ (o - 1)) p :
  phys_inv s L -> free_block (blocks s) (spans s) h o -> 1 <= o ->
  block_ok B' (spans s) h (o - 1) -> block_ok B' (spans s) t (o - 1) ->
  (forall p, p = h \/ p = t -> B' !! blk p = Some (mk_physblock 0 (o - 1) PHYSBLOCK_FREE 0)) ->
  (forall p, ~ (h <= p < h + 2 ^ o) -> B' !! blk p = blocks s !! blk p) ->
  span_of (spans s) p <> -1 -> page_status B' p = page_status (blocks s) p.
Proof.
  intros Hinv Hf Ho Hbh Hbt Hheads Hout Hp. destruct (split_half o Ho) as [E2 Hpos]. destruct (decide (h <= p < h + 2 ^ o)) as [Hin|Hno].
  - rewrite (inv_free_status s L Hinv h o p Hf Hin). destruct (decide (p < t)).
    + rewrite (block_status (spans s) B' h (o - 1) _ p Hbh (Hheads h ltac:(auto))) by (unfold t in *; lia). done.
    + rewrite (block_status (spans s) B' t (o - 1) _ p Hbt (Hheads t ltac:(auto))) by (unfold t in *; lia). done.
  - eapply (inv_status_outside s L Hinv B' h (2 ^ o)); [by apply tiled_one, Hf|done..].
Qed.

(** The state after the split keeps the invariant and the status of every page. *)
Lemma split_done s L h o L1 s2 (t := h + 2 ^ (o - 1)) (L3 := upd (o - 1) ((L1 (o - 1) ++ [h]) ++ [t]) L1) :
  phys_inv s L -> free_block (blocks s) (spans s) h o -> 1 <= o -> removed o h L L1 ->
  block_ok (blocks s2) (spans s) h (o - 1) -> block_ok (blocks s2) (spans s) t (o - 1) ->
  (forall p, p = h \/ p = t -> blocks s2 !! blk p = Some (mk_physblock 0 (o - 1) PHYSBLOCK_FREE 0)) ->
  (forall p, ~ (h <= p < h + 2 ^ o) -> blocks s2 !! blk p = blocks s !! blk p) ->
  rings_ok (pnodes s2) (alloc_state s) L3 -> dom_kept (pnodes s) (pnodes s2) ->
  stats s2 = set_orders ((fun k => zlength (L3 k)) <$> seqZ 0 13) (stats s) -> spans s2 = spans s -> alloc_state s2 = alloc_state s ->
  split_post s L h o s2 L3.
Proof.
  intros Hinv Hf Ho R1 Hbh Hbt Hheads Hout Hr Hd Hst Hsp Hal. pose proof (bo_order _ _ _ _ (proj1 Hf)) as Ho'.
  assert (forall p, span_of (spans s) p <> -1 -> page_status (blocks s2) p = page_status (blocks s) p) as Hstat.
  { intros p. by apply (split_status s L h o). }
  destruct (split_lists s L h o L1 _ Hinv Hf Ho R1 Hbh Hbt Hheads) as [HL1 HL2]. replace (o - 1 + 1) with o in * by lia. split.
  - eapply (inv_region s L Hinv) with (a := h) (n := 2 ^ o); try done.
    + apply tiled_one, Hf.
    + replace o with (o - 1 + 1) at 1 by lia. by apply tiled_two.
    + intros p k b Hp Hbk Eb. destruct (heads_in_two s (blocks s2) h (o - 1) p k) as [Hc ->]; try done; [by replace (o - 1 + 1) with o by lia|].
      rewrite Hheads in Eb by done. injection Eb as <-. by split.
    + by rewrite Hst.
    + rewrite Hst. cbn [set_orders num_free_4k_pages]. rewrite (pi_count _ _ Hinv). symmetry. by apply is_free_ext; [apply Hinv|].
  - by split; rewrite ?Hst.
  - unfold L3, upd. rewrite decide_True, (rm_other _ _ _ _ R1) by lia. by rewrite <- app_assoc.
  - intros p. unfold L3, upd. rewrite decide_False by lia. by rewrite (rm_elem _ _ _ _ R1).
  - intros k Hk Hk'. unfold L3, upd. rewrite decide_False by done. by apply R1.
Qed.

(** The free lists: the block leaves its list and the halves join the one below. *)
Lemma split_rings s L h o L1 n1 (t := h + 2 ^ (o - 1)) (L2 := upd (o - 1) (L1 (o - 1) ++ [h]) L1) :
  phys_inv s L -> free_block (blocks s) (spans s) h o -> 1 <= o -> removed o h L L1 -> lists_sep L1 ->
  rings_ok n1 (alloc_state s) L1 -> dom_kept (pnodes s) n1 ->
  wp (list_push_back (alloc_state s + 16 * (o - 1)) (node h)) n1 (fun _ n2 =>
    wp (list_push_back (alloc_state s + 16 * (o - 1)) (node t)) n2 (fun _ n3 =>
      rings_ok n3 (alloc_state s) (upd (o - 1) ((L1 (o - 1) ++ [h]) ++ [t]) L1) /\ dom_kept (pnodes s) n3)).
Proof.
  intros Hinv Hf Ho R1 Hs1 Hr1 Hd1. pose proof (bo_order _ _ _ _ (proj1 Hf)) as Ho'. pose proof (inv_base s L Hinv) as Hbase.
  pose proof (inv_head_range s L Hinv h o (proj1 Hf)) as Hr. destruct (split_tail s L h o Hinv Hf Ho) as (Htr & _ & Htm & Htl). fold t in Htr, Htm, Htl.
  pose proof (removed_gone s L h o L1) as Hgone. destruct (split_half o Ho) as [_ Hpos].
  eapply wp_mono; [apply (rings_push n1 (alloc_state s) L1 (o - 1) h); try done; try lia|].
  { intros k Hk. by apply Hgone. }
  { apply Hd1, Hinv, Hf. }
  cbv beta. intros ? n2 [Hr2 Hd2].
  eapply wp_mono; [apply (rings_push n2 (alloc_state s) L2 (o - 1) t Hr2 Hbase); try lia|].
  { apply lists_sep_push; [done|lia|done|]. intros k Hk. by apply Hgone. }
  { intros k Hk. unfold L2, upd. case_decide; rewrite ?elem_of_app, ?list_elem_of_singleton, (removed_elem _ _ _ _ _ _ R1).
    - intros [[Hin _]|?]; [by apply (Htl k); [|subst]|unfold t in *; lia].
    - intros [Hin _]. by apply (Htl k). }
  { by apply Hd2, Hd1, Hinv. }
  cbv beta. intros ? n3 [Hr3 Hd3]. split; [|intros x Hx; by apply Hd3, Hd2, Hd1].
  intros k Hk. specialize (Hr3 k Hk). revert Hr3. unfold L2, upd. by repeat case_decide.
Qed.

Lemma split_ok s L h o :
  phys_inv s L -> free_block (blocks s) (spans s) h o -> 1 <= o -> locks s = {[lck h; alloc_lock s]} ->
  wp (split_block_locked (blk h)) s (fun _ s' => locks s' = {[alloc_lock s]} /\ exists L', split_post s L h o s' L').
Proof.
  intros Hinv Hf Ho Hl. pose proof (bo_order _ _ _ _ (proj1 Hf)) as Ho'. pose proof (inv_base s L Hinv) as Hbase.
  pose proof (inv_head_range s L Hinv h o (proj1 Hf)) as Hr. destruct (split_half o Ho) as [E2 Hpos].
  destruct (split_tail s L h o Hinv Hf Ho) as (Htr & Et & _). set (t := h + 2 ^ (o - 1)) in *.
  destruct (detach_from (pnodes s) (alloc_state s) L o h) as (L1 & R1 & Hs1 & W1); [by apply Hinv|done|by apply (inv_lists s L)|done|by apply (pi_free _ _ Hinv)|].
  unfold split_block_locked. apply wp_bind. eapply wp_get_block; [by apply (free_head_fields s L h o)|].
  cbn [order]. rewrite blk_to_pfn by done.
  assert (u8 (o - 1) = o - 1) as -> by (apply Z.mod_small; unfold MAX_ORDER in *; lia).
  rewrite buddy_pfn_lxor by lia. rewrite (split_buddy h o) by (lia || apply Hf). fold t. rewrite raw_blk by done.
  apply wp_bind. eapply wp_set_order; [by apply (free_head_fields s L h o)|]. cbn [head_offset type refcount].
  assert (blk h <> blk t) as Hne by (intros ?%blk_inj; unfold t in *; lia).
  apply wp_bind. eapply wp_set_order; [psimpl; rewrite lookup_insert_ne by done; exact Et|]. psimpl. cbn [head_offset type refcount].
  apply wp_bind. eapply wp_set_type; [by apply lookup_insert_eq|]. psimpl. cbn [head_offset order refcount].
  apply wp_bind. eapply wp_get_block; [by apply lookup_insert_eq|]. cbn [order type refcount]. apply wp_bind, wp_modify.
  apply wp_bind. eapply wp_mono; [apply (set_tails_ok _ t (o - 1)); [lia|]|].
  { intros i Hi. psimpl. rewrite split_writes by lia. case_decide; [eauto|]. unfold t.
    rewrite <- Z.add_assoc, (bo_tail _ _ _ _ (proj1 Hf)) by lia. eauto. }
  intros ? s1 (B' & l' & -> & HB & Hl'). psimpl.
  destruct (split_blocks_map s L h o _ B' Hinv Hf Ho (fun p => split_writes _ h t o p ltac:(lia)) HB) as (Hbh & Hbt & Hheads & Hout). clear HB.
  unfold NODE_OFFSET. fold (node h) (node t).
  apply wp_bind, wp_list_op. psimpl. eapply wp_mono; [exact W1|]. intros ? n1 [Hr1 Hd1].
  apply wp_bind, wp_get, wp_bind, wp_list_op. psimpl. unfold free_list. psimpl.
  eapply wp_mono; [by apply (split_rings s L h o L1 n1)|]. cbv beta. intros ? n2 W2.
  apply wp_bind, wp_list_op. psimpl. eapply wp_mono; [exact W2|]. cbv beta. intros ? n3 [Hr3 Hd3]. fold t in Hr3.
  pose proof (inv_list_length s L Hinv (o - 1) ltac:(lia)). pose proof (inv_list_length s L Hinv o Ho').
  pose proof (zlength_nonneg (L (o - 1))). pose proof (zlength_nonneg (L1 o)). pose proof (rm_length _ _ _ _ R1).
  apply wp_bind. eapply wp_order_add_fun; [psimpl; apply (pi_order _ _ Hinv)|lia|]. psimpl.
  apply wp_bind. eapply wp_order_add_fun; [reflexivity|lia|]. psimpl. apply wp_release_block.
  match goal with |- locks ?x = _ /\ _ => set (s2 := x) end. split.
  { unfold s2. psimpl. apply set_eq. intros x. rewrite elem_of_difference, Hl', Hl. fold (lck h).
    rewrite elem_of_union, !elem_of_singleton. split; [tauto|]. intros ->. split; [split; [by right|]|].
    - intros (i & Hi & E). by apply (lck_not_alloc s (t + i)); [|unfold t; lia|].
    - intros E. by apply (lck_not_alloc s h); [|lia|]. }
  eexists. apply (split_done s L h o L1 s2); try done. unfold s2. psimpl. unfold set_orders. cbn. f_equal.
  apply order_stats_ext. intros k Hk. unfold upd. replace (o - 1 + 1) with o by lia. repeat case_decide; try lia; subst.
  - rewrite (rm_other _ _ _ _ R1) by lia. rewrite u64_small by (unfold is_u; lia). unfold zlength. rewrite !length_app. simpl. lia.
  - rewrite u64_small by (unfold is_u; lia). lia.
  - by rewrite (rm_other _ _ _ _ R1) by lia.
Qed.

(** ** Allocating *)

Lemma empty_list_ok s L o :
  phys_inv s L -> 0 <= o <= MAX_ORDER ->
  wp (list_op (list_empty (free_list s o))) s (fun e s' => e = bool_decide (L o = []) /\ s' = s).
Proof.
  intros Hinv Ho. apply wp_list_op. eapply wp_mono; [apply list_empty_ok, (pi_rings _ _ Hinv o Ho)|].
  intros e n [-> ->]. split; [|by destruct s]. apply bool_decide_ext. by destruct (L o).
Qed.

Lemma first_elem_ok s L o h r :
  phys_inv s L -> 0 <= o <= MAX_ORDER -> L o = h :: r ->
  wp (list_op (list_first_element (free_list s o) NODE_OFFSET)) s (fun b s' => b = blk h /\ s' = s).
Proof.
  intros Hinv Ho E. pose proof (pi_rings _ _ Hinv o Ho) as Hr. rewrite E in Hr. apply wp_list_op.
  eapply wp_mono; [eapply list_first_ok; exact Hr|]. intros b n [-> ->].
  split; [|by destruct s]. assert (0 <= h < 2 ^ 35) as Hh by (apply (proj1 (inv_lists s L Hinv) o); [done|rewrite E; by left]).
  unfold list_node_element, node, NODE_OFFSET, blk, KERNEL_MEM_MAP_ADDRESS. rewrite sub64_small; unfold is_u; lia.
Qed.

Lemma find_order_ok fuel s L o :
  phys_inv s L -> 0 <= o <= MAX_ORDER + 1 -> MAX_ORDER + 1 - o < Z.of_nat fuel ->
  wp (find_order fuel o) s (fun k s' => s' = s /\ o <= k <= MAX_ORDER + 1 /\
    (forall j, o <= j < k -> L j = []) /\ (k <= MAX_ORDER -> L k <> [])).
Proof.
  intros Hinv. revert o. induction fuel as [|fuel IH]; intros o Ho Hf; [lia|]. simpl.
  destruct (Z.leb_spec o MAX_ORDER) as [Hle|Hgt]; [|apply wp_ret; split_and!; try done; lia].
  apply wp_bind, wp_get, wp_bind. eapply wp_mono; [by apply (empty_list_ok s L o); [|lia]|]. intros e s' [-> ->].
  destruct (bool_decide (L o = [])) eqn:E.
  - apply bool_decide_eq_true in E. eapply wp_mono; [apply IH; lia|]. intros k s' (-> & Hk & Hj & HL). split_and!; try done; try lia.
    intros j Hjk. destruct (decide (j = o)) as [->|]; [done|]. apply Hj. lia.
  - apply bool_decide_eq_false in E. apply wp_ret. split_and!; try done; lia.
Qed.

Definition split_loop_post (s : phys_mem) (target h : Z) (s' : phys_mem) : Prop :=
  exists L' r, phys_inv s' L' /\ rearranged s s' /\ coalesced_but (fun x => x = h) (spans s') L' /\
    L' target = h :: r /\ locks s' = {[alloc_lock s]}.

Lemma split_coalesced s L h o s' L' :
  phys_inv s L -> split_post s L h o s' L' -> 1 <= o <= MAX_ORDER -> L (o - 1) = [] -> h ∈ L o ->
  coalesced_but (fun x => x = h) (spans s) L -> coalesced_but (fun x => x = h) (spans s) L'.
Proof.
  intros Hinv Hsp Ho Hempty Hh Hco k p Hk Hp Hq Hs.
  destruct (decide (p = h)) as [|Hph]; [by left|]. destruct (decide (Z.lxor p (2 ^ k) = h)) as [|Hqh]; [by right|]. exfalso.
  destruct (decide (k = o - 1)) as [->|Hk1].
  - rewrite (sl_low _ _ _ _ _ _ Hsp), Hempty in Hp, Hq. simpl in *.
    assert (forall x, x ∈ [h; h + 2 ^ (o - 1)] -> x <> h -> x = h + 2 ^ (o - 1)) as Hx by set_solver.
    pose proof (Hx _ Hp Hph). pose proof (Hx _ Hq Hqh). destruct (buddy_ne p (o - 1)) as [? _]; [lia| |congruence].
    destruct (proj1 (inv_lists s L Hinv) o h ltac:(lia) Hh). lia.
  - assert (p ∈ L k /\ Z.lxor p (2 ^ k) ∈ L k) as [Hp' Hq'].
    { destruct (decide (k = o)) as [->|]; [by split; apply (sl_high _ _ _ _ _ _ Hsp)|]. by rewrite !(sl_other _ _ _ _ _ _ Hsp) in Hp, Hq by done. }
    by destruct (Hco k p Hk Hp' Hq' Hs).
Qed.

Lemma split_loop_ok fuel s L h r target o :
  phys_inv s L -> coalesced_but (fun x => x = h) (spans s) L -> L o = h :: r -> locks s = {[alloc_lock s]} ->
  0 <= target <= o -> o <= MAX_ORDER -> (forall k, target <= k < o -> L k = []) -> o - target < Z.of_nat fuel ->
  wp (split_loop fuel target o) s (fun _ s' => split_loop_post s target h s').
Proof.
  revert s L r o. induction fuel as [|fuel IH]; intros s L r o Hinv Hco EL Hl Ht Ho Hemp Hfuel; [lia|]. simpl.
  destruct (Z.leb_spec (target + 1) o) as [Hlt|Hge].
  2:{ apply wp_ret. assert (o = target) as -> by lia. exists L, r. by split_and!. }
  apply wp_bind, wp_get, wp_bind. eapply wp_mono; [by apply (first_elem_ok s L o h r); [|lia|]|]. intros ? ? [-> ->].
  assert (free_block (blocks s) (spans s) h o) as Hf by (apply (pi_free _ _ Hinv); [lia|rewrite EL; by left]).
  pose proof (inv_head_range s L Hinv h o (proj1 Hf)) as Hh. pose proof (inv_base s L Hinv) as Hbase.
  apply wp_bind, wp_acquire_block.
  { rewrite Hl, elem_of_singleton. intros E. by apply (lck_not_alloc s h); [|lia|]. }
  apply wp_bind. eapply wp_get_block; [psimpl; by apply (free_head_fields s L h o)|]. cbn [type order]. rewrite !Z.eqb_refl. simpl orb.
  apply wp_bind. fold (lck h). eapply wp_mono; [apply (split_ok _ L h o); [by apply inv_with_locks|done|lia|]|].
  { psimpl. rewrite Hl. done. }
  intros ? s1 (Hl1 & L1 & Hsp). pose proof (sl_re _ _ _ _ _ _ Hsp) as Hre.
  assert (alloc_lock s1 = alloc_lock s) as Eal by (unfold alloc_lock; by rewrite (re_ptr _ _ Hre)).
  assert (rearranged s s1) as Hre' by (by destruct Hre).
  eapply wp_mono; [apply (IH s1 L1 [h + 2 ^ (o - 1)] (o - 1)); try lia|].
  - apply Hsp.
  - rewrite (re_spans _ _ Hre). eapply split_coalesced; [apply inv_with_locks, Hinv|exact Hsp|lia|apply Hemp; lia|rewrite EL; by left|done].
  - rewrite (sl_low _ _ _ _ _ _ Hsp), Hemp by lia. done.
  - rewrite Hl1, Eal. done.
  - intros k Hk. rewrite (sl_other _ _ _ _ _ _ Hsp) by lia. apply Hemp. lia.
  - intros ? s2 (L2 & r2 & Hinv2 & Hre2 & Hco2 & EL2 & Hl2). exists L2, r2. split_and!; try done.
    + by eapply rearranged_trans.
    + by rewrite Hl2, Eal.
Qed.

Definition valid_flags (flags : Z) : Prop := 1 <= Z.land flags ALLOC_TYPE_MASK <= 4.

(** The type of a block allocated with [flags]. *)
Definition flags_type (flags t : Z) : Prop := forall s, alloc_flags_to_physblock_type flags s = Done t s.

Lemma valid_flags_type flags :
  valid_flags flags -> exists t, flags_type flags t /\ Z.land t PHYSBLOCK_TYPE_MASK <> PHYSBLOCK_FREE.
Proof.
  unfold valid_flags, flags_type, alloc_flags_to_physblock_type. generalize (Z.land flags ALLOC_TYPE_MASK). intros k Hk.
  destruct (IS_MASK_SET flags ALLOC_MOVABLE), (IS_MASK_SET flags ALLOC_PINNED);
    assert (k = 1 \/ k = 2 \/ k = 3 \/ k = 4) as [->|[->|[->| ->]]] by lia;
    (eexists; split; [intros s; reflexivity|vm_compute; discriminate]).
Qed.

(** The statistics of special pages after an allocation with [flags]. *)
Definition counted (flags : Z) (st st' : phys_alloc_stats) : Prop :=
  num_4k_pages st' = num_4k_pages st /\
  num_pagetable_pages st' =
    (if Z.land flags ALLOC_TYPE_MASK =? ALLOC_PAGETABLE then u64 (num_pagetable_pages st + 1) else num_pagetable_pages st) /\
  num_physblock_pages st' =
    (if Z.land flags ALLOC_TYPE_MASK =? ALLOC_PHYSBLOCK then u64 (num_physblock_pages st + 1) else num_physblock_pages st).

Lemma wp_count flags s (Q : unit -> phys_mem -> Prop) :
  (forall st, counted flags (stats s) st -> num_free_4k_pages st = num_free_4k_pages (stats s) ->
     order_stats st = order_stats (stats s) -> Q tt (with_stats st s)) ->
  wp (if Z.land flags ALLOC_TYPE_MASK =? ALLOC_PAGETABLE then set_stats (pagetable_add 1)
      else if Z.land flags ALLOC_TYPE_MASK =? ALLOC_PHYSBLOCK then set_stats (physblock_add 1)
      else mret tt) s Q.
Proof.
  unfold counted. generalize (Z.land flags ALLOC_TYPE_MASK). intros k.
  destruct (Z.eqb_spec k ALLOC_PAGETABLE) as [->|]; intros HQ.
  - apply wp_modify. by apply HQ.
  - destruct (Z.eqb_spec k ALLOC_PHYSBLOCK) as [->|].
    + apply wp_modify. by apply HQ.
    + apply wp_ret. replace s with (with_stats (stats s) s) by by destruct s. by apply HQ.
Qed.

Definition alloc_post (s : phys_mem) (h o flags t : Z) (s' : phys_mem) : Prop :=
  phys_ok s' /\ spans s' = spans s /\ alloc_state s' = alloc_state s /\
  block_becomes s s' h o (Used h o t 1) /\ counted flags (stats s) (stats s').

(** Taking a block off its list leaves no buddies on the lists. *)
Lemma removed_coalesced s L h o L1 :
  phys_inv s L -> free_block (blocks s) (spans s) h o -> coalesced_but (fun x => x = h) (spans s) L -> removed o h L L1 -> coalesced (spans s) L1.
Proof.
  intros Hinv Hf Hco R1 k p Hk Hp Hq Hs. pose proof (removed_gone s L h o L1 k Hinv Hf R1 ltac:(lia)) as Hgone. exfalso.
  apply (removed_elem _ _ _ _ _ _ R1) in Hp as Hp'. apply (removed_elem _ _ _ _ _ _ R1) in Hq as Hq'.
  destruct (Hco k p Hk (proj1 Hp') (proj1 Hq') Hs) as [E|E]; [by rewrite E in Hp|by rewrite E in Hq].
Qed.

(** The invariant with a free block taken. *)
Lemma take_inv s L h o t L1 s2 :
  phys_inv s L -> free_block (blocks s) (spans s) h o -> Z.land t PHYSBLOCK_TYPE_MASK <> PHYSBLOCK_FREE -> removed o h L L1 ->
  blocks s2 = <[blk h := mk_physblock 0 o t 1]> (blocks s) -> spans s2 = spans s -> alloc_state s2 = alloc_state s ->
  rings_ok (pnodes s2) (alloc_state s) L1 -> dom_kept (pnodes s) (pnodes s2) ->
  order_stats (stats s2) = (fun k => if decide (k = o) then u64 (zlength (L o) + -1) else zlength (L k)) <$> seqZ 0 13 ->
  num_free_4k_pages (stats s2) = u64 (num_free_4k_pages (stats s) - 2 ^ o) ->
  phys_inv s2 L1 /\ block_becomes s s2 h o (Used h o t 1).
Proof.
  intros Hinv Hf Hnf R1 EB Esp Eal Hr1 Hd1 Hord Hfree. pose proof (bo_order _ _ _ _ (proj1 Hf)) as Ho. assert (0 < 2 ^ o) as Hpos by lia.
  destruct (retype_block (spans s) (blocks s) h o t 1 (proj1 Hf)) as (_ & Ht & _ & Hout & Hin).
  assert (head_state h (mk_physblock 0 o t 1) = Used h o t 1) as Hhs.
  { unfold head_state. simpl. by rewrite (proj2 (Z.eqb_neq _ _) Hnf). }
  assert (count_true (is_free (blocks s2)) (pfns (spans s)) = count_true (is_free (blocks s)) (pfns (spans s)) - 2 ^ o) as Hcnt.
  { rewrite EB, (count_block s L h o _ true false Hinv (proj1 Hf) Ht Hout); [lia|]. intros p Hp. unfold is_free. split.
    - apply bool_decide_true. by apply (inv_free_status s L Hinv h o).
    - rewrite Hin, Hhs by done. by apply bool_decide_false. }
  rewrite <- Hhs. apply (retype_inv s L h o (mk_physblock 0 o PHYSBLOCK_FREE 0) t 1); try done; try apply Hf.
  - by apply (free_head_fields s L).
  - intros k p Hk Hp. rewrite (removed_elem _ _ _ _ _ _ R1). tauto.
  - intros k Hk. split; [by intros ?%(removed_gone s L h o L1)|]. intros [_ E]. exfalso. apply Hnf. by rewrite E.
  - rewrite Hord. apply order_stats_ext. intros k Hk. case_decide; subst; [|by rewrite (rm_other _ _ _ _ R1)].
    pose proof (inv_list_length s L Hinv o Ho). pose proof (zlength_nonneg (L1 o)). pose proof (rm_length _ _ _ _ R1).
    rewrite u64_small by (unfold is_u; lia). lia.
  - rewrite Hcnt, Hfree, (pi_count _ _ Hinv). pose proof (zlength_pfns _ (pi_spans _ _ Hinv)).
    pose proof (count_true_bounds (is_free (blocks s)) (pfns (spans s))). pose proof (count_true_bounds (is_free (blocks s2)) (pfns (spans s))).
    apply u64_small. unfold is_u. lia.
Qed.

Lemma take_ok s L h r o flags t :
  phys_inv s L -> coalesced_but (fun x => x = h) (spans s) L -> 0 <= o <= MAX_ORDER -> L o = h :: r ->
  locks s = {[lck h; alloc_lock s]} -> flags_type flags t -> Z.land t PHYSBLOCK_TYPE_MASK <> PHYSBLOCK_FREE ->
  wp (take_block o flags (2 ^ o) (blk h) (mk_physblock 0 o PHYSBLOCK_FREE 0)) s (fun b s' => b = blk h /\ alloc_post s h o flags t s').
Proof.
  intros Hinv Hco Ho EL Hl Hft Hnf. pose proof (inv_lists s L Hinv) as Hsep.
  assert (h ∈ L o) as HhL by (rewrite EL; by left).
  assert (free_block (blocks s) (spans s) h o) as Hf by by apply (pi_free _ _ Hinv).
  pose proof (free_head_fields s L h o Hinv Hf) as Eb. pose proof (inv_base s L Hinv) as Hbase. assert (0 < 2 ^ o) as Hpos by lia.
  destruct (detach_from (pnodes s) (alloc_state s) L o h) as (L1 & R1 & Hs1 & W1); [apply Hinv|done..|].
  unfold take_block. cbn [refcount]. change (u32 (0 + 1)) with 1. unfold NODE_OFFSET. fold (node h).
  apply wp_bind, wp_list_op. eapply wp_mono; [exact W1|]. intros ? n1 [Hr1 Hd1].
  apply wp_bind. eapply done_wp; [apply Hft|]. apply wp_bind. eapply wp_set_type; [exact Eb|]. cbn [head_offset order refcount].
  apply wp_bind. eapply wp_set_refcount; [by apply lookup_insert_eq|]. cbn [head_offset order type].
  apply wp_bind, wp_modify. apply wp_bind. eapply wp_order_add_fun; [psimpl; apply (pi_order _ _ Hinv)|done|].
  apply wp_bind, wp_count. intros st (Hu1 & Hu2 & Hu3) Hst1 Hst2. psimpl.
  apply wp_bind, wp_release_block, wp_bind, wp_release_alloc, wp_ret.
  match goal with |- _ /\ alloc_post _ _ _ _ _ ?x => set (s2 := x) end.
  assert (phys_inv s2 L1 /\ block_becomes s s2 h o (Used h o t 1)) as [Hinv2 Hbec].
  { apply (take_inv s L h o t L1 s2); try done. unfold s2. psimpl. by rewrite insert_insert_eq. }
  split; [done|]. split; [|split_and!; try done]. exists L1. split; [done|]. split; [by apply (removed_coalesced s L h o L1)|].
  unfold s2. psimpl. rewrite Hl. unfold alloc_lock. psimpl. fold (alloc_lock s) (lck h). set_solver.
Qed.

Lemma free_block_run s L h o : phys_inv s L -> free_block (blocks s) (spans s) h o -> free_run s o h.
Proof.
  intros Hinv Hf. split; [apply Hf|]. intros i Hi. split; [apply (inv_free_status s L Hinv h o); [done|lia]|].
  split; [by apply Hf|apply Hf].
Qed.

Lemma free_run_block s L o p :
  phys_inv s L -> coalesced (spans s) L -> 0 <= o <= MAX_ORDER -> free_run s o p -> exists k, o <= k <= MAX_ORDER /\ L k <> [].
Proof.
  intros Hinv Hco Ho [Ha Hi]. assert (0 < 2 ^ o) by lia.
  destruct (run_in_block (spans s) (blocks s) (pi_part _ _ Hinv) o p) as (h & k & Hf & Hk & _); try done.
  - intros i Hin. by apply Hi.
  - apply (Hi 0). lia.
  - intros i Hin. by apply Hi.
  - apply Hinv.
  - intros q k Hk Hq Hq' Hs. apply (pi_free _ _ Hinv) in Hq, Hq'; try lia. by destruct (Hco k q Hk Hq Hq' Hs).
  - exists k. pose proof (bo_order _ _ _ _ (proj1 Hf)). split; [lia|]. intros E.
    apply (pi_free _ _ Hinv) in Hf; [|done]. rewrite E in Hf. by apply elem_of_nil in Hf.
Qed.

Lemma free_run_count s L o p : phys_inv s L -> 0 <= o -> free_run s o p -> 2 ^ o <= num_free_4k_pages (stats s).
Proof.
  intros Hinv Ho [_ Hi]. rewrite (pi_count _ _ Hinv). assert (zlength (seqZ p (2 ^ o)) = 2 ^ o) as <- by (unfold zlength; rewrite length_seqZ; lia).
  apply count_true_ge; [apply Hinv|apply NoDup_seqZ|]. intros q Hq%elem_of_seqZ.
  destruct (Hi (q - p)) as (Hs & Hsp & Hm); [lia|]. replace (p + (q - p)) with q in * by lia. split.
  - apply elem_of_pfns; [apply Hinv|]. by rewrite Hsp.
  - unfold is_free. by apply bool_decide_true.
Qed.

(** The block handed out, once the list of the order is not empty. *)
Lemma alloc_first_ok s s1 L h r o flags t :
  rearranged s s1 -> phys_inv s1 L -> coalesced_but (fun x => x = h) (spans s1) L -> 0 <= o <= MAX_ORDER -> L o = h :: r ->
  locks s1 = {[alloc_lock s1]} -> flags_type flags t -> Z.land t PHYSBLOCK_TYPE_MASK <> PHYSBLOCK_FREE ->
  wp (block ← list_op (list_first_element (free_list s o) NODE_OFFSET);
      acquire_block block;;
      b ← get_block block;
      if negb (type b =? PHYSBLOCK_FREE) || negb (order b =? o) then
        release_block block;; release_alloc;; hang
      else take_block o flags (2 ^ o) block b) s1
    (fun b s' => b = blk h /\ free_run s o h /\ alloc_post s h o flags t s').
Proof.
  intros Hre Hinv Hco Ho EL Hl Hft Hnf. replace (free_list s o) with (free_list s1 o) by (unfold free_list; by rewrite (re_ptr _ _ Hre)).
  apply wp_bind. eapply wp_mono; [by apply (first_elem_ok s1 L o h r)|]. intros ? ? [-> ->].
  assert (free_block (blocks s1) (spans s1) h o) as Hf by (apply (pi_free _ _ Hinv); [done|rewrite EL; by left]).
  pose proof (inv_head_range s1 L Hinv h o (proj1 Hf)) as Hh. pose proof (inv_base s1 L Hinv) as Hbase.
  apply wp_bind, wp_acquire_block.
  { rewrite Hl, elem_of_singleton. intros E. by apply (lck_not_alloc s1 h); [|lia|]. }
  apply wp_bind. eapply wp_get_block; [psimpl; by apply (free_head_fields s1 L h o)|]. cbn [type order]. rewrite !Z.eqb_refl. simpl orb. cbv iota.
  eapply wp_mono; [apply (take_ok (with_locks ({[lck h]} ∪ locks s1) s1) L h r o flags t); try done; [by apply inv_with_locks|psimpl; by rewrite Hl]|].
  intros ? s' (-> & Hok & Hsp & Hpt & Hbec & Hc). psimpl. split; [done|].
  destruct (free_block_run s1 L h o Hinv Hf) as [Ha Hi]. rewrite (re_spans _ _ Hre) in *. split.
  - split; [done|]. intros i Hin. destruct (Hi i Hin) as (H1 & H2 & H3). rewrite (re_status _ _ Hre) in H1 by by rewrite H2. done.
  - split; [done|]. split; [done|]. split; [by rewrite Hpt, (re_ptr _ _ Hre)|]. split.
    + intros p Hp. rewrite Hbec by (psimpl; by rewrite (re_spans _ _ Hre)). case_decide; [done|]. psimpl. by apply (re_status _ _ Hre).
    + unfold counted in *. by rewrite (re_4k _ _ Hre), (re_pt _ _ Hre), (re_pb _ _ Hre) in Hc.
Qed.

(** Blocks of a higher order are split until the list of [o] has one. *)
Lemma split_higher_ok s L o k :
  phys_inv s L -> coalesced (spans s) L -> locks s = {[alloc_lock s]} -> 0 <= o -> o < k <= MAX_ORDER -> L k <> [] ->
  (forall j, o <= j < k -> L j = []) ->
  wp (split_higher_order_blocks o) s (fun _ s' => exists h, split_loop_post s o h s').
Proof.
  intros Hinv Hco Hl Ho Hk HLk Hemp. unfold split_higher_order_blocks.
  assert (u8 (o + 1) = o + 1) as -> by (apply Z.mod_small; unfold MAX_ORDER in *; lia).
  apply wp_bind. eapply wp_mono; [apply (find_order_ok 14 s L (o + 1) Hinv); unfold MAX_ORDER in *; lia|].
  intros k' s' (-> & Hk' & Hj & HL'). assert (k' = k) as ->.
  { destruct (Z.lt_trichotomy k' k) as [?|[?|?]]; [|done|].
    - exfalso. apply HL'; [lia|]. apply Hemp. lia.
    - exfalso. apply HLk, Hj. lia. }
  rewrite (proj2 (Z.ltb_ge _ _)) by lia. destruct (L k) as [|h r] eqn:E; [done|].
  eapply wp_mono; [apply (split_loop_ok 14 s L h r o k); try done; try lia|].
  - intros j p Hj' Hp Hq Hs. by destruct (Hco j p Hj' Hp Hq Hs).
  - unfold MAX_ORDER in *. lia.
  - intros ? s' H. by exists h.
Qed.

(** Allocation succeeds when some list of order at least [o] is not empty. *)
Lemma alloc_some_ok s L o k flags t :
  phys_inv s L -> coalesced (spans s) L -> locks s = ∅ -> 0 <= o <= k -> k <= MAX_ORDER -> L k <> [] ->
  (forall j, o <= j < k -> L j = []) -> flags_type flags t -> Z.land t PHYSBLOCK_TYPE_MASK <> PHYSBLOCK_FREE ->
  wp (phys_alloc_block o flags) s (fun b s' => exists h, b = blk h /\ free_run s o h /\ alloc_post s h o flags t s').
Proof.
  intros Hinv Hco Hl Ho Hk HLk Hemp Hft Hnf. unfold phys_alloc_block. cbn [alloc_block_fuel].
  rewrite (proj2 (Z.ltb_ge _ _)) by lia. apply wp_bind, wp_acquire_alloc; [rewrite Hl; apply not_elem_of_empty|].
  rewrite Hl, (right_id_L ∅ (∪)). set (s1 := with_locks {[alloc_lock s]} s).
  assert (phys_inv s1 L) as Hinv1 by by apply inv_with_locks.
  apply wp_bind, wp_get. rewrite pow_u64 by lia.
  assert (exists h, free_block (blocks s) (spans s) h k) as [h0 Hf0].
  { destruct (L k) as [|h r] eqn:E; [done|]. exists h. apply (pi_free _ _ Hinv); [lia|]. rewrite E. by left. }
  assert (2 ^ o <= num_free_4k_pages (stats s)) as Hcnt.
  { etrans; [|by apply (free_run_count s L k h0 Hinv); [lia|apply (free_block_run s L)]]. apply Z.pow_le_mono_r; lia. }
  change (stats s1) with (stats s). rewrite (proj2 (Z.ltb_ge _ _) Hcnt).
  apply wp_bind. eapply wp_mono; [by apply (empty_list_ok s1 L o Hinv1); lia|]. intros e ? [-> ->].
  assert (forall s2 h, split_loop_post s1 o h s2 ->
    wp (block ← list_op (list_first_element (free_list s1 o) NODE_OFFSET);
      acquire_block block;;
      b ← get_block block;
      if negb (type b =? PHYSBLOCK_FREE) || negb (order b =? o) then
        release_block block;; release_alloc;; hang
      else take_block o flags (2 ^ o) block b) s2
    (fun b s' => exists h, b = blk h /\ free_run s o h /\ alloc_post s h o flags t s')) as Hlast.
  { intros s2 h (L2 & r & Hinv2 & Hre2 & Hco2 & EL2 & Hl2).
    assert (alloc_lock s1 = alloc_lock s2) as Eal by (unfold alloc_lock; by rewrite (re_ptr _ _ Hre2)).
    eapply wp_mono; [apply (alloc_first_ok s1 s2 L2 h r o flags t); try done; [lia|by rewrite Hl2, Eal]|].
    intros b s' (-> & Hrun & Hpost). by exists h. }
  apply wp_bind. destruct (bool_decide (L o = [])) eqn:E.
  - apply bool_decide_eq_true in E. assert (o <> k) by (by intros ->).
    eapply wp_mono; [by apply (split_higher_ok s1 L o k); try done; lia|]. intros ? s2 [h Hp]. by apply (Hlast s2 h).
  - apply bool_decide_eq_false in E. destruct (L o) as [|h r] eqn:EL; [done|]. apply wp_ret, (Hlast s1 h).
    exists L, r. split_and!; try done. intros j p Hj' Hp Hq Hs. by destruct (Hco j p Hj' Hp Hq Hs).
Qed.

(** With no block of order [o] or more, allocation panics. *)
Lemma alloc_none s L o flags :
  phys_inv s L -> locks s = ∅ -> 0 <= o <= MAX_ORDER -> (forall j, o <= j <= MAX_ORDER -> L j = []) ->
  exists msg, phys_alloc_block o flags s = Panic msg.
Proof.
  intros Hinv Hl Ho Hemp. unfold phys_alloc_block. cbn [alloc_block_fuel]. rewrite (proj2 (Z.ltb_ge _ _)) by lia.
  assert (acquire_alloc s = Done tt (with_locks {[alloc_lock s]} s)) as Ha.
  { destruct (wp_done _ _ _ (wp_acquire_alloc s (fun _ s' => s' = with_locks {[alloc_lock s]} s) ltac:(rewrite Hl; apply not_elem_of_empty)
      ltac:(by rewrite Hl, (right_id_L ∅ (∪))))) as ([] & s' & E & ->). done. }
  set (s1 := with_locks {[alloc_lock s]} s) in *. assert (phys_inv s1 L) as Hinv1 by by apply inv_with_locks.
  unfold mbind, M_bind. rewrite Ha. cbn [get]. case_match; [by eexists|].
  destruct (wp_done _ _ _ (empty_list_ok s1 L o Hinv1 Ho)) as (e & s2 & Ee & -> & ->). rewrite Ee.
  rewrite bool_decide_true by (apply Hemp; lia). unfold split_higher_order_blocks, mbind, M_bind.
  assert (u8 (o + 1) = o + 1) as -> by (apply Z.mod_small; unfold MAX_ORDER in *; lia).
  destruct (wp_done _ _ _ (find_order_ok 14 s1 L (o + 1) Hinv1 ltac:(lia) ltac:(unfold MAX_ORDER in *; lia))) as (k & s2 & Ef & -> & Hk & _ & HLk).
  rewrite Ef. rewrite (proj2 (Z.ltb_lt _ _)); [by eexists|].
  destruct (decide (k <= MAX_ORDER)); [|lia]. exfalso. apply HLk; [done|]. apply Hemp. lia.
Qed.

(** ** Initialisation *)

(** The state [phys_alloc_init] starts from: one block of order 0 per page, none
    of them free, empty lists, no lock held. *)
Record init_state (s : phys_mem) : Prop := {
  is_spans : spans_wf (spans s);
  is_ptr : base_ok (alloc_state s);
  is_page : forall p, span_of (spans s) p <> -1 -> exists t r,
    blocks s !! blk p = Some (mk_physblock 0 0 t r) /\ Z.land t PHYSBLOCK_TYPE_MASK <> PHYSBLOCK_FREE /\ is_u32 r;
  is_rings : forall o, 0 <= o <= MAX_ORDER -> ring (pnodes s) (free_list s o) [];
  is_nodes : forall p, span_of (spans s) p <> -1 -> is_Some (pnodes s !! node p);
  is_stats : num_4k_pages (stats s) = 0 /\ num_free_4k_pages (stats s) = 0 /\ order_stats (stats s) = (fun _ => 0) <$> seqZ 0 13;
  is_locks : locks s = ∅;
}.

Definition unmanaged (st : option page_state) : bool :=
  match st with
  | Some (Used _ _ t _) => Z.land t PHYSBLOCK_TYPE_MASK =? PHYSBLOCK_UNMANAGED
  | _ => false
  end.

Lemma init_block s p : init_state s -> span_of (spans s) p <> -1 -> block_ok (blocks s) (spans s) p 0.
Proof.
  intros Hi Hp. destruct (is_page _ Hi p Hp) as (t & r & E & _). split; try done.
  - apply Z.divide_1_l.
  - eauto.
  - intros i Hi0. simpl in Hi0. lia.
  - intros i Hi0. simpl in Hi0. do 2 f_equal. lia.
Qed.

Lemma init_head s h o b : init_state s -> block_ok (blocks s) (spans s) h o -> blocks s !! blk h = Some b ->
  o = 0 /\ head_offset b = 0 /\ Z.land (type b) PHYSBLOCK_TYPE_MASK <> PHYSBLOCK_FREE /\ is_u32 (refcount b).
Proof.
  intros Hi Hb Eb. destruct (is_page _ Hi h (bo_managed _ _ _ _ Hb)) as (t & r & E & Ht & Hr).
  destruct (bo_head _ _ _ _ Hb) as (c & Ec & _ & Hc). simplify_eq. done.
Qed.

Lemma init_inv s : init_state s -> phys_inv s (fun _ => []).
Proof.
  intros Hi. destruct (is_stats _ Hi) as (_ & Hf & Ho). split; try apply Hi; try done.
  - intros p Hp. exists p, 0. split; [by apply init_block|]. simpl. lia.
  - intros h o b Hb Eb. destruct (init_head s h o b Hi Hb Eb) as (_ & _ & Ht & Hr). by split.
  - intros o p Ho'. split; [by intros ?%elem_of_nil|]. intros [Hb (b & Eb & Tb)].
    destruct (init_head s p o b Hi Hb Eb) as (_ & _ & Ht & _). exfalso. apply Ht. by rewrite Tb.
  - intros o Ho'. by apply (is_rings _ Hi).
  - rewrite Hf. symmetry. apply count_true_none. intros p Hp%elem_of_pfns; [|apply Hi].
    destruct (is_page _ Hi p Hp) as (t & r & E & Ht & _). unfold is_free. apply bool_decide_false.
    rewrite (block_status _ _ p 0 _ p (init_block s p Hi Hp) E) by (simpl; lia). unfold head_state. simpl.
    by rewrite (proj2 (Z.eqb_neq _ _) Ht).
Qed.

(** A page in use that is a block of its own. *)
Lemma used_zero_block s L p t r :
  phys_inv s L -> span_of (spans s) p <> -1 -> page_status (blocks s) p = Some (Used p 0 t r) ->
  block_ok (blocks s) (spans s) p 0 /\ blocks s !! blk p = Some (mk_physblock 0 0 t r) /\
  Z.land t PHYSBLOCK_TYPE_MASK <> PHYSBLOCK_FREE /\ is_u32 r.
Proof.
  intros Hinv Hp Hs. destruct (pi_part _ _ Hinv p Hp) as (h & o & Hb & Hin).
  destruct (bo_head _ _ _ _ Hb) as (b & Eb & Hoff & Hord). rewrite (block_status _ _ h o b p Hb Eb Hin) in Hs.
  unfold head_state in Hs. case_match eqn:E; [done|]. injection Hs as -> Ho Ht Hr. apply Z.eqb_neq in E.
  assert (o = 0) as -> by congruence. split; [done|]. rewrite Eb. subst. split; [by destruct b; simpl in *; subst|].
  split; [done|]. by apply (pi_head _ _ Hinv p 0 b Hb Eb).
Qed.

(** What one iteration of the loop keeps and does. *)
Record page_inited (s : phys_mem) (p : Z) (s' : phys_mem) : Prop := {
  in_ok : phys_ok s';
  in_spans : spans s' = spans s;
  in_ptr : alloc_state s' = alloc_state s;
  in_4k : num_4k_pages (stats s') = num_4k_pages (stats s);
  in_status : forall q, span_of (spans s) q <> -1 ->
    page_status (blocks s') q = if decide (q = p /\ unmanaged (page_status (blocks s) p) = true) then Some Free else page_status (blocks s) q;
}.

Lemma wp_count_init t s (Q : unit -> phys_mem -> Prop) :
  (forall st, num_4k_pages st = num_4k_pages (stats s) -> num_free_4k_pages st = num_free_4k_pages (stats s) ->
     order_stats st = order_stats (stats s) -> Q tt (with_stats st s)) ->
  wp (if t =? PHYSBLOCK_PAGETABLE then set_stats (pagetable_add 1)
      else if t =? PHYSBLOCK_PHYSBLOCK then set_stats (physblock_add 1)
      else mret tt) s Q.
Proof.
  intros HQ. destruct (t =? PHYSBLOCK_PAGETABLE); [by apply wp_modify, HQ|].
  destruct (t =? PHYSBLOCK_PHYSBLOCK); [by apply wp_modify, HQ|].
  apply wp_ret. replace s with (with_stats (stats s) s) by by destruct s. by apply HQ.
Qed.

Lemma inv_with_stats s L st :
  phys_inv s L -> num_free_4k_pages st = num_free_4k_pages (stats s) -> order_stats st = order_stats (stats s) -> phys_inv (with_stats st s) L.
Proof. intros [] E1 E2. split; try done; psimpl; congruence. Qed.

(** A reference is added to an unmanaged page. *)
Lemma add_ref_ok s L p t r :
  phys_inv s L -> span_of (spans s) p <> -1 -> page_status (blocks s) p = Some (Used p 0 t r) ->
  let s1 := with_blocks (<[blk p := mk_physblock 0 0 t 1]> (blocks s)) s in
  phys_inv s1 L /\ block_becomes s s1 p 0 (Used p 0 t 1).
Proof.
  intros Hinv Hp Hs s1. destruct (used_zero_block s L p t r Hinv Hp Hs) as (Hb & Eb & Hnf & Hr).
  destruct (retype_block (spans s) (blocks s) p 0 t 1 Hb) as (_ & Ht & _ & Hout & Hin).
  assert (head_state p (mk_physblock 0 0 t 1) = Used p 0 t 1) as Hhs by (unfold head_state; simpl; by rewrite (proj2 (Z.eqb_neq _ _) Hnf)).
  rewrite <- Hhs. apply (retype_inv s L p 0 (mk_physblock 0 0 t r) t 1); try done; unfold s1; psimpl; try apply Hinv.
  - intros k Hk. split; [|intros [_ E]; exfalso; apply Hnf; by rewrite E].
    intros [_ (c & Ec & Tc)]%(pi_free _ _ Hinv k p Hk). exfalso. apply Hnf. rewrite Eb in Ec. injection Ec as <-. simpl in Tc. by rewrite Tc.
  - by intros x Hx.
  - rewrite (pi_count _ _ Hinv), (count_block s L p 0 _ false false Hinv Hb Ht Hout); [lia|]. intros q Hq. unfold is_free.
    rewrite Hin, Hhs by done. assert (q = p) as -> by (simpl in Hq; lia). rewrite Hs. by split; apply bool_decide_false.
Qed.

Lemma init_page_ok s p t r :
  phys_ok s -> span_of (spans s) p <> -1 -> page_status (blocks s) p = Some (Used p 0 t r) ->
  wp (init_page p) s (fun _ s' => page_inited s p s').
Proof.
  intros (L & Hinv & Hco & Hl) Hp Hs. destruct (used_zero_block s L p t r Hinv Hp Hs) as (Hb & Eb & Hnf & Hr).
  pose proof (inv_head_range s L Hinv p 0 Hb) as Hrange.
  unfold init_page. apply wp_bind. eapply wp_mono; [eapply lock_head_ok; [done|exact Eb|done|rewrite Hl; apply not_elem_of_empty]|].
  intros ? ? [-> ->]. rewrite Hl, (right_id_L ∅ (∪)). apply wp_bind. eapply wp_get_block; [exact Eb|]. cbn [type].
  destruct (Z.eqb_spec (Z.land t PHYSBLOCK_TYPE_MASK) PHYSBLOCK_UNMANAGED) as [Hu|Hu].
  - apply wp_bind. eapply wp_set_refcount; [exact Eb|]. cbn [head_offset order type].
    destruct (add_ref_ok s L p t r Hinv Hp Hs) as [Hinv1 Hbec]. set (s1 := with_blocks (<[blk p := mk_physblock 0 0 t 1]> (blocks s)) s) in *.
    destruct (used_zero_block s1 L p t 1 Hinv1 Hp) as (Hb1 & Eb1 & _); [rewrite Hbec, decide_True by (done || simpl; lia); done|].
    change (with_blocks _ _) with (with_locks {[lck p]} s1).
    eapply wp_mono; [apply (free_last_ok (with_locks {[lck p]} s1) L p 0 (mk_physblock 0 0 t 1)); [by apply inv_with_locks|done|exact Hb1|exact Eb1|done|done]|].
    intros ? s' (Hok & Hsp & Hpt & Hst & Hun & _). split; try done. intros q Hq. rewrite Hst by done. psimpl. rewrite Hbec by done.
    rewrite Hs. simpl unmanaged. rewrite Hu. change (2 ^ 0) with 1. repeat case_decide; try done; intuition lia.
  - apply wp_bind, wp_count_init. intros st H1 H2 H3. psimpl. apply wp_release_block. psimpl. split; psimpl; try done.
    + exists L. split; [by apply inv_with_locks, inv_with_stats; [apply inv_with_locks|..]|]. split; [done|]. psimpl. fold (lck p). set_solver.
    + intros q Hq. rewrite decide_False; [done|]. rewrite Hs. simpl. rewrite (proj2 (Z.eqb_neq _ _) Hu). by intros [_ ?].
Qed.

(** The frames [D] have been through the loop. *)
Record inited (s0 : phys_mem) (D : list Z) (n : Z) (s : phys_mem) : Prop := {
  id_ok : phys_ok s;
  id_spans : spans s = spans s0;
  id_ptr : alloc_state s = alloc_state s0;
  id_4k : num_4k_pages (stats s) = n;
  id_status : forall q, span_of (spans s0) q <> -1 ->
    page_status (blocks s) q = if decide (q ∈ D /\ unmanaged (page_status (blocks s0) q) = true) then Some Free else page_status (blocks s0) q;
}.

Lemma init_status s p : init_state s -> span_of (spans s) p <> -1 -> exists t r, page_status (blocks s) p = Some (Used p 0 t r).
Proof.
  intros Hi Hp. destruct (is_page _ Hi p Hp) as (t & r & E & Ht & _). exists t, r.
  rewrite (block_status _ _ p 0 _ p (init_block s p Hi Hp) E) by (simpl; lia). unfold head_state. simpl. by rewrite (proj2 (Z.eqb_neq _ _) Ht).
Qed.

Lemma init_page_step s0 D n s p :
  init_state s0 -> inited s0 D n s -> span_of (spans s0) p <> -1 -> p ∉ D ->
  wp (init_page p) s (fun _ s' => inited s0 (D ++ [p]) n s').
Proof.
  intros Hi Hd Hp Hnew. destruct (init_status s0 p Hi Hp) as (t & r & Hs).
  assert (page_status (blocks s) p = Some (Used p 0 t r)) as Hsp by (rewrite (id_status _ _ _ _ Hd) by done; rewrite decide_False; [done|by intros [? _]]).
  eapply wp_mono; [apply (init_page_ok s p t r); [apply Hd|by rewrite (id_spans _ _ _ _ Hd)|done]|].
  intros ? s' [H1 H2 H3 H4 H5]. split; [done|by rewrite H2, (id_spans _ _ _ _ Hd)|by rewrite H3, (id_ptr _ _ _ _ Hd)|by rewrite H4, (id_4k _ _ _ _ Hd)|].
  intros q Hq. rewrite H5 by by rewrite (id_spans _ _ _ _ Hd). rewrite (id_status _ _ _ _ Hd q Hq), Hsp. rewrite <- Hs.
  repeat case_decide; try done; rewrite ?elem_of_app, ?list_elem_of_singleton in *; try tauto; exfalso; intuition congruence.
Qed.

Lemma init_span_ok s0 D n s a :
  init_state s0 -> inited s0 D n s -> 0 <= start_pfn a -> 0 <= num_pages a -> start_pfn a + num_pages a <= 2 ^ 35 ->
  (forall p, p ∈ seqZ (start_pfn a) (num_pages a) -> span_of (spans s0) p <> -1 /\ p ∉ D) ->
  wp (phys_alloc_init_span a) s (fun _ s' => inited s0 (D ++ seqZ (start_pfn a) (num_pages a)) (u64 (n + num_pages a)) s').
Proof.
  intros Hi Hd H1 H2 H3 Hin. apply wp_bind, wp_modify.
  match goal with |- wp _ ?x _ => set (s1 := x) end.
  assert (inited s0 D (u64 (n + num_pages a)) s1) as Hd1.
  { destruct Hd as [(L & Hinv & Hco & Hl) ? ? E ?]. split; try done; [|unfold s1; psimpl; by rewrite E].
    exists L. split; [by apply inv_with_stats|done]. }
  pose proof (wp_for_loop (fun k s' => inited s0 (D ++ seqZ (start_pfn a) (Z.of_nat k)) (u64 (n + num_pages a)) s')
    (Z.to_nat (num_pages a)) (start_pfn a) (fun pfn => init_page (u64 pfn)) s1) as Hloop. cbv beta in Hloop.
  rewrite Z2Nat.id in Hloop by done. apply Hloop; [by rewrite app_nil_r|]. clear Hloop.
  intros k s2 Hk Hd2. rewrite u64_small by (unfold is_u; lia).
  replace (Z.of_nat (S k)) with (Z.of_nat k + 1) by lia. rewrite seqZ_app by lia. change (seqZ _ 1) with [start_pfn a + Z.of_nat k]. rewrite app_assoc.
  destruct (Hin (start_pfn a + Z.of_nat k)) as [Hm Hn]; [apply elem_of_seqZ; lia|].
  apply init_page_step; try done. rewrite elem_of_app, elem_of_seqZ. intros [?|?]; [done|lia].
Qed.

Lemma pfns_cons a l : pfns (a :: l) = seqZ (start_pfn a) (num_pages a) ++ pfns l.
Proof. done. Qed.

Lemma init_spans_ok s0 D n s l :
  init_state s0 -> inited s0 D n s -> spans_wf l -> 0 <= n -> n + zlength (pfns l) <= 2 ^ 35 ->
  (forall p, p ∈ pfns l -> span_of (spans s0) p <> -1 /\ p ∉ D) ->
  wp (init_all_spans l) s (fun _ s' => inited s0 (D ++ pfns l) (n + zlength (pfns l)) s').
Proof.
  revert D n s. induction l as [|a l IH]; intros D n s Hi Hd Hw Hn Hb Hin; simpl.
  - apply wp_ret. unfold pfns, zlength. simpl. by rewrite app_nil_r, Z.add_0_r.
  - destruct Hw as [Hr Hnd]. apply Forall_cons in Hr as [(Hr1 & Hr2 & Hr3) Hr]. rewrite pfns_cons in *.
    apply NoDup_app in Hnd as (_ & Hdis & Hnd).
    assert (zlength (seqZ (start_pfn a) (num_pages a) ++ pfns l) = num_pages a + zlength (pfns l)) as Elen.
    { unfold zlength. rewrite length_app, length_seqZ. lia. }
    rewrite Elen in *. pose proof (zlength_nonneg (pfns l)).
    apply wp_bind. eapply wp_mono; [apply (init_span_ok s0 D n s a); try done; intros p Hp; apply Hin; by apply elem_of_app; left|].
    intros ? s1 Hd1. rewrite u64_small in Hd1 by (unfold is_u; lia). rewrite app_assoc, Z.add_assoc.
    apply IH; try done; [lia..|]. intros p Hp. split; [apply Hin; by apply elem_of_app; right|].
    rewrite elem_of_app. intros [?|?]; [|by apply (Hdis p)]. by apply (Hin p); [apply elem_of_app; right|].
Qed.

Lemma init_all_ok s : init_state s -> wp phys_alloc_init s (fun _ s' => inited s (pfns (spans s)) (zlength (pfns (spans s))) s').
Proof.
  intros Hi. apply wp_bind, wp_get. pose proof (zlength_pfns _ (is_spans _ Hi)).
  apply (init_spans_ok s [] 0 s (spans s)); try done; try apply Hi.
  - split; [|done|done|apply (is_stats _ Hi)|].
    + exists (fun _ => []). split; [by apply init_inv|]. split; [|apply Hi]. by intros o p _ ?%elem_of_nil.
    + intros q Hq. rewrite decide_False; [done|]. by intros [?%elem_of_nil _].
  - intros p Hp%elem_of_pfns; [|apply Hi]. split; [done|apply not_elem_of_nil].
Qed.

(** ** The operations as a whole *)

Lemma alloc_cases s o flags :
  phys_ok s -> 0 <= o -> valid_flags flags ->
  match phys_alloc_block o flags s with
  | Done b s' => o <= MAX_ORDER /\ exists h t, b = blk h /\ flags_type flags t /\ free_run s o h /\ alloc_post s h o flags t s'
  | Panic _ => MAX_ORDER < o \/ forall p, ~ free_run s o p
  | _ => False
  end.
Proof.
  intros (L & Hinv & Hco & Hl) Ho (t & Hft & Hnf)%valid_flags_type.
  destruct (decide (MAX_ORDER < o)) as [Hgt|Hle].
  { unfold phys_alloc_block. cbn [alloc_block_fuel]. rewrite (proj2 (Z.ltb_lt _ _) Hgt). by left. }
  destruct (wp_done _ _ _ (find_order_ok 14 s L o Hinv ltac:(lia) ltac:(unfold MAX_ORDER in *; lia))) as (k & s2 & Ef & -> & Hk & Hemp & HLk).
  destruct (decide (k <= MAX_ORDER)) as [Hkm|Hkm].
  - destruct (wp_done _ _ _ (alloc_some_ok s L o k flags t Hinv Hco Hl ltac:(lia) Hkm (HLk Hkm) Hemp Hft Hnf))
      as (b & s' & -> & h & ? & ? & ?). split; [lia|]. by exists h, t.
  - destruct (alloc_none s L o flags Hinv Hl ltac:(lia)) as [msg ->]; [intros j Hj; apply Hemp; lia|].
    right. intros p Hrun. destruct (free_run_block s L o p Hinv Hco) as (j & Hj & HLj); [lia|done|]. apply HLj, Hemp. lia.
Qed.

Lemma free_cases s p :
  phys_ok s -> span_of (spans s) p <> -1 ->
  match page_status (blocks s) p with
  | Some Free => wp (phys_free_pfn p) s (fun _ s' => s' = s)
  | Some (Used h o t r) =>
      h <= p < h + 2 ^ o /\
      wp (phys_free_pfn p) s (fun _ s' => if decide (p - h < 256) then freed s h o t r s' else s' = s)
  | None => False
  end.
Proof.
  intros (L & Hinv & Hco & Hl) Hp. destruct (pi_part _ _ Hinv p Hp) as (h & o & Hb & Hin).
  destruct (bo_head _ _ _ _ Hb) as (b & Eb & Hoff & Hord). rewrite (block_status _ _ h o b p Hb Eb Hin).
  assert (0 <= (p - h) mod 256 <= p - h) as Hmod by (pose proof (Z.mod_pos_bound (p - h) 256); pose proof (Z.mod_le (p - h) 256); lia).
  set (q := p - (p - h) mod 256). unfold phys_free_pfn.
  assert (forall Q, wp (free_physblock_locked (blk q)) (with_locks {[lck q]} s) Q ->
    wp (block ← pfn_to_physblock_lock p; free_physblock_locked block) s Q) as Hlock.
  { intros Q HQ. apply wp_bind. eapply wp_mono; [by apply (lock_page_ok s L h o p)|]. intros ? ? [-> ->]. done. }
  assert (q <> h -> wp (block ← pfn_to_physblock_lock p; free_physblock_locked block) s (fun _ s' => s' = s)) as Htail.
  { intros Hne. apply Hlock. apply (free_zero_ok s q (tail (q - h))); try done.
    rewrite <- (bo_tail _ _ _ _ Hb) by (unfold q in *; lia). do 2 f_equal. lia. }
  unfold head_state. destruct (Z.eqb_spec (Z.land (type b) PHYSBLOCK_TYPE_MASK) PHYSBLOCK_FREE) as [Hf|Hf].
  - destruct (decide (q = h)) as [Eq|Hne]; [|by apply Htail]. apply Hlock. rewrite Eq.
    apply (free_zero_ok s h b); try done. by apply (pi_head _ _ Hinv h o b Hb Eb).
  - rewrite Hord. split; [done|]. case_decide as Hd.
    + apply Hlock. assert (q = h) as -> by (unfold q; rewrite Z.mod_small by lia; lia). by apply (free_head_ok s L).
    + apply Htail. unfold q. pose proof (Z.mod_pos_bound (p - h) 256). lia.
Qed.

Lemma pfn_phys_roundtrip h : 0 <= h < 2 ^ 35 -> phys_to_pfn (pfn_to_phys h) = h.
Proof.
  intros Hh. unfold phys_to_pfn, pfn_to_phys, shl64, PAGE_SHIFT. rewrite Z.shiftl_mul_pow2 by lia.
  rewrite u64_small by (unfold is_u; lia). rewrite Z.shiftr_div_pow2, Z.div_mul by lia. done.
Qed.

Lemma pfn_to_phys_mul h : 0 <= h < 2 ^ 35 -> pfn_to_phys h = h * 4096.
Proof.
  intros Hh. unfold pfn_to_phys, shl64, PAGE_SHIFT. rewrite Z.shiftl_mul_pow2 by lia. by rewrite u64_small by (unfold is_u; lia).
Qed.

(** What [phys_alloc] and [phys_free] of the address it returns promise. *)
Lemma phys_alloc_cases s o flags :
  phys_ok s -> 0 <= o -> valid_flags flags ->
  match phys_alloc o flags s with
  | Done pa s' => o <= MAX_ORDER /\ exists h t, pa = pfn_to_phys h /\ 0 <= h < 2 ^ 35 /\ flags_type flags t /\ free_run s o h /\ alloc_post s h o flags t s'
  | Panic _ => MAX_ORDER < o \/ forall p, ~ free_run s o p
  | _ => False
  end.
Proof.
  intros Hok Ho Hv. pose proof (alloc_cases s o flags Hok Ho Hv) as Hc. unfold phys_alloc, mbind, M_bind.
  destruct (phys_alloc_block o flags s) as [b s'| | |]; try done.
  destruct Hc as (Hom & h & t & -> & Ht & Hrun & Hpost). split; [done|]. exists h, t.
  assert (0 <= h < 2 ^ 35) as Hh.
  { destruct Hok as (L & Hinv & _), Hrun as [_ Hr]. destruct (Hr 0) as (_ & _ & Hm); [lia|]. by apply (span_of_range (spans s)); [apply Hinv|]. }
  unfold physblock_to_phys. by rewrite blk_to_pfn.
Qed.

Lemma free_allocated s h o flags t s' :
  0 <= o -> free_run s o h -> alloc_post s h o flags t s' ->
  wp (phys_free (pfn_to_phys h)) s' (fun _ s2 => phys_ok s2 /\ forall p, span_of (spans s) p <> -1 ->
    page_status (blocks s2) p = page_status (blocks s) p).
Proof.
  intros Ho [Hal Hrun] ((L1 & Hinv & Hco & Hl) & Hsp & Hpt & Hbec & _). assert (0 < 2 ^ o) by lia.
  destruct (Hrun 0) as (_ & _ & Hm); [lia|].
  assert (0 <= h < 2 ^ 35) as Hh by (apply (span_of_range (spans s)); [rewrite <- Hsp; apply Hinv|done]).
  unfold phys_free. rewrite pfn_phys_roundtrip by done.
  assert (page_status (blocks s') h = Some (Used h o t 1)) as Hst by (rewrite Hbec, decide_True by (done || lia); done).
  pose proof (free_cases s' h (ex_intro _ L1 (conj Hinv (conj Hco Hl))) ltac:(by rewrite Hsp)) as Hf. rewrite Hst in Hf.
  eapply wp_mono; [apply Hf|]. cbv beta. intros ? s2. rewrite decide_True by lia. intros (Hok2 & Hsp2 & _ & _ & _ & H1).
  split; [done|]. intros p Hp. destruct H1 as [_ Hb2]; [done|]. rewrite Hb2 by by rewrite Hsp.
  destruct (decide (h <= p < h + 2 ^ o)) as [Hin|Hin].
  - destruct (Hrun (p - h)) as (Hs & _); [lia|]. by replace (h + (p - h)) with p in Hs by lia.
  - rewrite Hbec by done. by rewrite decide_False.
Qed.

(** A span of eight frames of which frame 20 is in use; [sample_phys] is the
    state after initialisation. *)
Definition sample_frames : list Z := [16; 17; 18; 19; 20; 21; 22; 23].

Definition sample_block (p : Z) : physblock :=
  if p =? 20 then mk_physblock 0 0 PHYSBLOCK_KERNEL 1 else mk_physblock 0 0 PHYSBLOCK_UNMANAGED 0.

Definition sample_start : phys_mem :=
  mk_phys (list_to_map ((fun p => (blk p, sample_block p)) <$> sample_frames))
    (list_to_map (((fun p => (node p, mk_node 0 0)) <$> sample_frames) ++
      ((fun o => (0x1000 + 16 * o, mk_node (0x1000 + 16 * o) (0x1000 + 16 * o))) <$> seqZ 0 13)))
    ∅ (mk_stats 0 0 0 0 (replicate 13 0)) [mk_phys_span 16 8] 0x1000.

Definition sample_phys : phys_mem :=
  match phys_alloc_init sample_start with
  | Done _ s => s
  | _ => sample_start
  end.

Lemma sample_spans_wf : spans_wf (spans sample_start).
Proof.
  split; [repeat constructor; simpl; lia|]. apply (bool_decide_unpack _). by vm_compute.
Qed.

Lemma sample_frame p : span_of (spans sample_start) p <> -1 -> p ∈ sample_frames.
Proof.
  intros Hp%elem_of_pfns; [|apply sample_spans_wf]. exact Hp.
Qed.

Lemma sample_start_init : init_state sample_start.
Proof.
  assert (forall P : Z -> Prop, Forall P sample_frames -> forall p, span_of (spans sample_start) p <> -1 -> P p) as Hall.
  { intros P HP p Hp%sample_frame. by eapply Forall_forall in HP. }
  assert (Forall (fun p => blocks sample_start !! blk p = Some (sample_block p)) sample_frames) as HB.
  { repeat (constructor; [vm_compute; reflexivity|]). constructor. }
  assert (Forall (fun p => pnodes sample_start !! node p = Some (mk_node 0 0)) sample_frames) as HN.
  { repeat (constructor; [vm_compute; reflexivity|]). constructor. }
  assert (Forall (fun o => pnodes sample_start !! free_list sample_start o =
    Some (mk_node (free_list sample_start o) (free_list sample_start o))) (seqZ 0 13)) as HL.
  { repeat (constructor; [vm_compute; reflexivity|]). constructor. }
  split; [apply sample_spans_wf|split; vm_compute; discriminate| | | |split_and!; vm_compute; reflexivity|reflexivity].
  - intros p Hp. pose proof (Hall _ HB p Hp) as E. unfold sample_block in E.
    destruct (p =? 20); (eexists _, _; split; [exact E|]); split; [vm_compute; discriminate|by vm_compute..].
  - intros o Ho. pose proof (proj1 (Forall_forall _ _) HL o ltac:(apply elem_of_seqZ; unfold MAX_ORDER in Ho; lia)) as E. cbv beta in E.
    split; [apply NoDup_singleton|]. unfold linked, nxt, prv. by rewrite E.
  - intros p Hp. pose proof (Hall _ HN p Hp) as E. by exists (mk_node 0 0).
Qed.

Lemma sample_phys_ok : phys_ok sample_phys.
Proof. unfold sample_phys. destruct (wp_done _ _ _ (init_all_ok _ sample_start_init)) as (u & s' & -> & H). apply H. Qed.

(** ** Properties *)

(** C3: allocation. From a well-formed state with no lock held,
    [phys_alloc_block] with an order up to [MAX_ORDER] returns the first frame of
    an aligned run of [2 ^ order] frames of one span that were all free, and
    marks exactly them as one block in use with the type of the flags and one
    reference; no other page changes, every lock is released, and the invariant
    (the blocks partition the spans, the free lists and counters agree with
    them, no two free buddies) holds again. It panics exactly when the order is
    too large or no such run exists, and never hangs. *)
Theorem phys_alloc_correct s o flags :
  phys_ok s -> 0 <= o -> valid_flags flags ->
  match phys_alloc_block o flags s with
  | Done b s' => o <= MAX_ORDER /\ exists h t, b = blk h /\ flags_type flags t /\ free_run s o h /\ alloc_post s h o flags t s'
  | Panic _ => MAX_ORDER < o \/ forall p, ~ free_run s o p
  | _ => False
  end.
Proof. apply alloc_cases. Qed.

(** C4: freeing. For any frame of a span, [phys_free_pfn] leaves a free page
    alone; for a page of a block in use whose frame is within 256 of the first
    one it drops one reference of the whole block, and frees and coalesces all
    its frames when that was the last one, keeping every other page and the
    invariant; for a frame further than that from the first one it does nothing,
    since the offset to the first frame is truncated to a byte. *)
Theorem phys_free_correct s p :
  phys_ok s -> span_of (spans s) p <> -1 ->
  match page_status (blocks s) p with
  | Some Free => wp (phys_free_pfn p) s (fun _ s' => s' = s)
  | Some (Used h o t r) =>
      h <= p < h + 2 ^ o /\
      wp (phys_free_pfn p) s (fun _ s' => if decide (p - h < 256) then freed s h o t r s' else s' = s)
  | None => False
  end.
Proof. apply free_cases. Qed.

(** C12: initialisation. From one unallocated or early-allocated block per page,
    empty lists and no lock held, [phys_alloc_init] returns in a well-formed
    state in which every page that was unmanaged is free, every other page keeps
    its type and references, and the number of pages is that of the spans. *)
Theorem phys_init_correct s :
  init_state s ->
  wp phys_alloc_init s (fun _ s' => phys_ok s' /\ spans s' = spans s /\ num_4k_pages (stats s') = zlength (pfns (spans s)) /\
    forall p, span_of (spans s) p <> -1 ->
      page_status (blocks s') p = if unmanaged (page_status (blocks s) p) then Some Free else page_status (blocks s) p).
Proof.
  intros Hi. eapply wp_mono; [by apply init_all_ok|]. intros ? s' Hd. split; [apply Hd|]. split; [apply Hd|]. split; [apply Hd|].
  intros p Hp. rewrite (id_status _ _ _ _ Hd p Hp). assert (p ∈ pfns (spans s)) by (by apply elem_of_pfns; [apply Hi|]).
  destruct (unmanaged _); [rewrite decide_True by done; done|]. rewrite decide_False; [done|]. by intros [_ ?].
Qed.

(** C13: freeing undoes allocation: after [phys_alloc] of a block and
    [phys_free] of its address every page has the status it had. *)
Theorem phys_alloc_free_roundtrip s o flags pa s1 :
  phys_ok s -> 0 <= o -> valid_flags flags -> phys_alloc o flags s = Done pa s1 ->
  wp (phys_free pa) s1 (fun _ s2 => phys_ok s2 /\ forall p, span_of (spans s) p <> -1 ->
    page_status (blocks s2) p = page_status (blocks s) p).
Proof.
  intros Hok Ho Hv Ha. pose proof (phys_alloc_cases s o flags Hok Ho Hv) as Hc. rewrite Ha in Hc.
  destruct Hc as (_ & h & t & -> & _ & _ & Hrun & Hpost). by apply (free_allocated s h o flags t).
Qed.

Lemma phys_alloc_correct_witness :
  phys_ok sample_phys /\
  match phys_alloc_block 1 ALLOC_KERNEL sample_phys with
  | Done b s' => b = blk 22 /\ phys_ok s'
  | _ => False
  end.
Proof.
  split; [apply sample_phys_ok|].
  pose proof (phys_alloc_correct sample_phys 1 ALLOC_KERNEL sample_phys_ok ltac:(lia) ltac:(vm_compute; split; discriminate)) as H.
  destruct (phys_alloc_block 1 ALLOC_KERNEL sample_phys) as [b s'| | |] eqn:E; [|vm_compute in E; discriminate E..].
  split; [vm_compute in E; by injection E as <- _|]. destruct H as (_ & h & t & _ & _ & _ & H & _). exact H.
Defined.

Lemma phys_free_correct_witness :
  page_status (blocks sample_phys) 20 = Some (Used 20 0 PHYSBLOCK_KERNEL 1) /\
  wp (phys_free_pfn 20) sample_phys (fun _ s' => phys_ok s' /\ page_status (blocks s') 20 = Some Free).
Proof.
  split; [by vm_compute|].
  pose proof (phys_free_correct sample_phys 20 sample_phys_ok ltac:(vm_compute; discriminate)) as H.
  replace (page_status (blocks sample_phys) 20) with (Some (Used 20 0 PHYSBLOCK_KERNEL 1)) in H by by vm_compute.
  destruct H as [_ H]. eapply wp_mono; [exact H|]. cbv beta. intros ? s'. rewrite decide_True by lia. intros (Hok & _ & _ & _ & _ & H1).
  split; [done|]. destruct H1 as [_ H1]; [done|]. rewrite H1 by (vm_compute; discriminate). by rewrite decide_True by lia.
Defined.

Lemma phys_init_correct_witness :
  init_state sample_start /\ wp phys_alloc_init sample_start (fun _ s' => phys_ok s' /\ num_4k_pages (stats s') = 8).
Proof.
  split; [apply sample_start_init|].
  eapply wp_mono; [apply (phys_init_correct sample_start sample_start_init)|]. intros ? s' (H1 & _ & H2 & _). split; [exact H1|].
  rewrite H2. by vm_compute.
Defined.

Lemma phys_alloc_free_roundtrip_witness :
  match phys_alloc 2 ALLOC_USER sample_phys with
  | Done pa s1 => pa = 0x10000 /\ wp (phys_free pa) s1 (fun _ s2 => phys_ok s2)
  | _ => False
  end.
Proof.
  pose proof (phys_alloc_free_roundtrip sample_phys 2 ALLOC_USER) as H.
  destruct (phys_alloc 2 ALLOC_USER sample_phys) as [pa s1| | |] eqn:E; [|vm_compute in E; discriminate E..].
  split; [vm_compute in E; by injection E as <- _|].
  eapply wp_mono; [apply (H pa s1 sample_phys_ok); [lia|vm_compute; split; discriminate|done]|]. intros ? s2 [H1 _]. exact H1.
Defined.
