(* ===== verification/CString.v ===== *)
(** * Strings and memory (include/string.h)

    A C string is the list of the [char] values its pointer reaches, the
    terminating 0 included; reading past the list is [None]. [memset] and
    [memcpy] work on a memory of bytes by address; a pointer to no byte is
    [Undef]. *)

From stdpp Require Import base strings numbers gmap list.
From Stdlib Require Import ZArith Lia Ascii.
From S2P Require Import Prelude.

(** The [char] values of a literal. *)
Fixpoint chars (s : string) : list Z :=
  match s with
  | EmptyString => []
  | String c s' => Z.of_nat (nat_of_ascii c) :: chars s'
  end.

(** A literal as the compiler lays it out. *)
Definition cstr (s : string) : list Z := chars s ++ [0].

Fixpoint strcmp (a b : list Z) : option Z :=
  match a, b with
  | x :: a', y :: b' =>
      if negb (x =? 0) && negb (y =? 0) then
        if negb (x =? y) then Some (x - y) else strcmp a' b'
      else Some (x - y)
  | _, _ => None
  end.

Fixpoint strlen_from (len : Z) (str : list Z) : option Z :=
  match str with
  | [] => None
  | c :: str' => if c =? 0 then Some len else strlen_from (len + 1)%u64 str'
  end.

Definition strlen (str : list Z) : option Z := strlen_from 0 str.

Abbreviation bytes := (gmap Z Z).

Definition load_byte (p : Z) : M bytes Z := fun m => lift (m !! p) m.

Definition store_byte (p v : Z) : M bytes unit := fun m =>
  match m !! p with
  | Some _ => Done tt (<[p := u8 v]> m)
  | None => Undef
  end.

Definition memset (dest chr count : Z) : M bytes Z :=
  for_loop (Z.to_nat count) 0 (fun i => store_byte (dest + i) chr);;
  mret dest.

Definition memcpy (dest src n : Z) : M bytes Z :=
  for_loop (Z.to_nat n) 0 (fun i => b ← load_byte (src + i); store_byte (dest + i) b);;
  mret dest.

(** ** Specification *)

(** A string without its terminator: no [char] of it is 0. *)
Definition text (l : list Z) : Prop := Forall (fun c => c <> 0) l.

(** Lexicographic comparison of texts, by the first difference. *)
Fixpoint lex (a b : list Z) : Z :=
  match a, b with
  | [], [] => 0
  | x :: _, [] => x
  | [], y :: _ => - y
  | x :: a', y :: b' => if x =? y then lex a' b' else x - y
  end.

(** Every address of the range holds a byte. *)
Definition mapped (m : bytes) (p n : Z) : Prop := forall i, 0 <= i < n -> exists b, m !! (p + i) = Some b /\ is_u8 b.

(** ** Lemmas *)

Lemma lex_zero a b : text a -> text b -> lex a b = 0 <-> a = b.
Proof.
  revert b. induction a as [|x a IH]; intros [|y b] Ha Hb; simpl; try done.
  - apply Forall_cons in Hb as [? _]. split; [lia|done].
  - apply Forall_cons in Ha as [? _]. split; [lia|done].
  - apply Forall_cons in Ha as [? Ha], Hb as [? Hb]. destruct (Z.eqb_spec x y) as [->|Hne].
    + rewrite IH by done. split; [by intros ->|by intros [= ->]].
    + split; [lia|]. by intros [= ? ?].
Qed.

Lemma strcmp_lex a b ra rb : text a -> text b -> strcmp (a ++ 0 :: ra) (b ++ 0 :: rb) = Some (lex a b).
Proof.
  revert b. induction a as [|x a IH]; intros [|y b] Ha Hb; simpl; try done.
  - apply Forall_cons in Ha as [Hx _]. rewrite (proj2 (Z.eqb_neq _ _) Hx). simpl. f_equal. lia.
  - apply Forall_cons in Ha as [Hx Ha], Hb as [Hy Hb]. rewrite (proj2 (Z.eqb_neq _ _) Hx), (proj2 (Z.eqb_neq _ _) Hy). simpl.
    destruct (Z.eqb_spec x y); simpl; [by apply IH|done].
Qed.

Lemma strlen_from_ok k a r : text a -> 0 <= k -> k + zlength a < 2 ^ 64 -> strlen_from k (a ++ 0 :: r) = Some (k + zlength a).
Proof.
  revert k. induction a as [|x a IH]; intros k Ha Hk Hb; unfold zlength in *; simpl in *; [f_equal; lia|].
  apply Forall_cons in Ha as [Hx Ha]. rewrite (proj2 (Z.eqb_neq _ _) Hx), add64_small by (unfold is_u; lia).
  rewrite IH by (done || lia). f_equal. lia.
Qed.

Lemma strlen_ok a r : text a -> zlength a < 2 ^ 64 -> strlen (a ++ 0 :: r) = Some (zlength a).
Proof. intros Ha Hb. unfold strlen. rewrite strlen_from_ok by (done || lia). f_equal. Qed.

Lemma store_byte_ok m p v :
  is_Some (m !! p) -> wp (store_byte p v) m (fun _ m' => m' = <[p := u8 v]> m).
Proof. intros [b E]. unfold wp, store_byte. by rewrite E. Qed.

Lemma memset_ok m p c n :
  mapped m p n ->
  wp (memset p c n) m (fun r m' => r = p /\
    forall x, m' !! x = if decide (p <= x < p + n) then Some (u8 c) else m !! x).
Proof.
  intros Hm. apply wp_bind.
  set (I (k : nat) (m' : bytes) := forall x, m' !! x = if decide (p <= x < p + Z.of_nat k) then Some (u8 c) else m !! x).
  eapply wp_mono; [apply (wp_for_loop I)|].
  - intros x. by rewrite decide_False by lia.
  - intros k m' Hk HI. destruct (Hm (Z.of_nat k)) as (b & Eb & _); [lia|].
    eapply wp_mono; [apply store_byte_ok; rewrite HI, decide_False by lia; by exists b|]. intros ? ? ->. intros x.
    destruct (decide (x = p + (0 + Z.of_nat k))) as [->|Hne].
    + by rewrite lookup_insert_eq, decide_True by lia.
    + rewrite lookup_insert_ne by done. rewrite HI. repeat case_decide; try done; lia.
  - intros ? m' HI. split; [done|]. intros x. rewrite HI. repeat case_decide; try done; lia.
Qed.

(** Copying upwards is right unless the destination starts inside the source. *)
Lemma memcpy_ok m dest src n :
  mapped m dest n -> mapped m src n -> ~ (src < dest < src + n) ->
  wp (memcpy dest src n) m (fun r m' => r = dest /\
    forall x, m' !! x = if decide (dest <= x < dest + n) then m !! (src + (x - dest)) else m !! x).
Proof.
  intros Hd Hs Hov. apply wp_bind.
  set (I (k : nat) (m' : bytes) := forall x, m' !! x = if decide (dest <= x < dest + Z.of_nat k) then m !! (src + (x - dest)) else m !! x).
  eapply wp_mono; [apply (wp_for_loop I)|].
  - intros x. by rewrite decide_False by lia.
  - intros k m' Hk HI. destruct (Hs (Z.of_nat k)) as (b & Eb & Hb); [lia|]. destruct (Hd (Z.of_nat k)) as (b' & Eb' & _); [lia|].
    apply wp_bind. assert (m' !! (src + (0 + Z.of_nat k)) = Some b) as E.
    { rewrite HI, decide_False by lia. by rewrite Z.add_0_l. }
    unfold load_byte. eapply wp_lift; [exact E|].
    eapply wp_mono; [apply store_byte_ok; rewrite HI, decide_False by lia; by exists b'|]. intros ? ? ->. intros x.
    destruct (decide (x = dest + (0 + Z.of_nat k))) as [->|Hne].
    + rewrite lookup_insert_eq, decide_True by lia. replace (dest + (0 + Z.of_nat k) - dest) with (Z.of_nat k) by lia.
      rewrite Eb. f_equal. by apply wrap_small.
    + rewrite lookup_insert_ne by done. rewrite HI. repeat case_decide; try done; lia.
  - intros ? m' HI. split; [done|]. intros x. rewrite HI. repeat case_decide; try done; lia.
Qed.

(** ** Properties *)

(** C31: the string and memory functions. [strlen] is the number of characters
    before the terminator, [strcmp] the difference at the first character where
    the strings differ (the terminator counting as 0), so 0 exactly for equal
    strings, and neither reads past the terminator. [memset] writes the byte to
    exactly the range and [memcpy] copies the source as it was to exactly the
    destination range, provided the destination does not start inside the
    source; both return the destination. *)
Theorem string_h_correct :
  (forall a b ra rb, text a -> text b -> zlength a < 2 ^ 64 ->
    strlen (a ++ 0 :: ra) = Some (zlength a) /\ strcmp (a ++ 0 :: ra) (b ++ 0 :: rb) = Some (lex a b) /\
    (strcmp (a ++ 0 :: ra) (b ++ 0 :: rb) = Some 0 <-> a = b)) /\
  (forall m dest src c n, mapped m dest n -> mapped m src n -> ~ (src < dest < src + n) ->
    wp (memset dest c n) m (fun r m' => r = dest /\
      forall x, m' !! x = if decide (dest <= x < dest + n) then Some (u8 c) else m !! x) /\
    wp (memcpy dest src n) m (fun r m' => r = dest /\
      forall x, m' !! x = if decide (dest <= x < dest + n) then m !! (src + (x - dest)) else m !! x)).
Proof.
  split.
  - intros a b ra rb Ha Hb Hl. rewrite strlen_ok, strcmp_lex by done. split; [done|]. split; [done|].
    rewrite <- (lex_zero a b) by done. split; [by intros [= ->]|by intros ->].
  - intros m dest src c n Hd Hs Hov. split; [by apply memset_ok|by apply memcpy_ok].
Qed.

Definition sample_bytes : bytes := {[ 10 := 1; 11 := 2; 12 := 3; 13 := 4 ]}.

Lemma string_h_correct_witness :
  strcmp (cstr "foo") (cstr "fob") = Some 13 /\ strlen (cstr "foo") = Some 3 /\
  wp (memcpy 10 11 3) sample_bytes (fun _ m' => m' !! 12 = Some 4).
Proof.
  destruct string_h_correct as [Hstr Hmem].
  assert (forall i, 0 <= i < 4 -> exists b, sample_bytes !! (10 + i) = Some b /\ is_u8 b) as Hall.
  { intros i Hi. assert (i = 0 \/ i = 1 \/ i = 2 \/ i = 3) as [->|[->|[->| ->]]] by lia;
      (eexists; split; [vm_compute; reflexivity|split; vm_compute; congruence]). }
  destruct (Hstr (chars "foo") (chars "fob") [] []) as (H3 & H4 & _); [repeat constructor; discriminate..|vm_compute; reflexivity|].
  split; [exact H4|]. split; [exact H3|].
  eapply wp_mono; [apply (Hmem sample_bytes 10 11 0 3)|].
  - intros i Hi. apply Hall. lia.
  - intros i Hi. replace (11 + i) with (10 + (1 + i)) by lia. apply Hall. lia.
  - lia.
  - intros ? m' [_ Hm]. rewrite Hm, decide_True by lia. vm_compute. reflexivity.
Defined.
