(* ===== verification/Kmalloc.v ===== *)
(** * Kernel memory (mm/kmalloc.c)

    [kmalloc] asks the physical allocator for a block of the least order that
    holds the size and returns its address in the direct map. The state is the
    allocator's memory and the bytes the direct map reaches, which [kzalloc]
    clears. The theorems are proved from what the physical allocator promises
    (the lemmas [phys_alloc_cases] and [free_allocated] of PhysProofs). *)

From stdpp Require Import base strings numbers gmap list sets.
From Stdlib Require Import ZArith Lia.
From S2P Require Import Prelude Macros MmDefs Page ListDL Phys PhysProofs CString.

(** ** Data *)

Definition KMALLOC_KERNEL : Z := 1.
Definition KMALLOC_TYPE_MASK : Z := BIT_MASK_BELOW 10.

Record kernel_mem := mk_kmem { phys : phys_mem; mem : bytes }.

Abbreviation KM := (M kernel_mem).

Definition phys_op {A} (m : PM A) : KM A := zoom phys (fun p s => mk_kmem p (mem s)) m.

Definition bytes_op {A} (m : M bytes A) : KM A := zoom mem (fun b s => mk_kmem (phys s) b) m.

(** ** The code *)

(** The search for the order. *)
Fixpoint order_loop (fuel : nat) (order pages : Z) : KM Z :=
  match fuel with
  | O => hang
  | S fuel' =>
      if order <? MAX_ORDER then
        let order_pages := (1 << order)%u64 in
        if pages <=? order_pages then mret order else order_loop fuel' (order + 1) pages
      else panic "Impossible?"
  end.

Definition bytes_to_order (bytes : Z) : KM Z :=
  let pages := bytes_to_pages bytes in
  let max_pages := (1 << MAX_ORDER)%u64 in
  if max_pages <? pages then panic "Cannot allocate %lu bytes, exceeds maximum of %lu"
  else order_loop 13 0 pages.

Definition _kmalloc (order flags : Z) : KM Z :=
  alloc_flags ←
    (if Z.land flags KMALLOC_TYPE_MASK =? KMALLOC_KERNEL then mret (Z.lor ALLOC_KERNEL ALLOC_MOVABLE)
     else panic "Unrecognised kernel flag %d");
  pa ← phys_op (phys_alloc order alloc_flags);
  mret (phys_to_virt_ptr pa).

Definition kmalloc (size flags : Z) : KM Z :=
  order ← bytes_to_order size;
  _kmalloc order flags.

Definition kzalloc (size flags : Z) : KM Z :=
  ret ← kmalloc size flags;
  bytes_op (memset ret 0 size);;
  mret ret.

Definition kfree (ptr : Z) : KM unit :=
  let pa := virt_ptr_to_phys ptr in
  phys_op (phys_free pa).

(** ** Specification *)

(** The address of a frame in the direct map. *)
Definition frame_ptr (h : Z) : Z := KERNEL_DIRECT_MAP_BASE + h * 4096.

(** The order of a size: the least one whose block holds its pages. *)
Definition size_order (size : Z) : Z := Z.log2_up ((size + 4095) / 4096).

(** The spans end below the 64 TiB of the direct map. *)
Definition direct_mapped (sp : list phys_alloc_span) : Prop := forall p, span_of sp p <> -1 -> p < 2 ^ 34.

(** Every byte of every frame of the spans can be written. *)
Definition frames_mapped (m : bytes) (sp : list phys_alloc_span) : Prop :=
  forall p, span_of sp p <> -1 -> mapped m (frame_ptr p) 4096.

Definition KALLOC : Z := Z.lor ALLOC_KERNEL ALLOC_MOVABLE.

(** [size] bytes at [ptr] are one block of the allocator that was free. *)
Definition kmalloced (s : kernel_mem) (size ptr : Z) (p' : phys_mem) : Prop :=
  exists h t, ptr = frame_ptr h /\ 0 <= h < 2 ^ 34 /\ size <= 2 ^ size_order size * 4096 /\ flags_type KALLOC t /\
    free_run (phys s) (size_order size) h /\ alloc_post (phys s) h (size_order size) KALLOC t p'.

(** ** Lemmas *)

Lemma log2_up_le n o : 0 <= o -> Z.log2_up n <= o <-> n <= 2 ^ o.
Proof.
  intros Ho. destruct (decide (0 < n)); [symmetry; by apply Z.log2_up_le_pow2|].
  rewrite Z.log2_up_eqn0 by lia. pose proof (Z.pow_pos_nonneg 2 o). lia.
Qed.

Lemma order_loop_ok fuel o pages s :
  0 <= o <= Z.log2_up pages -> o <= MAX_ORDER -> o + Z.of_nat fuel = MAX_ORDER + 1 ->
  order_loop fuel o pages s = if Z.log2_up pages <? MAX_ORDER then Done (Z.log2_up pages) s else Panic "Impossible?".
Proof.
  revert o. induction fuel as [|fuel IH]; intros o Ho Hm Hf; [lia|]. cbn [order_loop].
  destruct (Z.ltb_spec o MAX_ORDER) as [Hlt|Hge]; [|by rewrite (proj2 (Z.ltb_ge _ _)) by lia].
  assert ((1 << o)%u64 = 2 ^ o) as -> by (apply (BIT_MASK_pow o); unfold MAX_ORDER in *; lia).
  destruct (Z.leb_spec pages (2 ^ o)) as [Hle|Hgt].
  - apply log2_up_le in Hle; [|lia]. assert (Z.log2_up pages = o) as -> by lia. by rewrite (proj2 (Z.ltb_lt _ _)) by lia.
  - apply IH; [|lia..]. assert (~ Z.log2_up pages <= o) by (rewrite log2_up_le; lia). lia.
Qed.

(** The pages of a size, rounded up. *)
Lemma pages_of size (pages := (size + 4095) / 4096) : 4096 * pages - 4095 <= size /\ size <= 4096 * pages.
Proof. pose proof (Z.div_mod (size + 4095) 4096). pose proof (Z.mod_pos_bound (size + 4095) 4096). unfold pages. lia. Qed.

Lemma bytes_to_order_pages size s (pages := (size + 4095) / 4096) :
  0 <= size <= 2 ^ 64 - 4096 ->
  bytes_to_order size s =
    if 4096 <? pages then Panic "Cannot allocate %lu bytes, exceeds maximum of %lu"
    else if Z.log2_up pages <? MAX_ORDER then Done (Z.log2_up pages) s else Panic "Impossible?".
Proof.
  intros Hs. unfold bytes_to_order. change (1 << MAX_ORDER)%u64 with 4096.
  rewrite bytes_to_pages_spec by lia. change (2 ^ 12) with 4096. replace (size + 4096 - 1) with (size + 4095) by lia. fold pages.
  destruct (Z.ltb_spec 4096 pages); [done|]. apply order_loop_ok; [split; [lia|apply Z.log2_up_nonneg]|unfold MAX_ORDER; lia|done].
Qed.

(** A size above 8 MiB, and no larger than the rounding leaves in range, is
    refused; one within a page of [2 ^ 64] wraps to no pages and gets order 0. *)
Lemma bytes_to_order_cases size s :
  is_u64 size ->
  match bytes_to_order size s with
  | Done o s' => s' = s /\ (size <= 2 ^ 23 /\ o = size_order size \/ 2 ^ 64 - 4096 < size /\ o = 0)
  | Panic _ => 2 ^ 23 < size <= 2 ^ 64 - 4096
  | _ => False
  end.
Proof.
  intros Hs. unfold is_u in Hs. destruct (decide (size <= 2 ^ 64 - 4096)) as [Hle|Hgt].
  - rewrite bytes_to_order_pages by lia. unfold size_order. destruct (pages_of size) as [H1 H2]. set (pages := (size + 4095) / 4096) in *.
    destruct (Z.ltb_spec 4096 pages); [simpl; lia|]. pose proof (log2_up_le pages 11 ltac:(lia)). unfold MAX_ORDER.
    destruct (Z.ltb_spec (Z.log2_up pages) 12); simpl in *; [split; [done|]; left; split; [lia|done]|lia].
  - unfold bytes_to_order. change (1 << MAX_ORDER)%u64 with 4096.
    assert (bytes_to_pages size = 0) as ->; [|simpl; split; [done|]; right; lia].
    unfold bytes_to_pages, ALIGN_UP. rewrite PAGE_SIZE_pow.
    assert ((size + 2 ^ 12 - 1)%u64 = size + 4095 - 2 ^ 64) as ->.
    { unfold sub64, add64, u64, wrap. rewrite Zminus_mod_idemp_l. symmetry. apply Z.mod_unique_pos with 1; lia. }
    rewrite ALIGN_pow by (unfold is_u; lia). rewrite Z.mod_small by lia. by rewrite Z.sub_diag.
Qed.

Lemma size_order_range size : 0 <= size <= 2 ^ 23 -> 0 <= size_order size < MAX_ORDER /\ size <= 2 ^ size_order size * 4096.
Proof.
  intros Hs. unfold size_order, MAX_ORDER. destruct (pages_of size) as [H1 H2]. set (pages := (size + 4095) / 4096) in *.
  pose proof (Z.log2_up_nonneg pages). pose proof (proj2 (log2_up_le pages 11 ltac:(lia)) ltac:(lia)).
  pose proof (proj1 (log2_up_le pages (Z.log2_up pages) ltac:(lia)) ltac:(lia)). lia.
Qed.

Lemma frame_ptr_ok h : 0 <= h < 2 ^ 34 -> phys_to_virt_ptr (pfn_to_phys h) = frame_ptr h /\ virt_ptr_to_phys (frame_ptr h) = pfn_to_phys h.
Proof.
  intros Hh. rewrite pfn_to_phys_mul by lia. assert (phys_to_virt (h * 4096) = frame_ptr h) as E.
  { unfold phys_to_virt, frame_ptr, KERNEL_DIRECT_MAP_BASE. apply add64_small. unfold is_u. lia. }
  split; [exact E|]. unfold virt_ptr_to_phys. rewrite <- E. apply virt_to_phys_of_phys.
  change (KERNEL_ELF_ADDRESS - KERNEL_DIRECT_MAP_BASE) with 0x400001000000. lia.
Qed.

Lemma _kmalloc_cases s o flags :
  phys_ok (phys s) -> direct_mapped (spans (phys s)) -> 0 <= o -> Z.land flags KMALLOC_TYPE_MASK = KMALLOC_KERNEL ->
  match _kmalloc o flags s with
  | Done ptr s' => exists h t, ptr = frame_ptr h /\ 0 <= h < 2 ^ 34 /\ flags_type KALLOC t /\ free_run (phys s) o h /\
      alloc_post (phys s) h o KALLOC t (phys s') /\ mem s' = mem s
  | Panic _ => MAX_ORDER < o \/ forall p, ~ free_run (phys s) o p
  | _ => False
  end.
Proof.
  intros Hok Hdm Ho Hf. unfold _kmalloc. rewrite Hf. change (KMALLOC_KERNEL =? KMALLOC_KERNEL) with true. cbv iota.
  pose proof (phys_alloc_cases (phys s) o KALLOC Hok Ho ltac:(vm_compute; split; discriminate)) as Hc.
  unfold mbind, M_bind, mret, M_ret, phys_op, zoom. fold KALLOC. destruct (phys_alloc o KALLOC (phys s)) as [pa p'| | |]; try done.
  destruct Hc as (_ & h & t & -> & Hh & Ht & Hrun & Hpost). assert (h < 2 ^ 34) as Hh'.
  { apply Hdm. destruct Hrun as [_ Hr]. destruct (Hr 0) as (_ & _ & Hm); [lia|done]. }
  exists h, t. split; [apply frame_ptr_ok; lia|]. split; [lia|]. by split_and!.
Qed.

(** The bytes of an allocation are bytes of its frames. *)
Lemma block_mapped m s o h size :
  frames_mapped m (spans s) -> free_run s o h -> size <= 2 ^ o * 4096 -> mapped m (frame_ptr h) size.
Proof.
  intros Hm [_ Hr] Hs i Hi. destruct (Hr (i / 4096)) as (_ & Hsp & Hne).
  { split; [apply Z.div_pos; lia|]. apply Z.div_lt_upper_bound; lia. }
  destruct (Hm (h + i / 4096) ltac:(by rewrite Hsp) (i mod 4096)) as (b & E & Hb); [apply Z.mod_pos_bound; lia|].
  exists b. split; [|done]. rewrite <- E. f_equal. unfold frame_ptr. pose proof (Z.div_mod i 4096). lia.
Qed.

Lemma kmalloc_cases s size flags :
  phys_ok (phys s) -> direct_mapped (spans (phys s)) -> Z.land flags KMALLOC_TYPE_MASK = KMALLOC_KERNEL -> 0 <= size <= 2 ^ 64 - 4096 ->
  match kmalloc size flags s with
  | Done ptr s' => size <= 2 ^ 23 /\ kmalloced s size ptr (phys s') /\ mem s' = mem s
  | Panic _ => 2 ^ 23 < size \/ forall p, ~ free_run (phys s) (size_order size) p
  | _ => False
  end.
Proof.
  intros Hok Hdm Hf Hs. unfold kmalloc, mbind, M_bind.
  pose proof (bytes_to_order_cases size s ltac:(unfold is_u; lia)) as Hb.
  destruct (bytes_to_order size s) as [o s'| | |]; try done; [|left; lia].
  destruct Hb as [-> [[Hle ->]|]]; [|lia]. destruct (size_order_range size) as [Ho Hsz]; [lia|].
  pose proof (_kmalloc_cases s (size_order size) flags Hok Hdm ltac:(lia) Hf) as Hk.
  destruct (_kmalloc (size_order size) flags s) as [ptr s''| | |]; try done; [|right; destruct Hk; [lia|done]].
  destruct Hk as (h & t & -> & Hh & Ht & Hrun & Hpost & Hm). split; [done|]. split; [|done]. by exists h, t.
Qed.

Lemma kfree_ok s size ptr s' :
  0 <= size <= 2 ^ 23 -> kmalloced s size ptr (phys s') ->
  wp (kfree ptr) s' (fun _ s2 => phys_ok (phys s2) /\ mem s2 = mem s' /\
    forall p, span_of (spans (phys s)) p <> -1 -> page_status (blocks (phys s2)) p = page_status (blocks (phys s)) p).
Proof.
  intros Hs (h & t & -> & Hh & _ & _ & Hrun & Hpost). destruct (size_order_range size Hs) as [Ho _].
  unfold kfree. rewrite (proj2 (frame_ptr_ok h Hh)).
  destruct (wp_done _ _ _ (free_allocated _ _ _ _ _ _ (proj1 Ho) Hrun Hpost)) as ([] & p2 & E & Hok & Hst).
  unfold wp, phys_op, zoom. rewrite E. by split; [|split].
Qed.

Lemma kzalloc_cases s size flags :
  phys_ok (phys s) -> direct_mapped (spans (phys s)) -> frames_mapped (mem s) (spans (phys s)) ->
  Z.land flags KMALLOC_TYPE_MASK = KMALLOC_KERNEL -> 0 <= size <= 2 ^ 64 - 4096 ->
  match kmalloc size flags s with
  | Done ptr s' => size <= 2 ^ 23 /\ kmalloced s size ptr (phys s') /\ mem s' = mem s /\
      wp (kzalloc size flags) s (fun ptr' s2 => ptr' = ptr /\ phys s2 = phys s' /\
        forall x, mem s2 !! x = if decide (ptr <= x < ptr + size) then Some 0 else mem s !! x)
  | Panic _ => 2 ^ 23 < size \/ forall p, ~ free_run (phys s) (size_order size) p
  | _ => False
  end.
Proof.
  intros Hok Hdm Hm Hf Hs. pose proof (kmalloc_cases s size flags Hok Hdm Hf Hs) as Hk. unfold kzalloc, wp, mbind, M_bind.
  destruct (kmalloc size flags s) as [ptr s'| | |]; try done. destruct Hk as (Hle & Hkm & Emem). split; [done|]. split; [done|]. split; [done|].
  destruct Hkm as (h & t & -> & _ & Hsz & _ & Hrun & _).
  pose proof (block_mapped (mem s) (phys s) _ h size Hm Hrun Hsz) as Hmap. rewrite <- Emem in Hmap.
  destruct (wp_done _ _ _ (memset_ok (mem s') (frame_ptr h) 0 size Hmap)) as (r & m' & E & -> & Hx).
  unfold bytes_op, zoom. rewrite E. simpl. split; [done|]. split; [done|]. intros x. rewrite Hx, Emem. done.
Qed.

(** ** Properties *)

(** C14: [kmalloc] of up to 8 MiB returns the direct-map address of an aligned
    block that was free, of the least order that holds the size, and marks it
    as kernel memory, and [kzalloc] moreover zeroes exactly [size] bytes there;
    they panic exactly for a size above 8 MiB (half the largest block, which
    [bytes_to_order] never asks for) or when no such block is free. *)
Theorem kmalloc_correct s size flags :
  phys_ok (phys s) -> direct_mapped (spans (phys s)) -> frames_mapped (mem s) (spans (phys s)) ->
  Z.land flags KMALLOC_TYPE_MASK = KMALLOC_KERNEL -> 0 <= size <= 2 ^ 64 - 4096 ->
  match kmalloc size flags s with
  | Done ptr s' => size <= 2 ^ 23 /\ kmalloced s size ptr (phys s') /\ mem s' = mem s /\
      wp (kzalloc size flags) s (fun ptr' s2 => ptr' = ptr /\ phys s2 = phys s' /\
        forall x, mem s2 !! x = if decide (ptr <= x < ptr + size) then Some 0 else mem s !! x)
  | Panic _ => 2 ^ 23 < size \/ forall p, ~ free_run (phys s) (size_order size) p
  | _ => False
  end.
Proof. apply kzalloc_cases. Qed.

(** A memory with the sample allocator of PhysProofs and 32 KiB of bytes. *)
Definition sample_mem : bytes := gset_to_gmap 7 (list_to_set (seqZ (frame_ptr 16) 32768)).

Definition sample_kmem : kernel_mem := mk_kmem sample_phys sample_mem.

Lemma sample_span p : span_of (spans (phys sample_kmem)) p <> -1 -> 16 <= p < 24.
Proof.
  change (phys sample_kmem) with sample_phys. assert (spans sample_phys = [mk_phys_span 16 8]) as -> by by vm_compute.
  unfold span_of. cbn [pfn_to_span_in start_pfn num_pages]. change (16 + 8)%u64 with 24.
  destruct (Z.leb_spec 16 p), (Z.ltb_spec p 24); simpl; lia.
Qed.

Lemma sample_direct : direct_mapped (spans (phys sample_kmem)).
Proof. intros p Hp%sample_span. lia. Qed.

Lemma sample_mapped : frames_mapped (mem sample_kmem) (spans (phys sample_kmem)).
Proof.
  intros p Hp%sample_span i Hi. exists 7. split; [|split; lia]. apply lookup_gset_to_gmap_Some. split; [|done].
  apply elem_of_list_to_set, elem_of_seqZ. unfold frame_ptr. lia.
Qed.

Lemma sample_kmalloc m : exists p', kmalloc 5000 KMALLOC_KERNEL (mk_kmem sample_phys m) = Done (frame_ptr 22) (mk_kmem p' m).
Proof. destruct (phys_alloc 1 KALLOC sample_phys) as [pa p'| | |] eqn:E; vm_compute in E; [|discriminate E..]. eexists. vm_compute. reflexivity. Qed.

Lemma kmalloc_correct_witness :
  phys_ok (phys sample_kmem) /\ size_order 5000 = 1 /\
  exists ptr s', kmalloc 5000 KMALLOC_KERNEL sample_kmem = Done ptr s' /\ ptr = frame_ptr 22 /\
    wp (kzalloc 5000 KMALLOC_KERNEL) sample_kmem (fun _ s2 => mem s2 !! (ptr + 4999) = Some 0).
Proof.
  split; [apply sample_phys_ok|]. split; [reflexivity|]. destruct (sample_kmalloc sample_mem) as [p' E]. fold sample_kmem in E.
  pose proof (kmalloc_correct sample_kmem 5000 KMALLOC_KERNEL sample_phys_ok sample_direct sample_mapped eq_refl ltac:(lia)) as H.
  rewrite E in H. destruct H as (_ & _ & _ & H).
  exists (frame_ptr 22), (mk_kmem p' sample_mem). split; [exact E|]. split; [reflexivity|].
  eapply wp_mono; [exact H|]. cbv beta. intros ? s2 (_ & _ & Hx). rewrite Hx, decide_True by lia. reflexivity.
Defined.

(** C25: [kfree] of what [kmalloc] returned gives back every page: all have the
    status they had before the allocation, and no byte changes. *)
Theorem kmalloc_kfree_roundtrip s size flags ptr s1 :
  phys_ok (phys s) -> direct_mapped (spans (phys s)) -> Z.land flags KMALLOC_TYPE_MASK = KMALLOC_KERNEL -> 0 <= size <= 2 ^ 64 - 4096 ->
  kmalloc size flags s = Done ptr s1 ->
  wp (kfree ptr) s1 (fun _ s2 => phys_ok (phys s2) /\ mem s2 = mem s1 /\
    forall p, span_of (spans (phys s)) p <> -1 -> page_status (blocks (phys s2)) p = page_status (blocks (phys s)) p).
Proof.
  intros Hok Hdm Hf Hs E. pose proof (kmalloc_cases s size flags Hok Hdm Hf Hs) as Hk. rewrite E in Hk.
  destruct Hk as (Hle & Hkm & _). eapply kfree_ok; [split; [apply Hs|exact Hle]|exact Hkm].
Qed.

Lemma kmalloc_kfree_roundtrip_witness :
  exists ptr s1, kmalloc 5000 KMALLOC_KERNEL sample_kmem = Done ptr s1 /\ ptr = frame_ptr 22 /\
    wp (kfree ptr) s1 (fun _ s2 => page_status (blocks (phys s2)) 22 = Some Free).
Proof.
  destruct (sample_kmalloc sample_mem) as [p' E]. fold sample_kmem in E.
  exists (frame_ptr 22), (mk_kmem p' sample_mem). split; [exact E|]. split; [reflexivity|].
  eapply wp_mono; [apply (kmalloc_kfree_roundtrip sample_kmem 5000 KMALLOC_KERNEL _ _ sample_phys_ok sample_direct eq_refl ltac:(lia) E)|].
  cbv beta. intros ? s2 (_ & _ & Hp). change (phys sample_kmem) with sample_phys in Hp. rewrite Hp; vm_compute; congruence.
Defined.

(** C29: the limits of [kmalloc]. Between half the largest block and the largest
    block it panics with the message for the impossible, above it with the
    message for a size that is too large, and within a page of [2 ^ 64] the
    rounding wraps and it allocates a single page. *)
Theorem kmalloc_limits size flags s :
  (2 ^ 23 < size <= 2 ^ 24 -> kmalloc size flags s = Panic "Impossible?") /\
  (2 ^ 24 < size <= 2 ^ 64 - 4096 -> kmalloc size flags s = Panic "Cannot allocate %lu bytes, exceeds maximum of %lu") /\
  (2 ^ 64 - 4096 < size < 2 ^ 64 -> kmalloc size flags s = _kmalloc 0 flags s).
Proof.
  unfold kmalloc, mbind, M_bind. split; [|split]; intros Hs.
  - rewrite bytes_to_order_pages by lia. set (pages := (size + 4095) / 4096).
    destruct (pages_of size) as [H1 H2]. fold pages in H1, H2. rewrite (proj2 (Z.ltb_ge _ _)) by lia.
    pose proof (log2_up_le pages 11 ltac:(lia)). rewrite (proj2 (Z.ltb_ge _ _)); [done|]. unfold MAX_ORDER. simpl in *. lia.
  - rewrite bytes_to_order_pages by lia. destruct (pages_of size) as [H1 H2]. by rewrite (proj2 (Z.ltb_lt _ _)) by lia.
  - pose proof (bytes_to_order_cases size s ltac:(unfold is_u; lia)) as Hb.
    destruct (bytes_to_order size s) as [o s'| | |]; try lia; try done. by destruct Hb as [-> [?| [_ ->]]]; [lia|].
Qed.

Lemma kmalloc_limits_witness : kmalloc (2 ^ 64 - 1) KMALLOC_KERNEL sample_kmem = _kmalloc 0 KMALLOC_KERNEL sample_kmem.
Proof. apply (kmalloc_limits (2 ^ 64 - 1) KMALLOC_KERNEL sample_kmem). lia. Defined.
