(* ===== verification/Format.v ===== *)
(** * Formatted output (lib/format.c)

    [vsnprintf] runs on the contents of the buffer it is given, an array of
    [char] values; an access outside it is [Undef]. The format is the list of
    characters its pointer reaches, terminator included, and the variadic
    arguments are a list; [va_arg] of the wrong kind, or of none, is [Undef].

    The reference the code is compared with starts from the other end: a format
    is a list of [item]s, literal characters and conversions, [print_items] is
    the format string that denotes it, and [render] the text it stands for. *)

From stdpp Require Import base strings numbers gmap list.
From Stdlib Require Import ZArith Lia Ascii.
From S2P Require Import Prelude CString.

(** ** Data *)

Definition UINT64_MAX_CHARS : Z := 20.

(** A character literal. *)
Definition chr (s : string) : Z := hd 0 (chars s).

Definition digits : list Z := chars "0123456789abcdef".

Record vsnprintf_state := mk_vs { buf : list Z; n : Z; count : Z }.

Record vsnprintf_format := mk_format {
  base : Z;
  neg : bool;
  pad_char : Z;
  pad_count : Z;
  pad_left : bool;
}.

Inductive va := VaInt (v : Z) | VaStr (str : list Z).

Abbreviation VM := (M vsnprintf_state).

(** ** The code *)

Definition _vsnprintf_putc (c : Z) : VM unit := fun state =>
  match (if count state <? (n state - 1)%u64 then zstore (buf state) (count state) c else Some (buf state)) with
  | Some b => Done tt (mk_vs b (n state) (count state + 1)%u64)
  | None => Undef
  end.

Definition _vsnprintf_putc_repeat (c k : Z) : VM unit :=
  for_loop (Z.to_nat k) 0 (fun _ => _vsnprintf_putc c).

Fixpoint _vsnprintf_puts (str : list Z) : VM unit :=
  match str with
  | [] => undef
  | c :: str' => if c =? 0 then mret tt else _vsnprintf_putc c;; _vsnprintf_puts str'
  end.

Definition _vsnprintf_puts_format (str : list Z) (format : vsnprintf_format) : VM unit :=
  when (pad_left format) (_vsnprintf_puts str);;
  len ← lift (strlen str);
  when (i32 len <? pad_count format) (_vsnprintf_putc_repeat (chr " ") (i32 (pad_count format - len)));;
  when (negb (pad_left format)) (_vsnprintf_puts str).

(** The loop that writes the digits from the right, with the index it leaves. *)
Fixpoint digit_loop (fuel : nat) (b val i : Z) (val_buf : list Z) : VM (Z * list Z) :=
  match fuel with
  | O => hang
  | S fuel' =>
      if 0 <? val then
        d ← lift (zlookup digits (val mod b));
        val_buf' ← lift (zstore val_buf i d);
        digit_loop fuel' b (val / b) (i - 1) val_buf'
      else mret (i, val_buf)
  end.

(** The characters of [val_buf] from index [i]. *)
Definition from_index (i : Z) (val_buf : list Z) : list Z := drop (Z.to_nat i) val_buf.

(** The local array [val_buf] is not initialised by the code; its contents
    before the first write are never printed. *)
Definition _vsnprintf_uint64 (val : Z) (format : vsnprintf_format) : VM unit :=
  let i := UINT64_MAX_CHARS - 1 in
  let val_buf := replicate (Z.to_nat (UINT64_MAX_CHARS + 1)) 0 in
  '(i, val_buf) ←
    (if val =? 0 then
       val_buf ← lift (zstore val_buf (UINT64_MAX_CHARS - 1) (chr "0"));
       mret (i - 1, val_buf)
     else mret (i, val_buf));
  '(i, val_buf) ← digit_loop 65 (base format) val i val_buf;
  val_buf ← lift (zstore val_buf UINT64_MAX_CHARS 0);
  '(i, val_buf, pad_count') ←
    (if neg format && (pad_char format =? chr "0") then
       _vsnprintf_putc (chr "-");;
       mret (i, val_buf, i32 (pad_count format - 1))
     else if neg format then
       val_buf ← lift (zstore val_buf i (chr "-"));
       mret (i - 1, val_buf, pad_count format)
     else mret (i, val_buf, pad_count format));
  when (pad_left format) (_vsnprintf_puts (from_index (i + 1) val_buf));;
  let chars_output := UINT64_MAX_CHARS - i - 1 in
  when (chars_output <? pad_count') (_vsnprintf_putc_repeat (pad_char format) (pad_count' - chars_output));;
  when (negb (pad_left format)) (_vsnprintf_puts (from_index (i + 1) val_buf)).

Definition _vsnprintf_int64 (val : Z) (format : vsnprintf_format) : VM unit :=
  if val <? 0 then
    _vsnprintf_uint64 (u64 (- val)) (mk_format (base format) true (pad_char format) (pad_count format) (pad_left format))
  else _vsnprintf_uint64 (u64 val) format.

(** [*fmt++]. *)
Definition next (fmt : list Z) : option (Z * list Z) :=
  match fmt with
  | c :: fmt' => Some (c, fmt')
  | [] => None
  end.

(** The digits of the width. *)
Fixpoint width_loop (c : Z) (fmt : list Z) (width : Z) : option (Z * Z * list Z) :=
  if (chr "0" <=? c) && (c <=? chr "9") then
    match fmt with
    | c' :: fmt' => width_loop c' fmt' (i32 (i32 (width * 10) + (c - chr "0")))
    | [] => None
    end
  else Some (width, c, fmt).

(** From the character after the [%] to the conversion character: the format,
    [is64], that character and the rest. *)
Definition parse_format (fmt : list Z) : option (vsnprintf_format * bool * Z * list Z) :=
  '(c, fmt) ← next fmt;
  '(pad_left', c, fmt) ←
    (if c =? chr "-" then '(c, fmt) ← next fmt; Some (true, c, fmt) else Some (false, c, fmt));
  '(pad_char', c, fmt) ←
    (if negb pad_left' && ((c =? chr "0") || (c =? chr " ")) then
       '(c', fmt) ← next fmt; Some (c, c', fmt)
     else Some (chr " ", c, fmt));
  '(width, c, fmt) ← width_loop c fmt 0;
  '(is64, c, fmt) ←
    (if (c =? chr "l") || (c =? chr "L") then '(c, fmt) ← next fmt; Some (true, c, fmt) else Some (false, c, fmt));
  Some (mk_format 10 false pad_char' width pad_left', is64, c, fmt).

Definition with_base16 (f : vsnprintf_format) : vsnprintf_format :=
  mk_format 16 (neg f) (pad_char f) (pad_count f) (pad_left f).

Definition va_int (ap : list va) : VM (Z * list va) :=
  match ap with
  | VaInt v :: ap' => mret (v, ap')
  | _ => undef
  end.

Definition va_str (ap : list va) : VM (list Z * list va) :=
  match ap with
  | VaStr s :: ap' => mret (s, ap')
  | _ => undef
  end.

(** The [switch] on the conversion character; the arguments that remain. *)
Definition convert (format : vsnprintf_format) (is64 : bool) (c : Z) (ap : list va) : VM (list va) :=
  if (c =? chr "D") || (c =? chr "d") then
    '(v, ap) ← va_int ap;
    _vsnprintf_int64 (if is64 then i64 v else i32 v) format;;
    mret ap
  else if (c =? chr "U") || (c =? chr "u") then
    '(v, ap) ← va_int ap;
    _vsnprintf_uint64 (if is64 then u64 v else u32 v) format;;
    mret ap
  else if (c =? chr "P") || (c =? chr "p") || (c =? chr "X") || (c =? chr "x") then
    let is64 := is64 || (c =? chr "P") || (c =? chr "p") in
    '(v, ap) ← va_int ap;
    _vsnprintf_uint64 (if is64 then u64 v else u32 v) (with_base16 format);;
    mret ap
  else if (c =? chr "S") || (c =? chr "s") then
    '(s, ap) ← va_str ap;
    _vsnprintf_puts_format s format;;
    mret ap
  else if c =? chr "%" then
    _vsnprintf_putc (chr "%");;
    mret ap
  else
    _vsnprintf_puts (cstr "%format error%");;
    mret ap.

(** Every iteration consumes a character of the format. *)
Fixpoint vsnprintf_loop (fuel : nat) (fmt : list Z) (ap : list va) : VM unit :=
  match fuel with
  | O => hang
  | S fuel' =>
      '(c, fmt) ← lift (next fmt);
      if c =? 0 then mret tt
      else if negb (c =? chr "%") then
        _vsnprintf_putc c;;
        vsnprintf_loop fuel' fmt ap
      else
        '(format, is64, c, fmt) ← lift (parse_format fmt);
        if c =? 0 then mret tt
        else
          ap ← convert format is64 c ap;
          vsnprintf_loop fuel' fmt ap
  end.

(** On the contents of the buffer; the result is the number of characters. *)
Definition vsnprintf (size : Z) (fmt : list Z) (ap : list va) : M (list Z) Z := fun b =>
  if size =? 0 then Done 0 b
  else
    match vsnprintf_loop (S (length fmt)) fmt ap (mk_vs b size 0) with
    | Done _ state =>
        let offset := if count state <? (n state - 1)%u64 then count state else (n state - 1)%u64 in
        match zstore (buf state) offset 0 with
        | Some b' => Done (i32 (count state)) b'
        | None => Undef
        end
    | Panic msg => Panic msg
    | Hang => Hang
    | Undef => Undef
    end.

Definition snprintf (size : Z) (fmt : list Z) (args : list va) : M (list Z) Z := vsnprintf size fmt args.

Definition units : list string := ["bytes"; "KiB"; "MiB"; "GiB"; "TiB"].

(** The search for the unit: the index, its size and the number of units. *)
Fixpoint unit_loop (fuel : nat) (i num_units unit_mult : Z) : Z * Z * Z :=
  match fuel with
  | O => (0, unit_mult, num_units)
  | S fuel' =>
      if num_units <? 1024 then (i, unit_mult, num_units)
      else unit_loop fuel' (i + 1) (num_units / 1024) (unit_mult * 1024)%u64
  end.

Definition bytes_to_human (bytes buf_size : Z) : M (list Z) unit :=
  let '(unit_index, unit_mult, num_units) := unit_loop (length units) 0 bytes 1 in
  unit ← lift (zlookup units unit_index);
  if (unit_index <? 3) || (bytes mod unit_mult =? 0) then
    snprintf buf_size (cstr "%5lu %s") [VaInt num_units; VaStr (cstr unit)];;
    mret tt
  else
    let remaining := (bytes - num_units * unit_mult)%u64 in
    let remaining := (remaining * 1024)%u64 in
    let remaining := remaining / unit_mult in
    let fract := if 1000 <=? remaining then 9 else remaining / 100 in
    snprintf buf_size (cstr "%3lu.%lu %s") [VaInt num_units; VaInt fract; VaStr (cstr unit)];;
    mret tt.

(** ** Reference *)

(** The numeral of a number, most significant digit first. *)
Fixpoint pos_text (fuel : nat) (b v : Z) : list Z :=
  match fuel with
  | O => []
  | S fuel' => if v =? 0 then [] else pos_text fuel' b (v / b) ++ [default 0 (zlookup digits (v mod b))]
  end.

Definition num_text (b v : Z) : list Z := if v =? 0 then [chr "0"] else pos_text 64 b v.

(** The value of a numeral. *)
Definition digit_val (c : Z) : Z := if c <=? chr "9" then c - chr "0" else c - chr "a" + 10.

Definition num_val (b : Z) (l : list Z) : Z := fold_left (fun v c => v * b + digit_val c) l 0.

(** [l] in a field of width [w]. *)
Definition pad (w : Z) (left : bool) (c : Z) (l : list Z) : list Z :=
  let fill := replicate (Z.to_nat (w - zlength l)) c in
  if left then l ++ fill else fill ++ l.
Arguments pad : simpl never.

Definition signed_field (w : Z) (left : bool) (c b v : Z) : list Z :=
  if v <? 0 then
    if c =? chr "0" then chr "-" :: pad (w - 1) left c (num_text b (- v))
    else pad w left c (chr "-" :: num_text b (- v))
  else pad w left c (num_text b v).

(** A conversion: flags, width, length and the conversion character. *)
Record conv := mk_conv { c_left : bool; c_flag : option Z; c_width : Z; c_long : bool; c_char : Z }.

Inductive item := Lit (c : Z) | Conv (c : conv).

Definition print_conv (c : conv) : list Z :=
  chr "%" :: (if c_left c then [chr "-"] else match c_flag c with Some f => [f] | None => [] end) ++
  (if c_width c =? 0 then [] else num_text 10 (c_width c)) ++ (if c_long c then [chr "l"] else []) ++ [c_char c].

Definition print_item (i : item) : list Z :=
  match i with
  | Lit c => [c]
  | Conv c => print_conv c
  end.

Definition print_items (l : list item) : list Z := concat (print_item <$> l).

Definition conv_pad (c : conv) : Z := default (chr " ") (c_flag c).

(** The text of a string argument: what precedes its terminator. *)
Fixpoint str_text (s : list Z) : option (list Z) :=
  match s with
  | [] => None
  | c :: s' => if c =? 0 then Some [] else t ← str_text s'; Some (c :: t)
  end.

Lemma str_text_app t r : text t -> str_text (t ++ 0 :: r) = Some t.
Proof.
  induction t as [|c t IH]; intros Ht; [done|]. apply Forall_cons in Ht as [Hc Ht]. simpl. rewrite (proj2 (Z.eqb_neq _ _) Hc), IH by done. done.
Qed.

(** The text of a conversion and the arguments that remain. *)
Definition render_conv (c : conv) (args : list va) : option (list Z * list va) :=
  let k := c_char c in
  if (k =? chr "D") || (k =? chr "d") then
    match args with
    | VaInt v :: args' => Some (signed_field (c_width c) (c_left c) (conv_pad c) 10 (if c_long c then i64 v else i32 v), args')
    | _ => None
    end
  else if (k =? chr "U") || (k =? chr "u") then
    match args with
    | VaInt v :: args' => Some (pad (c_width c) (c_left c) (conv_pad c) (num_text 10 (if c_long c then u64 v else u32 v)), args')
    | _ => None
    end
  else if (k =? chr "X") || (k =? chr "x") then
    match args with
    | VaInt v :: args' => Some (pad (c_width c) (c_left c) (conv_pad c) (num_text 16 (if c_long c then u64 v else u32 v)), args')
    | _ => None
    end
  else if (k =? chr "P") || (k =? chr "p") then
    match args with
    | VaInt v :: args' => Some (pad (c_width c) (c_left c) (conv_pad c) (num_text 16 (u64 v)), args')
    | _ => None
    end
  else if (k =? chr "S") || (k =? chr "s") then
    match args with
    | VaStr s :: args' => t ← str_text s; Some (pad (c_width c) (c_left c) (chr " ") t, args')
    | _ => None
    end
  else if k =? chr "%" then Some ([chr "%"], args)
  else Some (chars "%format error%", args).

Fixpoint render (l : list item) (args : list va) : option (list Z) :=
  match l with
  | [] => Some []
  | Lit c :: l' => r ← render l' args; Some (c :: r)
  | Conv c :: l' =>
      '(t, args') ← render_conv c args;
      r ← render l' args';
      Some (t ++ r)
  end.

(** Conversions that denote themselves: a field width that fits an [int], at
    most one of the pad flags, and a conversion character that is neither a
    flag, a digit, a length nor the terminator. *)
Definition conv_ok (c : conv) : Prop :=
  0 <= c_width c < 2 ^ 31 /\
  (if c_left c then c_flag c = None else c_flag c = None \/ c_flag c = Some (chr "0") \/ c_flag c = Some (chr " ")) /\
  c_char c <> 0 /\ c_char c <> chr "-" /\ c_char c <> chr " " /\ c_char c <> chr "l" /\ c_char c <> chr "L" /\
  ~ (chr "0" <= c_char c <= chr "9").

Definition item_ok (i : item) : Prop :=
  match i with
  | Lit c => c <> 0 /\ c <> chr "%"
  | Conv c => conv_ok c
  end.

(** Concrete formats. *)
Ltac items_ok :=
  clear; repeat constructor; simpl; try lia; try (by right; left); try (intros [? ?]); try discriminate; vm_compute in *; congruence.

Definition va_ok (a : va) : Prop :=
  match a with
  | VaInt _ => True
  | VaStr s => exists t r, s = t ++ 0 :: r /\ text t /\ zlength t < 2 ^ 31
  end.

(** The buffer [b] of [size] characters after the text [t] was output to it:
    what fits, and what was there after it. *)
Definition place (size : Z) (t b : list Z) : list Z :=
  let m := Z.to_nat (Z.min (size - 1) (zlength t)) in
  take m t ++ drop m b.

(** With the terminator. *)
Definition place_string (size : Z) (t b : list Z) : list Z :=
  let m := Z.to_nat (Z.min (size - 1) (zlength t)) in
  take m t ++ 0 :: drop (S m) b.

(** ** Lemmas on placing text in the buffer *)

Definition shown (b : list Z) (sz : Z) (t : list Z) : vsnprintf_state := mk_vs (place sz t b) sz (zlength t).

Lemma place_snoc_fits sz t b c x :
  zlength t < sz - 1 -> b !! length t = Some x -> zstore (place sz t b) (zlength t) c = Some (place sz (t ++ [c]) b).
Proof.
  intros Hlt Hx. unfold place, zlength in *. rewrite length_app. simpl.
  replace (Z.to_nat (Z.min (sz - 1) (Z.of_nat (length t)))) with (length t) by lia.
  replace (Z.to_nat (Z.min (sz - 1) (Z.of_nat (length t + 1)))) with (length (t ++ [c])) by (rewrite length_app; simpl; lia).
  rewrite !firstn_all. rewrite (drop_S b x (length t)) by done. rewrite zstore_middle by done.
  rewrite length_app, <- app_assoc. simpl. by rewrite Nat.add_1_r.
Qed.

Lemma place_snoc_full sz t b c : sz - 1 <= zlength t -> place sz (t ++ [c]) b = place sz t b.
Proof.
  intros Hge. unfold place, zlength in *. rewrite length_app. simpl.
  replace (Z.to_nat (Z.min (sz - 1) (Z.of_nat (length t + 1)))) with (Z.to_nat (sz - 1)) by lia.
  replace (Z.to_nat (Z.min (sz - 1) (Z.of_nat (length t)))) with (Z.to_nat (sz - 1)) by lia.
  by rewrite take_app_le by lia.
Qed.

(** [m] outputs the text [t] and returns [a], whatever was output before. *)
Definition outputs {A} (m : VM A) (a : A) (t : list Z) : Prop :=
  forall b sz t0, 1 <= sz <= zlength b -> sz < 2 ^ 64 -> zlength t0 + zlength t < 2 ^ 31 ->
    m (shown b sz t0) = Done a (shown b sz (t0 ++ t)).

Lemma zlength_cons {A} (x : A) l : zlength (x :: l) = 1 + zlength l.
Proof. unfold zlength. simpl. lia. Qed.

Lemma outputs_ret {A} (a : A) : outputs (mret a) a [].
Proof. intros b sz t0 _ _ _. by rewrite app_nil_r. Qed.

Lemma outputs_bind {A B} (m : VM A) (k : A -> VM B) a c t1 t2 :
  outputs m a t1 -> outputs (k a) c t2 -> outputs (m ≫= k) c (t1 ++ t2).
Proof.
  intros Hm Hk b sz t0 Hsz Hsz' Hlen. rewrite zlength_app in Hlen. pose proof (zlength_nonneg t2).
  unfold mbind, M_bind. rewrite Hm by (done || lia). rewrite Hk; [by rewrite app_assoc|done|done|rewrite zlength_app; lia].
Qed.

Lemma outputs_lift {A} (o : option A) a : o = Some a -> outputs (lift o) a [].
Proof. intros ->. apply outputs_ret. Qed.

Lemma outputs_when (c : bool) m t : (c = true -> outputs m tt t) -> outputs (when c m) tt (if c then t else []).
Proof. destruct c; simpl; intros H; [by apply H|apply outputs_ret]. Qed.

Lemma outputs_eq {A} (m : VM A) a t t' : outputs m a t -> t = t' -> outputs m a t'.
Proof. by intros H ->. Qed.

Lemma outputs_putc c : outputs (_vsnprintf_putc c) tt [c].
Proof.
  intros b sz t0 Hsz Hsz' Hlen. rewrite zlength_cons in Hlen. pose proof (zlength_nonneg t0).
  change (zlength []) with 0 in Hlen. unfold _vsnprintf_putc, shown. cbn [buf n count].
  rewrite sub64_small by (unfold is_u; lia). rewrite add64_small by (unfold is_u; lia). rewrite zlength_app.
  destruct (Z.ltb_spec (zlength t0) (sz - 1)) as [Hlt|Hge].
  - destruct (lookup_lt_is_Some_2 b (length t0)) as [x Hx]; [unfold zlength in *; lia|]. by rewrite (place_snoc_fits sz t0 b c x).
  - by rewrite place_snoc_full.
Qed.

Lemma outputs_puts t r : text t -> outputs (_vsnprintf_puts (t ++ 0 :: r)) tt t.
Proof.
  induction t as [|c t IH]; intros Ht; simpl; [apply outputs_ret|].
  apply Forall_cons in Ht as [Hc Ht]. rewrite (proj2 (Z.eqb_neq _ _) Hc).
  apply (outputs_bind (_vsnprintf_putc c) (fun _ => _vsnprintf_puts (t ++ 0 :: r)) tt tt [c] t); [apply outputs_putc|by apply IH].
Qed.

Lemma outputs_repeat c k : outputs (_vsnprintf_putc_repeat c k) tt (replicate (Z.to_nat k) c).
Proof.
  unfold _vsnprintf_putc_repeat. generalize 0. induction (Z.to_nat k) as [|m IH]; intros i; simpl; [apply outputs_ret|].
  apply (outputs_bind (_vsnprintf_putc c) _ tt tt [c] (replicate m c)); [apply outputs_putc|apply IH].
Qed.

(** ** Numerals *)

Lemma digit_char d : 0 <= d < 16 -> exists c, zlookup digits d = Some c /\ c <> 0 /\ digit_val c = d.
Proof.
  intros Hd. assert (Forall (fun d => exists c, zlookup digits d = Some c /\ c <> 0 /\ digit_val c = d) (seqZ 0 16)) as HF.
  { repeat (constructor; [eexists; split; [vm_compute; reflexivity|split; vm_compute; [discriminate|reflexivity]]|]). constructor. }
  apply (proj1 (Forall_forall _ _) HF). apply elem_of_seqZ. lia.
Qed.

Lemma pos_text_text fuel b v : 2 <= b <= 16 -> 0 <= v -> text (pos_text fuel b v).
Proof.
  intros Hb. revert v. induction fuel as [|fuel IH]; intros v Hv; simpl; [constructor|].
  destruct (v =? 0); [constructor|]. apply Forall_app. split; [apply IH, Z.div_pos; lia|].
  destruct (digit_char (v mod b)) as (c & -> & Hc & _); [pose proof (Z.mod_pos_bound v b); lia|]. by repeat constructor.
Qed.

Lemma num_text_text b v : 2 <= b <= 16 -> 0 <= v -> text (num_text b v).
Proof. intros. unfold num_text. case_match; [by repeat constructor|by apply pos_text_text]. Qed.

Lemma pos_text_length fuel b v k : 2 <= b -> 0 <= v < b ^ Z.of_nat k -> (length (pos_text fuel b v) <= k)%nat.
Proof.
  intros Hb. revert v k. induction fuel as [|fuel IH]; intros v k Hv; simpl; [lia|].
  destruct (Z.eqb_spec v 0); simpl; [lia|]. destruct k as [|k]; [simpl in Hv; lia|].
  rewrite length_app. simpl. rewrite Nat.add_1_r. apply le_n_S, IH. rewrite Nat2Z.inj_succ, Z.pow_succ_r in Hv by lia.
  split; [apply Z.div_pos; lia|]. apply Z.div_lt_upper_bound; lia.
Qed.

Lemma num_val_snoc b l c : num_val b (l ++ [c]) = num_val b l * b + digit_val c.
Proof. unfold num_val. by rewrite fold_left_app. Qed.

Lemma pos_text_val fuel b v : 2 <= b <= 16 -> 0 <= v < 2 ^ Z.of_nat fuel -> num_val b (pos_text fuel b v) = v.
Proof.
  intros Hb. revert v. induction fuel as [|fuel IH]; intros v Hv; [simpl in *; unfold num_val; simpl; lia|]. cbn [pos_text].
  destruct (Z.eqb_spec v 0) as [->|Hne]; [done|]. rewrite num_val_snoc.
  destruct (digit_char (v mod b)) as (c & -> & _ & Hc); [pose proof (Z.mod_pos_bound v b); lia|]. change (default 0 (Some c)) with c.
  rewrite Nat2Z.inj_succ, Z.pow_succ_r in Hv by lia. rewrite IH.
  - rewrite Hc, Z.mul_comm. symmetry. apply Z.div_mod. lia.
  - split; [apply Z.div_pos; lia|]. apply Z.div_lt_upper_bound; nia.
Qed.

(** The digit loop writes the numeral to the left of [r]. *)
Lemma digit_loop_ok fuel b v p r st (q := take (length p - length (pos_text fuel b v)) p) :
  2 <= b <= 16 -> 0 <= v < 2 ^ Z.of_nat fuel -> (length (pos_text fuel b v) <= length p)%nat ->
  digit_loop (S fuel) b v (zlength p - 1) (p ++ r) st = Done (zlength q - 1, q ++ pos_text fuel b v ++ r) st.
Proof.
  intros Hb. revert v p r q. induction fuel as [|fuel IH]; intros v p r q Hv Hlen.
  - assert (v = 0) as -> by (simpl in Hv; lia). unfold q. simpl. by rewrite Nat.sub_0_r, firstn_all.
  - destruct (Z.eqb_spec v 0) as [->|Hne].
    { unfold q. simpl. by rewrite Nat.sub_0_r, firstn_all. }
    unfold q. cbn [pos_text] in *. rewrite (proj2 (Z.eqb_neq _ _) Hne) in *. rewrite length_app in *. simpl in Hlen.
    destruct (digit_char (v mod b)) as (c & Ec & _); [pose proof (Z.mod_pos_bound v b); lia|]. rewrite Ec in *. change (default 0 (Some c)) with c in *.
    destruct (exists_last (l := p)) as (p' & x & ->); [intros ->; simpl in Hlen; lia|].
    rewrite length_app in *. simpl in Hlen. rewrite Nat2Z.inj_succ, Z.pow_succ_r in Hv by lia.
    assert (0 <= v / b < 2 ^ Z.of_nat fuel) as Hv'.
    { split; [apply Z.div_pos; lia|]. apply Z.div_lt_upper_bound; nia. }
    cbn [digit_loop]. rewrite (proj2 (Z.ltb_lt 0 v)) by lia. unfold mbind, M_bind. rewrite Ec. simpl lift. unfold mret, M_ret.
    rewrite <- !app_assoc. simpl app. rewrite zstore_middle by (rewrite zlength_app; unfold zlength; simpl; lia). simpl lift.
    unfold mret, M_ret. replace (zlength (p' ++ [x]) - 1 - 1) with (zlength p' - 1) by (rewrite zlength_app; unfold zlength; simpl; lia).
    etrans; [apply (IH (v / b) p' (c :: r) Hv'); lia|]. simpl length.
    replace (length p' + 1 - (length (pos_text fuel b (v / b)) + 1))%nat with (length p' - length (pos_text fuel b (v / b)))%nat by lia.
    by rewrite take_app_le by lia.
Qed.

Lemma outputs_digit_loop b v p r :
  2 <= b <= 16 -> 0 <= v < 2 ^ 64 -> (length (pos_text 64 b v) <= length p)%nat ->
  exists q, outputs (digit_loop 65 b v (zlength p - 1) (p ++ r)) (zlength q - 1, q ++ pos_text 64 b v ++ r) [] /\
    zlength q + zlength (pos_text 64 b v) = zlength p.
Proof.
  intros Hb Hv Hlen. exists (take (length p - length (pos_text 64 b v)) p). split.
  - intros bb sz t0 _ _ _. rewrite app_nil_r. by apply digit_loop_ok.
  - unfold zlength. rewrite length_take. lia.
Qed.

Definition sign_text (f : vsnprintf_format) (l : list Z) : list Z :=
  if neg f then
    if pad_char f =? chr "0" then chr "-" :: pad (pad_count f - 1) (pad_left f) (pad_char f) l
    else pad (pad_count f) (pad_left f) (pad_char f) (chr "-" :: l)
  else pad (pad_count f) (pad_left f) (pad_char f) l.

(** The last three statements of [_vsnprintf_uint64]. *)
Lemma outputs_field (left : bool) c w q t (i := zlength q - 1) :
  text t -> zlength q + zlength t = 20 ->
  outputs (when left (_vsnprintf_puts (from_index (i + 1) (q ++ t ++ [0])));;
    let chars_output := UINT64_MAX_CHARS - i - 1 in
    when (chars_output <? w) (_vsnprintf_putc_repeat c (w - chars_output));;
    when (negb left) (_vsnprintf_puts (from_index (i + 1) (q ++ t ++ [0])))) tt (pad w left c t).
Proof.
  intros Ht Hlen. unfold from_index, UINT64_MAX_CHARS. cbv zeta.
  replace (drop (Z.to_nat (i + 1)) (q ++ t ++ [0])) with (t ++ 0 :: []).
  2:{ unfold i, zlength. replace (Z.to_nat (Z.of_nat (length q) - 1 + 1)) with (length q) by lia. by rewrite drop_app_length. }
  replace (20 - i - 1) with (zlength t) by (unfold i; lia).
  eapply outputs_eq.
  - eapply outputs_bind; [apply outputs_when; intros _; by apply outputs_puts|].
    eapply outputs_bind; [apply outputs_when; intros _; apply outputs_repeat|].
    apply outputs_when; intros _; by apply outputs_puts.
  - unfold pad. destruct (Z.ltb_spec (zlength t) w) as [|Hge]; [by destruct left; simpl; rewrite ?app_nil_r|].
    replace (Z.to_nat (w - zlength t)) with 0%nat by lia. simpl. destruct left; simpl; by rewrite ?app_nil_r.
Qed.

(** The conversion of the value, up to the terminator. *)
Lemma outputs_digits b v :
  2 <= b <= 16 -> 0 <= v < 2 ^ 64 -> (length (num_text b v) <= 20)%nat ->
  exists q i0 vb0,
    outputs (if v =? 0 then
       val_buf ← lift (zstore (replicate (Z.to_nat (UINT64_MAX_CHARS + 1)) 0) (UINT64_MAX_CHARS - 1) (chr "0"));
       mret (UINT64_MAX_CHARS - 1 - 1, val_buf)
     else mret (UINT64_MAX_CHARS - 1, replicate (Z.to_nat (UINT64_MAX_CHARS + 1)) 0)) (i0, vb0) [] /\
    outputs (digit_loop 65 b v i0 vb0) (zlength q - 1, q ++ num_text b v ++ [0]) [] /\
    zlength q + zlength (num_text b v) = 20.
Proof.
  intros Hb Hv Hlen. unfold num_text in *. destruct (Z.eqb_spec v 0) as [->|Hne].
  - exists (replicate 19 0), 18, (replicate 19 0 ++ [chr "0"; 0]). split; [|split; [|done]].
    + eapply (outputs_bind _ _ _ _ [] []); [by apply outputs_lift|apply outputs_ret].
    + apply outputs_ret.
  - destruct (outputs_digit_loop b v (replicate 20 0) [0] Hb Hv) as (q & Ho & Hq); [by rewrite length_replicate|].
    exists q, 19, (replicate 20 0 ++ [0]). split; [apply outputs_ret|]. split; [exact Ho|exact Hq].
Qed.

Lemma outputs_uint64 v f :
  2 <= base f <= 16 -> 0 <= v < 2 ^ 64 -> 0 <= pad_count f < 2 ^ 31 ->
  zlength (num_text (base f) v) + (if neg f then 1 else 0) <= 20 ->
  outputs (_vsnprintf_uint64 v f) tt (sign_text f (num_text (base f) v)).
Proof.
  intros Hb Hv Hw Hlen. pose proof (num_text_text (base f) v Hb ltac:(lia)) as Ht.
  destruct (outputs_digits (base f) v Hb Hv) as (q & i0 & vb0 & H1 & H2 & Hq); [unfold zlength in Hlen; destruct (neg f); lia|].
  set (t := num_text (base f) v) in *. unfold _vsnprintf_uint64. cbv zeta.
  eapply outputs_eq; [eapply outputs_bind; [exact H1|]; eapply outputs_bind; [exact H2|]|simpl; reflexivity].
  assert (zstore (q ++ t ++ [0]) UINT64_MAX_CHARS 0 = Some (q ++ t ++ [0])) as Ez.
  { rewrite app_assoc. apply zstore_middle. rewrite length_app. unfold zlength, UINT64_MAX_CHARS in *. lia. }
  eapply outputs_eq; [eapply outputs_bind; [apply outputs_lift; exact Ez|]|simpl; reflexivity].
  unfold sign_text. destruct (neg f); simpl andb.
  - destruct (pad_char f =? chr "0").
    + apply (outputs_bind _ _ (zlength q - 1, q ++ t ++ [0], i32 (pad_count f - 1)) tt [chr "-"]).
      * apply (outputs_bind _ _ tt _ [chr "-"] []); [apply outputs_putc|apply outputs_ret].
      * assert (i32 (pad_count f - 1) = pad_count f - 1) as ->.
        { apply i32_small. lia. }
        by apply (outputs_field (pad_left f)).
    + destruct (exists_last (l := q)) as (q' & x & ->).
      { intros ->. change (zlength (@nil Z)) with 0 in Hq. lia. }
      rewrite zlength_app in *. change (zlength [x]) with 1 in *.
      apply (outputs_bind _ _ (zlength q' - 1, q' ++ (chr "-" :: t) ++ [0], pad_count f) tt [] _).
      * eapply (outputs_bind _ _ _ _ [] []); [apply outputs_lift|].
        -- rewrite <- app_assoc. simpl app. apply zstore_middle. unfold zlength. lia.
        -- replace (zlength q' + 1 - 1 - 1) with (zlength q' - 1) by lia. apply outputs_ret.
      * apply (outputs_field (pad_left f)); [by constructor|]. rewrite zlength_cons. lia.
  - eapply outputs_eq; [eapply outputs_bind; [apply outputs_ret|]|simpl; reflexivity]. by apply (outputs_field (pad_left f)).
Qed.

Lemma num_text_length b v k : 2 <= b -> (1 <= k)%nat -> 0 <= v < b ^ Z.of_nat k -> zlength (num_text b v) <= Z.of_nat k.
Proof.
  intros Hb Hk Hv. unfold num_text, zlength. case_match; [simpl; lia|]. pose proof (pos_text_length 64 b v k Hb Hv). lia.
Qed.

Lemma num_text_length_64 b v : b = 10 \/ b = 16 -> 0 <= v < 2 ^ 64 -> zlength (num_text b v) <= 20.
Proof.
  intros [->| ->] Hv; [apply (num_text_length 10 v 20)|pose proof (num_text_length 16 v 16); change (16 ^ Z.of_nat 16) with (2 ^ 64) in *]; simpl in *; lia.
Qed.

(** ** The integer and string conversions *)

Lemma outputs_unsigned v f :
  base f = 10 \/ base f = 16 -> neg f = false -> 0 <= v < 2 ^ 64 -> 0 <= pad_count f < 2 ^ 31 ->
  outputs (_vsnprintf_uint64 v f) tt (pad (pad_count f) (pad_left f) (pad_char f) (num_text (base f) v)).
Proof.
  intros Hb Hn Hv Hw. pose proof (num_text_length_64 _ v Hb Hv).
  eapply outputs_eq; [apply outputs_uint64; rewrite ?Hn; lia|]. unfold sign_text. by rewrite Hn.
Qed.

Lemma outputs_signed v f :
  base f = 10 -> neg f = false -> - 2 ^ 63 <= v < 2 ^ 63 -> 0 <= pad_count f < 2 ^ 31 ->
  outputs (_vsnprintf_int64 v f) tt (signed_field (pad_count f) (pad_left f) (pad_char f) 10 v).
Proof.
  intros Hb Hn Hv Hw. unfold _vsnprintf_int64, signed_field. destruct (Z.ltb_spec v 0) as [Hneg|Hpos].
  - assert (u64 (- v) = - v) as -> by (apply u64_small; unfold is_u; lia).
    eapply outputs_eq; [apply outputs_uint64; cbn [base neg pad_count]; rewrite ?Hb; try lia|].
    + pose proof (num_text_length 10 (- v) 19). simpl in *. lia.
    + unfold sign_text. cbn. by rewrite Hb.
  - assert (u64 v = v) as -> by (apply u64_small; unfold is_u; lia).
    eapply outputs_eq; [apply outputs_unsigned; (lia || done)|]. by rewrite Hb.
Qed.

Lemma outputs_puts_format t r f :
  text t -> zlength t < 2 ^ 31 -> 0 <= pad_count f < 2 ^ 31 ->
  outputs (_vsnprintf_puts_format (t ++ 0 :: r) f) tt (pad (pad_count f) (pad_left f) (chr " ") t).
Proof.
  intros Ht Hlen Hw. unfold _vsnprintf_puts_format. pose proof (zlength_nonneg t).
  eapply outputs_eq.
  - eapply outputs_bind; [apply outputs_when; intros _; by apply outputs_puts|].
    eapply outputs_bind; [apply outputs_lift, strlen_ok; (done || lia)|].
    eapply outputs_bind; [apply outputs_when; intros _; apply outputs_repeat|].
    apply outputs_when; intros _; by apply outputs_puts.
  - rewrite (i32_small (zlength t)) by lia. rewrite (i32_small (_ - _)) by lia. unfold pad.
    destruct (Z.ltb_spec (zlength t) (pad_count f)) as [|Hge]; [by destruct (pad_left f); simpl; rewrite ?app_nil_r|].
    replace (Z.to_nat (pad_count f - zlength t)) with 0%nat by lia. simpl. destruct (pad_left f); simpl; by rewrite ?app_nil_r.
Qed.

(** ** Reading a conversion back *)

Definition is_digit (c : Z) : bool := (chr "0" <=? c) && (c <=? chr "9").

Lemma width_mono l w : Forall (fun c => is_digit c) l -> 0 <= w -> w <= fold_left (fun v c => v * 10 + digit_val c) l w.
Proof.
  revert w. induction l as [|c l IH]; intros w Hl Hw; simpl; [lia|]. apply Forall_cons in Hl as [Hc Hl].
  apply andb_True in Hc as [H0 H9]. apply Is_true_true, Z.leb_le in H0, H9. assert (0 <= digit_val c).
  { unfold digit_val. rewrite (proj2 (Z.leb_le _ _) H9). lia. }
  etrans; [|apply IH; (done || lia)]. lia.
Qed.

Lemma width_loop_ok l x r w :
  Forall (fun c => is_digit c) l -> is_digit x = false -> 0 <= w -> fold_left (fun v c => v * 10 + digit_val c) l w < 2 ^ 31 ->
  ('(c, fmt) ← next (l ++ x :: r); width_loop c fmt w) = Some (fold_left (fun v c => v * 10 + digit_val c) l w, x, r).
Proof.
  revert w. induction l as [|c l IH]; intros w Hl Hx Hw Hb; simpl in *.
  - unfold is_digit in Hx. destruct r; simpl; by rewrite Hx.
  - apply Forall_cons in Hl as [Hc Hl]. pose proof Hc as Hc'. apply Is_true_true in Hc'. unfold is_digit in Hc'.
    apply andb_True in Hc as [H0 H9]. apply Is_true_true, Z.leb_le in H0, H9.
    assert (digit_val c = c - chr "0") as Hv by (unfold digit_val; by rewrite (proj2 (Z.leb_le _ _) H9)).
    assert (0 <= w * 10 + digit_val c) as Hpos by lia. pose proof (width_mono l _ Hl Hpos).
    specialize (IH (w * 10 + digit_val c) Hl Hx Hpos Hb). destruct (l ++ x :: r) as [|c' fmt'] eqn:El; [done|].
    simpl in IH |- *. rewrite Hc'. rewrite (i32_small (w * 10)) by lia. rewrite i32_small by lia. by rewrite <- Hv.
Qed.

Lemma digit_char_dec d : 0 <= d < 10 -> is_digit (default 0 (zlookup digits d)) = true.
Proof.
  intros Hd. assert (Forall (fun d => is_digit (default 0 (zlookup digits d)) = true) (seqZ 0 10)) as HF by (repeat constructor).
  apply (proj1 (Forall_forall _ _) HF). apply elem_of_seqZ. lia.
Qed.

Lemma pos_text_digits fuel v : 0 <= v -> Forall (fun c => is_digit c) (pos_text fuel 10 v).
Proof.
  revert v. induction fuel as [|fuel IH]; intros v Hv; simpl; [constructor|]. destruct (v =? 0); [constructor|].
  apply Forall_app. split; [apply IH, Z.div_pos; lia|]. constructor; [|constructor].
  apply Is_true_true, digit_char_dec. pose proof (Z.mod_pos_bound v 10). lia.
Qed.

(** A numeral does not start with a zero. *)
Lemma pos_text_head fuel v :
  0 < v < 2 ^ Z.of_nat fuel -> exists c l, pos_text fuel 10 v = c :: l /\ c <> chr "0".
Proof.
  revert v. induction fuel as [|fuel IH]; intros v Hv; [simpl in Hv; lia|]. cbn [pos_text].
  rewrite (proj2 (Z.eqb_neq v 0)) by lia. rewrite Nat2Z.inj_succ, Z.pow_succ_r in Hv by lia.
  destruct (Z.eq_dec (v / 10) 0) as [Hz|Hnz].
  - rewrite Hz. exists (default 0 (zlookup digits (v mod 10))), []. split; [by destruct fuel|].
    destruct (digit_char (v mod 10)) as (c & -> & _ & Hc); [pose proof (Z.mod_pos_bound v 10); lia|]. simpl. intros ->.
    change (digit_val (chr "0")) with 0 in Hc. pose proof (Z.div_mod v 10). lia.
  - destruct (IH (v / 10)) as (c & l & -> & Hc); [|by eexists _, _].
    pose proof (Z.div_pos v 10). split; [lia|]. apply Z.div_lt_upper_bound; lia.
Qed.

Definition width_text (w : Z) : list Z := if w =? 0 then [] else num_text 10 w.

Lemma width_text_ok w : 0 <= w < 2 ^ 31 -> Forall (fun c => is_digit c) (width_text w) /\ num_val 10 (width_text w) = w.
Proof.
  intros Hw. unfold width_text, num_text. destruct (Z.eqb_spec w 0) as [->|]; [split; [constructor|done]|].
  split; [apply pos_text_digits; lia|apply pos_text_val; simpl; lia].
Qed.

(** The character after a width: not one the flags could be taken for. *)
Lemma width_text_next w x r :
  0 <= w < 2 ^ 31 -> x <> chr "0" -> x <> chr "-" -> x <> chr " " ->
  exists c fmt, width_text w ++ x :: r = c :: fmt /\ c <> chr "0" /\ c <> chr "-" /\ c <> chr " ".
Proof.
  intros Hw Hx Hx' Hx''. unfold width_text, num_text. destruct (Z.eqb_spec w 0) as [->|Hne]; [by exists x, r|].
  destruct (pos_text_head 64 w) as (c & l & E & Hc); [simpl; lia|]. pose proof (pos_text_digits 64 w ltac:(lia)) as Hd.
  rewrite E in *. exists c, (l ++ x :: r). split; [done|]. split; [done|]. apply Forall_cons in Hd as [Hd _].
  apply andb_True in Hd as [H0 H9]. apply Is_true_true, Z.leb_le in H0, H9.
  change (chr "-") with 45. change (chr " ") with 32. change (chr "0") with 48 in *. lia.
Qed.

Lemma parse_tail w (long : bool) ch r :
  0 <= w < 2 ^ 31 -> is_digit ch = false -> ch <> chr "l" -> ch <> chr "L" ->
  exists x r', ('(c, fmt) ← next (width_text w ++ (if long then [chr "l"] else []) ++ ch :: r); width_loop c fmt 0) = Some (w, x, r') /\
    (if (x =? chr "l") || (x =? chr "L") then '(c, fmt) ← next r'; Some (true, c, fmt) else Some (false, x, r')) = Some (long, ch, r).
Proof.
  intros Hw Hd Hl HL. destruct (width_text_ok w Hw) as [Hdig Hval].
  assert (forall x r', is_digit x = false ->
    ('(c, fmt) ← next (width_text w ++ x :: r'); width_loop c fmt 0) = Some (w, x, r')) as Hloop.
  { intros x r' Hx. rewrite (width_loop_ok _ x r' 0 Hdig Hx) by (fold (num_val 10 (width_text w)); lia).
    fold (num_val 10 (width_text w)). by rewrite Hval. }
  destruct long; simpl app.
  - exists (chr "l"), (ch :: r). split; [by apply Hloop|done].
  - exists ch, r. split; [by apply Hloop|]. by rewrite (proj2 (Z.eqb_neq _ _) Hl), (proj2 (Z.eqb_neq _ _) HL).
Qed.

Definition conv_format (c : conv) : vsnprintf_format := mk_format 10 false (conv_pad c) (c_width c) (c_left c).

Lemma parse_print_conv c r :
  conv_ok c -> parse_format (tail (print_conv c) ++ r) = Some (conv_format c, c_long c, c_char c, r).
Proof.
  intros (Hw & Hflag & Hnz & Hdash & Hspace & Hl & HL & Hdig).
  assert (is_digit (c_char c) = false) as Hd.
  { apply not_true_is_false. intros H. apply andb_prop in H as [H0%Z.leb_le H9%Z.leb_le]. lia. }
  unfold print_conv. fold (width_text (c_width c)). simpl tail. rewrite <- !app_assoc. change ([c_char c] ++ r) with (c_char c :: r).
  destruct (parse_tail (c_width c) (c_long c) (c_char c) r Hw Hd Hl HL) as (x & r' & Hloop & Hlong).
  assert (exists c0 fmt0, width_text (c_width c) ++ (if c_long c then [chr "l"] else []) ++ c_char c :: r = c0 :: fmt0 /\
    c0 <> chr "0" /\ c0 <> chr "-" /\ c0 <> chr " ") as (c0 & fmt0 & E & H0 & H1 & H2).
  { destruct (c_long c); apply width_text_next; try done. intros Heq. rewrite Heq in Hdig. by apply Hdig. }
  rewrite E in *. simpl in Hloop. unfold parse_format, conv_format, conv_pad.
  destruct (c_left c).
  - rewrite Hflag. simpl. rewrite Hloop. simpl. by rewrite Hlong.
  - destruct Hflag as [->|[->| ->]]; simpl; [|by rewrite Hloop; simpl; rewrite Hlong..].
    rewrite (proj2 (Z.eqb_neq _ _) H1). simpl. rewrite (proj2 (Z.eqb_neq _ _) H0), (proj2 (Z.eqb_neq _ _) H2). simpl.
    rewrite Hloop. simpl. by rewrite Hlong.
Qed.

(** ** The conversions and the whole format *)

Lemma outputs_bind_ret {A B} (m : VM A) (x : A) (a : B) t : outputs m x t -> outputs (m ≫= fun _ => mret a) a t.
Proof. intros H. eapply outputs_eq; [eapply outputs_bind; [exact H|apply outputs_ret]|apply app_nil_r]. Qed.

Lemma wrap_range64 (l : bool) v : 0 <= (if l then u64 v else u32 v) < 2 ^ 64.
Proof.
  destruct l; unfold u64, u32, wrap; [apply Z.mod_pos_bound; lia|].
  pose proof (Z.mod_pos_bound v (2 ^ 32)). simpl in *. lia.
Qed.

Lemma convert_ok c args t args' :
  conv_ok c -> Forall va_ok args -> render_conv c args = Some (t, args') ->
  outputs (convert (conv_format c) (c_long c) (c_char c) args) args' t.
Proof.
  intros [Hw _] Hargs. unfold render_conv, convert.
  destruct ((c_char c =? chr "D") || (c_char c =? chr "d")).
  { destruct args as [|[v|s] args]; intros E; simplify_eq. eapply outputs_bind_ret, outputs_signed; try done.
    destruct (c_long c); [apply i64_range|]. pose proof (i32_range v). simpl in *. lia. }
  destruct ((c_char c =? chr "U") || (c_char c =? chr "u")).
  { destruct args as [|[v|s] args]; intros E; simplify_eq.
    eapply outputs_bind_ret, (outputs_unsigned _ (conv_format c)); [by left|done|apply wrap_range64|done]. }
  destruct (decide (c_char c = chr "X" \/ c_char c = chr "x")) as [Hx|Hx].
  { destruct args as [|[v|s] args]; destruct Hx as [-> | ->]; simpl; intros E; simplify_eq; rewrite ?orb_false_r;
      (eapply outputs_bind_ret, (outputs_unsigned _ (with_base16 (conv_format c))); [by right|done|apply wrap_range64|done]). }
  destruct (decide (c_char c = chr "P" \/ c_char c = chr "p")) as [Hp|Hp].
  { destruct args as [|[v|s] args]; destruct Hp as [-> | ->]; simpl; intros E; simplify_eq; rewrite ?orb_true_r;
      (eapply outputs_bind_ret, (outputs_unsigned _ (with_base16 (conv_format c))); [by right|done|apply (wrap_range64 true)|done]). }
  apply Decidable.not_or in Hx as [Hx1 Hx2], Hp as [Hp1 Hp2].
  rewrite (proj2 (Z.eqb_neq _ _) Hx1), (proj2 (Z.eqb_neq _ _) Hx2), (proj2 (Z.eqb_neq _ _) Hp1), (proj2 (Z.eqb_neq _ _) Hp2). simpl orb. cbv iota.
  destruct ((c_char c =? chr "S") || (c_char c =? chr "s")).
  { destruct args as [|[v|s] args]; intros E; simplify_eq. apply Forall_cons in Hargs as [(u & r & -> & Hu & Hlen) _].
    rewrite str_text_app in E by done. simplify_eq/=.
    eapply outputs_bind_ret, (outputs_puts_format _ r (conv_format c)); done. }
  destruct (c_char c =? chr "%"); intros E; simplify_eq.
  - eapply outputs_bind_ret, outputs_putc.
  - eapply outputs_bind_ret, outputs_puts. repeat constructor; discriminate.
Qed.

Lemma render_conv_args c args t args' : Forall va_ok args -> render_conv c args = Some (t, args') -> Forall va_ok args'.
Proof.
  intros Hargs. unfold render_conv. assert (Forall va_ok (tail args)) as Htl by (by destruct Hargs).
  repeat case_match; intros E; simplify_eq/=; try done.
  all: destruct (str_text _); by simplify_eq/=.
Qed.

Lemma format_loop_ok fuel items args t :
  Forall item_ok items -> Forall va_ok args -> render items args = Some t -> (length (print_items items) < fuel)%nat ->
  outputs (vsnprintf_loop fuel (print_items items ++ [0]) args) tt t.
Proof.
  intros Hok. revert fuel args t. induction Hok as [|i items Hi Hok IH]; intros fuel args t Hargs Hr Hf.
  { destruct fuel as [|fuel]; [simpl in Hf; lia|]. simplify_eq/=. apply (outputs_bind _ _ (0, []) tt [] []); apply outputs_ret. }
  destruct fuel as [|fuel]; [lia|]. unfold print_items in *. rewrite fmap_cons in *. cbn [concat] in *. rewrite length_app in Hf.
  rewrite <- app_assoc. destruct i as [c|c]; simpl in Hi.
  - destruct Hi as [H0 H1]. simpl in Hr, Hf. destruct (render items args) as [r|] eqn:Er; simplify_eq/=.
    apply (outputs_bind _ _ (c, concat (print_item <$> items) ++ [0]) tt [] (c :: r)); [apply outputs_ret|].
    rewrite (proj2 (Z.eqb_neq _ _) H0), (proj2 (Z.eqb_neq _ _) H1). simpl negb. cbv iota.
    apply (outputs_bind _ _ tt tt [c] r); [apply outputs_putc|]. apply IH; (done || lia).
  - simpl in Hr. destruct (render_conv c args) as [[u args']|] eqn:Ec; [|done].
    simpl in Hr. destruct (render items args') as [r|] eqn:Er; simplify_eq/=.
    apply (outputs_bind _ _ (chr "%", tail (print_conv c) ++ concat (print_item <$> items) ++ [0]) tt [] (u ++ r)); [apply outputs_ret|].
    change (chr "%" =? 0) with false. change (negb (chr "%" =? chr "%")) with false. cbv iota.
    eapply (outputs_bind _ _ _ tt [] (u ++ r)); [apply outputs_lift; by apply parse_print_conv|]. cbv iota beta.
    rewrite (proj2 (Z.eqb_neq (c_char c) 0)) by apply Hi.
    apply (outputs_bind _ _ args' tt u r); [by apply convert_ok|].
    apply IH; [by eapply render_conv_args|done|]. simpl in Hf. lia.
Qed.

Lemma place_nil sz b : 1 <= sz -> place sz [] b = b.
Proof. intros Hsz. unfold place. replace (Z.to_nat (Z.min (sz - 1) (zlength (@nil Z)))) with 0%nat; [done|unfold zlength; simpl; lia]. Qed.

Lemma place_terminate sz t b :
  1 <= sz <= zlength b -> zstore (place sz t b) (Z.min (sz - 1) (zlength t)) 0 = Some (place_string sz t b).
Proof.
  intros Hsz. unfold place, place_string. set (m := Z.to_nat (Z.min (sz - 1) (zlength t))).
  assert (length (take m t) = m) as Hm by (rewrite length_take; unfold m, zlength; lia).
  destruct (lookup_lt_is_Some_2 b m) as [x Hx]; [unfold m, zlength in *; lia|].
  rewrite (drop_S b x m Hx). rewrite zstore_middle; [done|]. rewrite Hm. unfold m. pose proof (zlength_nonneg t). lia.
Qed.

Lemma vsnprintf_ok size items args t b :
  Forall item_ok items -> Forall va_ok args -> render items args = Some t -> zlength t < 2 ^ 31 ->
  1 <= size <= zlength b -> size < 2 ^ 64 ->
  vsnprintf size (print_items items ++ [0]) args b = Done (zlength t) (place_string size t b).
Proof.
  intros Hok Hargs Hr Hlen Hsz Hsz'. pose proof (zlength_nonneg t). unfold vsnprintf. rewrite (proj2 (Z.eqb_neq size 0)) by lia.
  pose proof (format_loop_ok (S (length (print_items items ++ [0]))) items args t Hok Hargs Hr) as Hloop.
  specialize (Hloop ltac:(rewrite length_app; simpl; lia) b size [] Hsz Hsz' ltac:(unfold zlength at 1; simpl; lia)).
  unfold shown in Hloop. rewrite place_nil in Hloop by lia. change (zlength (@nil Z)) with 0 in Hloop. simpl app in Hloop.
  rewrite Hloop. cbn [buf n count]. rewrite sub64_small by (unfold is_u; lia).
  replace (if zlength t <? size - 1 then zlength t else size - 1) with (Z.min (size - 1) (zlength t))
    by (destruct (Z.ltb_spec (zlength t) (size - 1)); lia).
  rewrite place_terminate by done. by rewrite i32_small by lia.
Qed.

(** The text of a format has no terminator in it. *)

Lemma pad_text w left c l : c <> 0 -> text l -> text (pad w left c l).
Proof. intros Hc Hl. unfold pad. assert (text (replicate (Z.to_nat (w - zlength l)) c)) by (by apply Forall_replicate). destruct left; by apply Forall_app. Qed.

Lemma signed_field_text w left c v : c <> 0 -> text (signed_field w left c 10 v).
Proof.
  intros Hc. unfold signed_field. destruct (Z.ltb_spec v 0); [case_match; [constructor; [done|]|]|]; apply pad_text; try done.
  - apply num_text_text; lia.
  - constructor; [done|]. apply num_text_text; lia.
  - apply num_text_text; lia.
Qed.

Lemma render_conv_text c args t args' :
  conv_ok c -> Forall va_ok args -> render_conv c args = Some (t, args') -> text t.
Proof.
  intros (_ & Hflag & _) Hargs. assert (conv_pad c <> 0) as Hp.
  { unfold conv_pad. destruct (c_left c); [by rewrite Hflag|]. by destruct Hflag as [->|[->| ->]]. }
  clear Hflag. assert (forall b v (k : bool), b = 10 \/ b = 16 -> text (pad (c_width c) (c_left c) (conv_pad c) (num_text b (if k then u64 v else u32 v)))) as Hn.
  { intros b v k Hb. apply pad_text; [done|]. apply num_text_text; [lia|]. apply wrap_range64. }
  unfold render_conv.
  case_match; [destruct args as [|[v|s] args]; intros E; simplify_eq; by apply signed_field_text|].
  case_match; [destruct args as [|[v|s] args]; intros E; simplify_eq; apply Hn; by left|].
  case_match; [destruct args as [|[v|s] args]; intros E; simplify_eq; apply Hn; by right|].
  case_match; [destruct args as [|[v|s] args]; intros E; simplify_eq; apply (Hn 16 v true); by right|].
  case_match; [destruct args as [|[v|s] args]; intros E; simplify_eq|].
  { apply Forall_cons in Hargs as [(u & r & -> & Hu & _) _]. rewrite str_text_app in E by done. simplify_eq/=. by apply pad_text. }
  case_match; intros E; simplify_eq; [by repeat constructor|repeat constructor; discriminate].
Qed.

Lemma render_text items args t :
  Forall item_ok items -> Forall va_ok args -> render items args = Some t -> text t.
Proof.
  intros Hi. revert args t. induction Hi as [|[c|c] items Hc Hi IH]; intros args t Ha; simpl; intros E; simplify_eq.
  - constructor.
  - destruct (render items args) as [r|] eqn:Er; simplify_eq/=. constructor; [apply Hc|by eapply IH].
  - destruct (render_conv c args) as [[u args']|] eqn:Ec; simplify_eq/=. destruct (render items args') as [r|] eqn:Er; simplify_eq/=.
    apply Forall_app. split; [by eapply render_conv_text|]. eapply IH; [|done]. by eapply render_conv_args.
Qed.

(** ** Termination

    [m] always ends, in a result or in an access out of bounds. *)

Definition ends {A} (m : VM A) : Prop := forall s, m s <> Hang /\ forall msg, m s <> Panic msg.

Lemma ends_ret {A} (a : A) : ends (mret a).
Proof. by intros s. Qed.

Lemma ends_bind {A B} (m : VM A) (k : A -> VM B) : ends m -> (forall a, ends (k a)) -> ends (m ≫= k).
Proof. intros Hm Hk s. unfold mbind, M_bind. destruct (Hm s) as [H1 H2]. destruct (m s) as [a s'|msg| |]; [apply Hk|by destruct (H2 msg)|done|done]. Qed.

Lemma ends_lift {A} (o : option A) : ends (lift o).
Proof. by destruct o. Qed.

Lemma ends_undef {A} : ends (@undef _ A).
Proof. by intros s. Qed.

Lemma ends_putc c : ends (_vsnprintf_putc c).
Proof. intros s. unfold _vsnprintf_putc. by repeat case_match. Qed.

Lemma ends_puts str : ends (_vsnprintf_puts str).
Proof. induction str as [|c str IH]; simpl; [apply ends_undef|]. destruct (c =? 0); [apply ends_ret|]. apply ends_bind; [apply ends_putc|done]. Qed.

Lemma ends_repeat c k : ends (_vsnprintf_putc_repeat c k).
Proof.
  unfold _vsnprintf_putc_repeat. generalize 0. induction (Z.to_nat k) as [|m IH]; intros i; simpl; [apply ends_ret|].
  apply ends_bind; [apply ends_putc|done].
Qed.

Lemma ends_when (b : bool) m : ends m -> ends (when b m).
Proof. destruct b; [done|]. intros _. apply ends_ret. Qed.

Create HintDb ends.
#[export] Hint Resolve ends_ret ends_lift ends_undef ends_putc ends_puts ends_repeat ends_when : ends.

(** One bind at a time, then the hints. *)
Ltac ends := repeat first [progress (intros; cbv zeta) | apply ends_bind | case_match | solve [auto with ends]].

Lemma ends_digit_loop fuel b v i vb : 2 <= b -> 0 <= v < 2 ^ Z.of_nat fuel -> ends (digit_loop (S fuel) b v i vb).
Proof.
  intros Hb. revert v i vb. induction fuel as [|fuel IH]; intros v i vb Hv; cbn [digit_loop].
  - simpl in Hv. rewrite (proj2 (Z.ltb_ge 0 v)) by lia. apply ends_ret.
  - destruct (Z.ltb_spec 0 v); [|apply ends_ret]. apply ends_bind; [apply ends_lift|]. intros d. apply ends_bind; [apply ends_lift|]. intros vb'.
    apply IH. rewrite Nat2Z.inj_succ, Z.pow_succ_r in Hv by lia. split; [apply Z.div_pos; lia|]. apply Z.div_lt_upper_bound; nia.
Qed.

Lemma ends_uint64 v f : 2 <= base f -> 0 <= v < 2 ^ 64 -> ends (_vsnprintf_uint64 v f).
Proof.
  intros Hb Hv. unfold _vsnprintf_uint64. cbv zeta. apply ends_bind; [ends|]. intros [i vb].
  apply ends_bind; [by apply ends_digit_loop|]. intros [i' vb']. ends.
Qed.

Lemma ends_int64 v f : 2 <= base f -> - 2 ^ 63 <= v < 2 ^ 63 -> ends (_vsnprintf_int64 v f).
Proof.
  intros Hb Hv. unfold _vsnprintf_int64. destruct (Z.ltb_spec v 0); apply ends_uint64; try done; rewrite u64_small; unfold is_u; lia.
Qed.

Lemma ends_convert f (is64 : bool) c ap : base f = 10 -> ends (convert f is64 c ap).
Proof.
  intros Hb. unfold convert, va_int, va_str, _vsnprintf_puts_format.
  assert (forall v, - 2 ^ 63 <= (if is64 then i64 v else i32 v) < 2 ^ 63) as Hi.
  { intros v. pose proof (i64_range v). pose proof (i32_range v). destruct is64; simpl in *; lia. }
  assert (forall v, ends (_vsnprintf_int64 (if is64 then i64 v else i32 v) f)) as H1 by (intros v; apply ends_int64; [lia|apply Hi]).
  assert (forall (k : bool) v, ends (_vsnprintf_uint64 (if k then u64 v else u32 v) f)) as H2 by (intros k v; apply ends_uint64; [lia|apply wrap_range64]).
  assert (forall (k : bool) v, ends (_vsnprintf_uint64 (if k then u64 v else u32 v) (with_base16 f))) as H3 by (intros k v; apply ends_uint64; [simpl; lia|apply wrap_range64]).
  repeat match goal with |- ends (if ?b then _ else _) => destruct b end; cbv zeta;
    repeat match goal with
    | |- ends (_vsnprintf_int64 _ _) => apply H1
    | |- ends (_vsnprintf_uint64 _ (with_base16 _)) => apply H3
    | |- ends (_vsnprintf_uint64 _ _) => apply H2
    | |- ends (_ ≫= _) => apply ends_bind; [|intros]
    | |- ends (match ?x with _ => _ end) => destruct x
    | |- _ => solve [auto with ends]
    end.
Qed.

(** A conversion consumes at least its conversion character. *)
Lemma width_loop_length c fmt w w' c' fmt' : width_loop c fmt w = Some (w', c', fmt') -> (length fmt' <= length fmt)%nat.
Proof.
  revert c w. induction fmt as [|x fmt IH]; intros c w; simpl; (destruct (_ && _); [|by intros [= <- <- <-]]); [done|].
  intros H%IH. lia.
Qed.

Lemma parse_format_length fmt f is64 c fmt' :
  parse_format fmt = Some (f, is64, c, fmt') -> (length fmt' < length fmt)%nat /\ base f = 10.
Proof.
  unfold parse_format. destruct fmt as [|c0 fmt]; [done|]. cbn [next mbind option_bind].
  assert (forall o c1 (l : list Z) r, (if (c1 =? chr "l") || (c1 =? chr "L") then '(c, fmt) ← next l; Some (true, c, fmt) else Some (false, c1, l)) = Some (o, c, r) ->
    (length r <= length l)%nat) as Hlong.
  { intros o c1 l r. case_match; [|by intros [= _ _ <-]]. destruct l; [done|]. intros [= _ _ <-]. simpl. lia. }
  assert (forall pl pc c1 (l : list Z),
    ('(width, c, fmt) ← width_loop c1 l 0; '(is64, c, fmt) ← (if (c =? chr "l") || (c =? chr "L") then '(c, fmt) ← next fmt; Some (true, c, fmt) else Some (false, c, fmt));
     Some (mk_format 10 false pc width pl, is64, c, fmt)) = Some (f, is64, c, fmt') -> (length fmt' <= length l)%nat /\ base f = 10) as Htail.
  { intros pl pc c1 l. destruct (width_loop c1 l 0) as [[[w c2] l2]|] eqn:Ew; [|done]. cbn [mbind option_bind].
    apply width_loop_length in Ew. destruct (if (c2 =? chr "l") || (c2 =? chr "L") then _ else _) as [[[o c3] l3]|] eqn:El; [|done].
    cbn [mbind option_bind]. intros [= <- <- <- <-]. apply Hlong in El. split; [lia|done]. }
  destruct (c0 =? chr "-").
  - destruct fmt as [|c1 fmt]; [done|]. cbn. intros [H1 H2]%Htail. split; [lia|done].
  - cbn [mbind option_bind negb andb]. destruct ((c0 =? chr "0") || (c0 =? chr " ")).
    + destruct fmt as [|c1 fmt]; [done|]. cbn. intros [H1 H2]%Htail. split; [lia|done].
    + cbn. intros [H1 H2]%Htail. split; [lia|done].
Qed.

Lemma ends_bind_lift {A B} (o : option A) (k : A -> VM B) : (forall a, o = Some a -> ends (k a)) -> ends (lift o ≫= k).
Proof. intros Hk. destruct o as [a|]; intros s; [by apply Hk|done]. Qed.

Lemma ends_loop fuel fmt ap : (length fmt < fuel)%nat -> ends (vsnprintf_loop fuel fmt ap).
Proof.
  revert fmt ap. induction fuel as [|fuel IH]; intros fmt ap Hf; [lia|]. cbn [vsnprintf_loop].
  apply ends_bind_lift. intros [c0 fmt0] E0. destruct fmt as [|c fmt]; [done|]. injection E0 as <- <-. simpl in Hf.
  destruct (c =? 0); [apply ends_ret|]. destruct (negb (c =? chr "%")).
  { apply ends_bind; [apply ends_putc|]. intros _. apply IH. lia. }
  apply ends_bind_lift. intros [[[f is64] c1] fmt1] E1. destruct (parse_format_length _ _ _ _ _ E1) as [Hlen Hb].
  destruct (c1 =? 0); [apply ends_ret|]. apply ends_bind; [by apply ends_convert|]. intros ap'. apply IH. lia.
Qed.

(** ** Sizes for people *)

(** The unit of a size: the largest power of 1024 not above it. *)
Definition unit_of (bytes : Z) : Z := Z.log2 bytes / 10.

(** The tenth shown after the point. *)
Definition tenth (bytes mult : Z) : Z := Z.min 9 ((bytes mod mult) * 1024 / mult / 100).

Definition human_text (bytes : Z) : list Z :=
  let k := unit_of bytes in
  let mult := 1024 ^ k in
  let name := default [] (chars <$> zlookup units k) in
  if (k <? 3) || (bytes mod mult =? 0) then pad 5 false (chr " ") (num_text 10 (bytes / mult)) ++ chr " " :: name
  else pad 3 false (chr " ") (num_text 10 (bytes / mult)) ++ chr "." :: num_text 10 (tenth bytes mult) ++ chr " " :: name.

(** A number of units, with a tenth or without, and the name of the unit. *)
Definition human_line (q : Z) (d : option Z) (name : string) : list Z :=
  match d with
  | None => pad 5 false (chr " ") (num_text 10 q) ++ chr " " :: chars name
  | Some t => pad 3 false (chr " ") (num_text 10 q) ++ chr "." :: num_text 10 t ++ chr " " :: chars name
  end.

Lemma unit_of_le bytes i : 0 <= i -> 0 <= bytes -> unit_of bytes <= i <-> bytes < 1024 ^ (i + 1).
Proof.
  intros Hi Hb. unfold unit_of. change 1024 with (2 ^ 10). rewrite <- Z.pow_mul_r by lia.
  pose proof (Z.div_mod (Z.log2 bytes) 10). pose proof (Z.mod_pos_bound (Z.log2 bytes) 10). pose proof (Z.log2_nonneg bytes).
  destruct (Z.eq_dec bytes 0) as [->|Hne].
  - change (Z.log2 0) with 0. change (0 / 10) with 0. split; [intros _; apply Z.pow_pos_nonneg; lia|lia].
  - rewrite Z.log2_lt_pow2 by lia. lia.
Qed.

Lemma unit_of_nonneg bytes : 0 <= unit_of bytes.
Proof. apply Z.div_pos; [apply Z.log2_nonneg|lia]. Qed.

Lemma unit_loop_ok fuel i bytes (j := i + Z.of_nat fuel) :
  0 <= i <= unit_of bytes -> 0 <= bytes -> 10 * j < 64 ->
  unit_loop fuel i (bytes / 1024 ^ i) (1024 ^ i) =
    if unit_of bytes <? j then (unit_of bytes, 1024 ^ unit_of bytes, bytes / 1024 ^ unit_of bytes)
    else (0, 1024 ^ j, bytes / 1024 ^ j).
Proof.
  revert i j. induction fuel as [|fuel IH]; intros i j Hi Hb Hj.
  - unfold j in *. simpl. rewrite Z.add_0_r. by rewrite (proj2 (Z.ltb_ge _ _)) by lia.
  - cbn [unit_loop]. assert (0 < 1024 ^ i) as Hpos by (apply Z.pow_pos_nonneg; lia).
    assert (bytes / 1024 ^ i <? 1024 = (unit_of bytes <=? i)) as ->.
    { apply eq_true_iff_eq. rewrite Z.ltb_lt, Z.leb_le, unit_of_le by lia. rewrite Z.pow_add_r by lia. change (1024 ^ 1) with 1024. split.
      - intros Hlt. rewrite Z.mul_comm. pose proof (Z.div_mod bytes (1024 ^ i)). pose proof (Z.mod_pos_bound bytes (1024 ^ i) Hpos). nia.
      - intros Hlt. by apply Z.div_lt_upper_bound. }
    destruct (Z.leb_spec (unit_of bytes) i) as [Hle|Hgt].
    + assert (unit_of bytes = i) as -> by lia. by rewrite (proj2 (Z.ltb_lt _ _)) by (unfold j; lia).
    + rewrite Z.div_div by lia. unfold mul64. replace (1024 ^ i * 1024) with (1024 ^ (i + 1)) by (rewrite Z.pow_add_r by lia; done).
      rewrite u64_small. 2:{ split; [apply Z.pow_nonneg; lia|]. change 1024 with (2 ^ 10). rewrite <- Z.pow_mul_r by lia. apply Z.pow_lt_mono_r; lia. }
      etrans; [apply IH; lia|]. unfold j. by replace (i + 1 + Z.of_nat fuel) with (i + Z.of_nat (S fuel)) by lia.
Qed.

Definition whole_items : list item :=
  [Conv (mk_conv false None 5 true (chr "u")); Lit (chr " "); Conv (mk_conv false None 0 false (chr "s"))].

Definition tenths_items : list item :=
  [Conv (mk_conv false None 3 true (chr "u")); Lit (chr "."); Conv (mk_conv false None 0 true (chr "u")); Lit (chr " ");
   Conv (mk_conv false None 0 false (chr "s"))].

Lemma sizes_items_ok : Forall item_ok whole_items /\ Forall item_ok tenths_items.
Proof. split; items_ok. Qed.

Lemma zlength_pad w left c l : zlength (pad w left c l) = Z.max w (zlength l).
Proof. pose proof (zlength_nonneg l). unfold pad, zlength in *. destruct left; rewrite length_app, length_replicate; lia. Qed.

Lemma pad_0 left c l : pad 0 left c l = l.
Proof.
  unfold pad. replace (Z.to_nat (0 - zlength l)) with 0%nat by (pose proof (zlength_nonneg l); lia).
  destruct left; simpl; by rewrite ?app_nil_r.
Qed.

Lemma render_conv_s c t r args :
  text t -> c_char c = chr "s" -> render_conv c (VaStr (t ++ 0 :: r) :: args) = Some (pad (c_width c) (c_left c) (chr " ") t, args).
Proof. intros Ht E. unfold render_conv. rewrite E. simpl. by rewrite str_text_app. Qed.

Lemma render_conv_lu c v args :
  c_char c = chr "u" -> c_long c = true -> 0 <= v < 2 ^ 64 ->
  render_conv c (VaInt v :: args) = Some (pad (c_width c) (c_left c) (conv_pad c) (num_text 10 v), args).
Proof. intros E El Hv. unfold render_conv. rewrite E, El. simpl. by rewrite u64_small. Qed.

Lemma unit_name k : 0 <= k < 5 -> exists u, zlookup units k = Some u /\ text (chars u) /\ zlength (chars u) <= 5.
Proof.
  intros Hk. assert (Forall (fun k => exists u, zlookup units k = Some u /\ text (chars u) /\ zlength (chars u) <= 5) (seqZ 0 5)) as HF.
  { repeat (constructor; [eexists; split; [vm_compute; reflexivity|split; [repeat constructor; discriminate|vm_compute; congruence]]|]). constructor. }
  apply (proj1 (Forall_forall _ _) HF). apply elem_of_seqZ. lia.
Qed.

Section human.
Context (b : list Z) (size : Z) (Hsize : 1 <= size <= zlength b) (Hsize' : size < 2 ^ 64).
Context (u : string) (Hu : text (chars u)) (Hlen : zlength (chars u) <= 5).

Lemma unit_args vs : Forall va_ok (map VaInt vs ++ [VaStr (cstr u)]).
Proof.
  apply Forall_app. split; [apply Forall_map, Forall_true; done|]. constructor; [|constructor]. exists (chars u), []. split; [done|]. split; [done|]. simpl; lia.
Qed.

Lemma snprintf_whole v :
  0 <= v < 2 ^ 64 ->
  snprintf size (cstr "%5lu %s") [VaInt v; VaStr (cstr u)] b =
    let t := pad 5 false (chr " ") (num_text 10 v) ++ chr " " :: chars u in Done (zlength t) (place_string size t b).
Proof.
  intros Hv. change (cstr "%5lu %s") with (print_items whole_items ++ [0]). cbv zeta. pose proof (num_text_length_64 10 v ltac:(by left) Hv).
  apply vsnprintf_ok; [apply sizes_items_ok|apply (unit_args [v])| |rewrite zlength_app, zlength_pad, zlength_cons; lia|done..].
  unfold whole_items. cbn [render]. rewrite render_conv_lu by done. simpl mbind. unfold cstr. rewrite render_conv_s by done. simpl.
  by rewrite pad_0, app_nil_r.
Qed.

Lemma snprintf_tenths v d :
  0 <= v < 2 ^ 64 -> 0 <= d < 2 ^ 64 ->
  snprintf size (cstr "%3lu.%lu %s") [VaInt v; VaInt d; VaStr (cstr u)] b =
    let t := pad 3 false (chr " ") (num_text 10 v) ++ chr "." :: num_text 10 d ++ chr " " :: chars u in
    Done (zlength t) (place_string size t b).
Proof.
  intros Hv Hd. change (cstr "%3lu.%lu %s") with (print_items tenths_items ++ [0]). cbv zeta.
  pose proof (num_text_length_64 10 v ltac:(by left) Hv). pose proof (num_text_length_64 10 d ltac:(by left) Hd).
  apply vsnprintf_ok; [apply sizes_items_ok|apply (unit_args [v; d])| | |done..].
  - unfold tenths_items. cbn [render]. rewrite render_conv_lu by done. simpl mbind. rewrite (u64_small d Hd).
    unfold cstr. rewrite render_conv_s by done. simpl. by rewrite !pad_0, app_nil_r.
  - rewrite zlength_app, zlength_pad, zlength_cons, zlength_app, zlength_cons. lia.
Qed.

End human.

Lemma tenth_accurate bytes mult :
  0 < mult -> 0 <= bytes -> Z.abs (10 * bytes - (10 * (bytes / mult) + tenth bytes mult) * mult) <= mult.
Proof.
  intros Hm Hb. unfold tenth. pose proof (Z.div_mod bytes mult). pose proof (Z.mod_pos_bound bytes mult Hm). 
  set (r := bytes mod mult) in *. set (x := r * 1024 / mult).
  assert (x * mult <= r * 1024 < (x + 1) * mult) as Hx.
  { pose proof (Z.div_mod (r * 1024) mult). pose proof (Z.mod_pos_bound (r * 1024) mult Hm). unfold x. nia. }
  assert (x < 1024) by nia. assert (0 <= x) by nia.
  pose proof (Z.div_mod x 100). pose proof (Z.mod_pos_bound x 100). set (d := x / 100) in *.
  assert (10 * bytes - (10 * (bytes / mult) + Z.min 9 d) * mult = 10 * r - Z.min 9 d * mult) as -> by nia.
  assert (0 <= d <= 10) by lia. destruct (Z.min_spec 9 d) as [[? ->]|[? ->]]; nia.
Qed.

Lemma bytes_to_human_ok bytes size b :
  0 <= bytes < 2 ^ 50 -> 1 <= size <= zlength b -> size < 2 ^ 64 ->
  bytes_to_human bytes size b = Done tt (place_string size (human_text bytes) b).
Proof.
  intros Hb Hsz Hsz'. unfold bytes_to_human. pose proof (unit_of_nonneg bytes) as Hk0.
  assert (unit_of bytes <= 4) as Hk4 by (apply unit_of_le; lia).
  pose proof (unit_loop_ok 5 0 bytes ltac:(lia) ltac:(lia) ltac:(lia)) as Hl.
  change (1024 ^ 0) with 1 in Hl. rewrite Z.div_1_r in Hl. rewrite (proj2 (Z.ltb_lt _ _)) in Hl by lia. change (length units) with 5%nat.
  rewrite Hl. unfold human_text. set (k := unit_of bytes) in *. set (mult := 1024 ^ k).
  assert (0 < mult) by (apply Z.pow_pos_nonneg; lia). assert (mult <= 2 ^ 40).
  { unfold mult. change 1024 with (2 ^ 10). rewrite <- Z.pow_mul_r by lia. apply Z.pow_le_mono_r; lia. }
  destruct (unit_name k) as (u & Eu & Hu & Hlen); [lia|]. rewrite Eu. change (default [] (chars <$> Some u)) with (chars u).
  unfold mbind, M_bind. simpl lift. unfold mret, M_ret.
  pose proof (Z.div_mod bytes mult). pose proof (Z.mod_pos_bound bytes mult). assert (0 <= bytes / mult < 2 ^ 50) by nia.
  destruct ((k <? 3) || (bytes mod mult =? 0)).
  - by rewrite (snprintf_whole b size Hsz Hsz' u Hu Hlen) by lia.
  - assert ((bytes - bytes / mult * mult)%u64 = bytes mod mult) as ->.
    { unfold mul64, sub64. rewrite (u64_small (_ * _)) by (unfold is_u; nia). rewrite u64_small by (unfold is_u; nia). lia. }
    assert ((bytes mod mult * 1024)%u64 = bytes mod mult * 1024) as -> by (apply u64_small; unfold is_u; lia).
    set (r := bytes mod mult * 1024 / mult).
    assert ((if 1000 <=? r then 9 else r / 100) = tenth bytes mult) as ->.
    { unfold tenth. fold r. destruct (Z.leb_spec 1000 r).
      - assert (1000 / 100 <= r / 100) by (apply Z.div_le_mono; lia). change (1000 / 100) with 10 in *. lia.
      - assert (r / 100 < 10) by (apply Z.div_lt_upper_bound; lia). lia. }
    rewrite (snprintf_tenths b size Hsz Hsz' u Hu Hlen); [done|lia|]. unfold tenth. fold r.
    assert (0 <= r / 100); [|lia]. apply Z.div_pos; [|lia]. apply Z.div_pos; lia.
Qed.

Lemma human_text_line bytes (k := unit_of bytes) (mult := 1024 ^ k) :
  0 <= bytes < 2 ^ 50 ->
  exists name d, 0 <= k <= 4 /\ zlookup units k = Some name /\ (k = 0 \/ mult <= bytes) /\ bytes < 1024 * mult /\
    human_text bytes = human_line (bytes / mult) d name /\
    (bytes < 2 ^ 30 -> d = None) /\
    (2 ^ 30 <= bytes ->
       match d with
       | None => bytes = bytes / mult * mult
       | Some t => 0 <= t <= 9 /\ Z.abs (10 * bytes - (10 * (bytes / mult) + t) * mult) <= mult
       end).
Proof.
  intros Hb. pose proof (unit_of_nonneg bytes) as Hk0. fold k in Hk0. assert (k <= 4) as Hk4 by (apply unit_of_le; lia).
  destruct (unit_name k) as (u & Eu & _ & _); [lia|]. assert (0 < mult) as Hm by (apply Z.pow_pos_nonneg; lia).
  assert (bytes < 1024 * mult) as Hhigh.
  { assert (bytes < 1024 ^ (k + 1)) as Hlt by (apply unit_of_le; unfold k in *; lia). rewrite Z.pow_add_r in Hlt by lia. unfold mult. lia. }
  assert (k = 0 \/ mult <= bytes) as Hlow.
  { destruct (decide (k = 0)); [by left|right]. destruct (Z.le_gt_cases mult bytes); [done|].
    assert (unit_of bytes <= k - 1) as Hc; [|unfold k in *; lia]. apply unit_of_le; [lia|lia|]. by replace (k - 1 + 1) with k by lia. }
  assert (k < 3 <-> bytes < 2 ^ 30) as Hk3.
  { change (2 ^ 30) with (1024 ^ (2 + 1)). rewrite <- (unit_of_le bytes 2) by lia. fold k. lia. }
  unfold human_text. fold k mult. rewrite Eu. change (default [] (chars <$> Some u)) with (chars u). exists u.
  destruct ((k <? 3) || (bytes mod mult =? 0)) eqn:Hc.
  - exists None. do 5 (split; [done|]). split; [done|]. intros H30. apply orb_true_iff in Hc as [Hc|Hc]; [lia|].
    apply Z.eqb_eq in Hc. pose proof (Z.div_mod bytes mult ltac:(lia)). lia.
  - exists (Some (tenth bytes mult)). apply orb_false_iff in Hc as [Hc _]. do 5 (split; [done|]). split; [lia|]. intros _.
    split; [|by apply tenth_accurate; lia]. unfold tenth. split; [|lia].
    assert (0 <= bytes mod mult * 1024 / mult / 100); [|lia]. pose proof (Z.mod_pos_bound bytes mult Hm).
    apply Z.div_pos; [|lia]. apply Z.div_pos; lia.
Qed.

Lemma bytes_to_human_large bytes size b :
  2 ^ 50 <= bytes < 2 ^ 64 -> 1 <= size <= zlength b -> size < 2 ^ 64 ->
  bytes_to_human bytes size b =
    Done tt (place_string size (pad 5 false (chr " ") (num_text 10 (bytes / 2 ^ 50)) ++ chr " " :: chars "bytes") b).
Proof.
  intros Hb Hsz Hsz'. unfold bytes_to_human. assert (~ (unit_of bytes <= 4)) as Hk.
  { rewrite unit_of_le by lia. change (1024 ^ (4 + 1)) with (2 ^ 50). lia. }
  pose proof (unit_loop_ok 5 0 bytes ltac:(lia) ltac:(lia) ltac:(lia)) as Hl.
  change (1024 ^ 0) with 1 in Hl. rewrite Z.div_1_r in Hl. rewrite (proj2 (Z.ltb_ge _ _)) in Hl by lia. change (length units) with 5%nat.
  rewrite Hl. change (1024 ^ (0 + Z.of_nat 5)) with (2 ^ 50). change (zlookup units 0) with (Some "bytes"). simpl orb. cbv iota.
  unfold mbind, M_bind. simpl lift. unfold mret, M_ret. rewrite (snprintf_whole b size Hsz Hsz' "bytes"); [done| |done|].
  - repeat constructor; discriminate.
  - split; [apply Z.div_pos; lia|]. apply Z.div_lt_upper_bound; lia.
Qed.

(** A size with room for the text and its terminator shows all of it. *)
Lemma place_string_fits size t b : zlength t < size -> place_string size t b = t ++ 0 :: drop (S (length t)) b.
Proof.
  intros Hlt. unfold place_string, zlength in *. replace (Z.to_nat (Z.min (size - 1) (Z.of_nat (length t)))) with (length t) by lia.
  by rewrite firstn_all.
Qed.

Lemma num_text_val b v : 2 <= b <= 16 -> 0 <= v < 2 ^ 64 -> num_val b (num_text b v) = v.
Proof. intros Hb Hv. unfold num_text. destruct (Z.eqb_spec v 0) as [->|]; [done|by apply pos_text_val]. Qed.

Lemma snprintf_long k base v b size :
  (k = chr "u" /\ base = 10) \/ (k = chr "x" /\ base = 16) -> 0 <= v < 2 ^ 64 -> 21 <= size <= zlength b -> size < 2 ^ 64 ->
  snprintf size (chars "%l" ++ [k; 0]) [VaInt v] b =
    let t := num_text base v in Done (zlength t) (t ++ 0 :: drop (S (length t)) b).
Proof.
  intros Hk Hv Hsz Hsz'. assert (base = 10 \/ base = 16) as Hbase by tauto. pose proof (num_text_length_64 base v Hbase Hv) as Hlen.
  set (c := mk_conv false None 0 true k).
  cbv zeta. rewrite <- (place_string_fits size) by lia.
  change (chars "%l" ++ [k; 0]) with (print_items [Conv c] ++ [0]).
  apply vsnprintf_ok; [| |unfold c|lia|lia|done].
  - constructor; [|constructor]. destruct Hk as [[-> _]|[-> _]]; (split; [simpl; lia|]); repeat split; try (by left); vm_compute; intuition congruence.
  - by repeat constructor.
  - destruct Hk as [[-> ->]|[-> ->]]; cbn [render]; unfold render_conv; simpl; by rewrite pad_0, app_nil_r, u64_small.
Qed.

(** ** Properties *)

(** C15: for a format made of literal characters and conversions, [vsnprintf]
    writes exactly the text the format denotes, cut to the buffer less one,
    and the terminator after it, leaves the rest of the buffer as it was, and
    returns the length of the whole text, whether or not it fitted; a buffer of
    no bytes is not touched. *)
Theorem vsnprintf_correct size items args t b :
  Forall item_ok items -> Forall va_ok args -> render items args = Some t -> zlength t < 2 ^ 31 ->
  1 <= size <= zlength b -> size < 2 ^ 64 ->
  vsnprintf size (print_items items ++ [0]) args b = Done (zlength t) (place_string size t b) /\
  vsnprintf 0 (print_items items ++ [0]) args b = Done 0 b.
Proof. intros. split; [by apply vsnprintf_ok|done]. Qed.

Lemma vsnprintf_correct_witness :
  let items := [Conv (mk_conv false (Some (chr "0")) 5 false (chr "d")); Lit (chr ","); Conv (mk_conv true None 4 false (chr "s")); Lit (chr "!")] in
  print_items items = chars "%05d,%-4s!" /\
  vsnprintf 9 (print_items items ++ [0]) [VaInt (-42); VaStr (cstr "ab")] (replicate 12 7) =
    Done 11 (chars "-0042,ab" ++ [0; 7; 7; 7]).
Proof.
  intros items. split; [vm_compute; reflexivity|].
  destruct (vsnprintf_correct 9 items [VaInt (-42); VaStr (cstr "ab")] (chars "-0042,ab  !") (replicate 12 7)) as [H _].
  - subst items. items_ok.
  - repeat constructor. exists (chars "ab"), []. split; [reflexivity|]. split; [repeat constructor; discriminate|vm_compute; reflexivity].
  - vm_compute. reflexivity.
  - vm_compute. reflexivity.
  - vm_compute. split; congruence.
  - vm_compute. reflexivity.
  - exact H.
Defined.

(** C26: printing any [uint64_t] with [%lu] or [%lx] into a buffer with room for
    20 characters gives a terminated numeral, in decimal or hexadecimal, that
    reads back as that value. *)
Theorem snprintf_number_roundtrip v b size :
  0 <= v < 2 ^ 64 -> 21 <= size <= zlength b -> size < 2 ^ 64 ->
  (exists t, snprintf size (cstr "%lu") [VaInt v] b = Done (zlength t) (t ++ 0 :: drop (S (length t)) b) /\
    text t /\ num_val 10 t = v) /\
  (exists t, snprintf size (cstr "%lx") [VaInt v] b = Done (zlength t) (t ++ 0 :: drop (S (length t)) b) /\
    text t /\ num_val 16 t = v).
Proof.
  intros Hv Hsz Hsz'. split.
  - exists (num_text 10 v). split; [apply (snprintf_long (chr "u") 10); auto|]. split; [apply num_text_text; lia|apply num_text_val; lia].
  - exists (num_text 16 v). split; [apply (snprintf_long (chr "x") 16); auto|]. split; [apply num_text_text; lia|apply num_text_val; lia].
Qed.

Lemma snprintf_number_roundtrip_witness :
  exists t, snprintf 21 (cstr "%lu") [VaInt (2 ^ 64 - 1)] (replicate 21 0) = Done (zlength t) (t ++ 0 :: drop (S (length t)) (replicate 21 0)) /\
    num_val 10 t = 2 ^ 64 - 1.
Proof.
  destruct (snprintf_number_roundtrip (2 ^ 64 - 1) (replicate 21 0) 21) as [(t & H & _ & Hv) _].
  - split; [discriminate|reflexivity].
  - split; vm_compute; congruence.
  - reflexivity.
  - exists t. split; [exact H|exact Hv].
Defined.

(** C18: [vsnprintf] ends for every format, arguments, size and buffer, well
    formed or not: it returns or leaves a bound (an argument of the wrong kind, a
    format without its terminator), but never loops. *)
Theorem vsnprintf_terminates size fmt ap b :
  vsnprintf size fmt ap b <> Hang /\ forall msg, vsnprintf size fmt ap b <> Panic msg.
Proof.
  unfold vsnprintf. destruct (size =? 0); [done|]. destruct (ends_loop (S (length fmt)) fmt ap ltac:(lia) (mk_vs b size 0)) as [H1 H2].
  destruct (vsnprintf_loop (S (length fmt)) fmt ap (mk_vs b size 0)) as [u st|msg| |]; [|by destruct (H2 msg)|done|done].
  cbv zeta. by destruct (zstore _ _ 0).
Qed.

(** C30: what [bytes_to_human] shows. Below 1 PiB it uses the largest unit not
    above the size. Below 1 GiB it shows the number of whole units, rounded down
    and with no fraction. From 1 GiB on it shows either a whole number of units,
    when the size is exactly that, or the whole units and a tenth, off by at most
    one tenth of the unit. From 1 PiB on it shows the number of PiB and calls
    them bytes. *)
Theorem bytes_to_human_correct bytes size b :
  0 <= bytes < 2 ^ 64 -> 1 <= size <= zlength b -> size < 2 ^ 64 ->
  exists k q d name, let mult := 1024 ^ k in
    bytes_to_human bytes size b = Done tt (place_string size (human_line q d name) b) /\
    (bytes < 2 ^ 50 ->
       0 <= k <= 4 /\ zlookup units k = Some name /\ (k = 0 \/ mult <= bytes) /\ bytes < 1024 * mult /\
       (bytes < 2 ^ 30 -> d = None /\ q = bytes / mult) /\
       (2 ^ 30 <= bytes ->
          match d with
          | None => bytes = q * mult
          | Some t => q = bytes / mult /\ 0 <= t <= 9 /\ Z.abs (10 * bytes - (10 * q + t) * mult) <= mult
          end)) /\
    (2 ^ 50 <= bytes -> q = bytes / 2 ^ 50 /\ d = None /\ name = "bytes").
Proof.
  intros Hb Hsz Hsz'. destruct (Z.lt_ge_cases bytes (2 ^ 50)) as [Hlt|Hge].
  - destruct (human_text_line bytes) as (name & d & Hk & Hname & Hlow & Hhigh & Ht & Hsmall & Hlarge); [lia|].
    exists (unit_of bytes), (bytes / 1024 ^ unit_of bytes), d, name. rewrite bytes_to_human_ok, Ht by lia.
    split; [done|]. split; [|lia]. intros _. split; [done|]. split; [done|]. split; [done|]. split; [done|]. split; [auto|].
    intros H30. specialize (Hlarge H30). by destruct d.
  - exists 5, (bytes / 2 ^ 50), None, "bytes". rewrite bytes_to_human_large by lia. split; [done|]. split; [lia|done].
Qed.

Lemma bytes_to_human_correct_witness :
  bytes_to_human 1536 16 (replicate 16 7) = Done tt (chars "    1 KiB" ++ 0 :: replicate 6 7) /\
  bytes_to_human (2 ^ 51) 16 (replicate 16 7) = Done tt (chars "    2 bytes" ++ 0 :: replicate 4 7).
Proof.
  split.
  - destruct (bytes_to_human_correct 1536 16 (replicate 16 7)) as (k & q & d & name & H & Hsmall & _);
      [lia|split; vm_compute; congruence|lia|].
    destruct Hsmall as (Hk & Hname & Hlow & Hhigh & Hd & _); [lia|]. destruct Hd as [-> ->]; [lia|].
    assert (k = 1) as ->.
    { assert (k = 0 \/ k = 1 \/ k = 2 \/ k = 3 \/ k = 4) as [->|[->|[->|[->| ->]]]] by lia; lia. }
    injection Hname as <-. exact H.
  - destruct (bytes_to_human_correct (2 ^ 51) 16 (replicate 16 7)) as (k & q & d & name & H & _ & Hlarge);
      [lia|split; vm_compute; congruence|lia|].
    destruct Hlarge as (-> & -> & ->); [lia|]. exact H.
Defined.
