(* ===== verification/Console.v ===== *)
(** * The early console (early/video.c, early/serial.c, include/early_io.h)

    Text goes to the serial port and, line by line, to the screen: [putc] writes
    a buffer of one row more than the screen has, [newline] scrolls it and
    copies it to video memory. Both are bytes of the memory of CString at their
    direct-map addresses. The serial device is the list of status values its
    line status register will show, and the list of the port writes made.

    The reference for the screen is a list of complete lines and the line being
    written: the screen shows the last 25 complete lines, each cut with a dot. *)

From stdpp Require Import base strings numbers gmap list.
From Stdlib Require Import ZArith Lia Ascii.
From S2P Require Import Prelude MmDefs CString Format.

(** ** Data *)

Definition ROWS : Z := 25.
Definition COLS : Z := 80.
Definition MEMORY_SIZE : Z := 2 * ROWS * COLS.
Definition BUFFER_SIZE : Z := MEMORY_SIZE + 2 * COLS.

Definition EARLY_VIDEO_MEMORY_ADDRESS : Z := KERNEL_DIRECT_MAP_BASE + 0xb8000.
Definition EARLY_VIDEO_BUFFER_ADDRESS : Z := KERNEL_DIRECT_MAP_BASE + 0x7000.

Record video := mk_video { mem : bytes; curr_row : Z; curr_col : Z }.

Abbreviation VD := (M video).

Definition mem_op {A} (m : M bytes A) : VD A := zoom mem (fun b v => mk_video b (curr_row v) (curr_col v)) m.

(** ** early/video.c *)

Definition get_buf : VD Z :=
  v ← get;
  let index := u64 (2 * (curr_row v * COLS + Z.rem (curr_col v) COLS)) in
  mret (EARLY_VIDEO_BUFFER_ADDRESS + index).

Definition put_cell (chr : Z) : VD unit :=
  buf ← get_buf;
  mem_op (store_byte buf chr);;
  mem_op (store_byte (buf + 1) 15).

Definition putc (c : Z) : VD unit :=
  v ← get;
  (if curr_col v =? COLS - 2 then put_cell (chr ".")
   else if COLS - 2 <? curr_col v then mret tt
   else put_cell c);;
  modify (fun v => mk_video (mem v) (curr_row v) (i32 (curr_col v + 1))).

Definition scroll_down : VD unit :=
  let target := EARLY_VIDEO_BUFFER_ADDRESS in
  mem_op (memcpy target (target + 2 * COLS) MEMORY_SIZE);;
  mem_op (memset (target + MEMORY_SIZE) 0 (2 * COLS));;
  mret tt.

Definition flush : VD unit :=
  mem_op (for_loop (Z.to_nat MEMORY_SIZE) 0 (fun i =>
    b ← load_byte (EARLY_VIDEO_BUFFER_ADDRESS + i);
    store_byte (EARLY_VIDEO_MEMORY_ADDRESS + i) b)).

Definition newline : VD unit :=
  v ← get;
  (if curr_row v =? ROWS then scroll_down
   else modify (fun v => mk_video (mem v) (curr_row v + 1) (curr_col v)));;
  modify (fun v => mk_video (mem v) (curr_row v) 0);;
  flush.

Definition puttab : VD unit := for_loop 8 0 (fun _ => putc (chr " ")).

Definition early_video_init : VD unit :=
  mem_op (memset EARLY_VIDEO_BUFFER_ADDRESS 0 BUFFER_SIZE);;
  mret tt.

Fixpoint puts_loop (str : list Z) : VD unit :=
  match str with
  | [] => undef
  | c :: str' =>
      if c =? 0 then mret tt
      else
        (if c =? 10 then newline else if c =? 9 then puttab else putc c);;
        puts_loop str'
  end.

(** [None] is the null pointer. *)
Definition early_video_puts (str : option (list Z)) : VD unit :=
  match str with
  | None => mret tt
  | Some str => puts_loop str
  end.

Definition early_video_size : Z := MEMORY_SIZE.

(** ** early/serial.c *)

Definition COM1 : Z := 0x3f8.
Definition BAUD_RATE : Z := 115200.
Definition BASE_BAUD_RATE : Z := 115200.
Definition DLAB_FLAG : Z := 0x80.
Definition MODE_8N1 : Z := 3.
Definition LSR_THR : Z := 0x20.

(** The values the line status register will show, and the port writes. *)
Record serial := mk_serial { lsr : list Z; outs : list (Z * Z) }.

Abbreviation SP := (M serial).

Definition outb (port data : Z) : SP unit := modify (fun s => mk_serial (lsr s) (outs s ++ [(port, data)])).

Definition early_serial_init_poll : SP unit :=
  let ratio := u16 (BAUD_RATE / BASE_BAUD_RATE) in
  outb (COM1 + 1) 0;;
  outb (COM1 + 3) DLAB_FLAG;;
  outb COM1 (u8 ratio);;
  outb (COM1 + 1) (u8 (Z.shiftr ratio 8));;
  outb (COM1 + 3) MODE_8N1;;
  outb (COM1 + 4) 0.

(** The condition of the busy-wait on a value of the register. *)
Definition can_output_char (status : Z) : bool := negb (Z.land status LSR_THR =? 0).

(** [while (!can_output_char());], each turn reading the register; a device
    that never shows the flag keeps it waiting. *)
Fixpoint wait_ready (l : list Z) : option (list Z) :=
  match l with
  | [] => None
  | status :: l' => if can_output_char status then Some l' else wait_ready l'
  end.

Definition early_serial_putc (c : Z) : SP unit := fun s =>
  match wait_ready (lsr s) with
  | Some l => outb COM1 (u8 c) (mk_serial l (outs s))
  | None => Hang
  end.

Fixpoint early_serial_puts (str : list Z) : SP unit :=
  match str with
  | [] => undef
  | c :: str' => if c =? 0 then mret tt else early_serial_putc c;; early_serial_puts str'
  end.

(** ** include/early_io.h *)

Definition EARLY_PRINTF_BUFFER_SIZE : Z := 1024.

Record early_io := mk_io { screen : video; port : serial }.

Abbreviation IO := (M early_io).

Definition on_screen {A} (m : VD A) : IO A := zoom screen (fun v s => mk_io v (port s)) m.

Definition on_port {A} (m : SP A) : IO A := zoom port (fun p s => mk_io (screen s) p) m.

(** The local buffer is not initialised; [vsnprintf] terminates what it wrote. *)
Definition early_vprintf (fmt : list Z) (ap : list va) : IO Z := fun s =>
  match vsnprintf EARLY_PRINTF_BUFFER_SIZE fmt ap (replicate (Z.to_nat EARLY_PRINTF_BUFFER_SIZE) 0) with
  | Done ret buf => (on_port (early_serial_puts buf);; on_screen (early_video_puts (Some buf));; mret ret) s
  | Panic msg => Panic msg
  | Hang => Hang
  | Undef => Undef
  end.

Definition early_printf (fmt : list Z) (args : list va) : IO Z := early_vprintf fmt args.

Definition early_puts (str : list Z) : IO Z := early_printf (chars "%s" ++ [10; 0]) [VaStr str].

(** What a panic prints before it halts. *)
Definition early_vpanic_text (fmt : list Z) (ap : list va) : IO unit :=
  early_printf (cstr "PANIC (early) ") [];;
  early_vprintf fmt ap;;
  early_printf [10; 0] [];;
  mret tt.

Definition _early_vpanic {A} (fmt : list Z) (ap : list va) : IO A :=
  early_vpanic_text fmt ap;;
  hang.

Definition _early_panic {A} (fmt : list Z) (args : list va) : IO A := _early_vpanic fmt args.

(** ** Reference *)

(** A byte of a row: every written column holds its character and the colour
    15; the line is cut at column 78, which shows a dot. *)
Definition row_byte (l : list Z) (j : Z) : Z :=
  let c := j / 2 in
  if c <? Z.min (zlength l) (COLS - 1) then
    if Z.odd j then 15 else if c =? COLS - 2 then chr "." else u8 (default 0 (zlookup l c))
  else 0.

(** A byte of the rows [V], the missing ones blank. *)
Definition screen_byte (V : list (list Z)) (i : Z) : Z := row_byte (default [] (zlookup V (i / 160))) (i mod 160).

(** The console: complete lines, the line being written, and the lines on the
    screen, known from the first newline on. *)
Record console := mk_console { lines : list (list Z); cur : list Z; shown : option (list (list Z)) }.

Definition last_rows (l : list (list Z)) : list (list Z) := drop (length l - 25) l.

Definition visible (a : console) : list (list Z) := last_rows (lines a) ++ [cur a].

Definition feed_char (a : console) (c : Z) : console :=
  if c =? 10 then
    let lines' := lines a ++ [cur a] in
    mk_console lines' [] (Some (last_rows lines'))
  else if c =? 9 then mk_console (lines a) (cur a ++ replicate 8 (chr " ")) (shown a)
  else mk_console (lines a) (cur a ++ [c]) (shown a).

Definition feed (a : console) (t : list Z) : console := fold_left feed_char t a.

(** The bytes from [p] are the rows [V]. *)
Definition shows (m : bytes) (p n : Z) (V : list (list Z)) : Prop :=
  forall i, 0 <= i < n -> m !! (p + i) = Some (screen_byte V i).

Record represents (v : video) (a : console) : Prop := {
  rep_row : curr_row v = Z.min (zlength (lines a)) ROWS;
  rep_col : curr_col v = zlength (cur a);
  rep_buf : shows (mem v) EARLY_VIDEO_BUFFER_ADDRESS BUFFER_SIZE (visible a);
  rep_mem : forall i, 0 <= i < MEMORY_SIZE -> is_Some (mem v !! (EARLY_VIDEO_MEMORY_ADDRESS + i));
  rep_screen : forall V, shown a = Some V -> shows (mem v) EARLY_VIDEO_MEMORY_ADDRESS MEMORY_SIZE V;
}.

(** ** Lemmas *)

Lemma row_byte_u8 l j : is_u8 (row_byte l j).
Proof.
  unfold row_byte. repeat case_match; try (split; [lia|reflexivity]); try (vm_compute; split; congruence).
  unfold u8, wrap, is_u. apply Z.mod_pos_bound. lia.
Qed.

Lemma screen_byte_u8 V i : is_u8 (screen_byte V i).
Proof. apply row_byte_u8. Qed.

Lemma screen_byte_scroll V i : 0 <= i -> screen_byte V (i + 160) = screen_byte (drop 1 V) i.
Proof.
  intros Hi. unfold screen_byte. replace (i + 160) with (i + 1 * 160) by lia. rewrite Z.div_add, Z.mod_add by lia.
  assert (0 <= i / 160) by (apply Z.div_pos; lia). do 2 f_equal.
  unfold zlookup. rewrite !decide_True by lia. rewrite lookup_drop. f_equal. lia.
Qed.

(** Blank rows at the end make no difference. *)
Lemma screen_byte_blank V i : 0 <= i -> screen_byte (V ++ [[]]) i = screen_byte V i.
Proof.
  intros Hi. unfold screen_byte. f_equal. unfold zlookup. assert (0 <= i / 160) by (apply Z.div_pos; lia). rewrite !decide_True by lia.
  destruct (decide (Z.to_nat (i / 160) < length V)%nat); [by rewrite lookup_app_l|].
  rewrite lookup_app_r, (lookup_ge_None_2 V) by lia. by destruct (Z.to_nat (i / 160) - length V)%nat as [|[]].
Qed.

(** Writing a character to the last row. *)
Lemma row_byte_snoc l c j :
  0 <= j < 160 ->
  row_byte (l ++ [c]) j =
    if decide (zlength l < COLS - 1 /\ j = 2 * zlength l) then if zlength l =? COLS - 2 then chr "." else u8 c
    else if decide (zlength l < COLS - 1 /\ j = 2 * zlength l + 1) then 15 else row_byte l j.
Proof.
  intros Hj. pose proof (zlength_nonneg l). unfold row_byte. rewrite zlength_app. change (zlength [c]) with 1.
  pose proof (Z.div_mod j 2). pose proof (Z.mod_pos_bound j 2). pose proof (Zmod_odd j) as Hodd. unfold COLS in *. change (80 - 1) with 79.
  destruct (Z.lt_trichotomy (j / 2) (zlength l)) as [Hlt|[Heq|Hgt]].
  - rewrite decide_False by (destruct (Z.odd j); lia). rewrite decide_False by (destruct (Z.odd j); lia).
    replace (zlookup (l ++ [c]) (j / 2)) with (zlookup l (j / 2)).
    2:{ unfold zlookup. rewrite !decide_True by lia. rewrite lookup_app_l by (unfold zlength in *; lia). done. }
    destruct (Z.ltb_spec (j / 2) (Z.min (zlength l) 79)), (Z.ltb_spec (j / 2) (Z.min (zlength l + 1) 79)); (done || lia).
  - destruct (Z.ltb_spec (j / 2) (Z.min (zlength l) 79)), (Z.ltb_spec (j / 2) (Z.min (zlength l + 1) 79)); try lia.
    + rewrite Heq. destruct (Z.odd j).
      * rewrite decide_False, decide_True by lia. done.
      * rewrite decide_True by lia. destruct (zlength l =? 80 - 2); [done|]. unfold zlookup. rewrite decide_True by lia.
        rewrite lookup_app_r by (unfold zlength; lia). unfold zlength. by rewrite Nat2Z.id, Nat.sub_diag.
    + rewrite !decide_False by lia. done.
  - rewrite !decide_False by lia.
    destruct (Z.ltb_spec (j / 2) (Z.min (zlength l) 79)), (Z.ltb_spec (j / 2) (Z.min (zlength l + 1) 79)); (done || lia).
Qed.

Lemma screen_byte_snoc W l c i (p := 160 * zlength W + 2 * zlength l) :
  0 <= i ->
  screen_byte (W ++ [l ++ [c]]) i =
    if decide (zlength l < COLS - 1 /\ i = p) then if zlength l =? COLS - 2 then chr "." else u8 c
    else if decide (zlength l < COLS - 1 /\ i = p + 1) then 15 else screen_byte (W ++ [l]) i.
Proof.
  intros Hi. pose proof (Z.div_mod i 160). pose proof (Z.mod_pos_bound i 160). pose proof (zlength_nonneg l). unfold screen_byte, p.
  assert (0 <= i / 160) by (apply Z.div_pos; lia). unfold COLS in *.
  destruct (Z.eq_dec (i / 160) (zlength W)) as [Heq|Hne].
  - assert (forall x : list Z, zlookup (W ++ [x]) (i / 160) = Some x) as Hlk.
    { intros x. unfold zlookup. rewrite decide_True by lia. rewrite Heq. unfold zlength. rewrite Nat2Z.id. by apply list_lookup_middle. }
    rewrite !Hlk. simpl default. rewrite row_byte_snoc by lia. unfold COLS. repeat case_decide; try done; lia.
  - rewrite !decide_False by lia. f_equal. unfold zlookup, zlength in *. rewrite !decide_True by lia.
    destruct (decide (Z.to_nat (i / 160) < length W)%nat); [by rewrite !lookup_app_l|].
    rewrite !lookup_app_r by lia. destruct (Z.to_nat (i / 160) - length W)%nat as [|[]] eqn:E; [lia|done..].
Qed.

Lemma wp_mem_op {A} (m : M bytes A) v Q :
  wp m (mem v) (fun a b => Q a (mk_video b (curr_row v) (curr_col v))) -> wp (mem_op m) v Q.
Proof. unfold wp, mem_op, zoom. by destruct (m (mem v)). Qed.

Lemma length_last_rows l : zlength (last_rows l) = Z.min (zlength l) ROWS.
Proof. unfold last_rows, zlength, ROWS. rewrite length_drop. lia. Qed.

Lemma buf_vid_disjoint i j :
  0 <= i < BUFFER_SIZE -> 0 <= j < MEMORY_SIZE -> EARLY_VIDEO_BUFFER_ADDRESS + i <> EARLY_VIDEO_MEMORY_ADDRESS + j.
Proof. unfold EARLY_VIDEO_BUFFER_ADDRESS, EARLY_VIDEO_MEMORY_ADDRESS, BUFFER_SIZE, MEMORY_SIZE, ROWS, COLS. lia. Qed.

(** Writing a cell of the buffer. *)
Lemma put_cell_ok v a c (p := EARLY_VIDEO_BUFFER_ADDRESS + (160 * curr_row v + 2 * curr_col v)) :
  represents v a -> curr_col v < COLS ->
  wp (put_cell c) v (fun _ v' => v' = mk_video (<[p + 1 := 15]> (<[p := u8 c]> (mem v))) (curr_row v) (curr_col v)).
Proof.
  intros Hr Hcol. pose proof (rep_row _ _ Hr). pose proof (rep_col _ _ Hr). pose proof (zlength_nonneg (lines a)). pose proof (zlength_nonneg (cur a)).
  unfold COLS, ROWS in *.
  assert (forall d, 0 <= d < 2 -> is_Some (mem v !! (p + d))) as Hm.
  { intros d Hd. exists (screen_byte (visible a) (160 * curr_row v + 2 * curr_col v + d)).
    rewrite <- (rep_buf _ _ Hr) by (unfold BUFFER_SIZE, MEMORY_SIZE, ROWS, COLS; lia). f_equal. unfold p. lia. }
  apply wp_bind, wp_bind, wp_get, wp_ret. unfold COLS. rewrite Z.rem_small by lia.
  replace (u64 (2 * (curr_row v * 80 + curr_col v))) with (160 * curr_row v + 2 * curr_col v) by (rewrite u64_small; unfold is_u; lia).
  fold p. apply wp_bind, wp_mem_op. eapply wp_mono; [apply store_byte_ok; rewrite <- (Z.add_0_r p); apply Hm; lia|]. intros ? m1 ->.
  apply wp_mem_op. eapply wp_mono; [apply store_byte_ok; cbn; rewrite lookup_insert_ne by lia; apply Hm; lia|]. intros ? m2 ->. done.
Qed.

Lemma putc_ok v a c :
  represents v a -> zlength (cur a) < 2 ^ 31 - 1 ->
  wp (putc c) v (fun _ v' => represents v' (mk_console (lines a) (cur a ++ [c]) (shown a))).
Proof.
  intros Hr Hlen. pose proof (rep_row _ _ Hr) as Hrow. pose proof (rep_col _ _ Hr) as Hcol.
  pose proof (zlength_nonneg (lines a)). pose proof (zlength_nonneg (cur a)).
  set (k := if curr_col v =? COLS - 2 then chr "." else c).
  set (p := EARLY_VIDEO_BUFFER_ADDRESS + (160 * curr_row v + 2 * curr_col v)).
  assert (wp (if curr_col v =? COLS - 2 then put_cell (chr ".") else if COLS - 2 <? curr_col v then mret tt else put_cell c) v
    (fun _ v' => v' = mk_video (if decide (curr_col v < COLS - 1) then <[p + 1 := 15]> (<[p := u8 k]> (mem v)) else mem v) (curr_row v) (curr_col v))) as Hw.
  { unfold k, COLS in *. destruct (Z.eqb_spec (curr_col v) (80 - 2)); [|destruct (Z.ltb_spec (80 - 2) (curr_col v))].
    - rewrite decide_True by lia. apply (put_cell_ok v a (chr ".")); [done|unfold COLS; lia].
    - rewrite decide_False by lia. by destruct v.
    - rewrite decide_True by lia. apply (put_cell_ok v a c); [done|unfold COLS; lia]. }
  apply wp_bind, wp_get, wp_bind. eapply wp_mono; [exact Hw|]. intros ? v' ->. apply wp_modify. cbn [mem curr_row curr_col].
  rewrite i32_small by lia.
  assert (forall i, 0 <= i < MEMORY_SIZE -> (if decide (curr_col v < COLS - 1) then <[p + 1 := 15]> (<[p := u8 k]> (mem v)) else mem v) !!
    (EARLY_VIDEO_MEMORY_ADDRESS + i) = mem v !! (EARLY_VIDEO_MEMORY_ADDRESS + i)) as Hvid.
  { intros i Hi. case_decide; [|done]. unfold COLS, ROWS in *.
    pose proof (buf_vid_disjoint (160 * curr_row v + 2 * curr_col v) i). pose proof (buf_vid_disjoint (160 * curr_row v + 2 * curr_col v + 1) i).
    unfold BUFFER_SIZE, MEMORY_SIZE, ROWS, COLS in *. rewrite !lookup_insert_ne by (unfold p; lia). done. }
  split; cbn [mem curr_row curr_col lines cur shown].
  - done.
  - rewrite zlength_app. change (zlength [c]) with 1. lia.
  - intros i Hi. unfold visible. cbn [lines cur]. rewrite screen_byte_snoc by lia. rewrite length_last_rows, <- Hrow, <- Hcol.
    pose proof (rep_buf _ _ Hr i Hi) as Hb. unfold visible in Hb. repeat case_decide; try lia.
    + destruct_and?; subst i. rewrite lookup_insert_ne by (unfold p; lia). unfold p. rewrite lookup_insert_eq. unfold k. by case_match.
    + destruct_and?; subst i. replace (EARLY_VIDEO_BUFFER_ADDRESS + (160 * curr_row v + 2 * curr_col v + 1)) with (p + 1) by (unfold p; lia).
      by rewrite lookup_insert_eq.
    + rewrite !lookup_insert_ne by (unfold p; lia). done.
    + done.
  - intros i Hi. rewrite Hvid by done. by apply (rep_mem _ _ Hr).
  - intros V HV i Hi. rewrite Hvid by done. by apply (rep_screen _ _ Hr).
Qed.

Lemma shows_mapped m p n V q k : shows m p n V -> 0 <= q -> q + k <= n -> mapped m (p + q) k.
Proof.
  intros Hs Hq Hk i Hi. exists (screen_byte V (q + i)). split; [|apply screen_byte_u8].
  rewrite <- (Hs (q + i)) by lia. f_equal. lia.
Qed.

(** The copy of [flush] is that of [memcpy]. *)
Lemma flush_ok v V :
  shows (mem v) EARLY_VIDEO_BUFFER_ADDRESS BUFFER_SIZE V ->
  (forall i, 0 <= i < MEMORY_SIZE -> is_Some (mem v !! (EARLY_VIDEO_MEMORY_ADDRESS + i))) ->
  wp flush v (fun _ v' => curr_row v' = curr_row v /\ curr_col v' = curr_col v /\
    shows (mem v') EARLY_VIDEO_BUFFER_ADDRESS BUFFER_SIZE V /\ shows (mem v') EARLY_VIDEO_MEMORY_ADDRESS MEMORY_SIZE V).
Proof.
  intros Hb Hv. apply wp_mem_op. set (B := EARLY_VIDEO_BUFFER_ADDRESS) in *. set (D := EARLY_VIDEO_MEMORY_ADDRESS) in *.
  set (I (k : nat) (m : bytes) := (forall i, 0 <= i < BUFFER_SIZE -> m !! (B + i) = Some (screen_byte V i)) /\
    (forall i, 0 <= i < MEMORY_SIZE -> is_Some (m !! (D + i))) /\ forall i, 0 <= i < Z.of_nat k -> m !! (D + i) = Some (screen_byte V i)).
  eapply wp_mono; [apply (wp_for_loop I)|].
  - split; [done|]. split; [done|]. lia.
  - intros k m Hk (H1 & H2 & H3). assert (0 <= Z.of_nat k < MEMORY_SIZE) as Hk' by lia. rewrite Z.add_0_l.
    apply wp_bind. unfold load_byte. eapply wp_lift; [apply H1; unfold BUFFER_SIZE, MEMORY_SIZE, ROWS, COLS in *; lia|].
    eapply wp_mono; [by apply store_byte_ok, H2|]. intros ? ? ->. assert (u8 (screen_byte V (Z.of_nat k)) = screen_byte V (Z.of_nat k)) as ->
      by apply wrap_small, screen_byte_u8.
    split; [|split].
    + intros i Hi. pose proof (buf_vid_disjoint i (Z.of_nat k) Hi Hk'). rewrite lookup_insert_ne by (unfold B, D; done). by apply H1.
    + intros i Hi. destruct (decide (i = Z.of_nat k)) as [->|]; [rewrite lookup_insert_eq; done|]. rewrite lookup_insert_ne by lia. by apply H2.
    + intros i Hi. destruct (decide (i = Z.of_nat k)) as [->|]; [by rewrite lookup_insert_eq|]. rewrite lookup_insert_ne by lia. apply H3. lia.
  - intros ? m (H1 & _ & H3). split; [done|]. split; [done|]. split; [done|]. intros i Hi. apply H3. lia.
Qed.

(** Scrolling drops the first row and adds a blank one. *)
Lemma scroll_down_ok v V :
  zlength V = 26 -> shows (mem v) EARLY_VIDEO_BUFFER_ADDRESS BUFFER_SIZE V ->
  wp scroll_down v (fun _ v' => curr_row v' = curr_row v /\ curr_col v' = curr_col v /\
    shows (mem v') EARLY_VIDEO_BUFFER_ADDRESS BUFFER_SIZE (drop 1 V) /\
    forall i, 0 <= i < MEMORY_SIZE -> mem v' !! (EARLY_VIDEO_MEMORY_ADDRESS + i) = mem v !! (EARLY_VIDEO_MEMORY_ADDRESS + i)).
Proof.
  intros HV Hs. set (B := EARLY_VIDEO_BUFFER_ADDRESS) in *. change BUFFER_SIZE with 4160 in *. change MEMORY_SIZE with 4000 in *.
  unfold scroll_down. fold B. change MEMORY_SIZE with 4000. change (2 * COLS) with 160.
  apply wp_bind, wp_mem_op. eapply wp_mono; [apply (memcpy_ok (mem v) B (B + 160) 4000)|].
  - rewrite <- (Z.add_0_r B). eapply shows_mapped; [exact Hs|lia..].
  - eapply shows_mapped; [exact Hs|lia..].
  - lia.
  - cbv beta. intros ? m1 [_ H1]. apply wp_bind, wp_mem_op. cbn [mem curr_row curr_col].
    eapply wp_mono; [apply (memset_ok m1 (B + 4000) 0 160)|].
    { intros i Hi. destruct (shows_mapped _ _ _ _ 4000 160 Hs ltac:(lia) ltac:(lia) i Hi) as (b & Eb & Hb). exists b. split; [|done].
      rewrite H1, decide_False by lia. done. }
    cbv beta. intros ? m2 [_ H2]. apply wp_ret. cbn [mem curr_row curr_col]. split; [done|]. split; [done|]. split.
    + intros i Hi. rewrite H2. destruct (decide (B + 4000 <= B + i < B + 4000 + 160)) as [Hin|Hout].
      * unfold screen_byte.
        assert (zlookup (drop 1 V) (i / 160) = None) as ->; [|unfold row_byte; change (zlength (default [] (@None (list Z)))) with 0].
        { assert (25 <= i / 160) by (apply Z.div_le_lower_bound; lia). unfold zlookup, zlength in *. rewrite decide_True by lia.
          apply lookup_ge_None_2. rewrite length_drop. lia. }
        change (u8 0) with 0. unfold COLS. destruct (Z.ltb_spec (i mod 160 / 2) (Z.min 0 (80 - 1))); [|done].
        pose proof (Z.div_pos (i mod 160) 2). pose proof (Z.mod_pos_bound i 160). lia.
      * rewrite H1, decide_True by lia. replace (B + 160 + (B + i - B)) with (B + (i + 160)) by lia. rewrite Hs by lia.
        by rewrite screen_byte_scroll by lia.
    + intros i Hi. assert (EARLY_VIDEO_MEMORY_ADDRESS = B + 724992) as -> by reflexivity.
      rewrite H2, decide_False, H1, decide_False by lia. done.
Qed.

Lemma last_rows_snoc_full l x : 25 <= zlength l -> last_rows (l ++ [x]) = drop 1 (last_rows l ++ [x]).
Proof.
  intros Hl. unfold last_rows, zlength in *. rewrite length_app. simpl length.
  rewrite <- (drop_app_le l [x]) by lia. rewrite drop_drop. f_equal. lia.
Qed.

Lemma last_rows_snoc_short l x : zlength l < 25 -> last_rows (l ++ [x]) = last_rows l ++ [x].
Proof.
  intros Hl. unfold last_rows, zlength in *. rewrite length_app. simpl length.
  replace (length l + 1 - 25)%nat with 0%nat by lia. replace (length l - 25)%nat with 0%nat by lia. done.
Qed.

Lemma newline_ok v a : represents v a -> wp newline v (fun _ v' => represents v' (feed_char a 10)).
Proof.
  intros Hr. pose proof (rep_row _ _ Hr) as Hrow. pose proof (zlength_nonneg (lines a)).
  set (V := last_rows (lines a ++ [cur a])).
  assert (wp (if curr_row v =? ROWS then scroll_down else modify (fun v => mk_video (mem v) (curr_row v + 1) (curr_col v))) v
    (fun _ v' => curr_row v' = Z.min (zlength (lines a) + 1) ROWS /\ shows (mem v') EARLY_VIDEO_BUFFER_ADDRESS BUFFER_SIZE V /\
      forall i, 0 <= i < MEMORY_SIZE -> mem v' !! (EARLY_VIDEO_MEMORY_ADDRESS + i) = mem v !! (EARLY_VIDEO_MEMORY_ADDRESS + i))) as Hw.
  { unfold ROWS in *. destruct (Z.eqb_spec (curr_row v) 25) as [He|He].
    - eapply wp_mono; [apply (scroll_down_ok v (visible a)); [|apply Hr]|].
      + unfold visible. rewrite zlength_app, length_last_rows. change (zlength [cur a]) with 1. unfold ROWS. lia.
      + cbv beta. intros ? v' (-> & _ & Hs & Hv). split; [lia|]. split; [|done]. unfold V. rewrite last_rows_snoc_full by lia. exact Hs.
    - apply wp_modify. cbn [mem curr_row]. split; [lia|]. split; [|done]. unfold V. rewrite last_rows_snoc_short by lia. apply Hr. }
  unfold newline. apply wp_bind, wp_get, wp_bind. eapply wp_mono; [exact Hw|]. cbv beta. intros ? v' (H1 & H2 & H3).
  apply wp_bind, wp_modify. eapply wp_mono; [apply (flush_ok _ V); [exact H2|]|].
  - cbn [mem]. intros i Hi. rewrite H3 by done. by apply (rep_mem _ _ Hr).
  - cbv beta. cbn [curr_row curr_col]. intros ? w (E1 & E2 & Hb & Hm). change (feed_char a 10) with (mk_console (lines a ++ [cur a]) [] (Some V)).
    split; cbn [lines cur shown].
    + rewrite E1, H1, zlength_app. done.
    + done.
    + intros i Hi. unfold visible. cbn [lines cur]. fold V. rewrite screen_byte_blank by lia. by apply Hb.
    + intros i Hi. rewrite Hm by done. done.
    + intros V' [= <-]. exact Hm.
Qed.

Lemma puttab_ok v a :
  represents v a -> zlength (cur a) + 8 < 2 ^ 31 -> wp puttab v (fun _ v' => represents v' (feed_char a 9)).
Proof.
  intros Hr Hlen. unfold puttab.
  set (I (k : nat) (v' : video) := represents v' (mk_console (lines a) (cur a ++ replicate k (chr " ")) (shown a))).
  eapply wp_mono; [apply (wp_for_loop I)|].
  - unfold I. simpl replicate. rewrite app_nil_r. by destruct a.
  - intros k v' Hk HI. eapply wp_mono; [apply (putc_ok v' _ _ HI)|].
    + cbn [cur]. rewrite zlength_app. unfold zlength at 2. rewrite length_replicate. lia.
    + cbv beta. cbn [lines cur shown]. intros ? w Hw. unfold I. by rewrite replicate_S_end, app_assoc.
  - intros ? w Hw. exact Hw.
Qed.

(** The longest line a text can make of [cur]. *)
Lemma feed_char_length a c : zlength (cur (feed_char a c)) <= zlength (cur a) + 8.
Proof.
  pose proof (zlength_nonneg (cur a)). unfold feed_char. case_match; [|case_match]; cbn [cur]; rewrite ?zlength_app.
  - change (zlength (@nil Z)) with 0. lia.
  - change (zlength (replicate 8 (chr " "))) with 8. lia.
  - change (zlength [c]) with 1. lia.
Qed.

Lemma puts_loop_ok v a t r :
  represents v a -> text t -> zlength (cur a) + 8 * zlength t < 2 ^ 31 ->
  wp (puts_loop (t ++ 0 :: r)) v (fun _ v' => represents v' (feed a t)).
Proof.
  revert v a. induction t as [|c t IH]; intros v a Hr Ht Hlen; simpl; [done|].
  apply Forall_cons in Ht as [Hc Ht]. rewrite (proj2 (Z.eqb_neq _ _) Hc). rewrite zlength_cons in Hlen. pose proof (zlength_nonneg t).
  apply wp_bind. eapply (wp_mono _ _ (fun _ v' => represents v' (feed_char a c))).
  - destruct (Z.eqb_spec c 10) as [->|Hn]; [by apply newline_ok|]. destruct (Z.eqb_spec c 9) as [->|Ht'].
    + apply puttab_ok; [done|lia].
    + eapply wp_mono; [apply putc_ok; [done|lia]|]. cbv beta. unfold feed_char.
      by rewrite (proj2 (Z.eqb_neq _ _) Hn), (proj2 (Z.eqb_neq _ _) Ht').
  - intros ? v' Hv. pose proof (feed_char_length a c). apply IH; [done|done|lia].
Qed.

(** *** The serial port *)

(** The register shows the flag at least [n] more times. *)
Definition ready_times (n : Z) (l : list Z) : Prop := n <= count_true can_output_char l.

Lemma wait_ready_ok n l : 0 <= n -> ready_times (1 + n) l -> exists l', wait_ready l = Some l' /\ ready_times n l'.
Proof.
  unfold ready_times. intros Hn. induction l as [|x l IH]; simpl; [lia|]. destruct (can_output_char x); intros Hr; [|apply IH; lia].
  exists l. split; [done|lia].
Qed.

Lemma serial_puts_ok t r s k :
  text t -> 0 <= k -> ready_times (zlength t + k) (lsr s) ->
  wp (early_serial_puts (t ++ 0 :: r)) s (fun _ s' => ready_times k (lsr s') /\ outs s' = outs s ++ ((fun c => (COM1, u8 c)) <$> t)).
Proof.
  intros Ht Hk. revert s. induction Ht as [|c t Hc Ht IH]; intros s Hr; simpl; [split; [exact Hr|by rewrite app_nil_r]|].
  rewrite (proj2 (Z.eqb_neq _ _) Hc). rewrite zlength_cons in Hr. pose proof (zlength_nonneg t).
  destruct (wait_ready_ok (zlength t + k) (lsr s)) as (l & El & Hl); [lia|by rewrite Z.add_assoc|].
  apply wp_bind. unfold wp at 1, early_serial_putc. rewrite El. cbn.
  eapply wp_mono; [by apply IH|]. cbv beta. cbn [outs]. intros ? s' [Hr' ->]. split; [done|]. by rewrite <- app_assoc.
Qed.

(** What [early_printf] puts out: the text less what does not fit its buffer. *)
Definition cut (t : list Z) : list Z := take 1023 t.

Lemma early_vprintf_ok items args t s a k :
  Forall item_ok items -> Forall va_ok args -> render items args = Some t -> zlength t < 2 ^ 31 ->
  represents (screen s) a -> zlength (cur a) < 2 ^ 30 -> 0 <= k -> ready_times (zlength (cut t) + k) (lsr (port s)) ->
  wp (early_vprintf (print_items items ++ [0]) args) s (fun n s' => n = zlength t /\
    represents (screen s') (feed a (cut t)) /\ ready_times k (lsr (port s')) /\
    outs (port s') = outs (port s) ++ ((fun c => (COM1, u8 c)) <$> cut t)).
Proof.
  intros Hi Ha Hr Hlen Hrep Hcur Hk Hrdy. pose proof (render_text _ _ _ Hi Ha Hr) as Ht. unfold wp at 1, early_vprintf.
  rewrite (vsnprintf_ok EARLY_PRINTF_BUFFER_SIZE items args t) by (done || (split; vm_compute; congruence)).
  set (r := drop (S (Z.to_nat (Z.min (EARLY_PRINTF_BUFFER_SIZE - 1) (zlength t)))) (replicate (Z.to_nat EARLY_PRINTF_BUFFER_SIZE) 0)).
  assert (place_string EARLY_PRINTF_BUFFER_SIZE t (replicate (Z.to_nat EARLY_PRINTF_BUFFER_SIZE) 0) = cut t ++ 0 :: r) as ->.
  { unfold place_string. fold r. f_equal. unfold cut, EARLY_PRINTF_BUFFER_SIZE, zlength.
    destruct (decide (length t <= 1023)%nat); [rewrite !take_ge by lia; done|]. f_equal. lia. }
  assert (text (cut t)) as Hct by by apply Forall_take.
  assert (zlength (cut t) <= 1023) as Hcl by (unfold zlength, cut; rewrite length_take; lia).
  fold (wp (on_port (early_serial_puts (cut t ++ 0 :: r));; on_screen (early_video_puts (Some (cut t ++ 0 :: r)));; mret (zlength t)) s
    (fun n s' => n = zlength t /\ represents (screen s') (feed a (cut t)) /\ ready_times k (lsr (port s')) /\ outs (port s') = outs (port s) ++ ((fun c => (COM1, u8 c)) <$> cut t))).
  destruct (wp_done _ _ _ (serial_puts_ok (cut t) r (port s) k Hct Hk Hrdy)) as ([] & p' & Ep & Hp).
  destruct (wp_done _ _ _ (puts_loop_ok (screen s) a (cut t) r Hrep Hct ltac:(lia))) as ([] & v' & Ev & Hv).
  unfold wp, mbind, M_bind, on_port, on_screen, zoom. rewrite Ep. cbn [screen]. unfold early_video_puts. rewrite Ev. done.
Qed.

Lemma blank_byte i : screen_byte [[]] i = 0.
Proof.
  unfold screen_byte. assert (default [] (zlookup [[]] (i / 160)) = @nil Z) as ->.
  { unfold zlookup. case_decide; [|done]. by destruct (Z.to_nat (i / 160)) as [|[]]. }
  unfold row_byte. change (zlength (@nil Z)) with 0. unfold COLS. destruct (Z.ltb_spec (i mod 160 / 2) (Z.min 0 (80 - 1))); [|done].
  pose proof (Z.div_pos (i mod 160) 2). pose proof (Z.mod_pos_bound i 160). lia.
Qed.

Definition empty_console : console := mk_console [] [] None.

Lemma init_ok m :
  mapped m EARLY_VIDEO_BUFFER_ADDRESS BUFFER_SIZE -> mapped m EARLY_VIDEO_MEMORY_ADDRESS MEMORY_SIZE ->
  wp early_video_init (mk_video m 0 0) (fun _ v' => represents v' empty_console).
Proof.
  intros Hb Hv. apply wp_bind, wp_mem_op. eapply wp_mono; [by apply memset_ok|]. cbv beta. intros ? m' [_ Hm]. apply wp_ret.
  split; cbn [mem curr_row curr_col lines cur shown empty_console]; try done.
  - intros i Hi. rewrite Hm, decide_True by lia. unfold visible. simpl. by rewrite blank_byte.
  - intros i Hi. rewrite Hm. case_decide; [done|]. destruct (Hv i Hi) as (b & E & _). by exists b.
Qed.

(** ** Properties *)

(** C16: the early console. [early_video_init] makes the buffer the empty
    console, and [early_video_puts] of any mix of characters, tabs and newlines
    keeps it equal to the last 25 complete lines and the current one; from the
    first newline on the screen shows the last 25 complete lines, each cut after
    78 characters with a dot. A null pointer puts nothing. *)
Theorem early_video_correct :
  (forall m, mapped m EARLY_VIDEO_BUFFER_ADDRESS BUFFER_SIZE -> mapped m EARLY_VIDEO_MEMORY_ADDRESS MEMORY_SIZE ->
    wp early_video_init (mk_video m 0 0) (fun _ v' => represents v' empty_console)) /\
  (forall v a t r, represents v a -> text t -> zlength (cur a) + 8 * zlength t < 2 ^ 31 ->
    wp (early_video_puts (Some (t ++ 0 :: r))) v (fun _ v' => represents v' (feed a t))) /\
  (forall v, wp (early_video_puts None) v (fun _ v' => v' = v)).
Proof. split; [|split]; [apply init_ok|intros; by apply puts_loop_ok|done]. Qed.

Definition sample_mem : bytes :=
  gset_to_gmap 7 (list_to_set (seqZ EARLY_VIDEO_BUFFER_ADDRESS BUFFER_SIZE ++ seqZ EARLY_VIDEO_MEMORY_ADDRESS MEMORY_SIZE)).

Lemma sample_mem_mapped :
  mapped sample_mem EARLY_VIDEO_BUFFER_ADDRESS BUFFER_SIZE /\ mapped sample_mem EARLY_VIDEO_MEMORY_ADDRESS MEMORY_SIZE.
Proof.
  split; intros i Hi; exists 7; (split; [|split; lia]); apply lookup_gset_to_gmap_Some; (split; [|done]);
    apply elem_of_list_to_set, elem_of_app; [left|right]; apply elem_of_seqZ; lia.
Qed.

Lemma early_video_correct_witness :
  wp (early_video_init;; early_video_puts (Some (chars "hello" ++ [10; 0]))) (mk_video sample_mem 0 0) (fun _ v =>
    curr_row v = 1 /\ mem v !! EARLY_VIDEO_MEMORY_ADDRESS = Some (chr "h")).
Proof.
  destruct early_video_correct as (H1 & H2 & _). apply wp_bind.
  eapply wp_mono; [apply H1; apply sample_mem_mapped|]. cbv beta. intros ? v Hv.
  eapply wp_mono; [apply (H2 v empty_console (chars "hello" ++ [10]) []); [exact Hv|repeat constructor; discriminate|vm_compute; reflexivity]|].
  cbv beta. intros ? v' Hv'. split; [rewrite (rep_row _ _ Hv'); reflexivity|].
  rewrite <- (Z.add_0_r EARLY_VIDEO_MEMORY_ADDRESS). rewrite (rep_screen _ _ Hv' _ eq_refl) by (unfold MEMORY_SIZE, ROWS, COLS; lia). reflexivity.
Defined.

(** [early_printf] sends the same text to the serial port, byte by byte
    once the device is ready, and to the console: the text the format denotes,
    cut to 1023 characters. It returns the length of the uncut text. *)
Theorem early_printf_correct items args t s a :
  Forall item_ok items -> Forall va_ok args -> render items args = Some t -> zlength t < 2 ^ 31 ->
  represents (screen s) a -> zlength (cur a) < 2 ^ 30 -> ready_times (zlength (cut t)) (lsr (port s)) ->
  wp (early_printf (print_items items ++ [0]) args) s (fun n s' => n = zlength t /\
    represents (screen s') (feed a (cut t)) /\
    outs (port s') = outs (port s) ++ ((fun c => (COM1, u8 c)) <$> cut t)).
Proof.
  intros. eapply wp_mono; [apply (early_vprintf_ok items args t s a 0); try done; by rewrite Z.add_0_r|].
  cbv beta. intros n s' (? & ? & _ & ?). done.
Qed.

Definition sample_items : list item := [Conv (mk_conv false None 0 false (chr "d")); Lit (chr "!")].

Lemma sample_items_ok : Forall item_ok sample_items.
Proof. items_ok. Qed.

Lemma early_printf_correct_witness :
  wp (on_screen early_video_init;; early_printf (cstr "%d!") [VaInt 7]) (mk_io (mk_video sample_mem 0 0) (mk_serial [0; 0x20; 0x60] []))
    (fun n s' => n = 2 /\ outs (port s') = [(COM1, chr "7"); (COM1, chr "!")] /\ curr_col (screen s') = 2).
Proof.
  destruct sample_mem_mapped as [Hm1 Hm2]. destruct (wp_done _ _ _ (init_ok sample_mem Hm1 Hm2)) as ([] & v & Ev & Hv).
  apply wp_bind. unfold wp at 1, on_screen, zoom. cbn [screen port]. rewrite Ev.
  eapply (wp_mono _ _ _ _ (early_printf_correct sample_items [VaInt 7] (chars "7!")
    (mk_io v (mk_serial [0; 0x20; 0x60] [])) empty_console sample_items_ok _ eq_refl eq_refl Hv eq_refl _)).
  Unshelve.
  - intros n s' (-> & Hr & ->). split; [reflexivity|]. split; [reflexivity|]. by rewrite (rep_col _ _ Hr).
  - repeat constructor.
  - vm_compute. discriminate.
Defined.
