(* ===== verification/Log.v ===== *)
(** * The kernel log (kernel/log.c, kernel/global.c, kernel/panic.c)

    The log is an array of fixed-size entries with two offsets, in memory that
    [kernel_log_init] gets zeroed from [kzalloc]; an entry outside the array is
    [Undef]. The two locks of the code, that of the log and that of the global
    state, are members of the set of held locks. Logging also echoes to the
    early console, whose state is part of the log's.

    The reference is the list of the records logged, oldest first. *)

From stdpp Require Import base strings numbers gmap list sets.
From Stdlib Require Import ZArith Lia Ascii.
From S2P Require Import Prelude Macros MmDefs Page ListDL Phys PhysProofs Spinlock CString Kmalloc Format Console.

(** ** Data *)

Definition KERNEL_LOG_MAX_NUM_ENTRIES : Z := 1023.
Definition KERNEL_LOG_BUF_SIZE : Z := 500.

Definition KERNEL_LOG_TRACE : Z := 0.
Definition KERNEL_LOG_DEBUG : Z := 1.
Definition KERNEL_LOG_INFO : Z := 2.
Definition KERNEL_LOG_WARN : Z := 3.
Definition KERNEL_LOG_ERROR : Z := 4.
Definition KERNEL_LOG_CRITICAL : Z := 5.
Definition KERNEL_LOG_MASK : Z := BIT_MASK_BELOW 10.

Record kernel_log_entry := mk_entry { timestamp : Z; flags : Z; ebuf : list Z }.

Record kernel_log_state := mk_log { num_entries : Z; read_offset : Z; write_offset : Z; entries : list kernel_log_entry }.

Definition SIZEOF_LOG_STATE : Z := 32.
Definition SIZEOF_LOG_ENTRY : Z := 512.

(** [enum kernel_stage] and [struct kernel_global]. *)

Definition KERNEL_STAGE_1_EARLY : Z := 1.
Definition KERNEL_STAGE_2_HAS_RING_BUFFER : Z := 2.

Record kernel_global := mk_global { stage : Z; log_echo : bool; log_level : Z }.

(** The two locks. *)
Definition LOG_LOCK : Z := 0.
Definition GLOBAL_LOCK : Z := 1.

Record log_mem := mk_lm {
  log : kernel_log_state;
  global : kernel_global;
  held : gset Z;
  io : early_io;
  heap : kernel_mem;
}.

Abbreviation LM := (M log_mem).

Definition with_log (l : kernel_log_state) (s : log_mem) : log_mem := mk_lm l (global s) (held s) (io s) (heap s).

Definition with_global (g : kernel_global) (s : log_mem) : log_mem := mk_lm (log s) g (held s) (io s) (heap s).

Definition lock_op {A} (m : M (gset Z) A) : LM A := zoom held (fun h s => mk_lm (log s) (global s) h (io s) (heap s)) m.

Definition io_op {A} (m : IO A) : LM A := zoom io (fun i s => mk_lm (log s) (global s) (held s) i (heap s)) m.

Definition heap_op {A} (m : KM A) : LM A := zoom heap (fun h s => mk_lm (log s) (global s) (held s) (io s) h) m.

(** What zeroed memory is as a log; its lock is free. *)
Definition zero_entry : kernel_log_entry := mk_entry 0 0 (replicate (Z.to_nat KERNEL_LOG_BUF_SIZE) 0).

Definition zero_log : kernel_log_state := mk_log 0 0 0 (replicate (Z.to_nat KERNEL_LOG_MAX_NUM_ENTRIES) zero_entry).

(** ** kernel/global.c, include/global.h *)

(** What [global_init] writes. *)
Definition initial_global : kernel_global := mk_global KERNEL_STAGE_1_EARLY true KERNEL_LOG_DEBUG.

Definition global_init : LM unit := modify (with_global initial_global).

Definition global_get_locked : LM unit := lock_op (spinlock_acquire GLOBAL_LOCK).

Definition global_get_stage : LM Z :=
  global_get_locked;;
  stage ← gets (fun s => stage (global s));
  lock_op (spinlock_release GLOBAL_LOCK);;
  mret stage.

(** ** kernel/panic.c *)

(** The message is printed and the machine halts: [Panic]. *)
Definition kernel_panic {A} (msg : string) : LM A :=
  stage ← global_get_stage;
  if (stage =? KERNEL_STAGE_1_EARLY) || (stage =? KERNEL_STAGE_2_HAS_RING_BUFFER) then Prelude.panic msg
  else Prelude.panic "Panic unsupported for stage %d".

(** ** kernel/log.c *)

Definition set_stage : LM unit :=
  global_get_locked;;
  modify (fun s => with_global (mk_global KERNEL_STAGE_2_HAS_RING_BUFFER (log_echo (global s)) (log_level (global s))) s);;
  lock_op (spinlock_release GLOBAL_LOCK).

Definition kernel_log_init : LM unit :=
  let bytes := (SIZEOF_LOG_STATE + KERNEL_LOG_MAX_NUM_ENTRIES * SIZEOF_LOG_ENTRY)%u64 in
  _ ← heap_op (kzalloc bytes KMALLOC_KERNEL);
  modify (fun s => mk_lm zero_log (global s) (held s ∖ {[LOG_LOCK]}) (io s) (heap s));;
  set_stage.

(** The index of the entry to write. *)
Definition next_write_entry : LM Z :=
  s ← get;
  let l := log s in
  if num_entries l <? KERNEL_LOG_MAX_NUM_ENTRIES then
    modify (with_log (mk_log (num_entries l + 1) (read_offset l) (write_offset l + 1) (entries l)));;
    mret (write_offset l)
  else
    modify (with_log (mk_log (num_entries l) ((read_offset l + 1) mod KERNEL_LOG_MAX_NUM_ENTRIES)
      ((write_offset l + 1) mod KERNEL_LOG_MAX_NUM_ENTRIES) (entries l)));;
    mret (write_offset l).

Definition echo_prefix (flags : Z) : option string :=
  let level := Z.land flags KERNEL_LOG_MASK in
  if level =? KERNEL_LOG_TRACE then Some "TRACE: "
  else if level =? KERNEL_LOG_DEBUG then Some "DEBUG: "
  else if level =? KERNEL_LOG_INFO then Some "INFO:  "
  else if level =? KERNEL_LOG_WARN then Some "WARN:  "
  else if level =? KERNEL_LOG_ERROR then Some "ERROR: "
  else if level =? KERNEL_LOG_CRITICAL then Some "CRIT:  "
  else None.

Definition maybe_echo_log (flags : Z) (buf : list Z) : LM unit :=
  g ← gets global;
  if negb (log_echo g) then mret tt
  else
    (if (stage g =? KERNEL_STAGE_1_EARLY) || (stage g =? KERNEL_STAGE_2_HAS_RING_BUFFER) then mret tt
     else kernel_panic "Unsupported kernel stage %d");;
    match echo_prefix flags with
    | Some p => io_op (early_printf (cstr p) []);; mret tt
    | None => mret tt
    end;;
    io_op (early_printf (chars "%s" ++ [10; 0]) [VaStr buf]);;
    mret tt.

(** [vsnprintf] into the buffer of entry [i], and its flags. *)
Definition write_entry (i f : Z) (fmt : list Z) (ap : list va) : LM (list Z) :=
  s ← get;
  e ← lift (zlookup (entries (log s)) i);
  match vsnprintf KERNEL_LOG_BUF_SIZE fmt ap (ebuf e) with
  | Done _ b =>
      modify (with_log (mk_log (num_entries (log s)) (read_offset (log s)) (write_offset (log s))
        (zinsert i (mk_entry (timestamp e) f b) (entries (log s)))));;
      mret b
  | Panic msg => Prelude.panic msg
  | Hang => hang
  | Undef => undef
  end.

(** The part of [log_vprintf] between the locks. *)
Definition log_locked (flags : Z) (fmt : list Z) (ap : list va) : LM unit :=
  level ← gets (fun s => log_level (global s));
  if Z.land flags KERNEL_LOG_MASK <? Z.land level KERNEL_LOG_MASK then mret tt
  else
    b ← (entry ← next_write_entry; write_entry entry flags fmt ap);
    maybe_echo_log flags b.

Definition log_vprintf (flags : Z) (fmt : list Z) (ap : list va) : LM unit :=
  lock_op (spinlock_acquire LOG_LOCK);;
  global_get_locked;;
  log_locked flags fmt ap;;
  lock_op (spinlock_release GLOBAL_LOCK);;
  lock_op (spinlock_release LOG_LOCK).

Definition log_printf (flags : Z) (fmt : list Z) (args : list va) : LM unit := log_vprintf flags fmt args.

(** ** include/log.h *)

Definition log_trace (fmt : list Z) (args : list va) : LM unit := log_vprintf KERNEL_LOG_TRACE fmt args.

Definition log_debug (fmt : list Z) (args : list va) : LM unit := log_vprintf KERNEL_LOG_DEBUG fmt args.

Definition log_info (fmt : list Z) (args : list va) : LM unit := log_vprintf KERNEL_LOG_INFO fmt args.

Definition log_warn (fmt : list Z) (args : list va) : LM unit := log_vprintf KERNEL_LOG_WARN fmt args.

Definition log_error (fmt : list Z) (args : list va) : LM unit := log_vprintf KERNEL_LOG_ERROR fmt args.

Definition log_critical (fmt : list Z) (args : list va) : LM unit := log_vprintf KERNEL_LOG_CRITICAL fmt args.

(** ** Reference *)

(** A record: its flags and the text stored. *)
Definition stored (t : list Z) : list Z := take 499 t.

Record log_ok (l : kernel_log_state) (R : list (Z * list Z)) : Prop := {
  lo_num : num_entries l = zlength R;
  lo_write : write_offset l = zlength R;
  lo_read : read_offset l = 0;
  lo_size : zlength (entries l) = KERNEL_LOG_MAX_NUM_ENTRIES;
  lo_bufs : Forall (fun e => zlength (ebuf e) = KERNEL_LOG_BUF_SIZE) (entries l);
  lo_records : forall i f t, R !! i = Some (f, t) ->
    exists e r, entries l !! i = Some e /\ flags e = f /\ ebuf e = t ++ 0 :: r;
}.

(** The line the echo adds to the console. *)
Definition echo_text (f : Z) (t : list Z) : list Z := default [] (chars <$> echo_prefix f) ++ t ++ [10].

(** The console is [a], with room on its line, and the serial port will be
    ready [n] times. *)
Record console_ok (i : early_io) (a : console) (n : Z) : Prop := {
  co_rep : represents (screen i) a;
  co_cur : zlength (cur a) < 2 ^ 29;
  co_ready : ready_times n (lsr (port i));
}.

Definition early_stage (g : kernel_global) : bool :=
  (stage g =? KERNEL_STAGE_1_EARLY) || (stage g =? KERNEL_STAGE_2_HAS_RING_BUFFER).

Definition logs (g : kernel_global) (f : Z) : bool :=
  negb (Z.land f KERNEL_LOG_MASK <? Z.land (log_level g) KERNEL_LOG_MASK).

(** ** Lemmas *)

Definition with_io (i : early_io) (s : log_mem) : log_mem := mk_lm (log s) (global s) (held s) i (heap s).

Lemma wp_io_op {A} (m : IO A) s Q : wp m (io s) (fun a i => Q a (with_io i s)) -> wp (io_op m) s Q.
Proof. unfold wp, io_op, zoom. by destruct (m (io s)). Qed.

Lemma literal_items l :
  text l -> Forall (fun c => c <> chr "%") l ->
  Forall item_ok (Lit <$> l) /\ print_items (Lit <$> l) = l /\ render (Lit <$> l) [] = Some l.
Proof.
  intros Ht Hp. induction Ht as [|c l Hc Ht IH]; [done|]. apply Forall_cons in Hp as [Hc' Hp]. destruct (IH Hp) as (H1 & H2 & H3).
  split; [|split].
  - by constructor.
  - unfold print_items in *. rewrite fmap_cons. cbn. by rewrite H2.
  - cbn. by rewrite H3.
Qed.

(** [early_printf] of a literal, or of ["%s\n"]. *)

Lemma feed_app a t u : feed a (t ++ u) = feed (feed a t) u.
Proof. apply fold_left_app. Qed.

Lemma feed_length a t : zlength (cur (feed a t)) <= zlength (cur a) + 8 * zlength t.
Proof.
  revert a. induction t as [|c t IH]; intros a; [unfold zlength; simpl; lia|]. change (feed a (c :: t)) with (feed (feed_char a c) t). pose proof (feed_char_length a c).
  pose proof (IH (feed_char a c)). rewrite zlength_cons. lia.
Qed.

Lemma printf_ok items args t i a k :
  Forall item_ok items -> Forall va_ok args -> render items args = Some t -> zlength t <= 1000 -> 0 <= k ->
  represents (screen i) a -> zlength (cur a) < 2 ^ 30 - 8000 -> ready_times (zlength t + k) (lsr (port i)) ->
  wp (early_printf (print_items items ++ [0]) args) i (fun _ i' =>
    represents (screen i') (feed a t) /\ zlength (cur (feed a t)) <= zlength (cur a) + 8000 /\ ready_times k (lsr (port i')) /\
    outs (port i') = outs (port i) ++ ((fun c => (COM1, u8 c)) <$> t)).
Proof.
  intros Hi Ha Hr Hlen Hk Hrep Hcur Hrdy. assert (cut t = t) as Ec by (apply take_ge; unfold zlength in *; lia).
  eapply wp_mono; [apply (early_vprintf_ok items args t i a k); try done; rewrite ?Ec; (done || lia)|].
  cbv beta. rewrite Ec. intros ? i' (_ & H1 & H2 & H3). split; [done|]. split; [|done]. pose proof (feed_length a t). lia.
Qed.

(** The console and the serial port show the message of a panic, after its prefix
    and on a line of its own; then the panic never returns. *)
Theorem early_panic_prints items args t i a (m := chars "PANIC (early) " ++ cut t ++ [10]) :
  Forall item_ok items -> Forall va_ok args -> render items args = Some t -> zlength t < 2 ^ 31 -> console_ok i a (zlength m) ->
  wp (early_vpanic_text (print_items items ++ [0]) args) i (fun _ i' =>
    represents (screen i') (feed a m) /\ outs (port i') = outs (port i) ++ ((fun c => (COM1, u8 c)) <$> m)) /\
  @_early_vpanic unit (print_items items ++ [0]) args i = Hang.
Proof.
  intros Hi Ha Hr Hlen [Hrep Hcur Hrdy].
  assert (wp (early_vpanic_text (print_items items ++ [0]) args) i (fun _ i' =>
    represents (screen i') (feed a m) /\ outs (port i') = outs (port i) ++ ((fun c => (COM1, u8 c)) <$> m))) as Hwp.
  { unfold m in *. rewrite !zlength_app in Hrdy. change (zlength (chars "PANIC (early) ")) with 14 in Hrdy. change (zlength [10]) with 1 in Hrdy.
    pose proof (zlength_nonneg (cut t)). destruct (literal_items (chars "PANIC (early) ")) as (L1 & L2 & L3); [repeat constructor; discriminate..|].
    unfold early_vpanic_text, cstr. rewrite <- L2 at 1. apply wp_bind.
    eapply wp_mono; [apply (printf_ok _ [] (chars "PANIC (early) ") i a (zlength (cut t) + 1)); try done; lia|]. cbv beta. intros _ i1 (G1 & G2 & G3 & G4).
    set (a1 := feed a (chars "PANIC (early) ")) in *. apply wp_bind.
    eapply wp_mono; [apply (early_vprintf_ok items args t i1 a1 1); try done; lia|]. cbv beta. intros _ i2 (_ & K1 & K2 & K3).
    pose proof (feed_length a1 (cut t)). assert (zlength (cut t) <= 1023) by (unfold cut, zlength; rewrite length_take; lia).
    apply wp_bind. change [10; 0] with (print_items [Lit 10] ++ [0]).
    eapply wp_mono; [apply (printf_ok [Lit 10] [] [10] i2 (feed a1 (cut t)) 0); try done; [items_ok|lia]|]. cbv beta. intros _ i3 (J1 & _ & _ & J2).
    apply wp_ret. unfold a1 in *. rewrite !feed_app. split; [done|]. by rewrite J2, K3, G4, !fmap_app, !app_assoc. }
  split; [exact Hwp|]. destruct (wp_done _ _ _ Hwp) as (v & i' & E & _). unfold _early_vpanic, mbind, M_bind. by rewrite E.
Qed.

Lemma echo_prefix_ok f p :
  echo_prefix f = Some p -> text (chars p) /\ Forall (fun c => c <> chr "%") (chars p) /\ zlength (chars p) = 7.
Proof.
  unfold echo_prefix. intros E. repeat case_match; simplify_eq; (split; [repeat constructor; discriminate|split; [repeat constructor; discriminate|reflexivity]]).
Qed.

(** The line of the echo, in stages 1 and 2. *)
Lemma echo_ok s f t r a k :
  log_echo (global s) = true -> early_stage (global s) = true -> text t -> zlength t <= 499 -> 0 <= k ->
  console_ok (io s) a (zlength (echo_text f t) + k) ->
  wp (maybe_echo_log f (t ++ 0 :: r)) s (fun _ s' => exists i, s' = with_io i s /\
    represents (screen i) (feed a (echo_text f t)) /\ ready_times k (lsr (port i)) /\
    outs (port i) = outs (port (io s)) ++ ((fun c => (COM1, u8 c)) <$> echo_text f t)).
Proof.
  intros Hecho Hst Ht Hlen Hk [Hrep Hcur Hrdy]. unfold maybe_echo_log. apply wp_bind, wp_gets. rewrite Hecho. simpl negb. cbv iota.
  unfold early_stage in Hst. rewrite Hst. apply wp_bind, wp_ret.
  set (pre := default [] (chars <$> echo_prefix f)) in *. unfold echo_text in *. fold pre in Hrdy |- *.
  rewrite !zlength_app in Hrdy. change (zlength [10]) with 1 in Hrdy. pose proof (zlength_nonneg t).
  apply wp_bind. eapply (wp_mono _ _ (fun _ s' => exists i, s' = with_io i s /\ represents (screen i) (feed a pre) /\
    zlength (cur (feed a pre)) <= zlength (cur a) + 8000 /\ ready_times (zlength t + 1 + k) (lsr (port i)) /\
    outs (port i) = outs (port (io s)) ++ ((fun c => (COM1, u8 c)) <$> pre))).
  - unfold pre in *. destruct (echo_prefix f) as [p|] eqn:Ep; simpl default in *.
    + destruct (echo_prefix_ok f p Ep) as (Hp1 & Hp2 & Hp3). destruct (literal_items (chars p) Hp1 Hp2) as (Hl1 & Hl2 & Hl3).
      apply wp_bind, wp_io_op. unfold cstr. rewrite <- Hl2 at 1.
      eapply wp_mono; [apply (printf_ok _ [] (chars p) (io s) a (zlength t + 1 + k)); try done; try lia; replace (zlength (chars p) + (zlength t + 1 + k)) with (zlength (chars p) + (zlength t + 1) + k) by lia; done|].
      cbv beta. intros ? i Hi. apply wp_ret. by exists i.
    + apply wp_ret. exists (io s). split; [by destruct s|]. split; [done|]. split; [simpl; lia|]. split; [|by rewrite app_nil_r].
      by replace (zlength t + 1 + k) with (zlength (@nil Z) + (zlength t + 1) + k) by (unfold zlength; simpl; lia).
  - cbv beta. intros ? s' (i & -> & H1 & H2 & H3 & H4). apply wp_bind, wp_io_op. cbn [io with_io].
    change (chars "%s" ++ [10; 0]) with (print_items [Conv (mk_conv false None 0 false (chr "s")); Lit 10] ++ [0]).
    eapply wp_mono; [apply (printf_ok _ [VaStr (t ++ 0 :: r)] (t ++ [10]) i (feed a pre) k)|]; try done.
    + items_ok.
    + constructor; [|constructor]. exists t, r. split; [done|]. split; [done|]. simpl; lia.
    + cbn [render]. rewrite render_conv_s by done. simpl. by rewrite pad_0.
    + rewrite zlength_app. change (zlength [10]) with 1. lia.
    + simpl in *. lia.
    + by rewrite zlength_app.
    + cbv beta. intros ? i' (G1 & _ & G2 & G3). apply wp_ret. exists i'. split; [done|]. rewrite feed_app. split; [done|]. split; [done|].
      rewrite G3, H4, <- app_assoc. by rewrite <- fmap_app.
Qed.

(** *** The ring *)

Lemma stored_text t : text t -> text (stored t) /\ zlength (stored t) <= 499.
Proof. intros Ht. split; [by apply Forall_take|]. unfold stored, zlength. rewrite length_take. lia. Qed.

(** The 500-byte buffer after [vsnprintf]. *)
Lemma stored_buf t b :
  zlength b = 500 -> exists r, place_string 500 t b = stored t ++ 0 :: r /\ zlength (place_string 500 t b) = 500.
Proof.
  intros Hb. unfold place_string, stored, zlength in *.
  destruct (decide (length t <= 499)%nat).
  - replace (Z.to_nat (Z.min (500 - 1) (Z.of_nat (length t)))) with (length t) by lia. rewrite !take_ge by lia.
    eexists. split; [done|]. rewrite length_app, length_cons, length_drop. lia.
  - replace (Z.to_nat (Z.min (500 - 1) (Z.of_nat (length t)))) with 499%nat by lia.
    eexists. split; [done|]. rewrite length_app, length_cons, length_take, length_drop. lia.
Qed.

(** One more record. *)
Lemma append_ok s R f items args t :
  log_ok (log s) R -> zlength R < KERNEL_LOG_MAX_NUM_ENTRIES ->
  Forall item_ok items -> Forall va_ok args -> render items args = Some t -> zlength t < 2 ^ 31 ->
  wp (entry ← next_write_entry; write_entry entry f (print_items items ++ [0]) args) s (fun b s' =>
    exists l r, s' = with_log l s /\ log_ok l (R ++ [(f, stored t)]) /\ b = stored t ++ 0 :: r).
Proof.
  intros Hl Hlt Hi Ha Hr Hlen. unfold next_write_entry. rewrite <- (lo_num _ _ Hl) in Hlt. pose proof (zlength_nonneg R).
  apply wp_bind, wp_bind, wp_get. rewrite (proj2 (Z.ltb_lt _ _) Hlt). apply wp_bind, wp_modify, wp_ret.
  unfold write_entry. apply wp_bind, wp_get. cbn [log with_log entries]. rewrite (lo_write _ _ Hl). rewrite (lo_num _ _ Hl) in *.
  destruct (proj2 (zlookup_is_Some (entries (log s)) (zlength R))) as [e Ee]; [by rewrite (lo_size _ _ Hl)|].
  apply wp_bind. eapply wp_lift; [exact Ee|]. pose proof (Forall_zlookup _ _ _ _ (lo_bufs _ _ Hl) Ee) as He. cbv beta in He.
  destruct (stored_buf t (ebuf e) He) as (r & Hb & Hbl).
  rewrite (vsnprintf_ok KERNEL_LOG_BUF_SIZE items args t (ebuf e)) by (done || (rewrite He; unfold KERNEL_LOG_BUF_SIZE; lia)).
  unfold KERNEL_LOG_BUF_SIZE in *. rewrite Hb in *. apply wp_bind, wp_modify, wp_ret.
  eexists _, r. split; [reflexivity|]. split; [|done]. cbn [num_entries read_offset write_offset with_log log].
  split; cbn [num_entries read_offset write_offset entries].
  - by rewrite zlength_app.
  - by rewrite zlength_app.
  - apply Hl.
  - rewrite zlength_zinsert. apply Hl.
  - unfold zinsert. rewrite decide_True by lia. apply Forall_insert; [apply Hl|done].
  - intros i f' t' Hi'. unfold zinsert. rewrite decide_True by lia. unfold zlength. rewrite Nat2Z.id.
    apply lookup_app_Some in Hi' as [Hold|[Hge Hnew]].
    + pose proof (lookup_lt_Some _ _ _ Hold). rewrite list_lookup_insert_ne by lia. by apply (lo_records _ _ Hl).
    + apply list_lookup_singleton_Some in Hnew as [Hi0 [= <- <-]]. assert (i = length R) as -> by lia.
      rewrite list_lookup_insert_eq.
      * by eexists _, r.
      * apply zlookup_Some in Ee as [_ Ee]. unfold zlength in Ee. rewrite Nat2Z.id in Ee. by eapply lookup_lt_Some.
Qed.

Lemma append_full s R f fmt args :
  log_ok (log s) R -> zlength R = KERNEL_LOG_MAX_NUM_ENTRIES ->
  (entry ← next_write_entry; write_entry entry f fmt args) s = Undef.
Proof.
  intros Hl Hfull. unfold next_write_entry, write_entry, get, modify, mret, M_ret, mbind, M_bind. cbv beta iota.
  rewrite (lo_num _ _ Hl), Hfull. rewrite Z.ltb_irrefl. cbn [log with_log entries].
  rewrite zlookup_None; [done|]. rewrite (lo_write _ _ Hl), (lo_size _ _ Hl), Hfull. lia.
Qed.

(** *** The locks *)

Definition with_held (h : gset Z) (s : log_mem) : log_mem := mk_lm (log s) (global s) h (io s) (heap s).

Definition both : gset Z := {[GLOBAL_LOCK]} ∪ {[LOG_LOCK]}.

Lemma wp_log_lock_op {A} (m : M (gset Z) A) s Q : wp m (held s) (fun a h => Q a (with_held h s)) -> wp (lock_op m) s Q.
Proof. unfold wp, lock_op, zoom. by destruct (m (held s)). Qed.

(** Both locks are taken. *)
Lemma locked_eq f fmt ap s :
  held s = ∅ ->
  log_vprintf f fmt ap s =
    (log_locked f fmt ap;; lock_op (spinlock_release GLOBAL_LOCK);; lock_op (spinlock_release LOG_LOCK)) (with_held both s).
Proof.
  intros Hh. unfold log_vprintf, global_get_locked, mbind, M_bind, lock_op, zoom.
  assert (forall l h, l ∉ h -> spinlock_acquire l h = Done tt ({[l]} ∪ h)) as Hacq.
  { intros l h Hl. destruct (wp_done _ _ _ (spinlock_acquire_ok h l (fun _ h' => h' = {[l]} ∪ h) Hl eq_refl)) as ([] & h' & -> & ->). done. }
  rewrite Hacq by (rewrite Hh; set_solver). cbn [held]. rewrite Hacq by (rewrite Hh; set_solver). cbn. by rewrite Hh, union_empty_r_L.
Qed.

Lemma log_vprintf_wp f fmt ap s (Q : log_mem -> Prop) :
  held s = ∅ -> wp (log_locked f fmt ap) (with_held both s) (fun _ s' => held s' = both /\ Q (with_held ∅ s')) ->
  wp (log_vprintf f fmt ap) s (fun _ s' => Q s').
Proof.
  intros Hh Hm.
  unfold wp at 1. rewrite locked_eq by done.
  apply (wp_bind (log_locked f fmt ap) (fun _ => lock_op (spinlock_release GLOBAL_LOCK);; lock_op (spinlock_release LOG_LOCK)) _ (fun _ s' => Q s')).
  eapply wp_mono; [exact Hm|]. cbv beta. intros ? s' [Hb HQ].
  apply wp_bind, wp_log_lock_op, spinlock_release_ok. apply wp_log_lock_op, spinlock_release_ok. cbn [held with_held].
  assert (held s' ∖ {[GLOBAL_LOCK]} ∖ {[LOG_LOCK]} = ∅) as -> by (rewrite Hb; unfold both; set_solver). exact HQ.
Qed.

(** *** Logging *)

(** What a call adds: the record, and the echo when it is on. *)
Definition logged (s : log_mem) (a : console) (R : list (Z * list Z)) (f : Z) (t : list Z) (s' : log_mem) : Prop :=
  held s' = ∅ /\ global s' = global s /\ heap s' = heap s /\
  if logs (global s) f then
    log_ok (log s') (R ++ [(f, stored t)]) /\
    if log_echo (global s) then
      represents (screen (io s')) (feed a (echo_text f (stored t))) /\
      outs (port (io s')) = outs (port (io s)) ++ ((fun c => (COM1, u8 c)) <$> echo_text f (stored t))
    else io s' = io s
  else log s' = log s /\ io s' = io s.

Lemma echo_text_length f t : zlength t <= 499 -> zlength (echo_text f t) <= 507.
Proof.
  intros Ht. unfold echo_text. rewrite !zlength_app. change (zlength [10]) with 1. destruct (echo_prefix f) as [p|] eqn:Ep; simpl default.
  - destruct (echo_prefix_ok f p Ep) as (_ & _ & ->). lia.
  - change (zlength (@nil Z)) with 0. lia.
Qed.

Lemma ready_times_le m n l : n <= m -> ready_times m l -> ready_times n l.
Proof. unfold ready_times. lia. Qed.

(** A call uses the serial port for at most 507 characters. *)
Lemma log_vprintf_ok s a R f items args t k :
  log_ok (log s) R -> zlength R < KERNEL_LOG_MAX_NUM_ENTRIES -> held s = ∅ -> early_stage (global s) = true ->
  Forall item_ok items -> Forall va_ok args -> render items args = Some t -> zlength t < 2 ^ 31 ->
  0 <= k -> console_ok (io s) a (507 + k) ->
  wp (log_vprintf f (print_items items ++ [0]) args) s (fun _ s' => logged s a R f t s' /\ ready_times k (lsr (port (io s')))).
Proof.
  intros Hl Hlt Hh Hst Hi Ha Hr Hlen Hk Hc. pose proof (ready_times_le (507 + k) k _ ltac:(lia) (co_ready _ _ _ Hc)) as Hk'.
  apply (log_vprintf_wp f _ args s (fun s' => logged s a R f t s' /\ ready_times k (lsr (port (io s'))))); [done|]. unfold log_locked, logged.
  apply wp_bind, wp_gets. unfold logs. cbn [global with_held].
  destruct (Z.land f KERNEL_LOG_MASK <? Z.land (log_level (global s)) KERNEL_LOG_MASK); simpl negb; [by apply wp_ret|].
  apply wp_bind. eapply wp_mono; [by apply (append_ok (with_held both s) R f items args t)|]. cbv beta.
  intros b s' (l & r & -> & Hl' & ->). destruct (stored_text t) as [Hst1 Hst2]; [by eapply render_text|].
  destruct (log_echo (global s)) eqn:Ee.
  - pose proof (echo_text_length f (stored t) Hst2) as Hel. set (u := echo_text f (stored t)) in *.
    eapply wp_mono; [apply (echo_ok _ f (stored t) r a (507 - zlength u + k)); try done; [lia|]|].
    + cbn [io with_log with_held]. fold u. split; [apply Hc..|]. replace (zlength u + (507 - zlength u + k)) with (507 + k) by lia. apply Hc.
    + cbv beta. intros ? s' (i & -> & H1 & H2 & H3). cbn [io with_io with_held]. split; [done|]. split; [done|]. by eapply ready_times_le; [|exact H2]; lia.
  - unfold maybe_echo_log. apply wp_bind, wp_gets. cbn [global with_log with_held]. rewrite Ee. by apply wp_ret.
Qed.

(** The lock [panic] needs is the one its caller holds. *)
Lemma panic_locked_hangs {A} msg s : GLOBAL_LOCK ∈ held s -> @kernel_panic A msg s = Hang.
Proof.
  intros Hh. unfold kernel_panic, global_get_stage, global_get_locked, mbind, M_bind, lock_op, zoom. by rewrite spinlock_acquire_hang.
Qed.

(** What goes wrong between the locks goes wrong. *)
Lemma log_vprintf_stuck f fmt ap s r :
  held s = ∅ -> logs (global s) f = true -> (forall a s', r <> Done a s') ->
  (b ← (entry ← next_write_entry; write_entry entry f fmt ap); maybe_echo_log f b) (with_held both s) = r ->
  log_vprintf f fmt ap s = r.
Proof.
  intros Hh Hlog Hr Hb. apply negb_true_iff in Hlog. rewrite locked_eq by done.
  assert (log_locked f fmt ap (with_held both s) = r) as E.
  { unfold log_locked, mbind at 1, M_bind at 1, gets. cbn [global with_held]. by rewrite Hlog. }
  unfold mbind at 1, M_bind at 1. rewrite E. destruct r as [a s'| | |]; [by destruct (Hr a s')|done..].
Qed.

(** *** Initialisation *)

Lemma set_stage_ok s :
  GLOBAL_LOCK ∉ held s ->
  wp set_stage s (fun _ s' => log s' = log s /\ held s' = held s /\ stage (global s') = KERNEL_STAGE_2_HAS_RING_BUFFER /\
    log_echo (global s') = log_echo (global s) /\ log_level (global s') = log_level (global s) /\ heap s' = heap s /\ io s' = io s).
Proof.
  intros Hl. apply wp_bind, wp_log_lock_op, spinlock_acquire_ok; [done|]. apply wp_bind, wp_modify, wp_log_lock_op, spinlock_release_ok.
  cbn. split; [done|]. split; [set_solver|done].
Qed.

(** The log and its entries take 128 pages, a block of order 7. *)
Definition log_bytes : Z := 523808.

Lemma log_bytes_order : (SIZEOF_LOG_STATE + KERNEL_LOG_MAX_NUM_ENTRIES * SIZEOF_LOG_ENTRY)%u64 = log_bytes /\ size_order log_bytes = 7.
Proof. by vm_compute. Qed.

Lemma zero_log_ok : log_ok zero_log [].
Proof. split; try done. by apply Forall_replicate. Qed.

Lemma kernel_log_init_ok s :
  phys_ok (phys (heap s)) -> direct_mapped (spans (phys (heap s))) -> frames_mapped (Kmalloc.mem (heap s)) (spans (phys (heap s))) ->
  held s = ∅ ->
  match kernel_log_init s with
  | Done _ s' => log_ok (log s') [] /\ held s' = ∅ /\ io s' = io s /\ stage (global s') = KERNEL_STAGE_2_HAS_RING_BUFFER /\
      log_echo (global s') = log_echo (global s) /\ log_level (global s') = log_level (global s) /\
      exists ptr, kmalloced (heap s) log_bytes ptr (phys (heap s')) /\
        forall x, Kmalloc.mem (heap s') !! x = if decide (ptr <= x < ptr + log_bytes) then Some 0 else Kmalloc.mem (heap s) !! x
  | Panic _ => forall p, ~ free_run (phys (heap s)) 7 p
  | _ => False
  end.
Proof.
  intros Hok Hdm Hm Hh. destruct log_bytes_order as [Eb Eo]. unfold kernel_log_init. rewrite Eb. cbv zeta.
  assert (0 <= log_bytes <= 2 ^ 23) as Hr by (unfold log_bytes; lia). revert Hr Eo. clear Eb. generalize log_bytes. intros n Hr Eo.
  pose proof (kzalloc_cases (heap s) n KMALLOC_KERNEL Hok Hdm Hm eq_refl ltac:(lia)) as Hk.
  unfold mbind at 1, M_bind at 1, heap_op, zoom. destruct (kmalloc n KMALLOC_KERNEL (heap s)) as [ptr h1|msg| |] eqn:Ek; try done.
  - destruct Hk as (_ & Hkm & _ & Hz). destruct (wp_done _ _ _ Hz) as (ptr' & h2 & -> & -> & Eph & Hx).
    set (s1 := mk_lm zero_log (global s) (held s ∖ {[LOG_LOCK]}) (io s) h2).
    destruct (wp_done _ _ _ (set_stage_ok s1 ltac:(cbn; rewrite Hh; set_solver))) as ([] & s' & E & H1 & H2 & H3 & H4 & H5 & H6 & H7).
    unfold mbind at 1, M_bind at 1, modify. cbn [log global held io heap]. fold s1. rewrite E. rewrite H1, H2, H3, H4, H5, H6, H7. cbn [log held heap s1].
    split; [apply zero_log_ok|]. split; [rewrite Hh; set_solver|]. split; [done|]. split; [done|]. split; [done|]. split; [done|].
    exists ptr. by rewrite Eph.
  - unfold kzalloc, mbind, M_bind. rewrite Ek. destruct Hk as [Hk|Hk]; [lia|]. by rewrite Eo in Hk.
Qed.

(** ** Properties *)

(** C17: logging. [log_vprintf] at or above the log level appends one record,
    the flags and the text of the format cut to 499 characters, after those
    already there, and with the echo on adds a line with the level and the text
    to the serial port and the console; below the level it changes nothing. It
    takes and releases both locks. This holds as long as fewer than 1023 records
    were logged. *)
Theorem log_vprintf_correct s a R f items args t :
  log_ok (log s) R -> zlength R < KERNEL_LOG_MAX_NUM_ENTRIES -> held s = ∅ -> early_stage (global s) = true ->
  Forall item_ok items -> Forall va_ok args -> render items args = Some t -> zlength t < 2 ^ 31 ->
  console_ok (io s) a 507 ->
  wp (log_vprintf f (print_items items ++ [0]) args) s (fun _ s' => logged s a R f t s').
Proof.
  intros. eapply wp_mono; [by apply (log_vprintf_ok s a R f items args t 0)|]. by intros ? s' [H' _].
Qed.

(** C28: the limits of the log. The record after the 1023rd is written outside
    the array, since the write offset is not wrapped when the last entry is
    used; and with the echo on in a later kernel stage the log never returns:
    the panic it calls waits for the global lock it holds. *)
Theorem log_limits s R f items args t :
  log_ok (log s) R -> held s = ∅ -> logs (global s) f = true ->
  (zlength R = KERNEL_LOG_MAX_NUM_ENTRIES -> log_vprintf f (print_items items ++ [0]) args s = Undef) /\
  (zlength R < KERNEL_LOG_MAX_NUM_ENTRIES -> log_echo (global s) = true -> early_stage (global s) = false ->
   Forall item_ok items -> Forall va_ok args -> render items args = Some t -> zlength t < 2 ^ 31 ->
   log_vprintf f (print_items items ++ [0]) args s = Hang).
Proof.
  intros Hl Hh Hlog.
  split.
  - intros Hfull. apply log_vprintf_stuck; [done..|]. unfold mbind at 1, M_bind at 1. by rewrite (append_full _ R).
  - intros Hlt Hecho Hst Hi Ha Hr Hlen. apply log_vprintf_stuck; [done..|].
    destruct (wp_done _ _ _ (append_ok (with_held both s) R f items args t Hl Hlt Hi Ha Hr Hlen)) as (b & s' & E & l & r & -> & _).
    unfold mbind at 1, M_bind at 1. rewrite E. unfold maybe_echo_log, mbind, M_bind, gets. cbn [global with_log with_held]. rewrite Hecho.
    unfold early_stage in Hst. rewrite Hst. cbv beta iota. change (negb true) with false. cbv beta iota. rewrite panic_locked_hangs; [done|]. cbn. unfold both. set_solver.
Qed.

(** C27: [kernel_log_init] takes a zeroed block of order 7 from the kernel heap,
    leaves the log empty and unlocked, the console as it was and the kernel in
    its second stage; it panics only when no block of that order is free. *)
Theorem kernel_log_init_correct s :
  phys_ok (phys (heap s)) -> direct_mapped (spans (phys (heap s))) -> frames_mapped (Kmalloc.mem (heap s)) (spans (phys (heap s))) ->
  held s = ∅ ->
  match kernel_log_init s with
  | Done _ s' => log_ok (log s') [] /\ held s' = ∅ /\ io s' = io s /\ stage (global s') = KERNEL_STAGE_2_HAS_RING_BUFFER /\
      log_echo (global s') = log_echo (global s) /\ log_level (global s') = log_level (global s) /\
      exists ptr, kmalloced (heap s) log_bytes ptr (phys (heap s')) /\
        forall x, Kmalloc.mem (heap s') !! x = if decide (ptr <= x < ptr + log_bytes) then Some 0 else Kmalloc.mem (heap s) !! x
  | Panic _ => forall p, ~ free_run (phys (heap s)) 7 p
  | _ => False
  end.
Proof. apply kernel_log_init_ok. Qed.

(** *** Examples *)

(** A log, an empty console and a serial port that is always ready. *)
Definition sample_global : kernel_global := mk_global KERNEL_STAGE_2_HAS_RING_BUFFER true KERNEL_LOG_DEBUG.

Definition sample_io (v : video) : early_io := mk_io v (mk_serial (replicate 507 0x20) []).

Definition sample_lm (l : kernel_log_state) (v : video) : log_mem := mk_lm l sample_global ∅ (sample_io v) sample_kmem.

Lemma sample_io_ok v : represents v empty_console -> console_ok (sample_io v) empty_console 507.
Proof. intros Hv. split; [exact Hv|reflexivity|]. unfold ready_times. cbn [lsr port sample_io]. vm_compute. discriminate. Qed.

Lemma sample_console : exists v, represents v empty_console.
Proof. destruct (wp_done _ _ _ (init_ok Console.sample_mem (proj1 Console.sample_mem_mapped) (proj2 Console.sample_mem_mapped))) as (_ & v & _ & H). by exists v. Qed.

Lemma log_vprintf_correct_witness :
  exists s, log s = zero_log /\
    wp (log_vprintf KERNEL_LOG_INFO (cstr "%d!") [VaInt 7]) s (fun _ s' =>
      log_ok (log s') [(KERNEL_LOG_INFO, chars "7!")] /\
      outs (port (io s')) = (fun c => (COM1, c)) <$> (chars "INFO:  7!" ++ [10])).
Proof.
  destruct sample_console as [v Hv]. exists (sample_lm zero_log v). split; [reflexivity|].
  eapply (wp_mono _ _ _ _ (log_vprintf_correct (sample_lm zero_log v) empty_console [] KERNEL_LOG_INFO sample_items [VaInt 7] (chars "7!")
    zero_log_ok eq_refl eq_refl eq_refl sample_items_ok _ eq_refl eq_refl _)).
  Unshelve.
  - cbv beta. unfold logged. change (logs (global (sample_lm zero_log v)) KERNEL_LOG_INFO) with true.
    change (log_echo (global (sample_lm zero_log v))) with true. cbv iota.
    intros ? s' (_ & _ & _ & H1 & _ & H2). split; [exact H1|]. rewrite H2. reflexivity.
  - repeat constructor.
  - exact (sample_io_ok v Hv).
Defined.

Definition full_log : kernel_log_state :=
  mk_log 1023 0 1023 (replicate 1023 (mk_entry 0 KERNEL_LOG_INFO (replicate 500 0))).

Lemma full_log_ok : log_ok full_log (replicate 1023 (KERNEL_LOG_INFO, [])).
Proof.
  split; try reflexivity.
  - by apply Forall_replicate.
  - intros i f t Hi. apply lookup_replicate in Hi as [[= -> ->] Hi]. eexists _, _. split; [by apply lookup_replicate_2|]. split; [reflexivity|].
    change (replicate 500 0) with (0 :: replicate 499 0). reflexivity.
Qed.

Lemma log_limits_witness :
  exists s, log s = full_log /\ log_vprintf KERNEL_LOG_INFO (cstr "%d!") [VaInt 7] s = Undef.
Proof.
  destruct sample_console as [v _]. exists (sample_lm full_log v). split; [reflexivity|].
  apply (proj1 (log_limits (sample_lm full_log v) _ KERNEL_LOG_INFO sample_items [VaInt 7] (chars "7!") full_log_ok eq_refl eq_refl)). reflexivity.
Defined.

(** A heap of 128 frames, all free after initialisation. *)
Definition big_frames : list Z := seqZ 128 128.

Definition big_heads : list Z := (fun o => 0x1000 + 16 * o) <$> seqZ 0 13.

Definition big_start : phys_mem :=
  mk_phys (gset_to_gmap (mk_physblock 0 0 PHYSBLOCK_UNMANAGED 0) (list_to_set (blk <$> big_frames)))
    (gset_to_gmap (mk_node 0 0) (list_to_set (node <$> big_frames)) ∪ list_to_map ((fun a => (a, mk_node a a)) <$> big_heads))
    ∅ (mk_stats 0 0 0 0 (replicate 13 0)) [mk_phys_span 128 128] 0x1000.

Lemma big_span p : span_of [mk_phys_span 128 128] p <> -1 <-> 128 <= p < 256.
Proof.
  unfold span_of. cbn [pfn_to_span_in start_pfn Phys.num_pages]. change (128 + 128)%u64 with 256.
  destruct (Z.leb_spec 128 p), (Z.ltb_spec p 256); simpl; lia.
Qed.

Lemma big_block p : 128 <= p < 256 -> blocks big_start !! blk p = Some (mk_physblock 0 0 PHYSBLOCK_UNMANAGED 0).
Proof.
  intros Hp. apply lookup_gset_to_gmap_Some. split; [|done]. apply elem_of_list_to_set, list_elem_of_fmap. exists p.
  split; [done|]. apply elem_of_seqZ. lia.
Qed.

Lemma empty_ring (ns : nodes) a : ns !! a = Some (mk_node a a) -> ring ns a [].
Proof. intros E. split; [apply NoDup_singleton|]. unfold linked, nxt, prv. by rewrite E. Qed.

Lemma big_init : init_state big_start.
Proof.
  assert (Forall (fun o => pnodes big_start !! free_list big_start o = Some (mk_node (free_list big_start o) (free_list big_start o))) (seqZ 0 13)) as HL.
  { assert (forall o, 0 <= o <= MAX_ORDER -> (list_to_set (node <$> big_frames) : gset Z) ## {[free_list big_start o]}) as Hd.
    { intros o Ho x Hx%elem_of_list_to_set Hy%elem_of_singleton. apply list_elem_of_fmap in Hx as (p & -> & Hp%elem_of_seqZ).
      unfold free_list, node, blk, KERNEL_MEM_MAP_ADDRESS, MAX_ORDER in *. simpl in Hy. lia. }
    apply Forall_forall. intros o Ho%elem_of_seqZ. cbn [pnodes big_start]. rewrite lookup_union_r.
    2:{ apply lookup_gset_to_gmap_None. intros Hx. apply (Hd o ltac:(unfold MAX_ORDER; lia) (free_list big_start o) Hx). by apply elem_of_singleton. }
    assert (Forall (fun o => (list_to_map ((fun a => (a, mk_node a a)) <$> big_heads) : nodes) !! free_list big_start o =
      Some (mk_node (free_list big_start o) (free_list big_start o))) (seqZ 0 13)) as HF.
    { repeat (constructor; [vm_compute; reflexivity|]). constructor. }
    apply (proj1 (Forall_forall _ _) HF). by apply elem_of_seqZ. }
  split; [split| | | | | |].
  - repeat constructor; simpl; lia.
  - apply (bool_decide_unpack _). by vm_compute.
  - split; vm_compute; discriminate.
  - intros p Hp%big_span. exists PHYSBLOCK_UNMANAGED, 0. split; [by apply big_block|]. split; [by vm_compute|split; lia].
  - intros o Ho. pose proof (proj1 (Forall_forall _ _) HL o ltac:(apply elem_of_seqZ; unfold MAX_ORDER in Ho; lia)) as E. by apply empty_ring.
  - intros p Hp%big_span. exists (mk_node 0 0). apply lookup_union_Some_l. apply lookup_gset_to_gmap_Some. split; [|done].
    apply elem_of_list_to_set, list_elem_of_fmap. exists p. split; [done|]. apply elem_of_seqZ. lia.
  - split_and!; by vm_compute.
  - done.
Qed.

Lemma unmanaged_status B p :
  B !! blk p = Some (mk_physblock 0 0 PHYSBLOCK_UNMANAGED 0) -> page_status B p = Some (Used p 0 PHYSBLOCK_UNMANAGED 0).
Proof. intros E. unfold page_status. rewrite E. cbn [mbind option_bind head_offset]. rewrite Z.sub_0_r, E. reflexivity. Qed.

Lemma big_status p : 128 <= p < 256 -> page_status (blocks big_start) p = Some (Used p 0 PHYSBLOCK_UNMANAGED 0).
Proof. intros Hp. by apply unmanaged_status, big_block. Qed.

Definition big_mem : bytes := gset_to_gmap 7 (list_to_set (seqZ (frame_ptr 128) 524288)).

Lemma big_mem_byte x : frame_ptr 128 <= x < frame_ptr 128 + 524288 -> big_mem !! x = Some 7.
Proof. intros Hx. apply lookup_gset_to_gmap_Some. split; [|done]. by apply elem_of_list_to_set, elem_of_seqZ. Qed.

Lemma big_heap : exists h, phys_ok (phys h) /\ direct_mapped (spans (phys h)) /\ frames_mapped (Kmalloc.mem h) (spans (phys h)) /\ free_run (phys h) 7 128.
Proof.
  destruct (wp_done _ _ _ (init_all_ok big_start big_init)) as (_ & p & _ & Hd).
  exists (mk_kmem p big_mem). cbn [phys Kmalloc.mem]. rewrite (id_spans _ _ _ _ Hd). cbn [spans big_start].
  split; [apply Hd|]. split; [intros q Hq%big_span; lia|]. split.
  - intros q Hq%big_span i Hi. exists 7. split; [|split; lia]. apply big_mem_byte. unfold frame_ptr. lia.
  - split; [by exists 1|]. intros i Hi. rewrite (id_spans _ _ _ _ Hd). cbn [spans big_start].
    assert (forall q, 128 <= q < 256 -> span_of [mk_phys_span 128 128] q = 0) as Hz.
    { intros q Hq. unfold span_of. cbn [pfn_to_span_in start_pfn Phys.num_pages]. change (128 + 128)%u64 with 256.
      destruct (Z.leb_spec 128 q), (Z.ltb_spec q 256); simpl; lia. }
    rewrite !Hz by lia. split; [|done]. rewrite (id_status _ _ _ _ Hd) by (apply big_span; lia).
    rewrite decide_True; [done|]. split; [apply elem_of_pfns; [apply big_init|apply big_span; lia]|].
    by rewrite big_status by lia.
Qed.

Lemma kernel_log_init_correct_witness :
  exists s, log_level (global s) = KERNEL_LOG_DEBUG /\
    wp kernel_log_init s (fun _ s' => log_ok (log s') [] /\ stage (global s') = KERNEL_STAGE_2_HAS_RING_BUFFER).
Proof.
  destruct big_heap as (h & H1 & H2 & H3 & H4). destruct sample_console as [v _].
  exists (mk_lm full_log sample_global ∅ (sample_io v) h). split; [reflexivity|]. unfold wp.
  pose proof (kernel_log_init_correct (mk_lm full_log sample_global ∅ (sample_io v) h) H1 H2 H3 eq_refl) as H.
  destruct (kernel_log_init _) as [[] s'| | |]; [|destruct (H 128 H4)|destruct H..].
  destruct H as (G1 & _ & _ & G2 & _). split; [exact G1|exact G2].
Defined.
