(* ===== verification/KernelMap.v ===== *)
(** * The kernel's address space (early/mem.c)

    [early_remap_page_tables]: a new tree of page tables with the direct map, the
    sections of the kernel's image, its headers, the video memory and the APICs.
    The state joins the machine of the early allocator, the memory of the
    physical allocator, the root of the kernel's page tables and [CR3].

    The headers of the kernel's image are read before anything writes to them:
    they are arguments, the contents of the headers in memory. *)

From stdpp Require Import base strings numbers gmap list sets sorting.
From Stdlib Require Import ZArith Lia.
From S2P Require Import Prelude Macros MmDefs Bitmap Range E820 Page PageMap EarlyAlloc Phys.

(** ** Data *)

Record boot := mk_boot {
  early : machine early_mem;
  phys : phys_mem;
  kernel_root_pgd : Z;
  cr3 : Z;
}.

Abbreviation BM := (M boot).

Definition early_op {A} (m : EM A) : BM A := zoom early (fun e b => mk_boot e (phys b) (kernel_root_pgd b) (cr3 b)) m.

Definition phys_op {A} (m : PM A) : BM A := zoom phys (fun p b => mk_boot (early b) p (kernel_root_pgd b) (cr3 b)) m.

(** *** ELF (include/elf.h) *)

Definition ELF_SHT_NOBITS : Z := 8.
Definition ELF_SHF_WRITE : Z := BIT_MASK 0.
Definition ELF_SHF_EXECINSTR : Z := BIT_MASK 2.

(** The fields of [struct elf_header] and [struct elf_section_header] the code
    reads. *)
Record elf_header := mk_elf { shoff : Z; shnum : Z }.

Record elf_section_header := mk_sect { sh_type : Z; sh_flags : Z; sh_addr : Z; sh_offset : Z; sh_size : Z }.

(** ** The page tables *)

(** [memcpy] of whole pages, a word at a time. *)
Definition copy_pages (dest src n : Z) : EM unit :=
  for_loop (Z.to_nat (512 * n)) 0 (fun i =>
    modify (fun s => mk_machine (store (mem s) (dest + 8 * i) (load (mem s) (src + 8 * i))) (alloc_st s))).

(** Where a section is, allocating memory for one that has none; the allocator
    takes an [int]. *)
Definition section_phys (sect : elf_section_header) (elf_pa : Z) : EM Z :=
  if sh_type sect =? ELF_SHT_NOBITS then
    let num_pages := bytes_to_pages (sh_size sect) in
    pa ← early_pages_alloc (i32 num_pages);
    copy_pages (phys_to_virt_ptr pa) (sh_addr sect) num_pages;;
    mret pa
  else mret (elf_pa + sh_offset sect)%u64.

Definition section_flags (flags : Z) : Z :=
  let f := if negb (IS_MASK_SET flags ELF_SHF_WRITE) then Z.lor MAP_KERNEL MAP_READONLY else MAP_KERNEL in
  if IS_MASK_SET flags ELF_SHF_EXECINSTR then Z.lor f MAP_CODE else f.

Definition map_section (elf_pa pgd : Z) (sect : elf_section_header) : EM unit :=
  if sh_addr sect =? 0 then mret tt
  else
    let va := sh_addr sect in
    pa ← section_phys sect elf_pa;
    if negb (IS_ALIGNED va PAGE_SIZE) || negb (IS_ALIGNED pa PAGE_SIZE) then
      panic "Misaligned kernel ELF section (%d) by %lu, VA=0x%lx, PA=0x%lx"
    else
      _map_page_range early_allocators pgd va pa (bytes_to_pages (sh_size sect)) (section_flags (sh_flags sect));;
      mret tt.

Definition HEADER_FLAGS : Z := Z.lor (Z.lor MAP_KERNEL MAP_READONLY) MAP_SKIP_IF_MAPPED.

(** [header] is the address of [hdr]; the section headers in memory are [sects]. *)
Definition early_map_kernel_elf (header : Z) (hdr : elf_header) (sects : list elf_section_header) (elf_pa pgd : Z) : EM unit :=
  if negb (IS_ALIGNED header PAGE_SIZE) then panic "Misaligned kernel ELF header by %lu"
  else
    for_loop (Z.to_nat (shnum hdr)) 0 (fun i =>
      sect ← lift (zlookup sects i);
      map_section elf_pa pgd sect);;
    _map_page_range early_allocators pgd header elf_pa 1 HEADER_FLAGS;;
    _map_page_range early_allocators pgd (header + shoff hdr)%u64 (elf_pa + shoff hdr)%u64 2 HEADER_FLAGS;;
    mret tt.

Definition EARLY_VIDEO_MEMORY_ADDRESS_PHYS : Z := 0xb8000.
Definition EARLY_VIDEO_SIZE : Z := 4000.

Definition early_map_video_range (pgd : Z) : EM unit :=
  let num_pages := bytes_to_pages EARLY_VIDEO_SIZE in
  let va := (KERNEL_DIRECT_MAP_BASE + EARLY_VIDEO_MEMORY_ADDRESS_PHYS)%u64 in
  _map_page_range early_allocators pgd va EARLY_VIDEO_MEMORY_ADDRESS_PHYS num_pages MAP_DEVICE;;
  mret tt.

Definition APIC_BASE_ADDRESS : Z := 0xffffc10040000000.
Definition APIC_IO_BASE_ADDDRESS : Z := 0xffffc10040001000.
Definition X86_IO_APIC_ADDRESS_PHYS : Z := 0xfec00000.

Definition early_map_apic_base (info : early_boot_info) (pgd : Z) : EM unit :=
  _map_page_range early_allocators pgd APIC_BASE_ADDRESS (apic_base info) 1 MAP_DEVICE;;
  _map_page_range early_allocators pgd APIC_IO_BASE_ADDDRESS X86_IO_APIC_ADDRESS_PHYS 1 MAP_DEVICE;;
  mret tt.

Definition early_remap_page_tables (info : early_boot_info) (hdr : elf_header) (sects : list elf_section_header) : BM unit :=
  pgd ← early_op (
    pgd ← early_alloc_pgd;
    early_map_direct info pgd;;
    early_map_kernel_elf KERNEL_ELF_ADDRESS hdr sects KERNEL_ELF_ADDRESS_PHYS pgd;;
    early_map_video_range pgd;;
    early_map_apic_base info pgd;;
    mret pgd);
  modify (fun b => mk_boot (early b) (phys b) pgd pgd).

(** ** Specification: regions *)

(** [r_count] pages from page [r_page], mapped to the frames from [r_frame]. *)
Record region := mk_region { r_page : Z; r_frame : Z; r_count : Z; r_flags : Z }.

Definition in_region (u : Z) (r : region) : Prop := r_page r <= u < r_page r + r_count r.

(** The address space is the regions: their pages translate to their frames with
    their flags, and no other page is mapped. *)
Definition maps_exactly (m : words) (pgd : Z) (R : list region) : Prop :=
  forall u, 0 <= u < 2 ^ 36 ->
    (forall r, r ∈ R -> in_region u r -> translate m pgd u = Some (r_frame r + (u - r_page r), r_flags r)) /\
    ((forall r, r ∈ R -> ~ in_region u r) -> walk m pgd u = None).

(** The pages a list of extents, first page and number of pages, covers. *)
Definition extent_pages (l : list (Z * Z)) : list Z := concat ((fun a => seqZ a.1 a.2) <$> l).

Definition extent (r : region) : Z * Z := (r_page r, r_count r).

Definition extent_ok (a : Z * Z) : Prop := 0 <= a.1 /\ 0 < a.2 /\ a.1 + a.2 <= 2 ^ 36.

(** The tables that mapping the extents can take. *)
Fixpoint extent_tables (l : list (Z * Z)) : Z :=
  match l with
  | [] => 0
  | a :: l' => tables_below 3 a.1 a.2 + extent_tables l'
  end.

Lemma extent_pages_app l k : extent_pages (l ++ k) = extent_pages l ++ extent_pages k.
Proof. unfold extent_pages. by rewrite fmap_app, concat_app. Qed.

Lemma elem_of_extents R u : u ∈ extent_pages (extent <$> R) <-> exists r, r ∈ R /\ in_region u r.
Proof.
  induction R as [|r R IH].
  - unfold extent_pages. simpl. rewrite elem_of_nil. split; [done|]. by intros (r & ?%elem_of_nil & _).
  - change (r :: R) with ([r] ++ R). rewrite fmap_app, extent_pages_app, elem_of_app, IH. unfold extent_pages at 1.
    cbn [extent fmap list_fmap concat fst snd]. rewrite app_nil_r, elem_of_seqZ. unfold in_region. split.
    + intros [?|(c & ? & ?)]; [exists r; split; [by left|lia]|exists c; split; [by right|done]].
    + intros (c & [->|?]%elem_of_cons & ?); [left; lia|right; eauto].
Qed.

Section kernel_map.
Context (fz : frozen).
Abbreviation kpt_ok h := (held_pt_ok fz h).
Abbreviation room h e := (held_avail fz h (alloc_st e)).

Lemma maps_exactly_ext m R R' pgd : (forall r, r ∈ R <-> r ∈ R') -> maps_exactly m pgd R -> maps_exactly m pgd R'.
Proof.
  intros HR Hm u Hu. destruct (Hm u Hu) as [H1 H2]. split.
  - intros r Hr. by apply H1, HR.
  - intros Hn. apply H2. intros r Hr. by apply Hn, HR.
Qed.

(** Mapping one more region. *)
Lemma map_region_ok h pgd e R va pa n fl (r := mk_region (vpn va) (pa / 2 ^ 12) n (map_flags_to_page_flags fl)) :
  kpt_ok h pgd e -> maps_exactly (mem e) pgd R -> is_u64 va -> extent_ok (extent r) -> 0 <= pa -> pa + n * 2 ^ 12 <= 2 ^ 48 ->
  map_mode_ok fl -> (forall u, u ∈ extent_pages (extent <$> R) -> ~ in_region u r) -> tables_below 3 (vpn va) n <= room h e ->
  wp (_map_page_range early_allocators pgd va pa n fl) e (fun _ e' =>
    kpt_ok h pgd e' /\ maps_exactly (mem e') pgd (R ++ [r]) /\ room h e - tables_below 3 (vpn va) n <= room h e').
Proof.
  intros Hok Hm Hva (X1 & X2 & X3) Hpa Hend Hmode Hdis Hfree. cbn [extent r fst snd r_page r_count] in X1, X2, X3.
  assert (forall u, 0 <= u < 2 ^ 36 -> in_region u r -> walk (mem e) pgd u = None) as Hun.
  { intros u Hu Hin. apply (Hm u Hu). intros r' Hr' Hin'. apply (Hdis u); [|done]. apply elem_of_extents. eauto. }
  assert (0 <= pa / 2 ^ 12) by (apply Z.div_pos; lia). assert (pa / 2 ^ 12 + n <= 2 ^ 36).
  { rewrite <- Z.div_add by lia. apply Z.div_le_upper_bound; lia. }
  eapply wp_mono; [apply (map_page_range_ok (L := held_laws fz h) pgd e va pa n fl)|]; try done.
  - unfold in_range. lia.
  - intros u Hu. left. apply Hun; [lia|exact Hu].
  - cbv beta. intros ? e' (st' & _ & [_ _ _ Hok' _ Hmap _ Hb]). cbn [flags] in Hmap. 
    change (pages_left e) with (room h e) in Hb. change (pages_left e') with (room h e') in Hb.
    split; [done|]. split; [|lia]. intros u Hu. specialize (Hmap u Hu). destruct (Hm u Hu) as [M1 M2].
    assert (in_region u r <-> vpn va <= u < vpn va + n) as Hin by done. split.
    + intros r' [Hr'| ->%list_elem_of_singleton]%elem_of_app Hin'.
      * assert (~ in_region u r) as Hnr by (apply Hdis, elem_of_extents; eauto). rewrite decide_False in Hmap by by rewrite <- Hin.
        unfold translate. rewrite Hmap. by apply M1.
      * rewrite decide_True in Hmap by by apply Hin. by rewrite (Hun u Hu Hin') in Hmap.
    + intros Hn. rewrite decide_False in Hmap by (rewrite <- Hin; apply Hn, elem_of_app; right; apply list_elem_of_here).
      rewrite Hmap. apply M2. intros r' Hr'. apply Hn, elem_of_app. by left.
Qed.

(** ** The sections *)

Lemma copy_pages_ok dest src n e :
  wp (copy_pages dest src n) e (fun _ e' => alloc_st e' = alloc_st e /\
    forall x, (forall i, 0 <= i < 512 * n -> x <> dest + 8 * i) -> load (mem e') x = load (mem e) x).
Proof.
  pose proof (wp_for_loop (fun k e' => alloc_st e' = alloc_st e /\
      forall x, (forall i, 0 <= i < 512 * n -> x <> dest + 8 * i) -> load (mem e') x = load (mem e) x) (Z.to_nat (512 * n)) 0
    (fun i => modify (fun s => mk_machine (store (mem s) (dest + 8 * i) (load (mem s) (src + 8 * i))) (alloc_st s))) e) as Hloop.
  cbv beta in Hloop. apply Hloop; [done|]. intros k e1 Hk [Ha Hm]. apply wp_modify. cbn [mem alloc_st]. split; [done|].
  intros x Hx. rewrite load_store_ne; [by apply Hm|]. intros E. by apply (Hx (0 + Z.of_nat k)); [lia|].
Qed.

(** Memory for a section that has none: a run of pages nobody uses, which may be
    written freely. There is none for more than eight pages, and may be none
    without a landing. *)
Lemma section_alloc_ok h pgd e R src n (h' := landing_after h 1) :
  kpt_ok h pgd e -> maps_exactly (mem e) pgd R -> 1 <= n < 2 ^ 31 ->
  completes (pa ← early_pages_alloc (i32 n); copy_pages (phys_to_virt_ptr pa) src n;; mret pa) e (fun pa e' =>
    page_ok pa /\ n <= 8 /\ kpt_ok h' pgd e' /\ maps_exactly (mem e') pgd R /\ room h' e' = room h e - n)
    (8 < n \/ ~ landing_fits h 1).
Proof.
  intros [Hok Htree] Hm Hn. rewrite i32_small by lia. apply completes_bind.
  destruct (Z.ltb_spec 8 n) as [Hn8|Hn8]; [unfold early_pages_alloc; rewrite (proj2 (Z.ltb_lt 8 n)) by done; by left|].
  eapply completes_mono; [apply (pages_alloc_held fz h e n Hok); lia| |by right].
  cbv beta. intros p e1 [(Hp & [Hmem _] & Hsh1 & Hwf1 & Hfree & Hwas & Hst) Hok1].
  apply completes_bind, completes_wp. eapply wp_mono; [apply copy_pages_ok|]. cbv beta. intros ? e2 [Ha Hl]. apply completes_wp, wp_ret.
  assert (forall q, early_in_use (alloc_st e) q -> early_in_use (alloc_st e2) q /\ ~ (p <= q < p + n * 2 ^ 12)) as Hin.
  { intros q (Hq & t & Ht & Hs). assert (~ (p <= q < p + n * 2 ^ 12)) as Hout.
    { intros Hr. specialize (Hwas q Hr). congruence. }
    split; [|done]. split; [done|]. exists t. split; [done|]. rewrite Ha, (Hst q). by rewrite decide_False. }
  destruct (tree_grows (mem e) (mem e2) (early_in_use (alloc_st e)) (early_in_use (alloc_st e2)) pgd) as (Htree2 & _ & Hw).
  - done.
  - intros q Hq. by apply Hin.
  - intros q j Hq Hu Hj. unfold entry. rewrite Hl, Hmem; [done|]. intros i Hi.
    destruct (Hin q Hu) as [_ Hout]. destruct Hp as [Hp Hpal], Hq as [Hq Hqal].
    rewrite entry_addr by (done || lia). unfold phys_to_virt_ptr, virt_to_ptr, phys_to_virt, KERNEL_DIRECT_MAP_BASE.
    rewrite add64_small by (unfold is_u; lia).
    pose proof (Z.div_mod p (2 ^ 12)). pose proof (Z.div_mod q (2 ^ 12)). lia.
  - split; [done|]. split; [done|]. split.
    { split; [|done]. by rewrite Ha. }
    split.
    + intros u Hu. destruct (Hm u Hu) as [M1 M2]. unfold translate. rewrite Hw by done. by split.
    + rewrite Ha. by apply held_avail_after.
Qed.

Definition section_pages (sect : elf_section_header) : Z := bytes_to_pages (sh_size sect).

(** A section that is loaded: inside the address space, and inside physical
    memory when the image holds it. *)
Definition section_ok (elf_pa : Z) (sect : elf_section_header) : Prop :=
  sh_addr sect <> 0 -> is_u64 (sh_addr sect) /\ 0 <= sh_flags sect /\ extent_ok (vpn (sh_addr sect), section_pages sect) /\
    (sh_type sect <> ELF_SHT_NOBITS -> 0 <= elf_pa + sh_offset sect /\ elf_pa + sh_offset sect + section_pages sect * 2 ^ 12 <= 2 ^ 48) /\
    (sh_type sect = ELF_SHT_NOBITS -> section_pages sect < 2 ^ 31).

(** What makes mapping a loaded section panic: it is not page-aligned, or it has
    to be given more than eight pages of memory. *)
Definition section_panics (elf_pa : Z) (sect : elf_section_header) : Prop :=
  sh_addr sect <> 0 /\
  ((sh_type sect = ELF_SHT_NOBITS /\ 8 < section_pages sect) \/ sh_addr sect mod 2 ^ 12 <> 0 \/
   (sh_type sect <> ELF_SHT_NOBITS /\ (elf_pa + sh_offset sect) mod 2 ^ 12 <> 0)).

(** The number of sections that have to be given memory. *)
Definition needs_memory (sect : elf_section_header) : Z :=
  if decide (sh_addr sect <> 0 /\ sh_type sect = ELF_SHT_NOBITS) then 1 else 0.

Definition need_memory (sects : list elf_section_header) : Z := foldr (fun sect n => needs_memory sect + n) 0 sects.

(** The region of a section. It is present, writable if the section is, and
    executable if the section is. *)
Definition section_region (elf_pa : Z) (sect : elf_section_header) (R : list region) : Prop :=
  if decide (sh_addr sect = 0) then R = []
  else exists f pf, R = [mk_region (vpn (sh_addr sect)) f (section_pages sect) pf] /\
    (sh_type sect <> ELF_SHT_NOBITS -> f = (elf_pa + sh_offset sect) / 2 ^ 12) /\
    Z.testbit pf 0 = true /\ Z.testbit pf 1 = Z.testbit (sh_flags sect) 0 /\ Z.testbit pf 63 = negb (Z.testbit (sh_flags sect) 2).

Definition section_extent (sect : elf_section_header) : list (Z * Z) :=
  if decide (sh_addr sect = 0) then [] else [(vpn (sh_addr sect), section_pages sect)].

(** The pages mapping a section can take: its tables, and the section itself. *)
Definition section_cost (sect : elf_section_header) : Z :=
  if decide (sh_addr sect = 0) then 0
  else tables_below 3 (vpn (sh_addr sect)) (section_pages sect) + (if decide (sh_type sect = ELF_SHT_NOBITS) then section_pages sect else 0).

Lemma section_flags_mode fl : map_mode_ok (section_flags fl).
Proof. unfold section_flags. by destruct (IS_MASK_SET fl ELF_SHF_WRITE), (IS_MASK_SET fl ELF_SHF_EXECINSTR); vm_compute. Qed.

(** The page flags of a section: present, and its two permissions. *)
Lemma section_flags_bits fl (pf := map_flags_to_page_flags (section_flags fl)) : 0 <= fl ->
  Z.testbit pf 0 = true /\ Z.testbit pf 1 = Z.testbit fl 0 /\ Z.testbit pf 63 = negb (Z.testbit fl 2).
Proof.
  intros Hfl. subst pf. unfold section_flags.
  assert (forall k, 0 <= k < 64 -> IS_MASK_SET fl (BIT_MASK k) = Z.testbit fl k) as Hbit by (intros k Hk; by apply IS_BIT_SET_testbit).
  change ELF_SHF_WRITE with (BIT_MASK 0). change ELF_SHF_EXECINSTR with (BIT_MASK 2). rewrite !Hbit by lia.
  destruct (Z.testbit fl 0), (Z.testbit fl 2); by vm_compute.
Qed.

Lemma section_extents elf_pa sects Rs :
  Forall2 (section_region elf_pa) sects Rs -> extent <$> concat Rs = concat (section_extent <$> sects).
Proof.
  induction 1 as [|sect R sects Rs Hr _ IH]; [done|]. simpl. rewrite fmap_app, IH. f_equal.
  unfold section_region, section_extent in *. case_decide; [by subst|]. by destruct Hr as (f & pf & -> & _).
Qed.

(** Where the section's pages are. *)
Lemma section_phys_ok h elf_pa pgd e R sect (h' := landing_after h (needs_memory sect)) :
  kpt_ok h pgd e -> maps_exactly (mem e) pgd R -> section_ok elf_pa sect -> sh_addr sect <> 0 ->
  completes (section_phys sect elf_pa) e (fun pa e' =>
    kpt_ok h' pgd e' /\ maps_exactly (mem e') pgd R /\
    room h' e' = room h e - (if decide (sh_type sect = ELF_SHT_NOBITS) then section_pages sect else 0) /\
    0 <= pa /\ pa + section_pages sect * 2 ^ 12 <= 2 ^ 48 /\ (sh_type sect = ELF_SHT_NOBITS -> pa mod 2 ^ 12 = 0) /\
    (sh_type sect <> ELF_SHT_NOBITS -> pa = elf_pa + sh_offset sect))
    (section_panics elf_pa sect \/ ~ landing_fits h (needs_memory sect)).
Proof.
  intros Hok Hm Hs Ha. destruct (Hs Ha) as (_ & _ & (_ & Hn & _) & Hpa & Hnb). cbn [snd] in Hn. unfold section_phys, needs_memory in *.
  destruct (Z.eqb_spec (sh_type sect) ELF_SHT_NOBITS) as [Ht|Ht].
  - subst h'. rewrite !decide_True by done.
    eapply completes_mono; [apply (section_alloc_ok h pgd e R (sh_addr sect) (section_pages sect) Hok Hm); lia| |].
    + cbv beta. intros pa e' ([Hp Hal] & Hn8 & Hok' & Hm' & Hf). split_and!; try done; lia.
    + intros [?|?]; [left; split; [done|by left]|by right].
  - subst h'. rewrite !decide_False by tauto. rewrite landing_after_0. destruct (Hpa Ht). apply completes_wp, wp_ret.
    rewrite add64_small by (unfold is_u; lia). split_and!; try done; lia.
Qed.

Lemma map_section_ok h elf_pa pgd e R sect (h' := landing_after h (needs_memory sect)) :
  kpt_ok h pgd e -> maps_exactly (mem e) pgd R -> section_ok elf_pa sect ->
  (forall u, u ∈ extent_pages (extent <$> R) -> u ∉ extent_pages (section_extent sect)) -> section_cost sect <= room h e ->
  completes (map_section elf_pa pgd sect) e (fun _ e' => exists R', section_region elf_pa sect R' /\
    kpt_ok h' pgd e' /\ maps_exactly (mem e') pgd (R ++ R') /\ room h e - section_cost sect <= room h' e')
    (section_panics elf_pa sect \/ ~ landing_fits h (needs_memory sect)).
Proof.
  intros Hok Hm Hs Hdis Hfree. unfold map_section, section_region, section_cost, section_extent in *.
  destruct (decide (sh_addr sect = 0)) as [Hz|Hz], (Z.eqb_spec (sh_addr sect) 0); try done.
  { subst h'. unfold needs_memory. rewrite decide_False, landing_after_0 by tauto.
    apply completes_wp, wp_ret. exists []. rewrite app_nil_r. split_and!; try done. lia. }
  destruct (Hs Hz) as (Hva & Hfl & Hext & _).
  assert (forall u, u ∈ extent_pages (extent <$> R) -> ~ (vpn (sh_addr sect) <= u < vpn (sh_addr sect) + section_pages sect)) as Hd.
  { intros u Hu Hin. apply (Hdis u Hu). unfold extent_pages. cbn [fmap list_fmap concat fst snd]. rewrite app_nil_r, elem_of_seqZ. lia. }
  apply completes_bind. eapply completes_mono; [by apply (section_phys_ok h elf_pa pgd e R)| |done]. cbv beta. fold h'.
  intros pa e1 (Hok1 & Hm1 & Hf1 & Hp0 & Hp1 & Hal & Hpa). rewrite !IS_ALIGNED_page.
  destruct (Z.eqb_spec (sh_addr sect mod 2 ^ 12) 0); [destruct (Z.eqb_spec (pa mod 2 ^ 12) 0)|]; simpl orb; cbv iota.
  - apply completes_bind, completes_wp.
    eapply wp_mono; [apply (map_region_ok h' pgd e1 R (sh_addr sect) pa (section_pages sect) (section_flags (sh_flags sect))); try done|].
    + apply section_flags_mode.
    + lia.
    + cbv beta. intros ? e'' (Hok2 & Hm2 & Hf2). apply wp_ret. eexists. split; [eexists _, _; split; [done|]|split; [done|split; [exact Hm2|lia]]].
      split; [intros Ht; by rewrite Hpa|by apply section_flags_bits].
  - left. split; [done|]. right. right. destruct (decide (sh_type sect = ELF_SHT_NOBITS)) as [Ht|Ht]; [by specialize (Hal Ht)|]. by rewrite <- Hpa.
  - left. split; [done|]. right. by left.
Qed.

Definition sections_cost (sects : list elf_section_header) : Z := foldr (fun sect c => section_cost sect + c) 0 sects.

Lemma sections_cost_app l k : sections_cost (l ++ k) = sections_cost l + sections_cost k.
Proof. induction l as [|a l IH]; simpl; [done|]. unfold sections_cost in *. simpl. lia. Qed.

Lemma section_cost_nonneg elf_pa sect : section_ok elf_pa sect -> 0 <= section_cost sect.
Proof.
  intros Hs. unfold section_cost. case_decide as Hz; [lia|]. destruct (Hs Hz) as (_ & _ & (_ & Hn & _) & _). cbn [snd] in Hn.
  pose proof (tables_below_nonneg 3 (vpn (sh_addr sect)) (section_pages sect) Hn). case_decide; lia.
Qed.

Lemma sections_cost_nonneg elf_pa sects : Forall (section_ok elf_pa) sects -> 0 <= sections_cost sects.
Proof.
  induction 1 as [|sect sects Hs _ IH]; unfold sections_cost; simpl; [lia|]. pose proof (section_cost_nonneg elf_pa sect Hs).
  unfold sections_cost in IH. lia.
Qed.

Lemma need_memory_app l k : need_memory (l ++ k) = need_memory l + need_memory k.
Proof. induction l as [|a l IH]; simpl; [done|]. unfold need_memory in *. simpl. lia. Qed.

Lemma need_memory_nonneg l : 0 <= need_memory l.
Proof. induction l as [|a l IH]; simpl; [done|]. unfold need_memory in *. simpl. unfold needs_memory at 1. case_decide; lia. Qed.

(** The loop over the section headers. *)
Lemma map_sections_ok h elf_pa pgd e R all n (sects := take n all) (h' := landing_after h (need_memory sects)) :
  (n <= length all)%nat -> kpt_ok h pgd e -> maps_exactly (mem e) pgd R -> Forall (section_ok elf_pa) sects ->
  NoDup (extent_pages ((extent <$> R) ++ concat (section_extent <$> sects))) -> sections_cost sects <= room h e ->
  completes (for_loop n 0 (fun i => sect ← lift (zlookup all i); map_section elf_pa pgd sect)) e (fun _ e' =>
    exists Rs, Forall2 (section_region elf_pa) sects Rs /\
      kpt_ok h' pgd e' /\ maps_exactly (mem e') pgd (R ++ concat Rs) /\ room h e - sections_cost sects <= room h' e')
    (Exists (section_panics elf_pa) sects \/ ~ landing_fits h (need_memory sects)).
Proof.
  intros Hlen Hok Hm Hs Hnd Hfree. assert (length sects = n) as En by (unfold sects; rewrite length_take; lia).
  pose proof (completes_for_loop (fun k e' => exists Rs, Forall2 (section_region elf_pa) (take k sects) Rs /\
      let hk := landing_after h (need_memory (take k sects)) in
      kpt_ok hk pgd e' /\ maps_exactly (mem e') pgd (R ++ concat Rs) /\ room h e - sections_cost (take k sects) <= room hk e')
    (Exists (section_panics elf_pa) sects \/ ~ landing_fits h (need_memory sects)) n 0
    (fun i => sect ← lift (zlookup all i); map_section elf_pa pgd sect) e) as Hloop.
  cbv beta zeta in Hloop. rewrite <- En, firstn_all, En in Hloop. apply Hloop; clear Hloop.
  { exists []. change (need_memory (take 0 sects)) with 0. rewrite landing_after_0, app_nil_r.
    split_and!; try done. unfold sections_cost. simpl. lia. }
  intros k e1 Hk (Rs & HRs & Hok1 & Hm1 & Hf1). destruct (lookup_lt_is_Some_2 sects k ltac:(lia)) as [sect Hsect].
  rewrite (take_S_r _ _ _ Hsect), sections_cost_app, need_memory_app, Z.add_0_l.
  pose proof (take_drop_middle sects k sect Hsect) as Esplit.
  assert (sections_cost sects = sections_cost (take k sects) + (section_cost sect + sections_cost (drop (S k) sects))) as Ecost.
  { rewrite <- Esplit at 1. by rewrite sections_cost_app. }
  assert (need_memory sects = need_memory (take k sects) + (needs_memory sect + need_memory (drop (S k) sects))) as Eneed.
  { rewrite <- Esplit at 1. by rewrite need_memory_app. }
  assert (need_memory [sect] = needs_memory sect) as -> by (unfold need_memory; simpl; lia).
  assert (Forall (section_ok elf_pa) (drop (S k) sects)) as Hrest by by apply Forall_drop.
  pose proof (sections_cost_nonneg elf_pa _ Hrest). pose proof (Forall_lookup_1 _ _ _ _ Hs Hsect) as Hsk.
  apply completes_bind, completes_wp. eapply wp_lift.
  { apply zlookup_Some. rewrite Nat2Z.id. split; [lia|]. by apply lookup_take_Some in Hsect as [? _]. }
  assert (extent <$> R ++ concat Rs = (extent <$> R) ++ concat (section_extent <$> take k sects)) as Eext.
  { by rewrite fmap_app, (section_extents elf_pa _ _ HRs). }
  rewrite <- Esplit, fmap_app, concat_app, app_assoc, extent_pages_app in Hnd. apply NoDup_app in Hnd as (_ & Hd & _).
  eapply completes_mono; [apply (map_section_ok (landing_after h (need_memory (take k sects))) elf_pa pgd e1 (R ++ concat Rs) sect Hok1 Hm1 Hsk)| |].
  - intros u Hu Hu'. rewrite Eext in Hu. apply (Hd u Hu). cbn [fmap list_fmap concat]. rewrite extent_pages_app, elem_of_app. by left.
  - lia.
  - cbv beta. rewrite landing_after_add. intros ? e2 (R' & HR' & Hok2 & Hm2 & Hf2). exists (Rs ++ [R']). split; [|split; [done|split]].
    + apply Forall2_app; [done|]. by repeat constructor.
    + rewrite concat_app. simpl. by rewrite app_nil_r, app_assoc.
    + unfold sections_cost at 2. simpl. lia.
  - intros [Hbad|Hbad]; [left; apply Exists_exists; exists sect; split; [by eapply list_elem_of_lookup_2|done]|]. right. intros Hfit. apply Hbad.
    pose proof (need_memory_nonneg (take k sects)). pose proof (need_memory_nonneg (drop (S k) sects)).
    apply (landing_fits_after h _ _ (need_memory sects)); try done; [unfold needs_memory; case_decide; lia|lia].
Qed.

(** ** The headers, the video memory and the APICs *)

Definition header_regions (header shoff elf_pa : Z) : list region :=
  [mk_region (vpn header) (elf_pa / 2 ^ 12) 1 (map_flags_to_page_flags HEADER_FLAGS);
   mk_region (vpn (header + shoff)) ((elf_pa + shoff) / 2 ^ 12) 2 (map_flags_to_page_flags HEADER_FLAGS)].

(** The two pages of the section headers are inside the image's memory. *)
Definition header_ok (header shoff elf_pa : Z) : Prop :=
  0 <= elf_pa /\ 0 <= shoff /\ 0 <= header /\ header + shoff < 2 ^ 64 /\ elf_pa + shoff + 2 ^ 13 <= 2 ^ 48 /\ header mod 2 ^ 12 = 0.

Lemma regions_disjoint R r : NoDup (extent_pages (extent <$> R ++ [r])) -> forall u, u ∈ extent_pages (extent <$> R) -> ~ in_region u r.
Proof.
  rewrite fmap_app, extent_pages_app. intros (_ & Hd & _)%NoDup_app u Hu Hin. apply (Hd u Hu).
  change (u ∈ extent_pages (extent <$> [r])). apply elem_of_extents. exists r. split; [apply list_elem_of_here|done].
Qed.

Lemma early_map_kernel_elf_ok h header hdr sects elf_pa pgd e R (l := take (Z.to_nat (shnum hdr)) sects)
    (h' := landing_after h (need_memory l)) :
  kpt_ok h pgd e -> maps_exactly (mem e) pgd R -> 0 <= shnum hdr <= zlength sects -> Forall (section_ok elf_pa) l ->
  header_ok header (shoff hdr) elf_pa ->
  let ext := (extent <$> R) ++ concat (section_extent <$> l) ++ (extent <$> header_regions header (shoff hdr) elf_pa) in
  NoDup (extent_pages ext) -> Forall extent_ok ext ->
  sections_cost l + extent_tables (extent <$> header_regions header (shoff hdr) elf_pa) <= room h e ->
  completes (early_map_kernel_elf header hdr sects elf_pa pgd) e (fun _ e' =>
    exists Rs, Forall2 (section_region elf_pa) l Rs /\ kpt_ok h' pgd e' /\
      maps_exactly (mem e') pgd (R ++ concat Rs ++ header_regions header (shoff hdr) elf_pa) /\
      room h e - (sections_cost l + extent_tables (extent <$> header_regions header (shoff hdr) elf_pa)) <= room h' e')
    (Exists (section_panics elf_pa) l \/ ~ landing_fits h (need_memory l)).
Proof.
  intros Hok Hm Hnum Hs (H1 & H2 & H3 & H4 & H5 & H6) ext Hnd Hext Hfree. unfold early_map_kernel_elf.
  rewrite IS_ALIGNED_page, H6. cbn [Z.eqb negb]. cbn [header_regions fmap list_fmap extent_tables extent r_page r_count fst snd] in Hfree |- *.
  set (T1 := tables_below 3 (vpn header) 1) in *. set (T2 := tables_below 3 (vpn (header + shoff hdr)) 2) in *.
  unfold ext in Hnd, Hext. apply Forall_app in Hext as [_ [_ Hext]%Forall_app]. apply Forall_cons in Hext as [X1 [X2 _]%Forall_cons].
  assert (0 <= T1 /\ 0 <= T2) as [HT1 HT2] by (split; apply tables_below_nonneg; lia).
  rewrite app_assoc in Hnd. pose proof Hnd as Hnd0. rewrite extent_pages_app in Hnd0. apply NoDup_app in Hnd0 as [Hnd0 _].
  apply completes_bind. eapply completes_mono; [apply (map_sections_ok h elf_pa pgd e R sects (Z.to_nat (shnum hdr))); try done|..]; [unfold zlength in *; lia|fold l; lia| |done].
  cbv beta. intros ? e1 (Rs & HRs & Hok1 & Hm1 & Hf1). fold l in HRs, Hok1, Hf1. fold h' in Hok1, Hf1. rewrite <- (section_extents elf_pa _ _ HRs), <- fmap_app in Hnd.
  set (r1 := mk_region (vpn header) (elf_pa / 2 ^ 12) 1 (map_flags_to_page_flags HEADER_FLAGS)) in *.
  set (r2 := mk_region (vpn (header + shoff hdr)) ((elf_pa + shoff hdr) / 2 ^ 12) 2 (map_flags_to_page_flags HEADER_FLAGS)) in *.
  assert (NoDup (extent_pages (extent <$> ((R ++ concat Rs) ++ [r1]) ++ [r2]))) as Hnd2 by (rewrite <- (app_assoc (R ++ concat Rs)), fmap_app; exact Hnd).
  pose proof Hnd2 as Hnd1. rewrite fmap_app, extent_pages_app in Hnd1. apply NoDup_app in Hnd1 as [Hnd1 _].
  apply completes_bind, completes_wp. eapply wp_mono; [apply (map_region_ok h' pgd e1 (R ++ concat Rs) header elf_pa 1 HEADER_FLAGS); try done|].
  - unfold is_u. lia.
  - lia.
  - by apply regions_disjoint.
  - fold T1. lia.
  - cbv beta. fold r1 T1. intros ? e2 (Hok2 & Hm2 & Hf2). rewrite !add64_small by (unfold is_u; lia).
    apply completes_bind, completes_wp. eapply wp_mono; [apply (map_region_ok h' pgd e2 ((R ++ concat Rs) ++ [r1]) (header + shoff hdr) (elf_pa + shoff hdr) 2 HEADER_FLAGS); try done|].
    + unfold is_u. lia.
    + lia.
    + by apply regions_disjoint.
    + fold T2. lia.
    + cbv beta. fold r2 T2. intros ? e3 (Hok3 & Hm3 & Hf3). apply completes_wp, wp_ret. exists Rs. split; [done|]. split; [done|].
      split; [|lia]. by rewrite <- !app_assoc in Hm3.
Qed.

Definition device_regions (info : early_boot_info) : list region :=
  let device va pa := mk_region (vpn va) (pa / 2 ^ 12) 1 (map_flags_to_page_flags MAP_DEVICE) in
  [device (KERNEL_DIRECT_MAP_BASE + EARLY_VIDEO_MEMORY_ADDRESS_PHYS) EARLY_VIDEO_MEMORY_ADDRESS_PHYS;
   device APIC_BASE_ADDRESS (apic_base info); device APIC_IO_BASE_ADDDRESS X86_IO_APIC_ADDRESS_PHYS].

(** One page of a device's registers or memory. *)
Lemma map_device_ok h pgd e R va pa (r := mk_region (vpn va) (pa / 2 ^ 12) 1 (map_flags_to_page_flags MAP_DEVICE)) R' :
  kpt_ok h pgd e -> maps_exactly (mem e) pgd R -> is_u64 va -> 0 <= pa -> pa + 2 ^ 12 <= 2 ^ 48 ->
  NoDup (extent_pages (extent <$> R ++ r :: R')) -> tables_below 3 (vpn va) 1 <= room h e ->
  wp (_map_page_range early_allocators pgd va pa 1 MAP_DEVICE) e (fun _ e' =>
    kpt_ok h pgd e' /\ maps_exactly (mem e') pgd (R ++ [r]) /\ room h e - tables_below 3 (vpn va) 1 <= room h e').
Proof.
  intros Hok Hm Hva Hp0 Hp1 Hnd Hf. apply map_region_ok; try done.
  - unfold extent_ok, extent. cbn [fst snd r_page r_count]. unfold vpn. pose proof (Z.mod_pos_bound (va / 2 ^ 12) (2 ^ 36)). lia.
  - apply regions_disjoint. change (R ++ r :: R') with (R ++ [r] ++ R') in Hnd. rewrite app_assoc, fmap_app, extent_pages_app in Hnd.
    by apply NoDup_app in Hnd as [Hnd _].
Qed.

Lemma map_devices_ok h info pgd e R :
  kpt_ok h pgd e -> maps_exactly (mem e) pgd R -> 0 <= apic_base info -> apic_base info + 2 ^ 12 <= 2 ^ 48 ->
  NoDup (extent_pages (extent <$> R ++ device_regions info)) -> extent_tables (extent <$> device_regions info) <= room h e ->
  wp (early_map_video_range pgd;; early_map_apic_base info pgd) e (fun _ e' =>
    kpt_ok h pgd e' /\ maps_exactly (mem e') pgd (R ++ device_regions info) /\
    room h e - extent_tables (extent <$> device_regions info) <= room h e').
Proof.
  intros Hok Hm Ha0 Ha1 Hnd Hf. unfold device_regions in *.
  set (t1 := tables_below 3 (vpn (KERNEL_DIRECT_MAP_BASE + EARLY_VIDEO_MEMORY_ADDRESS_PHYS)) 1).
  set (t2 := tables_below 3 (vpn APIC_BASE_ADDRESS) 1). set (t3 := tables_below 3 (vpn APIC_IO_BASE_ADDDRESS) 1).
  assert (extent_tables (extent <$> device_regions info) = t1 + (t2 + (t3 + 0))) as E by done. unfold device_regions in E. rewrite E in *.
  assert (t1 = 3 /\ t2 = 3 /\ t3 = 3) as (E1 & E2 & E3) by (clear; by vm_compute).
  apply wp_bind. unfold early_map_video_range. change (bytes_to_pages EARLY_VIDEO_SIZE) with 1.
  change (KERNEL_DIRECT_MAP_BASE + EARLY_VIDEO_MEMORY_ADDRESS_PHYS)%u64 with (KERNEL_DIRECT_MAP_BASE + EARLY_VIDEO_MEMORY_ADDRESS_PHYS).
  apply wp_bind. eapply wp_mono; [eapply (map_device_ok h pgd e R); [exact Hok|exact Hm|clear; by vm_compute|clear; by vm_compute|clear; by vm_compute|exact Hnd|fold t1; lia]|].
  cbv beta. fold t1. intros ? e1 (Hok1 & Hm1 & Hf1). apply wp_ret. unfold early_map_apic_base.
  match type of Hm1 with maps_exactly _ _ (R ++ [?x]) => set (r1 := x) in * end.
  change (R ++ r1 :: ?l) with (R ++ [r1] ++ l) in Hnd. rewrite app_assoc in Hnd.
  apply wp_bind. eapply wp_mono; [eapply (map_device_ok h pgd e1 (R ++ [r1])); [exact Hok1|exact Hm1|clear; by vm_compute|done|done|exact Hnd|fold t2; lia]|].
  cbv beta. fold t2. intros ? e2 (Hok2 & Hm2 & Hf2).
  match type of Hm2 with maps_exactly _ _ (_ ++ [?x]) => set (r2 := x) in * end.
  change ((R ++ [r1]) ++ r2 :: ?l) with ((R ++ [r1]) ++ [r2] ++ l) in Hnd. rewrite app_assoc in Hnd.
  apply wp_bind. eapply wp_mono; [eapply (map_device_ok h pgd e2 ((R ++ [r1]) ++ [r2])); [exact Hok2|exact Hm2|clear; by vm_compute|clear; by vm_compute|clear; by vm_compute|exact Hnd|fold t3; lia]|].
  cbv beta. fold t3. intros ? e3 (Hok3 & Hm3 & Hf3). apply wp_ret. split; [done|]. split; [|lia].
  by rewrite <- !app_assoc in Hm3.
Qed.

(** ** The direct map as regions *)

Definition direct_regions (l : list e820_entry) : list region :=
  (fun e => mk_region (2 ^ 35 + base e / 2 ^ 12) (base e / 2 ^ 12) (size e / 2 ^ 12) (map_flags_to_page_flags MAP_KERNEL))
    <$> filter (fun e => E820.type e = E820_TYPE_RAM) l.

Lemma direct_region_page l u : Forall direct_entry l ->
  direct_page l u <-> exists r, r ∈ direct_regions l /\ in_region u r.
Proof.
  intros Hl. unfold direct_page, direct_regions. split.
  - intros (e & He & Ht & Hu). destruct (proj1 (Forall_forall _ _) Hl e He Ht) as (_ & _ & _ & _ & H4).
    eexists. split; [apply list_elem_of_fmap; exists e; split; [done|]; by apply list_elem_of_filter|].
    unfold in_region. cbn [r_page r_count]. apply Z.div_exact in H4; [|done]. rewrite H4, Z.mul_comm, Z.div_add in Hu by done. lia.
  - intros (r & (e & -> & [Ht He]%list_elem_of_filter)%list_elem_of_fmap & Hu). exists e. split; [done|]. split; [done|].
    destruct (proj1 (Forall_forall _ _) Hl e He Ht) as (_ & _ & _ & _ & H4). unfold in_region in Hu. cbn [r_page r_count] in Hu.
    apply Z.div_exact in H4; [|done]. rewrite H4, Z.mul_comm, Z.div_add by done. lia.
Qed.

Lemma direct_as_regions l m pgd :
  Forall direct_entry l ->
  (forall u, 0 <= u < 2 ^ 36 ->
    (direct_page l u -> translate m pgd u = Some (u - 2 ^ 35, map_flags_to_page_flags MAP_KERNEL)) /\
    (~ direct_page l u -> walk m pgd u = None)) ->
  maps_exactly m pgd (direct_regions l).
Proof.
  intros Hl Hm u Hu. destruct (Hm u Hu) as [M1 M2]. rewrite direct_region_page in M1, M2 by done. split.
  - intros r Hr Hin. rewrite M1 by eauto. unfold direct_regions in Hr. apply list_elem_of_fmap in Hr as (e & -> & _).
    cbn [r_frame r_page r_flags]. do 2 f_equal. lia.
  - intros Hn. apply M2. intros (r & Hr & Hin). by apply (Hn r).
Qed.

(** ** The whole address space *)

(** The kernel's headers [hdr] and [sects] and the firmware's [info] describe an
    address space: memory, sections, headers and devices lie apart. *)
Record layout_ok (info : early_boot_info) (hdr : elf_header) (sects : list elf_section_header) : Prop := {
  ly_ram : Forall direct_entry (entries info);
  ly_sorted : StronglySorted separated (entries info);
  ly_num : 0 <= shnum hdr <= zlength sects;
  ly_sections : Forall (section_ok KERNEL_ELF_ADDRESS_PHYS) (take (Z.to_nat (shnum hdr)) sects);
  ly_header : header_ok KERNEL_ELF_ADDRESS (shoff hdr) KERNEL_ELF_ADDRESS_PHYS;
  ly_apic : 0 <= apic_base info /\ apic_base info + 2 ^ 12 <= 2 ^ 48;
  ly_apart : NoDup (extent_pages ((extent <$> direct_regions (entries info)) ++
    concat (section_extent <$> take (Z.to_nat (shnum hdr)) sects) ++
    (extent <$> header_regions KERNEL_ELF_ADDRESS (shoff hdr) KERNEL_ELF_ADDRESS_PHYS) ++ (extent <$> device_regions info)));
  ly_extents : Forall extent_ok ((extent <$> direct_regions (entries info)) ++
    concat (section_extent <$> take (Z.to_nat (shnum hdr)) sects) ++
    (extent <$> header_regions KERNEL_ELF_ADDRESS (shoff hdr) KERNEL_ELF_ADDRESS_PHYS));
}.

(** The pages the address space can take. *)
Definition layout_cost (info : early_boot_info) (hdr : elf_header) (sects : list elf_section_header) : Z :=
  1 + direct_tables (entries info) + sections_cost (take (Z.to_nat (shnum hdr)) sects) +
  extent_tables (extent <$> header_regions KERNEL_ELF_ADDRESS (shoff hdr) KERNEL_ELF_ADDRESS_PHYS) +
  extent_tables (extent <$> device_regions info).

Lemma extent_tables_nonneg l : Forall extent_ok l -> 0 <= extent_tables l.
Proof.
  induction 1 as [|a l (_ & Ha & _) _ IH]; cbn [extent_tables]; [lia|]. pose proof (tables_below_nonneg 3 (a.1) (a.2) Ha). lia.
Qed.

Lemma remap_ok h info hdr sects e (l := take (Z.to_nat (shnum hdr)) sects) (h' := landing_after h (need_memory l)) :
  held_ok fz h (alloc_st e) -> layout_ok info hdr sects -> layout_cost info hdr sects <= room h e ->
  completes (pgd ← early_alloc_pgd;
        early_map_direct info pgd;;
        early_map_kernel_elf KERNEL_ELF_ADDRESS hdr sects KERNEL_ELF_ADDRESS_PHYS pgd;;
        early_map_video_range pgd;;
        early_map_apic_base info pgd;;
        mret pgd) e (fun pgd e' => kpt_ok h' pgd e' /\ room h e - layout_cost info hdr sects <= room h' e' /\
    exists Rs, Forall2 (section_region KERNEL_ELF_ADDRESS_PHYS) l Rs /\
      maps_exactly (mem e') pgd (direct_regions (entries info) ++ concat Rs ++
        header_regions KERNEL_ELF_ADDRESS (shoff hdr) KERNEL_ELF_ADDRESS_PHYS ++ device_regions info))
    (Exists (section_panics KERNEL_ELF_ADDRESS_PHYS) l \/ ~ landing_fits h (need_memory l)).
Proof.
  intros Hfz [Y1 Y2 Y3 Y4 Y5 [Y6 Y7] Y8 Y9] Hcost. unfold layout_cost in *. fold l in Hcost, Y4, Y8, Y9 |- *.
  set (hs := header_regions KERNEL_ELF_ADDRESS (shoff hdr) KERNEL_ELF_ADDRESS_PHYS) in *. set (ds := direct_regions (entries info)) in *.
  pose proof (direct_tables_nonneg _ Y1). pose proof (sections_cost_nonneg _ _ Y4).
  assert (0 <= extent_tables (extent <$> hs)) by (apply extent_tables_nonneg; by apply Forall_app in Y9 as [_ [_ Y9]%Forall_app]).
  assert (0 <= extent_tables (extent <$> device_regions info)) by by vm_compute.
  apply completes_bind, completes_wp. eapply wp_mono; [apply (early_alloc_pgd_ok fz h); [done|lia]|]. cbv beta. intros pgd e1 (Hok1 & Hempty & Hf1).
  apply completes_bind, completes_wp. eapply wp_mono; [apply (map_direct_loop_ok fz h _ pgd e1 Hok1 Y1 Y2); [intros u _; apply Hempty|lia]|].
  cbv beta. intros ? e2 (Hok2 & Hf2 & Hw2).
  assert (maps_exactly (mem e2) pgd ds) as Hm2.
  { apply direct_as_regions; [done|]. intros u Hu. destruct (Hw2 u Hu) as [M1 M2]. split; [done|]. intros Hn. by rewrite M2. }
  pose proof Y8 as Hnd. rewrite (app_assoc (concat _)), (app_assoc (extent <$> ds)), extent_pages_app in Hnd. apply NoDup_app in Hnd as [Hnd _].
  apply completes_bind. eapply completes_mono; [apply (early_map_kernel_elf_ok h KERNEL_ELF_ADDRESS hdr sects KERNEL_ELF_ADDRESS_PHYS pgd e2 ds); try done|..];
    [fold l hs; lia| |done].
  cbv beta. fold l hs h'. intros ? e3 (Rs & HRs & Hok3 & Hm3 & Hf3).
  assert (NoDup (extent_pages (extent <$> (ds ++ concat Rs ++ hs) ++ device_regions info))) as Hnd3.
  { rewrite !fmap_app, (section_extents _ _ _ HRs), <- !app_assoc. exact Y8. }
  assert (forall (m1 m2 : EM unit) Q, wp (m1;; m2) e3 Q -> wp (m1;; m2;; mret pgd) e3 (fun r s => r = pgd /\ Q tt s)) as Hseq.
  { intros m1 m2 Q. unfold wp, mbind, M_bind. destruct (m1 e3) as [? s1| | |]; try done. by destruct (m2 s1) as [[] ?| | |]. }
  apply completes_wp. eapply wp_mono; [apply Hseq, (map_devices_ok h' info pgd e3 (ds ++ concat Rs ++ hs) Hok3 Hm3 Y6 Y7 Hnd3); lia|].
  cbv beta. intros ? e4 [-> (Hok4 & Hm4 & Hf4)]. split; [done|]. split; [lia|]. exists Rs. split; [done|]. by rewrite <- !app_assoc in Hm4.
Qed.

End kernel_map.

(** An image of one section of code of two pages, after a section that is not
    loaded, and three pages of memory. *)
Definition sample_info : early_boot_info := mk_info 0 0 0xfee00000 0 1 [mk_entry 0x200000 0x3000 1].

Definition sample_elf : elf_header := mk_elf 0x3000 2.

Definition sample_sections : list elf_section_header := [mk_sect 0 0 0 0 0; mk_sect 1 6 0xffffc00001001000 0x1000 0x1800].

Lemma sample_layout : layout_ok sample_info sample_elf sample_sections /\ layout_cost sample_info sample_elf sample_sections <= 96.
Proof.
  split; [split|].
  - apply Forall_singleton. intros _. by vm_compute.
  - by repeat constructor.
  - by vm_compute.
  - change (Forall (section_ok KERNEL_ELF_ADDRESS_PHYS) sample_sections). apply Forall_cons. split; [intros Hz; by destruct Hz|].
    apply Forall_singleton. intros _. by vm_compute.
  - by vm_compute.
  - by vm_compute.
  - apply (bool_decide_unpack _). by vm_compute.
  - by repeat constructor.
  - by vm_compute.
Qed.

Lemma early_remap_page_tables_ok fz h info hdr sects b (l := take (Z.to_nat (shnum hdr)) sects) :
  held_ok fz h (alloc_st (early b)) -> layout_ok info hdr sects -> layout_cost info hdr sects <= held_avail fz h (alloc_st (early b)) ->
  completes (early_remap_page_tables info hdr sects) b (fun _ b' =>
    cr3 b' = kernel_root_pgd b' /\ phys b' = phys b /\ free_pages (ast (early b)) - layout_cost info hdr sects <= free_pages (ast (early b')) /\ early_pt_ok fz (kernel_root_pgd b') (early b') /\
    exists Rs, Forall2 (section_region KERNEL_ELF_ADDRESS_PHYS) l Rs /\
      maps_exactly (mem (early b')) (kernel_root_pgd b') (direct_regions (entries info) ++ concat Rs ++
        header_regions KERNEL_ELF_ADDRESS (shoff hdr) KERNEL_ELF_ADDRESS_PHYS ++ device_regions info))
    (Exists (section_panics KERNEL_ELF_ADDRESS_PHYS) l \/ ~ landing_fits h (need_memory l)).
Proof.
  intros Hwf Hly Hcost. pose proof (remap_ok fz h info hdr sects (early b) Hwf Hly Hcost) as H. fold l in H.
  unfold early_remap_page_tables. apply completes_bind. unfold completes at 1, early_op, zoom. unfold completes in H.
  match type of H with match ?m with _ => _ end => destruct m as [pgd e| | |] end; try done.
  cbn. destruct H as (Hok & Hf & HRs). split_and!; try done; [|by eapply held_pt_early].
  destruct h as [x|]; cbn [landing_after fmap option_fmap option_map held_avail ld_base] in Hf; lia.
Qed.

(** ** Properties *)

(** C8: the kernel's address space. For a memory map, an image and devices that
    lie apart and enough free pages, [early_remap_page_tables] returns, sets the
    root and [CR3] to the new tables, and the address space is exactly the direct
    map of every page of RAM, the sections of the image, each at its address,
    writable and executable only if the section is, the image's headers, read
    only, and the video and APIC pages: no other page is mapped. The spans and the
    allocated pages [fz] are as before. It panics only for a section that is not
    page-aligned or has to be given more than eight pages of memory, or when
    sections have to be given memory and there is no landing [h], a place where
    the search is sure to find it; with enough free pages below a landing that
    has room for all of them it does not. *)
Theorem kernel_address_space_correct fz h info hdr sects b (l := take (Z.to_nat (shnum hdr)) sects) :
  held_ok fz h (alloc_st (early b)) -> layout_ok info hdr sects -> layout_cost info hdr sects <= held_avail fz h (alloc_st (early b)) ->
  completes (early_remap_page_tables info hdr sects) b (fun _ b' =>
    cr3 b' = kernel_root_pgd b' /\ phys b' = phys b /\ early_pt_ok fz (kernel_root_pgd b') (early b') /\
    exists Rs, Forall2 (section_region KERNEL_ELF_ADDRESS_PHYS) l Rs /\
      maps_exactly (mem (early b')) (kernel_root_pgd b') (direct_regions (entries info) ++ concat Rs ++
        header_regions KERNEL_ELF_ADDRESS (shoff hdr) KERNEL_ELF_ADDRESS_PHYS ++ device_regions info))
    (Exists (section_panics KERNEL_ELF_ADDRESS_PHYS) l \/ ~ landing_fits h (need_memory l)).
Proof.
  intros Hfz Hly Hcost. eapply completes_mono; [by apply (early_remap_page_tables_ok fz h)| |done]. cbv beta. naive_solver.
Qed.

Lemma kernel_address_space_correct_witness :
  exists b, state_wf (ast (early b)) /\
    wp (early_remap_page_tables sample_info sample_elf sample_sections) b (fun _ b' =>
      exists pf, translate (mem (early b')) (kernel_root_pgd b') (vpn 0xffffc00001002000) = Some (0x1002, pf) /\
        Z.testbit pf 1 = false /\ Z.testbit pf 63 = false).
Proof.
  set (b := mk_boot sample_machine (mk_phys ∅ ∅ ∅ (mk_stats 0 0 0 0 []) [] 0) 0 0).
  destruct sample_machine_wf as (Hwf & _ & Hf). destruct sample_layout as [Hly Hcost]. exists b. split; [exact Hwf|].
  pose proof (kernel_address_space_correct (spans_only (ast sample_machine)) None sample_info sample_elf sample_sections b (spans_only_ok _ Hwf) Hly ltac:(cbn [early b held_avail]; rewrite Hf; exact Hcost)) as H.
  unfold wp, completes in *. destruct (early_remap_page_tables _ _ _ b) as [[] b'| | |]; try done.
  - destruct H as (_ & _ & _ & Rs & HRs & Hm). destruct (Hm (vpn 0xffffc00001002000) ltac:(by vm_compute)) as [Hin _].
    apply Forall2_cons_inv_l in HRs as (R0 & Rs0 & H0 & HRs & ->). apply Forall2_cons_inv_l in HRs as (R1 & Rs1 & (f & pf & -> & Hfr & _ & Hw & Hx) & _ & ->).
    exists pf. split; [|split; [exact Hw|exact Hx]].
    rewrite (Hin (mk_region (vpn 0xffffc00001001000) f 2 pf)).
    + cbn [r_frame r_page r_flags]. rewrite Hfr by done. by vm_compute.
    + rewrite elem_of_app. right. rewrite elem_of_app. left. cbn [concat]. rewrite elem_of_app. right. apply list_elem_of_here.
    + by vm_compute.
  - exfalso. destruct H as [(sect & Hs & [Ha Hbad])%Exists_exists|H]; [|apply H; left; clear; by vm_compute].
    apply elem_of_cons in Hs as [-> |[->|?%elem_of_nil]%elem_of_cons]; [done| |done].
    by destruct Hbad as [[? _]|[?|[_ ?]]].
Defined.
