(* ===== verification/MemInit.v ===== *)
(** * Initialising memory (early/mem.c, mm/phys.c)

    The end of [early_mem_init]: the state of the physical allocator and the
    array of physblocks, built with the early allocator and handed over to the
    physical one, on the state of [KernelMap]. The physical allocator's memory is
    typed; the early allocator's is words. When a page is mapped into the array of
    physblocks, the physblocks that appear there are read from the words of the
    page the page tables lead to, and the allocator's state from the words of its
    page. *)

From stdpp Require Import base strings numbers gmap list sets sorting.
From Stdlib Require Import ZArith Lia.
From S2P Require Import Prelude Macros MmDefs Bitmap E820 Page PageMap EarlyAlloc ListDL Spinlock Phys PhysProofs KernelMap.

(** ** The physblocks *)

(** The physblock, its node and its lock in slot [j] of the page [pa]. *)

Definition block_at (m : words) (pa j : Z) : physblock :=
  let w := entry m pa (4 * j) in
  mk_physblock (Z.land w 0xffff) (Z.land (Z.shiftr w 16) 0xff) (Z.shiftr w 32) (Z.land (entry m pa (4 * j + 3)) 0xffffffff).

Definition node_at (m : words) (pa j : Z) : list_node := mk_node (entry m pa (4 * j + 1)) (entry m pa (4 * j + 2)).

Definition lock_at (m : words) (pa j : Z) : bool := negb (Z.shiftr (entry m pa (4 * j + 3)) 32 =? 0).

(** The page that a writable mapping gives the address [va], by the tables [CR3]
    points to. *)
Definition mapped_page (va : Z) : BM Z :=
  b ← get;
  x ← lift (translate (mem (early b)) (cr3 b) (vpn va));
  if IS_MASK_SET x.2 PAGE_FLAG_RW then mret (x.1 * PAGE_SIZE) else undef.

(** The physblocks of the page [pa] appear at [va]. *)
Definition map_physblocks (m : words) (pa va : Z) (s : phys_mem) : phys_mem :=
  let slots := list_to_set (seqZ 0 128) : gset Z in
  let field off := (fun j => va + SIZEOF_PHYSBLOCK * j + off) in
  mk_phys (set_to_map (fun j => (field 0 j, block_at m pa j)) slots ∪ blocks s)
    (set_to_map (fun j => (field NODE_OFFSET j, node_at m pa j)) slots ∪ pnodes s)
    (set_map (field LOCK_OFFSET) (filter (fun j => lock_at m pa j = true) slots) ∪ (locks s ∖ set_map (field LOCK_OFFSET) slots))
    (stats s) (spans s) (alloc_state s).

(** The loop over the pages from [va] to [end_va]. *)
Fixpoint map_physblock_loop (fuel : nat) (va end_va : Z) : BM unit :=
  match fuel with
  | O => hang
  | S fuel' =>
      if va <? end_va then
        root ← gets kernel_root_pgd;
        early_op (
          pa ← early_physblock_page_alloc;
          _map_page_range early_allocators root va pa 1 MAP_KERNEL);;
        page ← mapped_page va;
        m ← gets (fun b => mem (early b));
        phys_op (modify (map_physblocks m page va));;
        map_physblock_loop fuel' (virt_next_page va) end_va
      else mret tt
  end.

Definition alloc_map_physblock (start num_pages : Z) : BM unit :=
  let start_offset := (phys_to_pfn start * SIZEOF_PHYSBLOCK)%u64 in
  let start_addr := (KERNEL_MEM_MAP_ADDRESS + start_offset)%u64 in
  let end_addr := (start_addr + num_pages * SIZEOF_PHYSBLOCK)%u64 in
  let start_va := ALIGN start_addr PAGE_SIZE in
  let end_va := ALIGN_UP end_addr PAGE_SIZE in
  map_physblock_loop (Z.to_nat (num_pages + 3)) start_va end_va.

(** The body of the loop of [init_physblock_span]. *)
Definition init_physblock (span : early_page_alloc_span) (i : Z) : PM unit :=
  let pa := span_to_phys span i in
  block ← phys_to_physblock_lock pa;
  list_op (list_node_init (block + NODE_OFFSET));;
  allocated ← lift (bitmap_is_set (alloc_bitmap span) i);
  ephemeral ← lift (bitmap_is_set (ephemeral_bitmap span) i);
  (if negb allocated then mret tt
   else if (ephemeral : bool) then mret tt
   else
     pagetable ← lift (bitmap_is_set (pagetable_bitmap span) i);
     physblock ← lift (bitmap_is_set (physblock_bitmap span) i);
     set_type block
       (if (pagetable : bool) then PHYSBLOCK_PAGETABLE
        else if (physblock : bool) then PHYSBLOCK_PHYSBLOCK
        else Z.lor PHYSBLOCK_KERNEL PHYSBLOCK_MOVABLE);;
     set_refcount block 1);;
  release_block block.

Definition init_physblock_span (span : early_page_alloc_span) : PM unit :=
  for_loop (Z.to_nat (EarlyAlloc.num_pages span)) 0 (init_physblock span).

(** Entry [i] of the array of spans, as it is now. *)
Definition get_span (i : Z) : BM early_page_alloc_span :=
  st ← early_op get_alloc_state;
  lift (zlookup (EarlyAlloc.spans st) i).

Definition early_init_mem_map : BM unit :=
  st ← early_op get_alloc_state;
  let num_spans := length (EarlyAlloc.spans st) in
  for_loop num_spans 0 (fun i =>
    span ← get_span i;
    alloc_map_physblock (start span) (EarlyAlloc.num_pages span));;
  for_loop num_spans 0 (fun i =>
    span ← get_span i;
    phys_op (init_physblock_span span)).

(** ** The state of the physical allocator *)

Definition SIZEOF_PHYS_ALLOC_STATE : Z := 360.
Definition SIZEOF_PHYS_ALLOC_SPAN : Z := 16.

(** The page [pa], at [ptr], as the allocator's state: the heads of the free
    lists, the statistics, the lock and the spans. *)
Definition state_in_page (m : words) (pa ptr : Z) (s : phys_mem) : phys_mem :=
  let word := entry m pa in
  mk_phys (blocks s)
    (set_to_map (fun o => (ptr + 16 * o, mk_node (word (2 * o)) (word (2 * o + 1)))) (list_to_set (seqZ 0 13) : gset Z) ∪ pnodes s)
    (if Z.land (word 43) 0xffffffff =? 0 then locks s ∖ {[ptr + 344]} else {[ptr + 344]} ∪ locks s)
    (mk_stats (word 26) (word 27) (word 28) (word 29) ((fun o => word (30 + o)) <$> seqZ 0 13))
    ((fun i => mk_phys_span (word (45 + 2 * i)) (word (46 + 2 * i))) <$> seqZ 0 (word 44)) ptr.

Definition phys_alloc_init_state (early_state : early_page_alloc_state) : PM unit :=
  s ← get;
  for_loop (Z.to_nat (MAX_ORDER + 1)) 0 (fun i => list_op (list_init (free_list s i)));;
  modify (fun s => mk_phys (blocks s) (pnodes s) (locks s) (stats s)
    ((fun early_span => mk_phys_span (phys_to_pfn (start early_span)) (EarlyAlloc.num_pages early_span)) <$> EarlyAlloc.spans early_state)
    (alloc_state s)).

Definition early_init_phys_alloc_state : BM unit :=
  st ← early_op get_alloc_state;
  if PAGE_SIZE <? (SIZEOF_PHYS_ALLOC_STATE + SIZEOF_PHYS_ALLOC_SPAN * zlength (EarlyAlloc.spans st))%u64 then
    panic "Too many spans to allocate phys alloc state in 1 page"
  else
    pa ← early_op early_page_alloc_zero;
    st ← early_op get_alloc_state;
    m ← gets (fun b => mem (early b));
    phys_op (modify (state_in_page m pa (phys_to_virt_ptr pa));; phys_alloc_init_state st).

(** ** Specification *)

(** The page number of the array of physblocks, in the kernel's half. *)
Definition MEM_MAP_VPN : Z := 0xc00040000.

Abbreviation bst b := (EarlyAlloc.alloc_state (alloc_st (early b))).

(** The kernel's page tables are a tree of pages the early allocator handed out. *)
Definition root_ok (fz : frozen) (b : boot) : Prop :=
  early_pt_ok fz (kernel_root_pgd b) (early b).

Definition unmapped (b : boot) (u : Z) : Prop := walk (mem (early b)) (kernel_root_pgd b) u = None.

(** The pages of the physblocks of [n] frames from [f]. *)
Definition pb_first (f : Z) : Z := f / 128.

Definition pb_end (f n : Z) : Z := (f + n + 127) / 128.

(** A physblock of each frame of the page numbers from [u] to [v], zero. *)
Definition zero_blocks (s : phys_mem) (p : Z) : Prop :=
  blocks s !! blk p = Some (mk_physblock 0 0 0 0) /\ pnodes s !! node p = Some (mk_node 0 0).

(** What the physical allocator's memory keeps while pages are mapped. *)
Definition phys_kept (s s' : phys_mem) (P : Z -> Prop) : Prop :=
  stats s' = stats s /\ spans s' = spans s /\ alloc_state s' = alloc_state s /\ locks s' ⊆ locks s /\
  (forall p, 0 <= p -> ~ P (p / 128) -> blocks s' !! blk p = blocks s !! blk p /\ pnodes s' !! node p = pnodes s !! node p) /\
  (forall a, a < KERNEL_MEM_MAP_ADDRESS -> pnodes s' !! a = pnodes s !! a).

(** ** Mapping the physblocks *)

Lemma page_block_addr u j : KERNEL_MEM_MAP_ADDRESS + 4096 * u + SIZEOF_PHYSBLOCK * j + 0 = blk (128 * u + j).
Proof. unfold blk, SIZEOF_PHYSBLOCK. lia. Qed.

(** What a page of entries [f j] at addresses [a j], over a map, holds. *)
Lemma slots_lookup {A} (a : Z -> Z) (x : A) (f : Z -> A) n (m : gmap Z A) i (T := list_to_set (seqZ 0 n) : gset Z) :
  (forall j j', a j = a j' -> j = j') -> (forall j, 0 <= j < n -> f j = x) ->
  let m' := set_to_map (fun j => (a j, f j)) T ∪ m in
  (forall j, 0 <= j < n -> m' !! a j = Some x) /\ ((forall j, 0 <= j < n -> i <> a j) -> m' !! i = m !! i).
Proof.
  intros Ha Hf m'.
  assert (forall k y, (set_to_map (fun j => (a j, f j)) T : gmap Z A) !! k = Some y <-> exists j, 0 <= j < n /\ a j = k /\ f j = y) as Hl.
  { intros k y. rewrite (lookup_set_to_map (fun j => (a j, f j)) T k y) by (intros j j' _ _ E; by apply Ha).
    split.
    - intros (j & Hj%elem_of_list_to_set%elem_of_seqZ & [= <- <-]). exists j. split; [lia|done].
    - intros (j & Hj & <- & <-). exists j. split; [|done]. apply elem_of_list_to_set, elem_of_seqZ. lia. }
  split.
  - intros j Hj. apply lookup_union_Some_l, Hl. exists j. by rewrite Hf.
  - intros Hi. apply lookup_union_r. destruct (_ !! i) as [y|] eqn:E; [|done]. apply Hl in E as (j & Hj & <- & _). by destruct (Hi j Hj).
Qed.

(** The blocks of one zeroed page. *)
Lemma map_physblocks_ok m pa s u (s' := map_physblocks m pa (KERNEL_MEM_MAP_ADDRESS + 4096 * u) s) :
  0 <= u -> (forall i, 0 <= i < 512 -> entry m pa i = 0) -> phys_kept s s' (fun v => v = u) /\ forall p, p / 128 = u -> zero_blocks s' p.
Proof.
  intros Hu Hm.
  assert (forall p, p / 128 = u -> exists j, 0 <= j < 128 /\ p = 128 * u + j) as Hslot.
  { intros p Hp. exists (p mod 128). pose proof (Z.div_mod p 128). pose proof (Z.mod_pos_bound p 128). split; lia. }
  assert (forall i, 0 <= i < 128 -> (128 * u + i) / 128 = u) as Hdiv by (intros i Hi; Z.div_mod_to_equations; lia).
  assert (forall off j j', KERNEL_MEM_MAP_ADDRESS + 4096 * u + SIZEOF_PHYSBLOCK * j + off = KERNEL_MEM_MAP_ADDRESS + 4096 * u + SIZEOF_PHYSBLOCK * j' + off -> j = j') as Hinj
    by (unfold SIZEOF_PHYSBLOCK; lia).
  assert (forall i, (forall j, 0 <= j < 128 -> blocks s' !! blk (128 * u + j) = Some (mk_physblock 0 0 0 0)) /\
      ((forall j, 0 <= j < 128 -> i <> blk (128 * u + j)) -> blocks s' !! i = blocks s !! i)) as Hb.
  { intros i. pose proof (page_block_addr u) as Ea. setoid_rewrite <- Ea. apply slots_lookup; [apply Hinj|]. intros j Hj. unfold block_at. by rewrite !Hm by lia. }
  assert (forall i, (forall j, 0 <= j < 128 -> pnodes s' !! node (128 * u + j) = Some (mk_node 0 0)) /\
      ((forall j, 0 <= j < 128 -> i <> node (128 * u + j)) -> pnodes s' !! i = pnodes s !! i)) as Hn.
  { assert (forall j, node (128 * u + j) = KERNEL_MEM_MAP_ADDRESS + 4096 * u + SIZEOF_PHYSBLOCK * j + NODE_OFFSET) as Ea
      by (intros j; unfold node, blk, SIZEOF_PHYSBLOCK, NODE_OFFSET; lia).
    intros i. setoid_rewrite Ea. apply slots_lookup; [apply Hinj|]. intros j Hj. unfold node_at. by rewrite !Hm by lia. }
  split; [split_and!|]; try done.
  - cbn [locks s' map_physblocks]. intros a [Ha|Ha]%elem_of_union; [exfalso|set_solver].
    apply elem_of_map in Ha as (j & _ & [Hl Hj]%elem_of_filter). apply elem_of_list_to_set, elem_of_seqZ in Hj.
    unfold lock_at in Hl. by rewrite Hm in Hl by lia.
  - intros p Hp Hne. split; [apply Hb|apply Hn]; intros j Hj E; apply Hne; [apply blk_inj in E|apply node_inj in E]; rewrite E; by apply Hdiv.
  - intros a Ha. apply Hn. intros j Hj ->. unfold node, blk in Ha. lia.
  - intros p (j & Hj & ->)%Hslot. split; [by apply (Hb 0)|by apply (Hn 0)].
Qed.

Lemma phys_kept_refl s : phys_kept s s (fun _ => False).
Proof. by split_and!. Qed.

Lemma phys_kept_trans s s1 s2 (P Q R : Z -> Prop) :
  phys_kept s s1 P -> phys_kept s1 s2 Q -> (forall u, P u \/ Q u -> R u) -> phys_kept s s2 R.
Proof.
  intros (A1 & A2 & A3 & A4 & A5 & A6) (B1 & B2 & B3 & B4 & B5 & B6) HR.
  split; [congruence|]. split; [congruence|]. split; [congruence|]. split; [set_solver|]. split.
  - intros p Hp Hn. destruct (A5 p Hp) as [E1 E2]; [intros HP; apply Hn, HR; by left|].
    destruct (B5 p Hp) as [F1 F2]; [intros HQ; apply Hn, HR; by right|]. by rewrite F1, F2.
  - intros a Ha. by rewrite B6, A6.
Qed.

Lemma wp_early_op {A} (m : EM A) b Q :
  wp m (early b) (fun a e => Q a (mk_boot e (phys b) (kernel_root_pgd b) (cr3 b))) -> wp (early_op m) b Q.
Proof. unfold wp, early_op, zoom. by destruct (m (early b)). Qed.

Lemma wp_phys_op {A} (m : PM A) b Q :
  wp m (phys b) (fun a p => Q a (mk_boot (early b) p (kernel_root_pgd b) (cr3 b))) -> wp (phys_op m) b Q.
Proof. unfold wp, phys_op, zoom. by destruct (m (phys b)). Qed.

Lemma mem_map_vpn u : 0 <= u < 2 ^ 30 -> vpn (KERNEL_MEM_MAP_ADDRESS + 4096 * u) = MEM_MAP_VPN + u.
Proof. intros Hu. unfold vpn, MEM_MAP_VPN, KERNEL_MEM_MAP_ADDRESS. Z.div_mod_to_equations. lia. Qed.

(** Page number [v] is mapped, writable, to a zero page in use that is no table. *)
Definition zero_page_at (e : machine early_mem) (root v : Z) : Prop :=
  exists pa, plain (mem e) (early_in_use (alloc_st e)) root pa /\
    translate (mem e) root v = Some (pa / 2 ^ 12, map_flags_to_page_flags MAP_KERNEL) /\
    forall i, 0 <= i < 512 -> entry (mem e) pa i = 0.

(** The pages in use that are no tables are left alone. *)
Definition early_kept (root : Z) (e e' : machine early_mem) : Prop :=
  plain_kept (mem e) (mem e') (early_in_use (alloc_st e)) (early_in_use (alloc_st e')) root.

(** One zeroed page, mapped at page [MEM_MAP_VPN + u]: at most four pages are
    taken, itself and three tables. *)
Lemma map_page_ok fz root (e : machine early_mem) u (va := KERNEL_MEM_MAP_ADDRESS + 4096 * u) :
  early_pt_ok fz root e -> 0 <= u < 2 ^ 30 -> walk (mem e) root (MEM_MAP_VPN + u) = None ->
  4 <= free_pages (ast e) ->
  wp (pa ← early_physblock_page_alloc; _map_page_range early_allocators root va pa 1 MAP_KERNEL) e (fun _ e' =>
    early_pt_ok fz root e' /\ free_pages (ast e) - 4 <= free_pages (ast e') /\
    zero_page_at e' root (MEM_MAP_VPN + u) /\ early_kept root e e' /\
    forall v, 0 <= v < 2 ^ 36 -> v <> MEM_MAP_VPN + u -> walk (mem e') root v = walk (mem e) root v).
Proof.
  intros [Hok Htree] Hu Hun Hfree. apply wp_bind. unfold early_physblock_page_alloc.
  eapply wp_mono; [apply (zeroed_page_law EARLY_ALLOC_PHYSBLOCK fz None ltac:(done) e Hok); exact (Z.lt_le_trans 0 4 _ eq_refl Hfree)|]. cbv beta.
  intros pa e1 (Hpa & Hnu & Hok1 & HU & Hav & Hm). cbn [held_avail] in Hav.
  destruct (fresh_page _ _ _ _ _ _ Htree Hnu HU Hm) as (Htree1 & Htab1 & Hw1).
  assert (plain (mem e1) (early_in_use (alloc_st e1)) root pa) as Hplain.
  { split; [done|]. split; [apply HU; by left|]. intros k t Hid. rewrite Htab1 by done. intros Ht. by apply (tree_page _ _ _ Htree) in Ht as [_ ?]. }
  pose proof Hpa as Hpok.
  assert (vpn va = MEM_MAP_VPN + u) as Hv by by apply mem_map_vpn.
  destruct Hpa as [Hpa _].
  assert (0 <= pa / 2 ^ 12 < 2 ^ 36 - 1) as Hf. { split; [apply Z.div_pos; lia|]. apply Z.div_lt_upper_bound; lia. }
  assert (tables_below 3 (MEM_MAP_VPN + u) 1 = 3) as Htb.
  { cbn [tables_below]. unfold slots. replace (MEM_MAP_VPN + u + 1 - 1) with (MEM_MAP_VPN + u) by lia. lia. }
  assert (0 <= MEM_MAP_VPN + u < 2 ^ 36) as Hr by (unfold MEM_MAP_VPN; lia).
  eapply wp_mono; [apply (map_page_range_ok (L := early_laws fz) root e1 va pa 1 MAP_KERNEL)|]; rewrite ?Hv, ?Htb.
  - by split.
  - unfold is_u, va, KERNEL_MEM_MAP_ADDRESS. lia.
  - unfold in_range. lia.
  - by vm_compute.
  - intros v Hv'. left. replace v with (MEM_MAP_VPN + u) by lia. by rewrite Hw1.
  - lia.
  - unfold pages_left. simpl. lia.
  - cbv beta. intros r e2 (st' & _ & [_ _ _ Hok2 _ Hmap _ Hb Hkeep]). split; [done|]. unfold pages_left in Hb. simpl in Hb. split; [lia|]. split.
    { destruct (Hkeep pa Hplain) as [Hplain2 E]. exists pa. split; [done|]. specialize (Hmap _ Hr). rewrite decide_True, Hw1, Hun, Z.sub_diag, Z.add_0_r in Hmap by lia. split; [done|].
      intros i Hi. cbn [mem] in E. rewrite E, Hm by done. by apply decide_True. }
    split.
    { eapply plain_kept_trans; [|exact Hkeep]. intros q Hq. by destruct (plain_fresh _ _ _ _ _ _ _ Hq Hnu HU Htab1 Hm) as (_ & ? & ?). }
    intros v Hvr Hne. specialize (Hmap v Hvr). rewrite decide_False in Hmap by lia. by rewrite Hmap, Hw1.
Qed.

(** Pages [P] of the array were mapped, zeroed, taking at most [n] pages of the
    early allocator. *)
Record pages_added (fz : frozen) (b b' : boot) (P : Z -> Prop) (n : Z) : Prop := {
  pa_root : kernel_root_pgd b' = kernel_root_pgd b;
  pa_cr3 : cr3 b' = cr3 b;
  pa_ok : root_ok fz b';
  pa_free : free_pages (bst b) - n <= free_pages (bst b');
  pa_walk : forall v, 0 <= v < 2 ^ 36 -> ~ P (v - MEM_MAP_VPN) ->
    walk (mem (early b')) (kernel_root_pgd b) v = walk (mem (early b)) (kernel_root_pgd b) v;
  pa_mapped : forall u, 0 <= u < 2 ^ 30 -> P u -> zero_page_at (early b') (kernel_root_pgd b) (MEM_MAP_VPN + u);
  pa_kept : early_kept (kernel_root_pgd b) (early b) (early b');
  pa_phys : phys_kept (phys b) (phys b') P;
  pa_zero : forall p, 0 <= p -> P (p / 128) -> zero_blocks (phys b') p;
}.

Lemma pages_added_refl fz b : root_ok fz b -> pages_added fz b b (fun _ => False) 0.
Proof. intros Hok. split; try (done || lia || apply phys_kept_refl). Qed.

Lemma pages_added_trans fz b b1 b2 (P Q R : Z -> Prop) n m k :
  pages_added fz b b1 P n -> pages_added fz b1 b2 Q m -> (forall u, R u <-> P u \/ Q u) -> (forall u, P u -> ~ Q u) -> n + m <= k ->
  pages_added fz b b2 R k.
Proof.
  intros [R1 C1 O1 F1 W1 M1 L1 K1 Z1] [R2 C2 O2 F2 W2 M2 L2 K2 Z2] HR Hd Hk. split.
  - congruence.
  - congruence.
  - done.
  - lia.
  - intros v Hv Hn. rewrite R1 in W2. rewrite W2, W1; try done; intros HP; apply Hn, HR; tauto.
  - intros u Hu [HP|HQ]%HR; [|rewrite <- R1; by apply M2]. rewrite R1 in W2, L2. destruct (M1 u Hu HP) as (pa & Hpl & Ht & Hz).
    destruct (L2 pa Hpl) as [Hpl2 E]. exists pa. split; [done|]. split.
    + unfold translate in *. rewrite W2; [done|unfold MEM_MAP_VPN; lia|].
      replace (MEM_MAP_VPN + u - MEM_MAP_VPN) with u by lia. by apply Hd.
    + intros i Hi. rewrite E by done. by apply Hz.
  - rewrite R1 in L2. by eapply plain_kept_trans.
  - eapply phys_kept_trans; [done|done|]. intros u. apply HR.
  - intros p Hp [HP|HQ]%HR; [|by apply Z2]. destruct (Z1 p Hp HP) as [E1 E2]. destruct K2 as (_ & _ & _ & _ & K & _).
    destruct (K p Hp (Hd _ HP)) as [F E]. split; congruence.
Qed.

Lemma next_page_addr u : 0 <= u < 2 ^ 30 -> virt_next_page (KERNEL_MEM_MAP_ADDRESS + 4096 * u) = KERNEL_MEM_MAP_ADDRESS + 4096 * (u + 1).
Proof.
  intros Hu. unfold virt_next_page, PAGE_SHIFT, KERNEL_MEM_MAP_ADDRESS. rewrite Z.shiftr_div_pow2 by lia.
  replace (0xffffc00040000000 + 4096 * u) with ((0xffffc00040000 + u) * 2 ^ 12) by lia. rewrite Z.div_mul by lia.
  rewrite add64_small by (unfold is_u; lia). unfold shl64. rewrite Z.shiftl_mul_pow2 by lia. rewrite u64_small by (unfold is_u; lia). lia.
Qed.

Lemma wp_mapped_page b u :
  0 <= u < 2 ^ 30 -> cr3 b = kernel_root_pgd b -> zero_page_at (early b) (kernel_root_pgd b) (MEM_MAP_VPN + u) ->
  wp (mapped_page (KERNEL_MEM_MAP_ADDRESS + 4096 * u)) b (fun pa b' => b' = b /\ forall i, 0 <= i < 512 -> entry (mem (early b)) pa i = 0).
Proof.
  intros Hu Hcr (pa & [[_ Hal] _] & Ht & Hz). unfold mapped_page. apply wp_bind, wp_get, wp_bind. rewrite mem_map_vpn, Hcr by done.
  eapply wp_lift; [exact Ht|]. cbn [fst snd].
  assert (IS_MASK_SET (map_flags_to_page_flags MAP_KERNEL) PAGE_FLAG_RW = true) as -> by (clear; by vm_compute).
  apply wp_ret. split; [done|]. replace (pa / 2 ^ 12 * PAGE_SIZE) with pa; [done|].
  change PAGE_SIZE with (2 ^ 12). pose proof (Z.div_mod pa (2 ^ 12)). lia.
Qed.

Lemma map_physblock_loop_ok fz fuel : forall b u w,
  root_ok fz b -> cr3 b = kernel_root_pgd b -> 0 <= u <= w -> w < 2 ^ 30 -> w - u < Z.of_nat fuel ->
  (forall x, u <= x < w -> unmapped b (MEM_MAP_VPN + x)) -> 4 * (w - u) <= free_pages (bst b) ->
  wp (map_physblock_loop fuel (KERNEL_MEM_MAP_ADDRESS + 4096 * u) (KERNEL_MEM_MAP_ADDRESS + 4096 * w)) b
    (fun _ b' => pages_added fz b b' (fun x => u <= x < w) (4 * (w - u))).
Proof.
  induction fuel as [|fuel IH]; intros b u w Hok Hcr Hu Hw Hf Hun Hfree; [lia|]. cbn [map_physblock_loop].
  destruct (Z.ltb_spec (KERNEL_MEM_MAP_ADDRESS + 4096 * u) (KERNEL_MEM_MAP_ADDRESS + 4096 * w)) as [Hlt|Hge].
  2:{ apply wp_ret. assert (u = w) as -> by lia.
      eapply pages_added_trans; [by apply pages_added_refl|by apply pages_added_refl|intros x; cbv beta; lia|done|lia]. }
  apply wp_bind, wp_gets, wp_bind, wp_early_op.
  eapply wp_mono; [apply (map_page_ok fz (kernel_root_pgd b) (early b) u Hok); [lia|apply Hun; lia|lia]|]. cbv beta. intros ? e (Hok1 & Hf1 & Hm1 & Hl1 & Hw1).
  apply wp_bind. eapply wp_mono; [apply (wp_mapped_page _ u); [lia|exact Hcr|exact Hm1]|]. cbv beta. intros pa ? (-> & Hz0). cbn [early] in Hz0.
  apply wp_bind, wp_gets, wp_bind, wp_phys_op, wp_modify. cbn [early phys kernel_root_pgd cr3]. rewrite next_page_addr by lia.
  destruct (map_physblocks_ok (mem e) pa (phys b) u) as [Hk Hz]; [lia|done|].
  set (b1 := mk_boot e (map_physblocks (mem e) pa (KERNEL_MEM_MAP_ADDRESS + 4096 * u) (phys b)) (kernel_root_pgd b) (cr3 b)).
  assert (pages_added fz b b1 (fun x => x = u) 4) as H1.
  { split; cbn [kernel_root_pgd early phys b1]; try done.
    - intros v Hv Hne. apply Hw1; [done|]. lia.
    - by intros x _ ->.
    - intros p Hp E. by apply Hz. }
  eapply wp_mono; [apply (IH b1 (u + 1) w)|].
  - done.
  - done.
  - lia.
  - done.
  - lia.
  - intros x Hx. unfold unmapped. cbn [early kernel_root_pgd b1]. rewrite Hw1 by (unfold MEM_MAP_VPN; lia). apply Hun. lia.
  - cbn [early b1]. lia.
  - cbv beta. intros ? b2 H2. eapply pages_added_trans; [exact H1|exact H2|intros x; cbv beta; lia|intros x; cbv beta; lia|lia].
Qed.

Lemma alloc_map_physblock_ok fz b f n :
  root_ok fz b -> cr3 b = kernel_root_pgd b -> 0 <= f -> 0 <= n -> f + n <= 2 ^ 34 ->
  (forall x, pb_first f <= x < pb_end f n -> unmapped b (MEM_MAP_VPN + x)) -> 4 * (pb_end f n - pb_first f) <= free_pages (bst b) ->
  wp (alloc_map_physblock (4096 * f) n) b
    (fun _ b' => pages_added fz b b' (fun x => pb_first f <= x < pb_end f n) (4 * (pb_end f n - pb_first f))).
Proof.
  intros Hok Hcr Hf Hn Hle Hun Hfree. unfold alloc_map_physblock.
  assert (phys_to_pfn (4096 * f) = f) as ->.
  { unfold phys_to_pfn, PAGE_SHIFT. rewrite Z.shiftr_div_pow2 by lia. rewrite Z.mul_comm. by rewrite Z.div_mul. }
  pose proof (Z.div_mod f 128). pose proof (Z.mod_pos_bound f 128). pose proof (Z.div_mod (f + n + 127) 128). pose proof (Z.mod_pos_bound (f + n + 127) 128).
  unfold pb_first, pb_end in *.
  assert ((KERNEL_MEM_MAP_ADDRESS + f * SIZEOF_PHYSBLOCK)%u64 = KERNEL_MEM_MAP_ADDRESS + 32 * f) as Es.
  { unfold SIZEOF_PHYSBLOCK, mul64, KERNEL_MEM_MAP_ADDRESS. rewrite (u64_small (f * 32)) by (unfold is_u; lia).
    rewrite add64_small by (unfold is_u; lia). lia. }
  cbv zeta. rewrite Es.
  assert (add64 (KERNEL_MEM_MAP_ADDRESS + 32 * f) (n * SIZEOF_PHYSBLOCK)%u64 = KERNEL_MEM_MAP_ADDRESS + 32 * (f + n)) as ->.
  { unfold SIZEOF_PHYSBLOCK, mul64, KERNEL_MEM_MAP_ADDRESS. rewrite (u64_small (n * 32)) by (unfold is_u; lia).
    rewrite add64_small by (unfold is_u; lia). lia. }
  rewrite PAGE_SIZE_pow, ALIGN_pow, ALIGN_UP_pow by (unfold is_u, KERNEL_MEM_MAP_ADDRESS; lia).
  change (2 ^ 12) with 4096 in *.
  assert (KERNEL_MEM_MAP_ADDRESS + 32 * f - (KERNEL_MEM_MAP_ADDRESS + 32 * f) mod 4096 = KERNEL_MEM_MAP_ADDRESS + 4096 * (f / 128)) as ->.
  { unfold KERNEL_MEM_MAP_ADDRESS. Z.div_mod_to_equations. lia. }
  assert ((KERNEL_MEM_MAP_ADDRESS + 32 * (f + n) + 4096 - 1) / 4096 * 4096 = KERNEL_MEM_MAP_ADDRESS + 4096 * ((f + n + 127) / 128)) as ->.
  { unfold KERNEL_MEM_MAP_ADDRESS. Z.div_mod_to_equations. lia. }
  apply map_physblock_loop_ok; try done; try lia.
Qed.

(** ** The first pass *)

(** The pages of the array of physblocks the spans need, span by span. *)
Definition pb_pages (sh : list (Z * Z)) : list Z :=
  concat ((fun a => seqZ (pb_first (a.1 / 4096)) (pb_end (a.1 / 4096) a.2 - pb_first (a.1 / 4096))) <$> sh).

(** Spans of whole pages inside the 64 TiB below the array of physblocks. *)
Definition span_shape (a : Z * Z) : Prop := 0 <= a.1 /\ a.1 mod 4096 = 0 /\ 0 <= a.2 /\ a.1 / 4096 + a.2 <= 2 ^ 34.

Lemma pb_pages_app l1 l2 : pb_pages (l1 ++ l2) = pb_pages l1 ++ pb_pages l2.
Proof. unfold pb_pages. by rewrite fmap_app, concat_app. Qed.

Lemma pb_pages_one a x : x ∈ pb_pages [a] <-> pb_first (a.1 / 4096) <= x < pb_end (a.1 / 4096) a.2.
Proof. unfold pb_pages. cbn [fmap list_fmap concat]. rewrite app_nil_r, elem_of_seqZ. lia. Qed.

Lemma pb_order f n : 0 <= n -> pb_first f <= pb_end f n.
Proof. intros Hn. unfold pb_first, pb_end. apply Z.div_le_mono; lia. Qed.

Lemma pb_pages_length_one a : 0 <= a.2 -> zlength (pb_pages [a]) = pb_end (a.1 / 4096) a.2 - pb_first (a.1 / 4096).
Proof.
  intros Ha. unfold pb_pages, zlength. cbn [fmap list_fmap concat]. rewrite app_nil_r, length_seqZ.
  pose proof (pb_order (a.1 / 4096) a.2 Ha). lia.
Qed.

Lemma pb_page_range sh x : Forall span_shape sh -> x ∈ pb_pages sh -> 0 <= x < 2 ^ 30.
Proof.
  intros Hs Hx. unfold pb_pages in Hx. apply list_elem_of_In, in_concat in Hx as (l & Hl & Hx).
  apply list_elem_of_In, list_elem_of_fmap in Hl as (a & -> & Ha). apply list_elem_of_In, elem_of_seqZ in Hx.
  apply (proj1 (Forall_forall _ _) Hs) in Ha as (H1 & H2 & H3 & H4). unfold pb_first, pb_end in Hx.
  pose proof (Z.div_pos (a.1) 4096 H1 eq_refl). Z.div_mod_to_equations. lia.
Qed.

(** Entry [k] of the spans, in a state of the shape [sh]. *)
Lemma wp_get_span sh b k a (Q : early_page_alloc_span -> boot -> Prop) :
  shape (bst b) = sh -> sh !! k = Some a ->
  (forall span, zlookup (EarlyAlloc.spans (bst b)) (Z.of_nat k) = Some span -> start span = a.1 -> EarlyAlloc.num_pages span = a.2 -> Q span b) ->
  wp (get_span (0 + Z.of_nat k)) b Q.
Proof.
  intros Hsh Hk HQ. unfold get_span. apply wp_bind, wp_early_op, wp_gets. cbv beta. rewrite Z.add_0_l.
  rewrite <- Hsh in Hk. unfold shape in Hk. rewrite list_lookup_fmap in Hk. destruct (EarlyAlloc.spans (bst b) !! k) as [span|] eqn:E; [|done].
  injection Hk as <-. assert (zlookup (EarlyAlloc.spans (bst b)) (Z.of_nat k) = Some span) as Ez by (apply zlookup_Some; rewrite Nat2Z.id; split; [lia|done]).
  eapply wp_lift; [exact Ez|]. destruct b. by apply HQ.
Qed.

Lemma map_spans_ok fz b (sh := fz_shape fz) :
  root_ok fz b -> cr3 b = kernel_root_pgd b -> Forall span_shape sh -> NoDup (pb_pages sh) -> (forall x, x ∈ pb_pages sh -> unmapped b (MEM_MAP_VPN + x)) ->
  4 * zlength (pb_pages sh) <= free_pages (bst b) ->
  wp (for_loop (length sh) 0 (fun i => span ← get_span i; alloc_map_physblock (start span) (EarlyAlloc.num_pages span))) b
    (fun _ b' => pages_added fz b b' (fun x => x ∈ pb_pages sh) (4 * zlength (pb_pages sh))).
Proof.
  intros Hok Hcr Hs Hnd Hun Hfree.
  pose proof (wp_for_loop (fun k b' => pages_added fz b b' (fun x => x ∈ pb_pages (take k sh)) (4 * zlength (pb_pages (take k sh))))
    (length sh) 0 (fun i => span ← get_span i; alloc_map_physblock (start span) (EarlyAlloc.num_pages span)) b) as Hloop.
  cbv beta in Hloop. rewrite firstn_all in Hloop. apply Hloop; clear Hloop.
  { eapply pages_added_trans; [by apply pages_added_refl|by apply pages_added_refl| |done|done].
    intros u. cbv beta. cbn [take pb_pages fmap list_fmap concat]. rewrite elem_of_nil. tauto. }
  intros k b1 Hk H1. destruct (lookup_lt_is_Some_2 sh k Hk) as [a Ha]. rewrite (take_S_r _ _ _ Ha), pb_pages_app, zlength_app.
  assert (sh = take k sh ++ a :: drop (S k) sh) as Esh by (symmetry; by apply take_drop_middle).
  assert (pb_pages sh = pb_pages (take k sh) ++ pb_pages [a] ++ pb_pages (drop (S k) sh)) as Epb.
  { rewrite Esh at 1. change (a :: drop (S k) sh) with ([a] ++ drop (S k) sh). by rewrite !pb_pages_app. }
  pose proof (Forall_lookup_1 _ _ _ _ Hs Ha) as Hsa. destruct Hsa as (A1 & A2 & A3 & A4).
  pose proof (pb_pages_length_one a A3) as El. rewrite Epb in Hnd, Hun, Hfree. rewrite !zlength_app in Hfree.
  pose proof (zlength_nonneg (pb_pages (drop (S k) sh))).
  apply NoDup_app in Hnd as (_ & Hd & _).
  destruct (pa_ok _ _ _ _ _ H1) as [[_ Hsh1 _] _]. fold sh in Hsh1.
  apply wp_bind. eapply wp_get_span; [exact Hsh1|exact Ha|]. intros span _ -> ->.
  pose proof (Z.div_mod (a.1) 4096 ltac:(lia)) as Ediv. rewrite A2, Z.add_0_r in Ediv. rewrite Ediv at 1.
  pose proof (Z.div_pos (a.1) 4096 A1 eq_refl).
  eapply wp_mono; [apply (alloc_map_physblock_ok fz b1 (a.1 / 4096) (a.2))|].
  - apply H1.
  - by rewrite (pa_cr3 _ _ _ _ _ H1), (pa_root _ _ _ _ _ H1).
  - done.
  - done.
  - done.
  - intros x Hx%pb_pages_one. unfold unmapped. rewrite (pa_root _ _ _ _ _ H1).
    pose proof (pb_page_range [a] x ltac:(by repeat constructor) Hx).
    rewrite (pa_walk _ _ _ _ _ H1).
    + apply Hun. rewrite !elem_of_app. tauto.
    + unfold MEM_MAP_VPN. lia.
    + replace (MEM_MAP_VPN + x - MEM_MAP_VPN) with x by lia. intros Hx'. apply (Hd x Hx'). rewrite elem_of_app. tauto.
  - pose proof (pa_free _ _ _ _ _ H1). lia.
  - cbv beta. intros ? b2 H2. eapply pages_added_trans; [exact H1|exact H2| | |lia].
    + intros u. cbv beta. rewrite elem_of_app, pb_pages_one. tauto.
    + intros u Hu Hu'%pb_pages_one. apply (Hd u Hu). rewrite elem_of_app. tauto.
Qed.

(** ** The second pass *)

(** The physblock of a page, from its state in the early allocator. *)
Definition kind_block (k : option early_alloc_type) : physblock :=
  match k with
  | None | Some EARLY_ALLOC_EPHEMERAL => mk_physblock 0 0 PHYSBLOCK_UNMANAGED 0
  | Some EARLY_ALLOC_PAGETABLE => mk_physblock 0 0 PHYSBLOCK_PAGETABLE 1
  | Some EARLY_ALLOC_PHYSBLOCK => mk_physblock 0 0 PHYSBLOCK_PHYSBLOCK 1
  | Some EARLY_ALLOC_NORMAL => mk_physblock 0 0 (Z.lor PHYSBLOCK_KERNEL PHYSBLOCK_MOVABLE) 1
  end.

(** The physblocks of the frames [D] follow the early allocator's state [st]. *)
Record set_up (st : early_page_alloc_state) (s s' : phys_mem) (D : list Z) : Prop := {
  su_stats : stats s' = stats s;
  su_spans : spans s' = spans s;
  su_ptr : alloc_state s' = alloc_state s;
  su_locks : locks s' = locks s;
  su_blocks : forall p, 0 <= p -> blocks s' !! blk p = if decide (p ∈ D) then kind_block <$> status st (4096 * p) else blocks s !! blk p;
  su_nodes : forall p, 0 <= p -> is_Some (pnodes s !! node p) -> is_Some (pnodes s' !! node p);
  su_outside : forall p, 0 <= p -> p ∉ D -> pnodes s' !! node p = pnodes s !! node p;
  su_low : forall a, a < KERNEL_MEM_MAP_ADDRESS -> pnodes s' !! a = pnodes s !! a;
}.

Lemma set_up_nil st s : set_up st s s [].
Proof. by split. Qed.

Lemma set_up_app st s s1 s2 D1 D2 : set_up st s s1 D1 -> set_up st s1 s2 D2 -> set_up st s s2 (D1 ++ D2).
Proof.
  intros [A1 A2 A3 A4 A5 A6 A7 A8] [B1 B2 B3 B4 B5 B6 B7 B8]. split; try congruence.
  - intros p Hp. rewrite B5, A5 by done. repeat case_decide; set_solver.
  - intros p Hp Hs. auto.
  - intros p Hp Hn. rewrite B7, A7; set_solver.
  - intros a Ha. by rewrite B8, A8.
Qed.

(** The frame of page [i] of a span. *)
Lemma span_frame st k span i :
  state_wf st -> zlookup (EarlyAlloc.spans st) k = Some span -> 0 <= i < EarlyAlloc.num_pages span ->
  let p := start span / 4096 + i in
  phys_to_pfn (span_to_phys span i) = p /\ 0 <= p < 2 ^ 35 /\ status st (4096 * p) = Some (page_kind span i).
Proof.
  intros Hwf Hk Hi p. pose proof (Forall_zlookup _ _ _ _ (state_spans _ Hwf) Hk) as [[S1 S2] S3 S4 _ _ _ _ _ _].
  pose proof (Z.div_mod (start span) 4096 ltac:(lia)) as Ed. change (2 ^ 12) with 4096 in *. rewrite S2, Z.add_0_r in Ed.
  assert (span_to_phys span i = 4096 * p) as Epa.
  { unfold span_to_phys, PAGE_SIZE, p. change (BIT_MASK PAGE_SHIFT) with 4096. unfold mul64.
    rewrite (u64_small (4096 * i)) by (unfold is_u; lia). rewrite add64_small by (unfold is_u; lia). lia. }
  split; [|split; [lia|]].
  - rewrite Epa. unfold phys_to_pfn, PAGE_SHIFT. rewrite Z.shiftr_div_pow2 by lia. rewrite Z.mul_comm. by apply Z.div_mul.
  - unfold status. rewrite (find_span_at st k span) by (done || (change (2 ^ 12) with 4096; lia)). do 2 f_equal.
    change (2 ^ 12) with 4096. replace (4096 * p - start span) with (i * 4096) by lia. by apply Z.div_mul.
Qed.

(** One physblock written, its node initialised. *)
Lemma set_up_one st s p ns B x :
  same_outside (pnodes s) ns (fun a => a = node p) -> is_Some (ns !! node p) -> 0 <= p ->
  locks s = ∅ -> B = <[blk p := x]> (blocks s) -> Some x = kind_block <$> status st (4096 * p) ->
  set_up st s (mk_phys B ns (({[lck p]} ∪ locks s) ∖ {[lck p]}) (stats s) (spans s) (alloc_state s)) [p].
Proof.
  intros Hout Hin Hp Hl -> Hx. split; cbn [stats spans alloc_state locks blocks pnodes]; try done.
  - rewrite Hl. set_solver.
  - intros q Hq. destruct (decide (q ∈ [p])) as [->%list_elem_of_singleton|Hn]; [by rewrite lookup_insert_eq|].
    rewrite list_elem_of_singleton in Hn. apply lookup_insert_ne. by intros ?%blk_inj.
  - intros q Hq Hs. destruct (decide (q = p)) as [->|]; [done|]. rewrite Hout; [done|]. by intros ?%node_inj.
  - intros q Hq Hn. apply Hout. intros ->%node_inj. apply Hn. by left.
  - intros a Ha. apply Hout. unfold node, blk. lia.
Qed.

Lemma init_physblock_ok st k span i s (p := start span / 4096 + i) :
  state_wf st -> zlookup (EarlyAlloc.spans st) k = Some span -> 0 <= i < EarlyAlloc.num_pages span ->
  zero_blocks s p -> locks s = ∅ ->
  wp (init_physblock span i) s (fun _ s' => set_up st s s' [p]).
Proof.
  intros Hwf Hk Hi [Eb En] Hl. destruct (span_frame st k span i Hwf Hk Hi) as (Epfn & Hp & Hst). fold p in Epfn, Hp, Hst.
  pose proof (Forall_zlookup _ _ _ _ (state_spans _ Hwf) Hk) as [_ _ _ [Wa Na] [We Ne] [Wp Np] [Wb Nb] _ _].
  unfold init_physblock, phys_to_physblock_lock. rewrite Epfn.
  apply wp_bind. eapply wp_mono; [eapply lock_head_ok; [done|exact Eb|done|rewrite Hl; apply not_elem_of_empty]|]. intros ? ? [-> ->].
  apply wp_bind, wp_list_op. eapply wp_mono; [apply node_init_ok; by exists (mk_node 0 0)|]. cbv beta. intros ? ns [Hr Hout]. psimpl.
  change (blk p + NODE_OFFSET) with (node p) in *. rewrite !bitmap_is_set_spec by (done || lia).
  assert (is_Some (ns !! node p)) as Hin by (destruct Hr as [_ [Hr _]]; eapply dom_nxt; eauto).
  do 2 (apply wp_bind; eapply wp_lift; [done|]). unfold page_kind in Hst.
  apply wp_bind. destruct (bit_at (alloc_bitmap span) i); cbn [negb] in *.
  2:{ apply wp_ret, wp_release_block. psimpl. apply (set_up_one st s p ns _ (mk_physblock 0 0 0 0)); try done; [lia|by rewrite insert_id|by rewrite Hst]. }
  destruct (bit_at (ephemeral_bitmap span) i).
  { apply wp_ret, wp_release_block. psimpl. apply (set_up_one st s p ns _ (mk_physblock 0 0 0 0)); try done; [lia|by rewrite insert_id|by rewrite Hst]. }
  do 2 (apply wp_bind; eapply wp_lift; [done|]).
  apply wp_bind. eapply wp_set_type; [exact Eb|]. eapply wp_set_refcount; [psimpl; apply lookup_insert_eq|]. psimpl.
  apply wp_release_block. psimpl. cbn [head_offset order type refcount]. rewrite insert_insert_eq.
  eapply (set_up_one st s p ns); try done; [lia|]. rewrite Hst.
  by destruct (bit_at (pagetable_bitmap span) i), (bit_at (physblock_bitmap span) i).
Qed.

(** The span of the physical allocator for a span of the early one. *)
Definition phys_spans (sh : list (Z * Z)) : list phys_alloc_span := (fun a => mk_phys_span (a.1 / 4096) a.2) <$> sh.

Lemma set_up_zero st s s' D p : set_up st s s' D -> 0 <= p -> p ∉ D -> zero_blocks s p -> zero_blocks s' p.
Proof.
  intros Hs Hp Hn [Eb En]. split; [rewrite (su_blocks _ _ _ _ Hs), decide_False by done|rewrite (su_outside _ _ _ _ Hs) by done]; done.
Qed.

Lemma init_physblock_span_ok st k span s (f := start span / 4096) (n := EarlyAlloc.num_pages span) :
  state_wf st -> zlookup (EarlyAlloc.spans st) k = Some span -> (forall p, p ∈ seqZ f n -> zero_blocks s p) -> locks s = ∅ ->
  wp (init_physblock_span span) s (fun _ s' => set_up st s s' (seqZ f n)).
Proof.
  intros Hwf Hk Hz Hl. pose proof (Forall_zlookup _ _ _ _ (state_spans _ Hwf) Hk) as [[S1 _] [S3 _] _ _ _ _ _ _ _].
  pose proof (Z.div_pos (start span) 4096 S1 eq_refl). fold f in H. fold n in S3. unfold init_physblock_span. fold n.
  pose proof (wp_for_loop (fun j s' => set_up st s s' (seqZ f (Z.of_nat j))) (Z.to_nat n) 0 (init_physblock span) s) as Hloop.
  cbv beta in Hloop. rewrite Z2Nat.id in Hloop by done. apply Hloop; [apply set_up_nil|]. clear Hloop.
  intros j s1 Hj H1. rewrite Z.add_0_l. replace (Z.of_nat (S j)) with (Z.of_nat j + 1) by lia. rewrite seqZ_app by lia.
  change (seqZ (f + Z.of_nat j) 1) with [f + Z.of_nat j]. unfold n in Hj.
  eapply wp_mono; [apply (init_physblock_ok st k span (Z.of_nat j) s1); try done; [lia| |by rewrite (su_locks _ _ _ _ H1)]|].
  - fold f. eapply set_up_zero; [exact H1|lia|rewrite elem_of_seqZ; lia|]. apply Hz, elem_of_seqZ. lia.
  - cbv beta. intros ? s2 H2. by eapply set_up_app.
Qed.

Lemma phys_spans_app l1 l2 : pfns (phys_spans (l1 ++ l2)) = pfns (phys_spans l1) ++ pfns (phys_spans l2).
Proof. unfold phys_spans, pfns. by rewrite !fmap_app, concat_app. Qed.

Lemma init_spans_blocks_ok b (st := bst b) (sh := shape st) :
  state_wf st -> NoDup (pfns (phys_spans sh)) -> (forall p, p ∈ pfns (phys_spans sh) -> 0 <= p /\ zero_blocks (phys b) p) -> locks (phys b) = ∅ ->
  wp (for_loop (length sh) 0 (fun i => span ← get_span i; phys_op (init_physblock_span span))) b
    (fun _ b' => early b' = early b /\ kernel_root_pgd b' = kernel_root_pgd b /\ set_up st (phys b) (phys b') (pfns (phys_spans sh))).
Proof.
  intros Hwf Hnd Hz Hl.
  pose proof (wp_for_loop (fun k b' => early b' = early b /\ kernel_root_pgd b' = kernel_root_pgd b /\ set_up st (phys b) (phys b') (pfns (phys_spans (take k sh))))
    (length sh) 0 (fun i => span ← get_span i; phys_op (init_physblock_span span)) b) as Hloop.
  cbv beta in Hloop. rewrite firstn_all in Hloop. apply Hloop; [by split_and!; [..|apply set_up_nil]|]. clear Hloop.
  intros k b1 Hk (He & Hr & H1). destruct (lookup_lt_is_Some_2 sh k Hk) as [a Ha]. rewrite (take_S_r _ _ _ Ha), phys_spans_app.
  assert (pfns (phys_spans sh) = pfns (phys_spans (take k sh)) ++ seqZ (a.1 / 4096) (a.2) ++ pfns (phys_spans (drop (S k) sh))) as E.
  { rewrite <- (take_drop_middle sh k a Ha) at 1. rewrite phys_spans_app. done. }
  rewrite E in Hnd, Hz. apply NoDup_app in Hnd as (_ & Hd & _).
  apply wp_bind. eapply (wp_get_span sh); [by rewrite He|exact Ha|]. intros span Hspan E1 E2. apply wp_phys_op.
  rewrite He in Hspan.
  eapply wp_mono; [apply (init_physblock_span_ok st (Z.of_nat k) span (phys b1) Hwf Hspan); [|by rewrite (su_locks _ _ _ _ H1)]|]; rewrite E1, E2.
  - intros p Hp. destruct (Hz p) as [Hp0 Hzp]; [rewrite !elem_of_app; tauto|].
    eapply set_up_zero; [exact H1|done|intros Hp'; apply (Hd p Hp'); rewrite elem_of_app; tauto|done].
  - cbv beta. intros ? p2 H2. cbn [early phys kernel_root_pgd]. split; [done|]. split; [done|]. eapply set_up_app; [exact H1|].
    unfold pfns. cbn [phys_spans fmap list_fmap concat start_pfn num_pages]. by rewrite app_nil_r.
Qed.

(** ** The frames of the spans *)

Lemma phys_spans_frames sh p : p ∈ pfns (phys_spans sh) <-> exists a, a ∈ sh /\ a.1 / 4096 <= p < a.1 / 4096 + a.2.
Proof.
  induction sh as [|a sh IH].
  - unfold pfns. simpl. rewrite elem_of_nil. split; [done|]. by intros (a & ?%elem_of_nil & _).
  - change (a :: sh) with ([a] ++ sh). rewrite phys_spans_app, elem_of_app, IH. unfold pfns at 1.
    cbn [phys_spans fmap list_fmap concat start_pfn num_pages]. rewrite app_nil_r, elem_of_seqZ. split.
    + intros [?|(c & ? & ?)]; [exists a; split; [by left|lia]|exists c; split; [by right|done]].
    + intros (c & [->|?]%elem_of_cons & ?); [left; lia|right; eauto].
Qed.

Lemma frames_nodup sh :
  Forall span_shape sh ->
  (forall i j a c, i <> j -> sh !! i = Some a -> sh !! j = Some c -> a.1 + a.2 * 4096 <= c.1 \/ c.1 + c.2 * 4096 <= a.1) ->
  NoDup (pfns (phys_spans sh)).
Proof.
  induction sh as [|a sh IH]; intros Hs Hap; [apply NoDup_nil_2|].
  change (pfns (phys_spans (a :: sh))) with (seqZ (a.1 / 4096) (a.2) ++ pfns (phys_spans sh)).
  apply Forall_cons in Hs as [(A1 & A2 & A3 & _) Hs]. apply NoDup_app. split; [apply NoDup_seqZ|]. split.
  - intros p Hp%elem_of_seqZ (c & Hc & Hp')%phys_spans_frames.
    apply (proj1 (Forall_forall _ _) Hs) in Hc as Hsc. destruct Hsc as (C1 & C2 & C3 & _).
    apply list_elem_of_lookup in Hc as [j Hj].
    pose proof (Z.div_mod (a.1) 4096 ltac:(lia)). pose proof (Z.div_mod (c.1) 4096 ltac:(lia)).
    destruct (Hap O (S j) a c ltac:(lia) eq_refl Hj); lia.
  - apply IH; [done|]. intros i j x y Hij Hi Hj. apply (Hap (S i) (S j)); [lia|done|done].
Qed.

Lemma frames_range sh p : Forall span_shape sh -> p ∈ pfns (phys_spans sh) -> 0 <= p < 2 ^ 34.
Proof.
  intros Hs (a & Ha & Hp)%phys_spans_frames. apply (proj1 (Forall_forall _ _) Hs) in Ha as (A1 & A2 & A3 & A4).
  pose proof (Z.div_pos (a.1) 4096 A1 eq_refl). lia.
Qed.

(** Every frame of the spans has its physblock on the pages of the first pass. *)
Lemma frame_page sh p : Forall span_shape sh -> p ∈ pfns (phys_spans sh) -> p / 128 ∈ pb_pages sh.
Proof.
  intros _ (a & Ha & Hp)%phys_spans_frames. unfold pb_pages. apply list_elem_of_In, in_concat.
  eexists. split; [apply list_elem_of_In, list_elem_of_fmap; by exists a|]. apply list_elem_of_In, elem_of_seqZ.
  unfold pb_first, pb_end. Z.div_mod_to_equations. lia.
Qed.

Lemma phys_spans_wf st : state_wf st -> Forall span_shape (shape st) -> spans_wf (phys_spans (shape st)).
Proof.
  intros Hwf Hs. split.
  - apply Forall_fmap. eapply Forall_impl; [exact Hs|]. intros a (A1 & A2 & A3 & A4). simpl.
    pose proof (Z.div_pos (a.1) 4096 A1 eq_refl). lia.
  - apply frames_nodup; [done|]. intros i j a c Hij Hi Hj. unfold shape in *. rewrite list_lookup_fmap in Hi, Hj.
    destruct (EarlyAlloc.spans st !! i) as [x|] eqn:Ex; [|done]. destruct (EarlyAlloc.spans st !! j) as [y|] eqn:Ey; [|done].
    injection Hi as <-. injection Hj as <-.
    apply (state_apart _ Hwf (Z.of_nat i) (Z.of_nat j)); [lia|apply zlookup_Some; rewrite Nat2Z.id; split; [lia|done]..].
Qed.

(** ** The array of physblocks *)

(** The array is built from [b]: mapped for the frames of the spans, and set to
    the state of the early allocator that mapping it leaves. *)
Definition mem_map_built (fz : frozen) (b b' : boot) : Prop :=
  let sh := fz_shape fz in
  exists b1, pages_added fz b b1 (fun x => x ∈ pb_pages sh) (4 * zlength (pb_pages sh)) /\
    early b' = early b1 /\ kernel_root_pgd b' = kernel_root_pgd b1 /\ set_up (bst b1) (phys b1) (phys b') (pfns (phys_spans sh)).

Lemma wp_early_get {A} (f : machine early_mem -> A) b (Q : A -> boot -> Prop) : Q (f (early b)) b -> wp (early_op (gets f)) b Q.
Proof. intros HQ. apply wp_early_op, wp_gets. by destruct b. Qed.

Lemma early_init_mem_map_ok fz b (sh := fz_shape fz) :
  root_ok fz b -> cr3 b = kernel_root_pgd b -> locks (phys b) = ∅ -> Forall span_shape sh -> NoDup (pb_pages sh) ->
  (forall x, x ∈ pb_pages sh -> unmapped b (MEM_MAP_VPN + x)) -> 4 * zlength (pb_pages sh) <= free_pages (bst b) ->
  wp early_init_mem_map b (fun _ b' => mem_map_built fz b b').
Proof.
  intros Hok Hcr Hl Hs Hnd Hun Hfree. pose proof Hok as [[Hwf Hsh _] Htree]. fold sh in Hsh.
  unfold early_init_mem_map. apply wp_bind, wp_early_get.
  assert (length (EarlyAlloc.spans (bst b)) = length sh) as -> by (rewrite <- Hsh; unfold shape; by rewrite length_fmap).
  apply wp_bind. eapply wp_mono; [by apply (map_spans_ok fz)|]. cbv beta. intros ? b1 H1.
  destruct (pa_ok _ _ _ _ _ H1) as [[Hwf1 Hsh1 _] _]. fold sh in Hsh1.
  pose proof (init_spans_blocks_ok b1) as H2. cbv zeta in H2. rewrite Hsh1 in H2. eapply wp_mono; [apply H2|].
  - done.
  - rewrite <- Hsh1. apply phys_spans_wf; [done|by rewrite Hsh1].
  - intros p Hp. pose proof (frames_range sh p Hs Hp). split; [lia|]. apply (pa_zero _ _ _ _ _ H1); [lia|]. by apply frame_page.
  - destruct (pa_phys _ _ _ _ _ H1) as (_ & _ & _ & Hk & _). set_solver.
  - cbv beta. intros ? b2 (He & Hr & Hset). by exists b1.
Qed.

(** ** The state of the physical allocator *)

(** The state at [ptr] is empty, with the spans of the early allocator. *)
Record state_ready (sh : list (Z * Z)) (ptr : Z) (s s' : phys_mem) : Prop := {
  sr_blocks : blocks s' = blocks s;
  sr_locks : locks s' ⊆ locks s;
  sr_stats : stats s' = mk_stats 0 0 0 0 (replicate 13 0);
  sr_spans : spans s' = phys_spans sh;
  sr_ptr : alloc_state s' = ptr;
  sr_rings : forall o, 0 <= o <= MAX_ORDER -> ring (pnodes s') (ptr + 16 * o) [];
}.

(** A zeroed page is an empty state, with no span yet. *)
Lemma zeroed_state_page m pa ptr s (s' := state_in_page m pa ptr s) :
  (forall i, 0 <= i < 512 -> entry m pa i = 0) ->
  stats s' = mk_stats 0 0 0 0 (replicate 13 0) /\ locks s' ⊆ locks s /\
  forall o, 0 <= o <= MAX_ORDER -> is_Some (pnodes s' !! (ptr + 16 * o)).
Proof.
  intros Hm. unfold s', state_in_page. cbv zeta. cbn [stats locks pnodes]. rewrite !Hm by lia. split; [|split].
  - f_equal. rewrite (list_fmap_ext _ (fun _ => 0)).
    + by vm_compute.
    + intros i x [-> Hi]%lookup_seqZ. apply Hm. lia.
  - set_solver.
  - intros o Ho. unfold MAX_ORDER in Ho. exists (mk_node 0 0).
    apply (slots_lookup (fun o => ptr + 16 * o) (mk_node 0 0) (fun o => mk_node _ _) 13 (pnodes s) 0); [lia| |lia].
    intros j Hj. by rewrite !Hm by lia.
Qed.

(** The loop over the free lists. *)
Lemma init_lists_ok s :
  (forall o, 0 <= o <= MAX_ORDER -> is_Some (pnodes s !! free_list s o)) ->
  wp (for_loop (Z.to_nat (MAX_ORDER + 1)) 0 (fun i => list_op (list_init (free_list s i)))) s (fun _ s' =>
    exists ns, s' = with_nodes ns s /\ forall o, 0 <= o <= MAX_ORDER -> ring ns (free_list s o) []).
Proof.
  intros Hdom.
  pose proof (wp_for_loop (fun k s' => exists ns, s' = with_nodes ns s /\
      (forall o, 0 <= o <= MAX_ORDER -> is_Some (ns !! free_list s o)) /\ forall o, 0 <= o < Z.of_nat k -> ring ns (free_list s o) [])
    (Z.to_nat (MAX_ORDER + 1)) 0 (fun i => list_op (list_init (free_list s i))) s) as Hloop. cbv beta in Hloop.
  eapply wp_mono; [apply Hloop|]; clear Hloop.
  - exists (pnodes s). split; [by destruct s|]. split; [done|]. intros o Ho. lia.
  - intros k s1 Hk (ns & -> & Hd & Hr). rewrite Z.add_0_l. set (k' := Z.of_nat k). assert (0 <= k' <= MAX_ORDER) as Hk' by lia.
    apply wp_list_op. psimpl. eapply wp_mono; [by apply node_init_ok, Hd|]. cbv beta. intros ? ns' [Hk2 Hout].
    exists ns'. split; [done|].
    assert (forall o, o <> k' -> ns' !! free_list s o = ns !! free_list s o) as Hsame by (intros o Ho; apply Hout; unfold free_list; lia).
    assert (is_Some (ns' !! free_list s k')) as Hin by (destruct Hk2 as [_ [Hk2 _]]; eapply dom_nxt; eauto).
    split.
    + intros o Ho. destruct (decide (o = k')) as [->|]; [done|]. rewrite Hsame by done. by apply Hd.
    + intros o Ho. destruct (decide (o = k')) as [->|]; [done|]. eapply ring_frame; [exact Hout| |apply Hr; lia].
      intros x ->%list_elem_of_singleton. unfold free_list. lia.
  - cbv beta. intros ? s' (ns & -> & _ & Hr). exists ns. split; [done|]. intros o Ho. apply Hr. unfold MAX_ORDER in *. lia.
Qed.

Lemma phys_alloc_init_state_ok st s m pa ptr :
  Forall span_shape (shape st) -> (forall i, 0 <= i < 512 -> entry m pa i = 0) ->
  wp (modify (state_in_page m pa ptr);; phys_alloc_init_state st) s (fun _ s' => state_ready (shape st) ptr s s').
Proof.
  intros Hs Hm. destruct (zeroed_state_page m pa ptr s Hm) as (Hst & Hl & Hh).
  apply wp_bind, wp_modify. unfold phys_alloc_init_state. apply wp_bind, wp_get.
  apply wp_bind. eapply wp_mono; [apply init_lists_ok; exact Hh|].
  cbv beta. intros ? s' (ns & -> & Hr). apply wp_modify. split; cbn [blocks locks stats spans alloc_state pnodes with_nodes].
  - done.
  - exact Hl.
  - exact Hst.
  - unfold phys_spans, shape. rewrite <- list_fmap_compose. apply list_fmap_ext. intros i sp _. unfold compose. cbn [fst snd].
    unfold phys_to_pfn, PAGE_SHIFT. by rewrite Z.shiftr_div_pow2 by lia.
  - done.
  - done.
Qed.

(** A page of the early allocator is a frame of the spans. *)
Lemma status_frame st p k :
  state_wf st -> Forall span_shape (shape st) -> status st p = Some k -> 0 <= p < 2 ^ 46 /\ p / 4096 ∈ pfns (phys_spans (shape st)).
Proof.
  intros Hwf Hs Hst. destruct (status_cases _ p Hwf) as [[? _]|(i & span & off & _ & Hi & Hsp & Hoff & _ & Hp & _)]; [congruence|].
  pose proof (span_start _ Hsp) as [S1 S2]. change (2 ^ 12) with 4096 in *.
  assert (p / 4096 = start span / 4096 + off) as E by (rewrite Hp, Z.div_add by lia; done).
  assert ((start span, EarlyAlloc.num_pages span) ∈ shape st) as Hin.
  { apply zlookup_Some in Hi as [_ Hi]. apply list_elem_of_fmap. exists span. split; [done|]. by apply list_elem_of_lookup_2 in Hi. }
  assert (p / 4096 ∈ pfns (phys_spans (shape st))) as Hfr.
  { apply phys_spans_frames. eexists. split; [exact Hin|]. cbn [fst snd]. lia. }
  split; [|done]. pose proof (frames_range _ _ Hs Hfr). pose proof (Z.div_mod p 4096). pose proof (Z.mod_pos_bound p 4096). lia.
Qed.

(** The free pages of the early allocator are the frames with that status. *)
Definition early_free (st : early_page_alloc_state) (p : Z) : bool := bool_decide (status st (4096 * p) = Some None).

Lemma span_free_count st k span :
  state_wf st -> zlookup (EarlyAlloc.spans st) k = Some span ->
  count_true (early_free st) (seqZ (start span / 4096) (EarlyAlloc.num_pages span)) = EarlyAlloc.num_pages span - count_bits (alloc_bitmap span).
Proof.
  intros Hwf Hk. pose proof (Forall_zlookup _ _ _ _ (state_spans _ Hwf) Hk) as Hsp. destruct (span_alloc_wf _ Hsp) as [_ Hn].
  rewrite <- (Z.add_0_r (start span / 4096)), <- fmap_add_seqZ, count_true_fmap.
  rewrite (count_true_ext _ (fun i => negb (bit_at (alloc_bitmap span) i))).
  - rewrite count_true_negb. unfold count_bits. rewrite Hn. unfold zlength. rewrite length_seqZ. pose proof (span_pages _ Hsp). lia.
  - intros i Hi%elem_of_seqZ. unfold early_free. destruct (span_frame st k span i Hwf Hk) as (_ & _ & ->); [lia|].
    unfold page_kind. destruct (bit_at (alloc_bitmap span) i); simpl; [|done]. by repeat case_match.
Qed.

Lemma free_pages_count st : state_wf st -> count_true (early_free st) (pfns (phys_spans (shape st))) = free_pages st.
Proof.
  intros Hwf. unfold free_pages. rewrite (state_alloc _ Hwf).
  assert (Forall (fun span => count_true (early_free st) (seqZ (start span / 4096) (EarlyAlloc.num_pages span)) =
    EarlyAlloc.num_pages span - count_bits (alloc_bitmap span)) (EarlyAlloc.spans st)) as HF.
  { apply Forall_lookup. intros j span Hj. apply (span_free_count st (Z.of_nat j)); [done|]. apply zlookup_Some. rewrite Nat2Z.id. split; [lia|done]. }
  unfold shape. clear Hwf. revert HF. generalize (EarlyAlloc.spans st) at 1 2 3 4. intros l. induction 1 as [|span l Hs _ IH]; [done|].
  change (pfns (phys_spans ((fun s => (start s, EarlyAlloc.num_pages s)) <$> span :: l))) with
    (seqZ (start span / 4096) (EarlyAlloc.num_pages span) ++ pfns (phys_spans ((fun s => (start s, EarlyAlloc.num_pages s)) <$> l))).
  rewrite count_true_app, Hs, IH. cbn [sum_spans]. lia.
Qed.

(** A zeroed page that is kept: nothing is frozen away or unmapped. *)
Lemma take_page_ok fz root (e : machine early_mem) :
  early_pt_ok fz root e -> 0 < free_pages (ast e) ->
  wp early_page_alloc_zero e (fun pa e' => early_pt_ok fz root e' /\ free_pages (ast e') = free_pages (ast e) - 1 /\
    (forall v, 0 <= v < 2 ^ 36 -> walk (mem e') root v = walk (mem e) root v) /\ early_in_use (alloc_st e') pa /\
    forall i, 0 <= i < 512 -> entry (mem e') pa i = 0).
Proof.
  intros [Hfz Htree] Hfree. eapply wp_mono; [apply (zeroed_page_law EARLY_ALLOC_NORMAL fz None ltac:(done) e Hfz Hfree)|]. cbv beta.
  intros pa e' (Hpa & Hnu & Hfz1 & HU & Hav & Hm). destruct (fresh_page _ _ _ _ _ _ Htree Hnu HU Hm) as (Htree1 & _ & Hw1).
  split; [by split|]. split; [done|]. split; [done|]. split; [apply HU; by left|].
  intros i Hi. rewrite Hm by done. by apply decide_True.
Qed.

Lemma early_init_phys_alloc_state_ok fz b (sh := fz_shape fz) :
  root_ok fz b -> Forall span_shape sh -> zlength sh <= 233 -> 0 < free_pages (bst b) ->
  wp early_init_phys_alloc_state b (fun _ b' =>
    root_ok fz b' /\ kernel_root_pgd b' = kernel_root_pgd b /\ cr3 b' = cr3 b /\ free_pages (bst b') = free_pages (bst b) - 1 /\
    (forall v, 0 <= v < 2 ^ 36 -> walk (mem (early b')) (kernel_root_pgd b) v = walk (mem (early b)) (kernel_root_pgd b) v) /\
    exists ptr, base_ok ptr /\ state_ready sh ptr (phys b) (phys b')).
Proof.
  intros [Hfz Htree] Hs Hlen Hfree. pose proof Hfz as [Hwf Hsh _]. fold sh in Hsh. unfold early_init_phys_alloc_state. apply wp_bind, wp_early_get.
  assert (zlength (EarlyAlloc.spans (bst b)) = zlength sh) as -> by (rewrite <- Hsh; unfold shape, zlength; by rewrite length_fmap).
  pose proof (zlength_nonneg sh).
  assert ((SIZEOF_PHYS_ALLOC_STATE + SIZEOF_PHYS_ALLOC_SPAN * zlength sh)%u64 = 360 + 16 * zlength sh) as ->.
  { unfold SIZEOF_PHYS_ALLOC_STATE, SIZEOF_PHYS_ALLOC_SPAN, mul64. rewrite (u64_small (16 * zlength sh)) by (unfold is_u; lia).
    by rewrite add64_small by (unfold is_u; lia). }
  destruct (Z.ltb_spec PAGE_SIZE (360 + 16 * zlength sh)) as [Hlt|_]; [change PAGE_SIZE with 4096 in Hlt; lia|].
  apply wp_bind, wp_early_op.
  eapply wp_mono; [apply (take_page_ok fz (kernel_root_pgd b)); [by split|done]|]. cbv beta.
  intros pa e ([Hfz1 Htree1] & Hav & Hw1 & Hpa & Hz). pose proof Hfz1 as [Hwf1 Hsh1 _]. fold sh in Hsh1.
  apply wp_bind, wp_early_get. cbn [early phys kernel_root_pgd cr3]. apply wp_bind, wp_gets, wp_phys_op. cbn [early phys kernel_root_pgd cr3].
  eapply wp_mono; [apply (phys_alloc_init_state_ok (ast e) (phys b) (mem e) pa (phys_to_virt_ptr pa)); [by rewrite Hsh1|exact Hz]|]. cbv beta.
  rewrite Hsh1. intros ? p' Hst. split; [by split|]. split; [done|]. split; [done|]. split; [done|]. split; [done|].
  exists (phys_to_virt_ptr pa). split; [|done].
  destruct Hpa as (_ & t & _ & Ht).
  apply status_frame in Ht as [Hr _]; [|done|by rewrite Hsh1].
  unfold phys_to_virt_ptr, virt_to_ptr, phys_to_virt, base_ok, KERNEL_DIRECT_MAP_BASE, KERNEL_MEM_MAP_ADDRESS. rewrite add64_small by (unfold is_u; lia). lia.
Qed.

(** ** The hand-over *)

(** Memory is ready for its page array: the kernel's page tables are in use,
    every span is below 64 TiB, no two spans share a page of the array, and the
    array is not mapped yet and fits the free pages, with its tables. *)
Record map_ready (fz : frozen) (b : boot) (sh := fz_shape fz) : Prop := {
  mr_root : root_ok fz b;
  mr_cr3 : cr3 b = kernel_root_pgd b;
  mr_locks : locks (phys b) = ∅;
  mr_shape : Forall span_shape sh;
  mr_count : zlength sh <= 233;
  mr_apart : NoDup (pb_pages sh);
  mr_unmapped : forall x, x ∈ pb_pages sh -> unmapped b (MEM_MAP_VPN + x);
  mr_free : 4 * zlength (pb_pages sh) + 1 <= free_pages (bst b);
}.

Lemma kind_block_used k :
  exists t r, kind_block k = mk_physblock 0 0 t r /\ Z.land t PHYSBLOCK_TYPE_MASK <> PHYSBLOCK_FREE /\ is_u32 r.
Proof. destruct k as [[]|]; do 2 eexists; (split; [reflexivity|split; [by vm_compute|split; lia]]). Qed.

(** The array and the state make a state [phys_alloc_init] starts from. *)
Lemma handover_init fz ptr s b b1 b' (sh := fz_shape fz) :
  root_ok fz b' -> Forall span_shape sh -> base_ok ptr -> locks s = ∅ -> state_ready sh ptr s (phys b) -> early b' = early b1 ->
  phys_kept (phys b) (phys b1) (fun x => x ∈ pb_pages sh) -> (forall p, 0 <= p -> p / 128 ∈ pb_pages sh -> zero_blocks (phys b1) p) ->
  set_up (bst b1) (phys b1) (phys b') (pfns (phys_spans sh)) ->
  init_state (phys b') /\ forall p k, status (bst b') (4096 * p) = Some k -> blocks (phys b') !! blk p = Some (kind_block k).
Proof.
  intros [[Hwf Hsh _] _]. fold sh in Hsh. intros Hs Hb Hl [R1 R2 R3 R4 R5 R6] He (K1 & K2 & K3 & K4 & _ & K6) Hz [U1 U2 U3 U4 U5 U6 _ U8].
  assert (spans_wf (phys_spans sh)) as Hsw by (rewrite <- Hsh in *; by apply phys_spans_wf).
  assert (spans (phys b') = phys_spans sh) as Esp by congruence.
  assert (forall p, p ∈ pfns (phys_spans sh) -> exists k, status (bst b1) (4096 * p) = Some k /\ blocks (phys b') !! blk p = Some (kind_block k)) as Hkind.
  { intros p Hp. pose proof (frames_range _ _ Hs Hp). rewrite U5, decide_True by (done || lia).
    apply phys_spans_frames in Hp as (a & Ha & Hpa). rewrite <- He. rewrite <- Hsh in Ha. apply list_elem_of_fmap in Ha as (span & -> & Hspan).
    apply list_elem_of_lookup in Hspan as [i Hi]. cbn [fst snd] in Hpa.
    destruct (span_frame (bst b') (Z.of_nat i) span (p - start span / 4096) Hwf) as (_ & _ & Hst);
      [apply zlookup_Some; rewrite Nat2Z.id; split; [lia|done]|lia|].
    replace (start span / 4096 + (p - start span / 4096)) with p in Hst by lia. rewrite Hst. by eexists. }
  split; [split|].
  - by rewrite Esp.
  - by rewrite U3, K3, R5.
  - rewrite Esp. intros p Hp%elem_of_pfns; [|done]. destruct (Hkind p Hp) as (k & _ & ->).
    destruct (kind_block_used k) as (t & r & -> & ? & ?). eauto.
  - intros o Ho. unfold free_list. rewrite U3, K3, R5.
    eapply (ring_frame (pnodes (phys b)) _ _ _ (fun a => ~ a < KERNEL_MEM_MAP_ADDRESS)); [| |by apply R6].
    + intros a Ha. apply dec_stable in Ha. by rewrite U8, K6.
    + intros a ->%list_elem_of_singleton Hn. apply Hn. unfold base_ok, MAX_ORDER in *. lia.
  - rewrite Esp. intros p Hp%elem_of_pfns; [|done]. pose proof (frames_range _ _ Hs Hp). apply U6; [lia|].
    exists (mk_node 0 0). apply Hz; [lia|]. by apply frame_page.
  - rewrite U1, K1, R3. by split_and!.
  - rewrite U4. set_solver.
  - intros p k Hst. rewrite <- Hsh in Hs. apply status_frame in Hst as Hfr; [|done|done]. destruct Hfr as [_ Hfr].
    replace (4096 * p / 4096) with p in Hfr by (rewrite Z.mul_comm, Z.div_mul; lia). rewrite Hsh in Hfr.
    destruct (Hkind p Hfr) as (k' & Hk' & Hbl). rewrite <- He, Hst in Hk'. by simplify_eq.
Qed.

(** What the buddy allocator makes of a page of the early one. *)
Definition handed_over (p : Z) (k : option early_alloc_type) : page_state :=
  match k with
  | None | Some EARLY_ALLOC_EPHEMERAL => Free
  | Some _ => Used p 0 (type (kind_block k)) 1
  end.

Lemma early_part_ok fz b (sh := fz_shape fz) :
  map_ready fz b ->
  wp (early_init_phys_alloc_state;; early_init_mem_map) b (fun _ b' =>
    root_ok fz b' /\ init_state (phys b') /\ spans (phys b') = phys_spans sh /\
    (forall p k, status (bst b') (4096 * p) = Some k -> blocks (phys b') !! blk p = Some (kind_block k)) /\
    (forall u, u ∈ pb_pages sh -> zero_page_at (early b') (kernel_root_pgd b') (MEM_MAP_VPN + u)) /\
    free_pages (bst b) - 4 * zlength (pb_pages sh) - 1 <= free_pages (bst b') /\
    kernel_root_pgd b' = kernel_root_pgd b /\
    forall v, 0 <= v < 2 ^ 36 -> v - MEM_MAP_VPN ∉ pb_pages sh ->
      walk (mem (early b')) (kernel_root_pgd b) v = walk (mem (early b)) (kernel_root_pgd b) v).
Proof.
  intros [Hr Hcr Hl Hs Hc Ha Hun Hf]. fold sh in Hs, Hc, Ha, Hun, Hf. pose proof (zlength_nonneg (pb_pages sh)).
  apply wp_bind. eapply wp_mono; [apply (early_init_phys_alloc_state_ok fz b Hr Hs Hc); lia|]. cbv beta.
  intros ? b1 (Hr1 & Eroot & Ecr & Hfree & Hw & ptr & Hb & Hst).
  eapply wp_mono; [apply (early_init_mem_map_ok fz b1 Hr1)|]; fold sh; try done.
  - congruence.
  - pose proof (sr_locks _ _ _ _ Hst). set_solver.
  - intros x Hx. pose proof (pb_page_range _ _ Hs Hx). unfold unmapped. rewrite Eroot, Hw by (unfold MEM_MAP_VPN; lia). by apply Hun.
  - lia.
  - cbv beta. intros ? b2 (b3 & [E1 _ E2 E3 E4 E5 _ E6 E7] & He & Eroot2 & Hset).
    assert (root_ok fz b2) as Hr2 by (unfold root_ok in *; by rewrite He, Eroot2).
    destruct (handover_init fz ptr (phys b) b1 b3 b2) as [Hi Hk]; try done.
    split; [done|]. split; [done|]. split; [|split; [done|]].
    + rewrite (su_spans _ _ _ _ Hset). destruct E6 as (_ & -> & _). apply Hst.
    + split; [|split; [|split; [congruence|]]].
      * intros u Hu. rewrite He, Eroot2, E1. apply E5; [by eapply pb_page_range|done].
      * fold sh in E3. rewrite He. lia.
      * intros v Hv Hn. rewrite He. rewrite Eroot in E4. rewrite E4 by done. by apply Hw.
Qed.

(** The page state [phys_alloc_init] makes of a physblock of the second pass. *)
Lemma init_page_state s s' n p k :
  init_state s -> inited s (pfns (spans s)) n s' -> span_of (spans s) p <> -1 -> blocks s !! blk p = Some (kind_block k) ->
  page_status (blocks s') p = Some (handed_over p k).
Proof.
  intros Hi Hd Hp Eb. rewrite (id_status _ _ _ _ Hd) by done.
  destruct (kind_block_used k) as (t & r & Ek & Ht & _). rewrite Ek in Eb.
  assert (page_status (blocks s) p = Some (Used p 0 t r)) as ->.
  { rewrite (block_status _ _ p 0 _ p (init_block s p Hi Hp) Eb) by (simpl; lia). unfold head_state. simpl. by rewrite (proj2 (Z.eqb_neq _ _) Ht). }
  assert (p ∈ pfns (spans s)) as Hin by (by apply elem_of_pfns; [apply Hi|]).
  assert ((p ∈ pfns (spans s) /\ unmanaged (Some (Used p 0 t r)) = true) <-> Z.land t PHYSBLOCK_TYPE_MASK = PHYSBLOCK_UNMANAGED) as Hdec.
  { simpl. rewrite Z.eqb_eq. tauto. }
  rewrite (decide_ext _ _ _ _ Hdec). destruct k as [[]|]; injection Ek as <- <-; reflexivity.
Qed.

(** The buddy allocator has the memory: the same spans, every page as the early
    allocator left it, the frozen pages with their types. The kernel's page
    tables are in use, every frame has its page of physblocks mapped to a page in
    use, and outside that array the address space is as it was. *)
Record handover_done (fz : frozen) (b b' : boot) : Prop := {
  hd_ok : phys_ok (phys b');
  hd_spans : spans (phys b') = phys_spans (fz_shape fz);
  hd_count : num_4k_pages (stats (phys b')) = zlength (pfns (phys_spans (fz_shape fz)));
  hd_free : free_pages (bst b) - 4 * zlength (pb_pages (fz_shape fz)) - 1 <= num_free_4k_pages (stats (phys b'));
  hd_status : forall p k, status (bst b') (4096 * p) = Some k -> page_status (blocks (phys b')) p = Some (handed_over p k);
  hd_frozen : frozen_ok fz (alloc_st (early b'));
  hd_tables : forall l t q, table_id l t -> table (mem (early b')) (kernel_root_pgd b') l t = Some q ->
    exists ty, page_status (blocks (phys b')) (q / 4096) = Some (Used (q / 4096) 0 ty 1);
  hd_mapped : forall p, p ∈ pfns (phys_spans (fz_shape fz)) -> exists f ty,
    translate (mem (early b')) (kernel_root_pgd b') (vpn (blk p)) = Some (f, map_flags_to_page_flags MAP_KERNEL) /\
    page_status (blocks (phys b')) f = Some (Used f 0 ty 1);
  hd_root : kernel_root_pgd b' = kernel_root_pgd b;
  hd_walk : forall v, 0 <= v < 2 ^ 36 -> v - MEM_MAP_VPN ∉ pb_pages (fz_shape fz) ->
    walk (mem (early b')) (kernel_root_pgd b') v = walk (mem (early b)) (kernel_root_pgd b) v;
}.

Definition handover : BM unit := early_init_phys_alloc_state;; early_init_mem_map;; phys_op phys_alloc_init.

Lemma handover_ok fz b : map_ready fz b -> wp handover b (fun _ b' => handover_done fz b b').
Proof.
  intros Hready. pose proof (mr_shape _ _ Hready) as Hs. unfold handover.
  assert (forall (m1 m2 m3 : BM unit) Q, wp (m1;; m2) b (fun _ s => wp m3 s Q) -> wp (m1;; m2;; m3) b Q) as Hseq.
  { intros m1 m2 m3 Q. unfold wp, mbind, M_bind. destruct (m1 b) as [? s1| | |]; try done. by destruct (m2 s1). }
  apply Hseq. eapply wp_mono; [by apply early_part_ok|]. cbv beta zeta. intros ? b1 ([Hfz Htree] & Hi & Esp & Hk & Hmap & Hfree & Eroot & Hw).
  pose proof Hfz as [Hwf Hsh _].
  apply wp_phys_op. eapply wp_mono; [by apply init_all_ok|]. cbv beta. intros ? p' Hd. rewrite Esp in Hd.
  assert (forall p k, status (bst b1) (4096 * p) = Some k -> page_status (blocks p') p = Some (handed_over p k)) as Hst.
  { intros p k Hp. eapply (init_page_state (phys b1) p'); [done|by rewrite Esp| |by apply Hk].
    apply elem_of_pfns; [apply Hi|]. rewrite Esp. rewrite <- Hsh in Hs |- *. apply status_frame in Hp as [_ Hp]; [|done|done].
    by rewrite Z.mul_comm, Z.div_mul in Hp by lia. }
  assert (forall q, early_in_use (alloc_st (early b1)) q -> exists ty, page_status (blocks p') (q / 4096) = Some (Used (q / 4096) 0 ty 1)) as Hused.
  { intros q (Hal & ty & Hne & Hq). change (2 ^ 12) with 4096 in Hal. pose proof (Z.div_mod q 4096 ltac:(lia)) as E. rewrite Hal, Z.add_0_r in E.
    rewrite E in Hq. rewrite (Hst _ _ Hq). destruct ty; try done; by eexists. }
  split; cbn [phys early kernel_root_pgd]; try done.
  - apply Hd.
  - by rewrite (id_spans _ _ _ _ Hd).
  - apply Hd.
  - destruct (id_ok _ _ _ _ Hd) as (L & Hinv & _). rewrite (pi_count _ _ Hinv), (id_spans _ _ _ _ Hd), Esp.
    etrans; [exact Hfree|]. rewrite <- (free_pages_count _ Hwf), Hsh. apply count_true_mono. intros p _ Hp. unfold early_free in Hp. apply bool_decide_eq_true in Hp.
    unfold is_free. by rewrite (Hst _ _ Hp).
  - intros l t q Hid Ht. apply Hused. by destruct (tree_page _ _ _ Htree l t q Hid Ht).
  - intros p Hp. pose proof (frames_range _ _ Hs Hp).
    assert (vpn (blk p) = MEM_MAP_VPN + p / 128) as ->.
    { unfold vpn, blk, MEM_MAP_VPN, KERNEL_MEM_MAP_ADDRESS. Z.div_mod_to_equations. lia. }
    destruct (Hmap (p / 128)) as (pa & (_ & Huse & _) & Ht & _); [by apply frame_page|].
    destruct (Hused pa Huse) as [ty Hty]. by exists (pa / 4096), ty.
  - intros v Hv Hn. rewrite Eroot. by apply Hw.
Qed.

(** One span of 96 pages and an empty address space, for the witness. *)
Lemma sample_map_ready : exists b, map_ready (mk_frozen [(0x100000, 96)] []) b.
Proof.
  destruct sample_machine_wf as (Hwf & _ & Hf). pose proof (spans_only_ok _ Hwf) as Hfz.
  destruct (wp_done _ _ _ (early_alloc_pgd_ok _ None sample_machine Hfz ltac:(cbn [held_avail]; by rewrite Hf))) as (pgd & e & _ & Hpt & Hw & Hfree).
  cbn [held_avail] in Hfree.  rewrite Hf in Hfree. exists (mk_boot e (mk_phys ∅ ∅ ∅ (mk_stats 0 0 0 0 []) [] 0) pgd pgd). split; try done.
  - repeat constructor; by vm_compute.
  - apply (bool_decide_unpack _). by vm_compute.
  - intros x _. apply Hw.
  - change (bst _) with (ast e). rewrite Hfree. by vm_compute.
Qed.

(** ** Properties *)

(** C5: memory passes from the early allocator to the buddy allocator. When the
    array of physblocks can be mapped, allocating the allocator's state, building
    the array and [phys_alloc_init] return in a well-formed state of the buddy
    allocator over the same spans: a page of the early allocator that is free or
    ephemeral is free, every other, the kernel's page tables and what [fz] lists
    included, is in use as its kind with one reference; all but four pages for each
    page of the array and one for the state stay free; and for every frame the page
    of its physblock is mapped, writable, to a page in use. The physblocks are what
    the words of the pages mapped hold: that they start as zero is a consequence of
    the page allocator's zeroing. (A comment in [init_physblock_span] says that
    ephemeral pages are not added to the physical allocator: they are.) *)
Theorem memory_handover_correct fz b :
  map_ready fz b ->
  wp (early_init_phys_alloc_state;; early_init_mem_map;; phys_op phys_alloc_init) b (fun _ b' => handover_done fz b b').
Proof. apply handover_ok. Qed.

Lemma memory_handover_correct_witness :
  exists b, map_ready (mk_frozen [(0x100000, 96)] []) b /\
    wp (early_init_phys_alloc_state;; early_init_mem_map;; phys_op phys_alloc_init) b (fun _ b' =>
      phys_ok (phys b') /\ spans (phys b') = [mk_phys_span 256 96]).
Proof.
  destruct sample_map_ready as [b Hb]. exists b. split; [exact Hb|].
  eapply wp_mono; [exact (memory_handover_correct _ b Hb)|]. cbv beta. intros ? b' [H1 H2]. split; [exact H1|exact H2].
Defined.
