(* ===== verification/PageDump.v ===== *)
(** * Dumping page tables (mm/page.c)

    [dump_mapped_pages] walks the tables in the order of the addresses and prints
    a line for each range of pages with the same flags, and the numbers of pages
    of each size. [printf] is an argument of the code, and the model records the
    calls; the state of the dump is [page_dump_state] with these calls.

    The theorem holds for every contents of table memory: the walk has depth four
    whatever the entries are. *)

From stdpp Require Import base gmap list strings numbers sorting.
From Stdlib Require Import ZArith Lia.
From S2P Require Import Prelude Macros MmDefs CString Format Page PageMap.

(** ** The code *)

(** A call of [printf]. *)
Definition call : Type := list Z * list Format.va.

Record page_dump_state := mk_dump {
  in_range : bool;
  mask_huge_flag : bool;
  start : Z;
  end_ : Z;
  raw_flags : Z;
  pgd_index : Z;
  pud_index : Z;
  pmd_index : Z;
  num_pages_4kib : Z;
  num_pages_2mib : Z;
  num_pages_1gib : Z;
  calls : list call;
}.

Abbreviation DM := (M page_dump_state).

(** The state after more calls. *)
Definition with_calls (l : list call) (s : page_dump_state) : page_dump_state :=
  mk_dump (in_range s) (mask_huge_flag s) (start s) (end_ s) (raw_flags s) (pgd_index s) (pud_index s) (pmd_index s)
    (num_pages_4kib s) (num_pages_2mib s) (num_pages_1gib s) (calls s ++ l).

Definition printf (fmt : string) (args : list Format.va) : DM unit := modify (with_calls [(cstr fmt, args)]).

Definition set_range (r : bool) (a b fl : Z) : DM unit :=
  modify (fun s => mk_dump r (mask_huge_flag s) a b fl (pgd_index s) (pud_index s) (pmd_index s)
    (num_pages_4kib s) (num_pages_2mib s) (num_pages_1gib s) (calls s)).

Definition set_index (g u d : Z) : DM unit :=
  modify (fun s => mk_dump (in_range s) (mask_huge_flag s) (start s) (end_ s) (raw_flags s) g u d
    (num_pages_4kib s) (num_pages_2mib s) (num_pages_1gib s) (calls s)).

Definition add_pages (n4 n2 n1 : Z) : DM unit :=
  modify (fun s => mk_dump (in_range s) (mask_huge_flag s) (start s) (end_ s) (raw_flags s) (pgd_index s) (pud_index s) (pmd_index s)
    (num_pages_4kib s + n4)%u64 (num_pages_2mib s + n2)%u64 (num_pages_1gib s + n1)%u64 (calls s)).

(** [bytes_to_human] into a buffer of 1024 bytes, given to [printf]. *)
Definition human_arg (bytes : Z) : DM Format.va := fun s =>
  match bytes_to_human bytes 1024 (replicate (Z.to_nat 1024) 0) with
  | Done _ buf => Done (VaStr buf) s
  | Panic msg => Panic msg
  | Hang => Hang
  | Undef => Undef
  end.

Definition dump_flags : DM unit :=
  flags ← gets raw_flags;
  (if IS_MASK_SET flags PAGE_FLAG_RW then printf "RW " [] else printf "RO " []);;
  when (IS_MASK_SET flags PAGE_FLAG_USER) (printf "Us " []);;
  when (IS_MASK_SET flags PAGE_FLAG_WRITE_THROUGH) (printf "Wt " []);;
  when (IS_MASK_SET flags PAGE_FLAG_UNCACHED) (printf "Uc " []);;
  when (IS_MASK_SET flags PAGE_FLAG_ACCESSED) (printf "Ax " []);;
  when (IS_MASK_SET flags PAGE_FLAG_DIRTY) (printf "Dt " []);;
  when (IS_MASK_SET flags PAGE_FLAG_PSE) (printf "Hg " []);;
  when (IS_MASK_SET flags PAGE_FLAG_GLOBAL) (printf "Gl " []);;
  when (negb (IS_MASK_SET flags PAGE_FLAG_NX)) (printf "EX " []).

Definition newline : string := String (Ascii.ascii_of_nat 10) EmptyString.

Definition maybe_dump_range : DM unit :=
  s ← get;
  if negb (in_range s) then mret tt
  else
    set_range false (start s) (end_ s) (raw_flags s);;
    (if IS_BIT_SET (start s) (PHYS_ADDR_BITS - 1) then
       let mask := BIT_MASK_ABOVE PHYS_ADDR_BITS in
       set_range false (start s |: mask)%u64 (end_ s |: mask)%u64 (raw_flags s)
     else mret tt);;
    s ← get;
    human ← human_arg (end_ s - start s)%u64;
    printf "0x%016lx - 0x%016lx: %s / " [VaInt (start s); VaInt (end_ s); human];;
    dump_flags;;
    printf newline [];;
    set_range false 0 0 0.

Definition extend_dump_range (first past flags : Z) : DM unit :=
  s ← get;
  let mask := BIT_MASK_EXCLUDING PAGE_FLAG_PSE_BIT in
  let prev_flags := if mask_huge_flag s then (raw_flags s & mask)%u64 else raw_flags s in
  let flags := if mask_huge_flag s then (flags & mask)%u64 else flags in
  (if in_range s && negb (flags =? prev_flags) then
     maybe_dump_range;;
     modify (fun s => mk_dump false (mask_huge_flag s) (start s) (end_ s) (raw_flags s) (pgd_index s) (pud_index s) (pmd_index s)
       (num_pages_4kib s) (num_pages_2mib s) (num_pages_1gib s) (calls s))
   else mret tt);;
  s ← get;
  if negb (in_range s) then set_range true first past flags
  else set_range true (start s) past (raw_flags s).

Section code.
Context (m : words).

Definition dump_mapped_pages_ptd (ptd : Z) : DM unit :=
  for_loop (Z.to_nat NUM_PAGE_TABLE_ENTRIES) 0 (fun i =>
    s ← get;
    let ptde := load m (ptde_at ptd i) in
    if negb (ptde_present ptde) then maybe_dump_range
    else
      let first := encode_virt (pgd_index s) (pud_index s) (pmd_index s) i 0 in
      extend_dump_range first (first + PAGE_SIZE)%u64 (ptde_raw_flags ptde);;
      add_pages 1 0 0).

Definition dump_mapped_pages_pmd (pmd : Z) : DM unit :=
  for_loop (Z.to_nat NUM_PAGE_TABLE_ENTRIES) 0 (fun i =>
    s ← get;
    set_index (pgd_index s) (pud_index s) i;;
    let pmde := load m (pmde_at pmd i) in
    if negb (pmde_present pmde) then maybe_dump_range
    else if pmde_2mib pmde then
      let first := encode_virt (pgd_index s) (pud_index s) i 0 0 in
      extend_dump_range first (first + PAGE_SIZE_2MIB)%u64 (pmde_raw_flags_2mib pmde);;
      add_pages 0 1 0
    else dump_mapped_pages_ptd (pmde_ptd pmde)).

Definition dump_mapped_pages_pud (pud : Z) : DM unit :=
  for_loop (Z.to_nat NUM_PAGE_TABLE_ENTRIES) 0 (fun i =>
    s ← get;
    set_index (pgd_index s) i (pmd_index s);;
    let pude := load m (pude_at pud i) in
    if negb (pude_present pude) then maybe_dump_range
    else if pude_1gib pude then
      let first := encode_virt (pgd_index s) i 0 0 0 in
      extend_dump_range first (first + PAGE_SIZE_1GIB)%u64 (pude_raw_flags_1gib pude);;
      add_pages 0 0 1
    else dump_mapped_pages_pmd (pude_pmd pude)).

(** The loop over the PGD. *)
Definition dump_mapped_pages_pgd (pgd : Z) : DM unit :=
  for_loop (Z.to_nat NUM_PAGE_TABLE_ENTRIES) 0 (fun i =>
    s ← get;
    set_index i (pud_index s) (pmd_index s);;
    let pgde := load m (pgde_at pgd i) in
    if negb (pgde_present pgde) then maybe_dump_range
    else dump_mapped_pages_pud (pgde_pud pgde)).

(** The calls of [printf], in order. *)
Definition dump_mapped_pages (pgd : Z) (mask_huge : bool) : M unit (list call) := fun _ =>
  match (dump_mapped_pages_pgd pgd;;
         maybe_dump_range;;
         s ← get;
         let total_bytes := (num_pages_4kib s * PAGE_SIZE + num_pages_2mib s * PAGE_SIZE_2MIB + num_pages_1gib s * PAGE_SIZE_1GIB)%u64 in
         human ← human_arg total_bytes;
         printf (newline ++ "4k[% 5lu] 2m[% 5lu] 1g[% 5lu] % 20s" ++ newline)
           [VaInt (num_pages_4kib s); VaInt (num_pages_2mib s); VaInt (num_pages_1gib s); human])
    (mk_dump false mask_huge 0 0 0 0 0 0 0 0 0 []) with
  | Done _ s => Done (calls s) tt
  | Panic msg => Panic msg
  | Hang => Hang
  | Undef => Undef
  end.

End code.

(** ** Specification *)

(** The flags a line shows. *)
Definition shown_flags (mask_huge : bool) (fl : Z) : Z :=
  if mask_huge then (fl & BIT_MASK_EXCLUDING PAGE_FLAG_PSE_BIT)%u64 else fl.

(** What the dump has to say of page number [v]. *)
Definition page_key (m : words) (pgd : Z) (mask_huge : bool) (v : Z) : option Z :=
  (fun x => shown_flags mask_huge (Z.land x.1 PAGE_TABLE_FLAG_MASK)) <$> walk m pgd v.

(** The pages from [run_first] up to [run_past], with their flags. *)
Record run := mk_run { run_first : Z; run_past : Z; run_flags : Z }.

(** The end of a run as it is printed. In the upper half it is extended again,
    which turns the end of the address space, 0, into the start of the half. *)
Definition run_end (r : run) : Z :=
  let e := (canonical (4096 * (run_past r - 1)) + 4096)%u64 in
  if run_first r <? 2 ^ 35 then e else (e |: BIT_MASK_ABOVE PHYS_ADDR_BITS)%u64.

Definition size_text (bytes : Z) : list Z :=
  if bytes <? 2 ^ 50 then human_text bytes else pad 5 false (chr " ") (num_text 10 (bytes / 2 ^ 50)) ++ chr " " :: chars "bytes".

Definition size_arg (bytes : Z) : Format.va := VaStr (place_string 1024 (size_text bytes) (replicate (Z.to_nat 1024) 0)).

(** A letter pair for each flag that is set, [EX] for a page that may be executed. *)
Definition flag_names : list (Z * string) :=
  [(2, "Us "); (3, "Wt "); (4, "Uc "); (5, "Ax "); (6, "Dt "); (7, "Hg "); (8, "Gl ")].

Definition flag_words (fl : Z) : list string :=
  [if Z.testbit fl 1 then "RW " else "RO "] ++ concat ((fun a => if Z.testbit fl a.1 then [a.2] else []) <$> flag_names) ++
  (if Z.testbit fl 63 then [] else ["EX "]).

Definition word_calls (l : list string) : list call := (fun w => (cstr w, [])) <$> l.

Definition range_line (first past fl : Z) : list call :=
  [(cstr "0x%016lx - 0x%016lx: %s / ", [VaInt first; VaInt past; size_arg (past - first)%u64])] ++
  word_calls (flag_words fl) ++ [(cstr newline, [])].

Definition print_run (r : run) : list call := range_line (canonical (4096 * run_first r)) (run_end r) (run_flags r).

Definition covered (R : list run) (v fl : Z) : Prop := exists r, r ∈ R /\ run_first r <= v < run_past r /\ run_flags r = fl.

(** The runs are those of [key] below page [u]: a page has a key exactly when a
    run with it covers the page, and the runs are in order and maximal. *)
Record runs_exact (key : Z -> option Z) (u : Z) (R : list run) : Prop := {
  re_key : forall v fl, 0 <= v < u -> key v = Some fl <-> covered R v fl;
  re_runs : Forall (fun r => 0 <= run_first r /\ run_first r < run_past r <= u) R;
  re_sorted : StronglySorted (fun a b => run_past a < run_first b \/ run_past a = run_first b /\ run_flags a <> run_flags b) R;
}.

(** The pages below [u] that entries of height [h] map. *)
Definition mapped_at (m : words) (pgd : Z) (h : nat) (u : Z) : Z :=
  count_true (fun v => bool_decide (snd <$> walk m pgd v = Some h)) (seqZ 0 u).

(** ** Lemmas *)

#[local] Arguments Z.testbit : simpl never.

Lemma covered_snoc R r v fl : covered (R ++ [r]) v fl <-> covered R v fl \/ run_first r <= v < run_past r /\ run_flags r = fl.
Proof.
  split.
  - intros (x & [Hx| ->%list_elem_of_singleton]%elem_of_app & H); [left; by exists x|by right].
  - intros [(x & Hx & H)|H]; eexists; rewrite elem_of_app, list_elem_of_singleton; eauto.
Qed.

Lemma covered_below R u v fl : Forall (fun r => 0 <= run_first r /\ run_first r < run_past r <= u) R -> covered R v fl -> v < u.
Proof. intros HR (r & Hr & Hv & _). apply (proj1 (Forall_forall _ _) HR) in Hr. lia. Qed.

(** The last run grows by pages with its flags. *)
Lemma runs_extend key u w a fl R :
  0 < w -> (forall v, u <= v < u + w -> key v = Some fl) -> runs_exact key u (R ++ [mk_run a u fl]) ->
  runs_exact key (u + w) (R ++ [mk_run a (u + w) fl]).
Proof.
  intros Hw Hk [H1 H2 H3]. apply Forall_app in H2 as [H2 [Ha _]%Forall_cons]. cbn [run_first run_past] in Ha. split.
  - intros v f Hv. specialize (H1 v f). rewrite covered_snoc in *. cbn [run_first run_past run_flags] in *.
    destruct (Z.lt_ge_cases v u) as [Hlt|Hge]; [rewrite H1 by lia; intuition lia|]. rewrite Hk by lia. split; [intros [= <-]; right; lia|].
    intros [H%(covered_below _ _ _ _ H2)|[_ ->]]; [lia|done].
  - apply Forall_app. split; [eapply Forall_impl; [exact H2|]; simpl; lia|]. apply Forall_singleton. cbn [run_first run_past]. lia.
  - apply StronglySorted_app in H3 as (H3 & H3' & H3''). apply StronglySorted_app. split; [|split; [done|by repeat constructor]].
    intros x y Hx ->%list_elem_of_singleton. apply (H3 x (mk_run a u fl) Hx). by apply list_elem_of_singleton.
Qed.

(** A new run after the others. *)
Lemma runs_new key u w fl R :
  0 <= u -> 0 < w -> (forall v, u <= v < u + w -> key v = Some fl) -> runs_exact key u R ->
  Forall (fun r => run_past r < u \/ run_flags r <> fl) R -> runs_exact key (u + w) (R ++ [mk_run u (u + w) fl]).
Proof.
  intros Hu Hw Hk [H1 H2 H3] Hlast. split.
  - intros v f Hv. specialize (H1 v f). rewrite covered_snoc in *. cbn [run_first run_past run_flags] in *.
    destruct (Z.lt_ge_cases v u) as [Hlt|Hge]; [rewrite H1 by lia; intuition lia|]. rewrite Hk by lia. split; [intros [= <-]; right; lia|].
    intros [H%(covered_below _ _ _ _ H2)|[_ ->]]; [lia|done].
  - apply Forall_app. split; [eapply Forall_impl; [exact H2|]; simpl; lia|]. apply Forall_singleton. cbn [run_first run_past]. lia.
  - apply StronglySorted_app. split; [|split; [done|by repeat constructor]].
    intros x y Hx ->%list_elem_of_singleton. cbn [run_first run_flags].
    apply (proj1 (Forall_forall _ _) H2) in Hx as H2x. apply (proj1 (Forall_forall _ _) Hlast) in Hx. intuition lia.
Qed.

(** Pages without a key. *)
Lemma runs_gap key u w R :
  0 < w -> (forall v, u <= v < u + w -> key v = None) -> runs_exact key u R -> runs_exact key (u + w) R.
Proof.
  intros Hw Hk [H1 H2 H3]. split; [| |done].
  - intros v f Hv. destruct (Z.lt_ge_cases v u) as [Hlt|Hge]; [apply H1; lia|]. rewrite Hk by lia. split; [done|].
    intros H%(covered_below _ _ _ _ H2). lia.
  - eapply Forall_impl; [exact H2|]. simpl. lia.
Qed.

Lemma bytes_to_human_total bytes : 0 <= bytes < 2 ^ 64 ->
  bytes_to_human bytes 1024 (replicate (Z.to_nat 1024) 0) = Done tt (place_string 1024 (size_text bytes) (replicate (Z.to_nat 1024) 0)).
Proof.
  intros Hb. assert (1 <= 1024 <= zlength (replicate (Z.to_nat 1024) 0)) as Hl by (unfold zlength; rewrite length_replicate; lia).
  unfold size_text. destruct (Z.ltb_spec bytes (2 ^ 50)); [apply bytes_to_human_ok|apply bytes_to_human_large]; lia.
Qed.

(** ** Printing a run *)

Lemma with_calls_app l1 l2 s : with_calls l2 (with_calls l1 s) = with_calls (l1 ++ l2) s.
Proof. unfold with_calls. simpl. by rewrite app_assoc. Qed.

Lemma printf_word w s : printf w [] s = Done tt (with_calls (word_calls [w]) s).
Proof. done. Qed.

Lemma when_word b w s : when b (printf w []) s = Done tt (with_calls (word_calls (if b then [w] else [])) s).
Proof. destruct b; [done|]. unfold with_calls. simpl. rewrite app_nil_r. by destruct s. Qed.

Lemma dump_flags_eq s : dump_flags s = Done tt (with_calls (word_calls (flag_words (raw_flags s))) s).
Proof.
  unfold dump_flags, mbind, M_bind. unfold gets at 1. set (fl := raw_flags s).
  assert (forall k, 0 <= k < 64 -> IS_MASK_SET fl (BIT_MASK k) = Z.testbit fl k) as Hk by (intros k; apply IS_BIT_SET_testbit).
  unfold PAGE_FLAG_RW, PAGE_FLAG_USER, PAGE_FLAG_WRITE_THROUGH, PAGE_FLAG_UNCACHED, PAGE_FLAG_ACCESSED, PAGE_FLAG_DIRTY, PAGE_FLAG_PSE,
    PAGE_FLAG_GLOBAL, PAGE_FLAG_NX. rewrite !Hk by lia.
  assert (forall b, (if b : bool then printf "RW " [] else printf "RO " []) s =
    Done tt (with_calls (word_calls [if b then "RW " else "RO "]) s)) as -> by by intros [].
  rewrite !when_word, !with_calls_app. do 2 f_equal. unfold word_calls. rewrite <- !fmap_app. f_equal.
  unfold flag_words. cbn [flag_names fmap list_fmap concat fst snd]. rewrite ?app_nil_r, <- !app_assoc.
  by destruct (Z.testbit fl 63).
Qed.

Lemma canonical_range x : 0 <= x < 2 ^ 48 -> is_u64 (canonical x).
Proof. intros Hx. unfold canonical, is_u. destruct (Z.ltb_spec x (2 ^ 47)); lia. Qed.

(** The upper half is extended already. *)
Lemma canonical_extend a : 0 <= a < 2 ^ 36 ->
  IS_BIT_SET (canonical (4096 * a)) (PHYS_ADDR_BITS - 1) = negb (a <? 2 ^ 35) /\
  (2 ^ 35 <= a -> (canonical (4096 * a) |: BIT_MASK_ABOVE PHYS_ADDR_BITS)%u64 = canonical (4096 * a)).
Proof.
  intros Ha. unfold PHYS_ADDR_BITS. change (48 - 1) with 47. rewrite IS_BIT_SET_testbit by lia. unfold canonical.
  destruct (Z.ltb_spec a (2 ^ 35)) as [Hlt|Hge].
  - rewrite (proj2 (Z.ltb_lt _ _)) by lia. split; [|lia]. apply (testbit_high 47); unfold is_u; lia.
  - rewrite (proj2 (Z.ltb_ge _ _)) by lia. replace (4096 * a + (2 ^ 64 - 2 ^ 48)) with (65535 * 2 ^ 48 + 4096 * a) by lia.
    rewrite <- lor_mul_add by lia. change (BIT_MASK_ABOVE 48) with (65535 * 2 ^ 48). split.
    + rewrite Z.lor_spec, Z.mul_pow2_bits_low by lia. simpl orb. apply Z.testbit_true; [lia|].
      replace (4096 * a / 2 ^ 47) with 1; [done|]. apply Z.div_unique with (4096 * a - 2 ^ 47); lia.
    + intros _. rewrite (Z.lor_comm _ (65535 * 2 ^ 48)), Z.lor_assoc, Z.lor_diag. done.
Qed.

Lemma human_arg_eq bytes s : 0 <= bytes < 2 ^ 64 -> human_arg bytes s = Done (size_arg bytes) s.
Proof. intros Hb. unfold human_arg. by rewrite bytes_to_human_total. Qed.

Lemma maybe_dump_closed s : in_range s = false -> maybe_dump_range s = Done tt s.
Proof. intros H. unfold maybe_dump_range, mbind, M_bind, get. by rewrite H. Qed.

(** The state once its range is printed as [l]. *)
Definition closed (l : list call) (s : page_dump_state) : page_dump_state :=
  mk_dump false (mask_huge_flag s) 0 0 0 (pgd_index s) (pud_index s) (pmd_index s)
    (num_pages_4kib s) (num_pages_2mib s) (num_pages_1gib s) (calls s ++ l).

Lemma print_line_eq s :
  (s ← get;
   human ← human_arg (end_ s - start s)%u64;
   printf "0x%016lx - 0x%016lx: %s / " [VaInt (start s); VaInt (end_ s); human];;
   dump_flags;;
   printf newline [];;
   set_range false 0 0 0) s = Done tt (closed (range_line (start s) (end_ s) (raw_flags s)) s).
Proof.
  unfold mbind, M_bind, get. rewrite human_arg_eq by (apply Z.mod_pos_bound; lia). unfold printf, modify. rewrite dump_flags_eq.
  cbn [raw_flags with_calls]. rewrite !with_calls_app. unfold set_range, modify, closed, with_calls, range_line. simpl. by rewrite <- ?app_assoc.
Qed.

Lemma maybe_dump_open s a u :
  in_range s = true -> 0 <= a < 2 ^ 36 -> start s = canonical (4096 * a) -> end_ s = (canonical (4096 * (u - 1)) + 4096)%u64 ->
  maybe_dump_range s = Done tt (closed (print_run (mk_run a u (raw_flags s))) s).
Proof.
  intros Hin Ha Hs He. destruct (canonical_extend a Ha) as [Hbit Hext].
  unfold maybe_dump_range. unfold mbind at 1, M_bind at 1, get at 1. rewrite Hin, Hs, He, Hbit. cbn [negb].
  unfold print_run, run_end. cbn [run_first run_past run_flags].
  unfold mbind at 1, M_bind at 1, set_range at 1, modify at 1. unfold mbind at 1, M_bind at 1.
  destruct (Z.ltb_spec a (2 ^ 35)) as [Hlt|Hge]; cbn [negb]; [unfold mret at 1, M_ret at 1|unfold set_range at 1, modify at 1; rewrite Hext by done];
    (etransitivity; [apply print_line_eq|]); done.
Qed.

(** ** The invariant *)

(** The parts of the state a run does not touch. *)
Definition unmoved (s s' : page_dump_state) : Prop :=
  pgd_index s' = pgd_index s /\ pud_index s' = pud_index s /\ pmd_index s' = pmd_index s /\
  num_pages_4kib s' = num_pages_4kib s /\ num_pages_2mib s' = num_pages_2mib s /\ num_pages_1gib s' = num_pages_1gib s.

Lemma shown_idem b fl : shown_flags b (shown_flags b fl) = shown_flags b fl.
Proof. unfold shown_flags. destruct b; [|done]. by rewrite <- Z.land_assoc, Z.land_diag. Qed.

Lemma canonical_offset u w x : 0 <= u -> (exists k, 2 ^ 35 = k * w) -> 0 < w -> u mod w = 0 -> 0 <= x < w -> canonical (4096 * (u + x)) = canonical (4096 * u) + 4096 * x.
Proof.
  intros Hu [k Hk] Hw Hm Hx. unfold canonical. apply Z.div_exact in Hm; [|lia]. set (j := u / w) in *.
  assert (u < 2 ^ 35 -> u + x < 2 ^ 35).
  { intros Hlt. assert (j < k) by nia. assert ((j + 1) * w <= k * w) by nia. nia. }
  destruct (Z.ltb_spec (4096 * u) (2 ^ 47)), (Z.ltb_spec (4096 * (u + x)) (2 ^ 47)); lia.
Qed.

Section dump.
Context (m : words) (pgd : Z) (mask : bool).
Abbreviation key := (page_key m pgd mask).

(** The runs below page [u] are printed, but for the last one, which is open. *)
Definition dumped (u : Z) (s : page_dump_state) : Prop :=
  mask_huge_flag s = mask /\ exists R, calls s = concat (print_run <$> R) /\
    if in_range s then
      exists a, start s = canonical (4096 * a) /\ end_ s = (canonical (4096 * (u - 1)) + 4096)%u64 /\
        runs_exact key u (R ++ [mk_run a u (raw_flags s)])
    else runs_exact key u R /\ Forall (fun r => run_past r < u) R.

(** Printing the open run, if there is one. *)
Lemma dump_flush_ok u s : 0 <= u <= 2 ^ 36 -> dumped u s ->
  wp maybe_dump_range s (fun _ s' => unmoved s s' /\ in_range s' = false /\ mask_huge_flag s' = mask /\
    exists R, calls s' = concat (print_run <$> R) /\ runs_exact key u R /\
      if in_range s then exists R0 a, R = R0 ++ [mk_run a u (raw_flags s)] else Forall (fun r => run_past r < u) R).
Proof.
  intros Hu (Hm & R & Hc & HR). unfold wp. destruct (in_range s) eqn:Hin.
  - destruct HR as (a & Hs & He & HR). assert (0 <= a < u) as Ha.
    { pose proof (re_runs _ _ _ HR) as HF. apply Forall_app in HF as [_ [HF _]%Forall_cons]. cbn [run_first run_past] in HF. lia. }
    rewrite (maybe_dump_open s a u) by (done || lia). split; [by split_and!|]. split; [done|]. split; [done|].
    exists (R ++ [mk_run a u (raw_flags s)]). cbn [calls closed]. rewrite fmap_app, concat_app, Hc. simpl. rewrite app_nil_r.
    split; [done|]. split; [done|]. by exists R, a.
  - rewrite maybe_dump_closed by done. split; [by split_and!|]. split; [done|]. split; [done|]. by exists R.
Qed.

Lemma gap_ok u w s : 0 <= u -> 0 < w -> u + w <= 2 ^ 36 -> (forall v, u <= v < u + w -> key v = None) -> dumped u s ->
  wp maybe_dump_range s (fun _ s' => unmoved s s' /\ dumped (u + w) s').
Proof.
  intros Hu Hw Hmax Hk Hd. eapply wp_mono; [apply (dump_flush_ok u s); [lia|done]|]. cbv beta. intros _ s' (Hun & Hin & Hm & R & Hc & HR & _).
  split; [done|]. split; [done|]. exists R. rewrite Hin. split; [done|]. split; [by apply runs_gap|].
  eapply Forall_impl; [apply HR|]. simpl. lia.
Qed.

Lemma open_flags u a s R : runs_exact key u (R ++ [mk_run a u (raw_flags s)]) -> shown_flags mask (raw_flags s) = raw_flags s.
Proof.
  intros [H1 H2 _]. apply Forall_app in H2 as [_ [Ha _]%Forall_cons]. cbn [run_first run_past] in Ha.
  assert (key (u - 1) = Some (raw_flags s)) as Hk.
  { apply H1; [lia|]. apply covered_snoc. right. cbn [run_first run_past run_flags]. split; [lia|done]. }
  unfold page_key in Hk. destruct (walk m pgd (u - 1)); [|done]. injection Hk as <-. apply shown_idem.
Qed.

Lemma leaf_ok u w fl s :
  0 <= u -> 0 < w -> u + w <= 2 ^ 36 -> (exists k, 2 ^ 35 = k * w) -> u mod w = 0 ->
  (forall v, u <= v < u + w -> key v = Some (shown_flags mask fl)) -> dumped u s ->
  wp (extend_dump_range (canonical (4096 * u)) (add64 (canonical (4096 * u)) (4096 * w)) fl) s (fun _ s' => unmoved s s' /\ dumped (u + w) s').
Proof.
  intros Hu Hw Hmax Hdiv Hal Hk Hd.
  assert (add64 (canonical (4096 * u)) (4096 * w) = (canonical (4096 * (u + w - 1)) + 4096)%u64) as ->.
  { replace (u + w - 1) with (u + (w - 1)) by lia. rewrite (canonical_offset u w) by (done || lia). unfold add64. f_equal. lia. }
  unfold extend_dump_range. apply wp_bind, wp_get. pose proof Hd as [Hm _]. rewrite Hm. fold (shown_flags mask fl) (shown_flags mask (raw_flags s)).

  set (f := shown_flags mask fl) in *. set (e := (canonical (4096 * (u + w - 1)) + 4096)%u64).
  assert (forall R s1, mask_huge_flag s1 = mask -> calls s1 = concat (print_run <$> R) -> runs_exact key u R ->
    Forall (fun r => run_past r < u \/ run_flags r <> f) R -> unmoved s s1 ->
    wp (set_range true (canonical (4096 * u)) e f) s1 (fun _ s' => unmoved s s' /\ dumped (u + w) s')) as Hnew.
  { intros R s1 Hm1 Hc1 HR1 Hl Hun. apply wp_modify. split; [exact Hun|]. split; [exact Hm1|]. exists R. split; [exact Hc1|].
    exists u. split; [done|]. split; [done|]. by apply runs_new. }
  pose proof (dump_flush_ok u s ltac:(lia) Hd) as Hflush. destruct Hd as (_ & R & Hc & HR). destruct (in_range s) eqn:Hin.
  - destruct HR as (a & Hs & He & HR). rewrite (open_flags u a s R HR). cbn [andb]. destruct (Z.eqb_spec f (raw_flags s)) as [Hf|Hf]; cbn [negb].
    + apply wp_bind, wp_ret, wp_bind, wp_get. rewrite Hin. cbn [negb]. apply wp_modify. split; [by split_and!|].
      split; [done|]. exists R. split; [done|]. exists a. split; [done|]. split; [done|]. apply runs_extend; [done| |exact HR].
      intros v Hv. rewrite Hk by done. by rewrite Hf.
    + apply wp_bind, wp_bind. eapply wp_mono; [exact Hflush|]. cbv beta. intros _ s1 (Hun & Hin1 & Hm1 & R1 & Hc1 & HR1 & R0 & b & ->).
      apply wp_modify, wp_bind, wp_get. cbn [in_range negb]. apply (Hnew (R0 ++ [mk_run b u (raw_flags s)])); try done.
      apply Forall_app. split; [|apply Forall_singleton; by right].
      destruct HR1 as [_ HF Hsort]. apply StronglySorted_app in Hsort as (Hsort & _). apply Forall_app in HF as [HF [Hb _]%Forall_cons].
      cbn [run_first run_past] in Hb. apply Forall_forall. intros r Hr. left.
      destruct (Hsort r (mk_run b u (raw_flags s)) Hr ltac:(by apply list_elem_of_singleton)) as [H|[H _]]; cbn [run_first] in H; lia.
  - destruct HR as [HR Hlast]. cbn [andb]. apply wp_bind, wp_ret, wp_bind, wp_get. rewrite Hin. cbn [negb]. apply (Hnew R); try done.
    eapply Forall_impl; [exact Hlast|]. simpl. tauto.
Qed.

(** ** The tables *)

Definition num_at (h : nat) (s : page_dump_state) : Z :=
  match h with O => num_pages_4kib s | 1%nat => num_pages_2mib s | _ => num_pages_1gib s end.

(** Below page [u] everything is printed and counted. *)
Definition dump_inv (u : Z) (s : page_dump_state) : Prop :=
  dumped u s /\ forall h, (h <= 2)%nat -> num_at h s * W h = mapped_at m pgd h u.

(** The indexes above depth [k] are those of page [u]. *)
Definition indexes_at (k : nat) (u : Z) (s : page_dump_state) : Prop :=
  ((1 <= k)%nat -> pgd_index s = u / W 3) /\ ((2 <= k)%nat -> pud_index s = u / W 2 mod 512) /\
  ((3 <= k)%nat -> pmd_index s = u / W 1 mod 512).

Lemma mapped_at_step h u w (o : option nat) : 0 <= u -> 0 <= w -> (forall v, u <= v < u + w -> snd <$> walk m pgd v = o) ->
  mapped_at m pgd h (u + w) = mapped_at m pgd h u + (if decide (o = Some h) then w else 0).
Proof.
  intros Hu Hw Ho. unfold mapped_at. rewrite seqZ_app by done. rewrite Z.add_0_l, count_true_app. f_equal.
  destruct (decide (o = Some h)) as [Hd|Hd].
  - rewrite count_true_all; [unfold zlength; rewrite length_seqZ; lia|]. intros v Hv%elem_of_seqZ. apply bool_decide_eq_true. by rewrite Ho.
  - apply count_true_none. intros v Hv%elem_of_seqZ. apply bool_decide_eq_false. by rewrite Ho.
Qed.

Lemma mapped_at_bound h u : 0 <= u -> 0 <= mapped_at m pgd h u <= u.
Proof.
  intros Hu. unfold mapped_at. match goal with |- context [count_true ?f ?l] => pose proof (count_true_bounds f l) as H end.
  unfold zlength in H. rewrite length_seqZ in H. lia.
Qed.

(** A slot of a table of height [h] at page [u]. *)
Definition slot (k h : nat) (u p : Z) : Prop :=
  (k + h = 3)%nat /\ 0 <= u /\ u mod W h = 0 /\ u + W h <= 2 ^ 36 /\ table m pgd k (u / W (S h)) = Some p.

Lemma slot_walk k h u p v : slot k h u p -> u <= v < u + W h ->
  walk m pgd v = walk_from m k h p v /\ v / W h = u / W h /\ table m pgd (S k) (u / W h) = child k (entry m p (u / W h mod 512)).
Proof.
  intros (Hkh & Hu & Hm & Hmax & Ht) Hv. pose proof (W_pos h).
  assert (v / W h = u / W h) as E.
  { apply Z.div_exact in Hm; [|lia]. symmetry. apply Z.div_unique with (v - u); lia. }
  split; [|split; [done|by apply table_succ_page]]. apply table_walk; [done|]. by rewrite !div_W_succ, E in *.
Qed.

(** An entry that maps nothing. *)
Lemma absent_ok k h u p s :
  slot k h u p -> Z.testbit (entry m p (u / W h mod 512)) 0 = false -> dump_inv u s ->
  wp maybe_dump_range s (fun _ s' => unmoved s s' /\ dump_inv (u + W h) s').
Proof.
  intros Hslot He [Hd Hn]. pose proof (W_pos h). destruct Hslot as (Hkh & Hu & Hm & Hmax & Ht).
  assert (forall v, u <= v < u + W h -> walk m pgd v = None) as Hw.
  { intros v Hv. destruct (slot_walk k h u p v) as (-> & E & _); [done|done|]. destruct h; simpl; by rewrite E, He. }
  eapply wp_mono; [apply (gap_ok u (W h) s); try done; intros v Hv; unfold page_key; by rewrite Hw|].
  cbv beta. intros _ s' [Hun Hd']. split; [done|]. split; [done|]. intros j Hj.
  rewrite (mapped_at_step j u (W h) None) by (lia || intros v Hv; by rewrite Hw). rewrite decide_False by done. rewrite Z.add_0_r, <- Hn by done.
  destruct Hun as (_ & _ & _ & E1 & E2 & E3). destruct j as [|[|]]; simpl; congruence.
Qed.

(** An entry that maps a page of [W h] pages. *)
Lemma data_ok k h u p s e :
  slot k h u p -> (h <= 2)%nat -> entry m p (u / W h mod 512) = e -> Z.testbit e 0 = true -> (h <> O -> child k e = None) -> dump_inv u s ->
  wp (extend_dump_range (canonical (4096 * u)) (add64 (canonical (4096 * u)) (4096 * W h)) (Z.land e PAGE_TABLE_FLAG_MASK);;
      add_pages (if decide (h = 0%nat) then 1 else 0) (if decide (h = 1%nat) then 1 else 0) (if decide (h = 2%nat) then 1 else 0)) s
    (fun _ s' => pgd_index s' = pgd_index s /\ pud_index s' = pud_index s /\ pmd_index s' = pmd_index s /\ dump_inv (u + W h) s').
Proof.
  intros Hslot Hh He Hp Hc [Hd Hn]. pose proof (W_pos h). pose proof Hslot as (Hkh & Hu & Hm & Hmax & Ht).
  assert (forall v, u <= v < u + W h -> walk m pgd v = Some (e, h)) as Hw.
  { intros v Hv. destruct (slot_walk k h u p v) as (-> & E & _); [done|done|]. destruct h; simpl; rewrite E, He, Hp; [done|]. simpl negb. by rewrite Hc. }
  apply wp_bind. eapply wp_mono; [apply (leaf_ok u (W h) _ s); try done|].
  - exists (2 ^ 35 / W h). destruct h as [|[|[|]]]; [done..|lia].
  - intros v Hv. unfold page_key. by rewrite Hw.
  - cbv beta. intros _ s' [(I1 & I2 & I3 & N1 & N2 & N3) Hd']. apply wp_modify. cbn. split; [done|]. split; [done|]. split; [done|].
    split; [exact Hd'|]. intros j Hj.
    rewrite (mapped_at_step j u (W h) (Some h)) by (lia || intros v Hv; by rewrite Hw). rewrite <- (Hn j Hj).
    pose proof (mapped_at_bound j u Hu) as Hb. rewrite <- (Hn j Hj) in Hb. pose proof (W_pos j).
    assert (0 <= num_at j s <= 2 ^ 36) as Hb' by nia.
    assert (num_at j (mk_dump (in_range s') (mask_huge_flag s') (start s') (end_ s') (raw_flags s') (pgd_index s') (pud_index s') (pmd_index s')
      (num_pages_4kib s' + (if decide (h = 0%nat) then 1 else 0))%u64 (num_pages_2mib s' + (if decide (h = 1%nat) then 1 else 0))%u64
      (num_pages_1gib s' + (if decide (h = 2%nat) then 1 else 0))%u64 (calls s')) = num_at j s + (if decide (h = j) then 1 else 0)) as ->.
    { destruct j as [|[|[|]]]; [..|lia]; cbn [num_at num_pages_4kib num_pages_2mib num_pages_1gib] in *; rewrite ?N1, ?N2, ?N3;
        apply add64_small; unfold is_u; case_decide; lia. }
    destruct (decide (h = j)) as [->|Hne]; [rewrite decide_True by done; lia|]. rewrite decide_False by congruence. lia.
Qed.

(** Entry [i] of the table at page [u]. *)
Lemma slot_at k h u p i (v := u + i * W h) :
  (k + h = 3)%nat -> 0 <= u -> u mod W (S h) = 0 -> u + W (S h) <= 2 ^ 36 -> table m pgd k (u / W (S h)) = Some p -> 0 <= i < 512 ->
  slot k h v p /\ v / W h mod 512 = i /\ v / W (S h) = u / W (S h).
Proof.
  intros Hkh Hu Hm Hmax Ht Hi. pose proof (W_pos h). pose proof (W_succ h) as E. pose proof (W_pos (S h)).
  apply Z.div_exact in Hm; [|lia]. set (q := u / W (S h)) in *.
  assert (v = (q * 512 + i) * W h) as Ev by (unfold v; rewrite Hm, E; ring).
  assert (v / W h = q * 512 + i) as Ed by (rewrite Ev; apply Z.div_mul; lia).
  assert (v / W (S h) = q) as Eq by (rewrite div_W_succ, Ed; rewrite Z.div_add_l, Z.div_small; lia).
  split; [|split; [rewrite Ed, Z.add_comm, Z.mod_add, Z.mod_small; lia|done]].
  split; [done|]. split; [unfold v; nia|]. split; [rewrite Ev; apply Z.mod_mul; lia|]. split; [|by rewrite Eq].
  assert (v + W h <= u + W (S h)) by (unfold v; rewrite E; nia). lia.
Qed.

(** What dumping the table [p] at page [u] does. *)
Definition table_dumped (k h : nat) (f : Z -> DM unit) : Prop :=
  forall u p s, 0 <= u -> u mod W (S h) = 0 -> u + W (S h) <= 2 ^ 36 -> table m pgd k (u / W (S h)) = Some p ->
    indexes_at k u s -> dump_inv u s -> wp (f p) s (fun _ s' => indexes_at k u s' /\ dump_inv (u + W (S h)) s').

(** The same for an entry [i] of a table, at page [v]. *)
Definition entry_dumped (k h : nat) (body : Z -> Z -> DM unit) : Prop :=
  forall v i p s, slot k h v p -> v / W h mod 512 = i -> indexes_at k v s -> dump_inv v s ->
    wp (body p i) s (fun _ s' => indexes_at k v s' /\ dump_inv (v + W h) s').

Lemma indexes_same k h u v s : (k + h = 3)%nat -> v / W (S h) = u / W (S h) -> indexes_at k u s <-> indexes_at k v s.
Proof.
  intros Hkh E. assert (forall j, (S h <= j)%nat -> v / W j = u / W j) as Hj.
  { intros j Hj. induction Hj as [|j Hj IH]; [done|]. by rewrite !div_W_succ, IH. }
  unfold indexes_at. split; intros (H1 & H2 & H3); (split; [|split]); intros Hk.
  1-3: rewrite Hj by lia; auto. 1-3: rewrite <- Hj by lia; auto.
Qed.

Lemma table_loop k h body :
  (k + h = 3)%nat -> entry_dumped k h body -> table_dumped k h (fun p => for_loop (Z.to_nat NUM_PAGE_TABLE_ENTRIES) 0 (body p)).
Proof.
  intros Hkh Hbody u p s Hu Hm Hmax Ht Hi Hd.
  pose proof (wp_for_loop (fun n s' => indexes_at k u s' /\ dump_inv (u + Z.of_nat n * W h) s') (Z.to_nat NUM_PAGE_TABLE_ENTRIES) 0 (body p) s) as Hloop.
  cbv beta in Hloop. eapply wp_mono; [apply Hloop|]; clear Hloop.
  - split; [done|]. by replace (u + Z.of_nat 0 * W h) with u by lia.
  - intros n s1 Hn [Hi1 Hd1]. unfold NUM_PAGE_TABLE_ENTRIES in Hn. rewrite Z.add_0_l.
    destruct (slot_at k h u p (Z.of_nat n)) as (Hslot & Hidx & Hup); [done|done|done|done|done|lia|].
    eapply wp_mono; [apply (Hbody _ _ p s1 Hslot Hidx); [by rewrite <- (indexes_same k h u) by done|done]|]. cbv beta.
    intros _ s2 [Hi2 Hd2]. split; [by rewrite (indexes_same k h u) by done|].
    replace (u + Z.of_nat (S n) * W h) with (u + Z.of_nat n * W h + W h) by lia. done.
  - cbv beta. intros _ s1 [Hi1 Hd1]. split; [done|]. rewrite W_succ. unfold NUM_PAGE_TABLE_ENTRIES in Hd1. rewrite Z2Nat.id in Hd1 by lia. done.
Qed.

(** The address the code computes for a slot. *)
Lemma slot_address v g u d t :
  0 <= v < 2 ^ 36 -> g = v / W 3 -> u = v / W 2 mod 512 -> d = v / W 1 mod 512 -> t = v / W 0 mod 512 ->
  encode_virt g u d t 0 = canonical (4096 * v).
Proof.
  intros Hv -> -> -> ->. pose proof (slot_number v 2). pose proof (slot_number v 1). pose proof (slot_number v 0).
  assert (0 <= v / W 3 < 512) by (change (W 3) with (2 ^ 27); split; [apply Z.div_pos; lia|apply Z.div_lt_upper_bound; lia]).
  rewrite encode_virt_spec by (done || apply index_range). f_equal. change (v / W 0) with (v / 1) in *. rewrite Z.div_1_r in *. lia.
Qed.

Lemma indexes_unmoved k v s s' : pgd_index s' = pgd_index s -> pud_index s' = pud_index s -> pmd_index s' = pmd_index s ->
  indexes_at k v s -> indexes_at k v s'.
Proof. unfold indexes_at. intros -> -> ->. done. Qed.

Lemma present_bit e : IS_BIT_SET e PAGE_FLAG_PRESENT_BIT = Z.testbit e 0.
Proof. by apply IS_BIT_SET_testbit. Qed.

Lemma huge_bit e : IS_BIT_SET e PAGE_FLAG_PSE_BIT = Z.testbit e 7.
Proof. by apply IS_BIT_SET_testbit. Qed.

(** The code's cases on an entry are those of the tree. *)
Lemma entry_ok k h p v i s1 (huge_first : Z) (sub : Z -> DM unit) (e := entry m p i) :
  slot k h v p -> v / W h mod 512 = i -> indexes_at k v s1 -> indexes_at (S k) v s1 -> dump_inv v s1 ->
  ((h <= 2)%nat -> huge_first = canonical (4096 * v)) ->
  (match h with O => True | S h' => table_dumped (S k) h' sub end) ->
  wp (if negb (IS_BIT_SET e PAGE_FLAG_PRESENT_BIT) then maybe_dump_range
      else if (h <=? 2)%nat && ((h =? 0)%nat || IS_BIT_SET e PAGE_FLAG_PSE_BIT) then
        extend_dump_range huge_first (add64 huge_first (4096 * W h)) (Z.land e PAGE_TABLE_FLAG_MASK);;
        add_pages (if decide (h = 0%nat) then 1 else 0) (if decide (h = 1%nat) then 1 else 0) (if decide (h = 2%nat) then 1 else 0)
      else sub (Z.land e PAGE_TABLE_PHYS_ADDR_MASK)) s1
    (fun _ s' => indexes_at k v s' /\ dump_inv (v + W h) s').
Proof.
  intros Hslot Hi Hidx HidxS Hd Hfirst Hsub. pose proof Hslot as (Hkh & Hv & Hm & Hmax & Ht). rewrite present_bit, huge_bit.
  destruct (Z.testbit e 0) eqn:Hp; cbn [negb].
  2:{ eapply wp_mono; [apply (absent_ok k h v p s1 Hslot); [by rewrite Hi|done]|]. cbv beta. intros _ s' [(E1 & E2 & E3 & _) Hd'].
      split; [by apply (indexes_unmoved k v s1)|done]. }
  destruct ((h <=? 2)%nat && ((h =? 0)%nat || Z.testbit e 7)) eqn:Hh.
  - apply andb_true_iff in Hh as [Hh2 Hh7]. apply Nat.leb_le in Hh2. rewrite Hfirst by done.
    eapply wp_mono; [apply (data_ok k h v p s1 e Hslot Hh2); [by rewrite Hi|done| |done]|].
    + intros H0. unfold child. rewrite Hp. apply orb_true_iff in Hh7 as [?%Nat.eqb_eq|H7]; [done|]. rewrite H7.
      by rewrite (proj2 (Nat.eqb_neq k 0)) by lia.
    + cbv beta. intros _ s' (E1 & E2 & E3 & Hd'). split; [by apply (indexes_unmoved k v s1)|done].
  - destruct h as [|h']; [done|]. cbn [Nat.eqb orb] in Hh.
    assert (child k e = Some (Z.land e PAGE_TABLE_PHYS_ADDR_MASK)) as Hc.
    { unfold child. rewrite Hp. simpl andb. destruct (Nat.leb_spec (S h') 2); [|by replace k with 0%nat by lia].
      simpl in Hh. by rewrite Hh, orb_true_r. }
    destruct (slot_walk k (S h') v p v Hslot) as (_ & _ & Htab); [pose proof (W_pos (S h')); lia|]. rewrite Hi in Htab. fold e in Htab.
    eapply wp_mono; [apply (Hsub v _ s1 Hv Hm Hmax); [by rewrite Htab|done|done]|]. cbv beta. intros _ s' [(H1 & H2 & H3) Hd'].
    split; [|done]. split; [|split]; intros Hk; [apply H1|apply H2|apply H3]; lia.
Qed.

Lemma ptd_dumped : table_dumped 3 0 (dump_mapped_pages_ptd m).
Proof.
  apply (table_loop 3 0 (fun ptd i => _)); [done|]. intros v i p s Hslot Hi Hidx Hd. apply wp_bind, wp_get.
  pose proof Hidx as (H1 & H2 & H3). pose proof Hslot as (_ & Hv & _ & Hmax & _). pose proof (W_pos 0).
  apply (entry_ok 3 0 p v i s _ (fun _ => mret tt)); try done; [split; [|split]; intros _; [apply H1|apply H2|apply H3]; lia|].
  intros _. apply slot_address; [lia|by apply H1; lia|by apply H2; lia|by apply H3; lia|done].
Qed.

Lemma pmd_dumped : table_dumped 2 1 (dump_mapped_pages_pmd m).
Proof.
  apply (table_loop 2 1 (fun pmd i => _)); [done|]. intros v i p s Hslot Hi Hidx Hd. apply wp_bind, wp_get, wp_bind, wp_modify.
  pose proof Hidx as (H1 & H2 & _). pose proof Hslot as (_ & Hv & Hm & Hmax & _). pose proof (W_pos 1).
  match goal with |- wp _ ?x _ => set (s1 := x) end.
  assert (indexes_at 3 v s1) as Hidx1 by (split; [|split]; intros _; [apply H1; lia|apply H2; lia|done]).
  apply (entry_ok 2 1 p v i s1 _ (dump_mapped_pages_ptd m)); try done; [|apply ptd_dumped].
  intros _. apply slot_address; [lia|apply H1; lia|apply H2; lia|done|].
  change (W 0) with 1. rewrite Z.div_1_r. symmetry. exact Hm.
Qed.

Lemma pud_dumped : table_dumped 1 2 (dump_mapped_pages_pud m).
Proof.
  apply (table_loop 1 2 (fun pud i => _)); [done|]. intros v i p s Hslot Hi Hidx Hd. apply wp_bind, wp_get, wp_bind, wp_modify.
  pose proof Hidx as (H1 & _ & _). pose proof Hslot as (_ & Hv & Hm & Hmax & _). pose proof (W_pos 2).
  match goal with |- wp _ ?x _ => set (s1 := x) end.
  assert (indexes_at 2 v s1) as Hidx1 by (split; [|split]; intros Hk; [apply H1; lia|done|lia]).
  apply (entry_ok 1 2 p v i s1 _ (dump_mapped_pages_pmd m)); try done; [split; [|split]; intros Hk; [apply H1|..]; lia| |apply pmd_dumped].
  intros _. apply slot_address; [lia|apply H1; lia|done|..].
  - change (W 1) with 512. change (W 2) with (512 * 512) in Hm. Z.div_mod_to_equations. lia.
  - change (W 0) with 1. rewrite Z.div_1_r. change (W 2) with (512 * 512) in Hm. Z.div_mod_to_equations. lia.
Qed.

Lemma pgd_dumped : table_dumped 0 3 (dump_mapped_pages_pgd m).
Proof.
  apply (table_loop 0 3 (fun pgd i => _)); [done|]. intros v i p s Hslot Hi Hidx Hd. apply wp_bind, wp_get, wp_bind, wp_modify.
  pose proof Hslot as (_ & Hv & Hm & Hmax & _). pose proof (W_pos 3).
  match goal with |- wp _ ?x _ => set (s1 := x) end.
  assert (indexes_at 1 v s1) as Hidx1.
  { split; [|split]; intros Hk; [|lia..]. cbn [pgd_index s1]. rewrite <- Hi. apply Z.mod_small.
    change (W 3) with (2 ^ 27) in *. split; [apply Z.div_pos; lia|apply Z.div_lt_upper_bound; lia]. }
  apply (entry_ok 0 3 p v i s1 0 (dump_mapped_pages_pud m)); try done; [split; [|split]; intros; lia|intros; lia|apply pud_dumped].
Qed.
End dump.

Lemma dump_start mask m pgd : dump_inv m pgd mask 0 (mk_dump false mask 0 0 0 0 0 0 0 0 0 []).
Proof.
  split.
  - split; [done|]. exists []. split; [done|]. cbn [in_range]. split; [|by apply Forall_nil]. split; [|by apply Forall_nil|constructor].
    intros v fl Hv. lia.
  - intros h Hh. unfold mapped_at. by destruct h as [|[|]].
Qed.

Lemma dump_mapped_pages_ok m pgd mask :
  exists R n4 n2 n1, runs_exact (page_key m pgd mask) (2 ^ 36) R /\
    n4 = mapped_at m pgd 0 (2 ^ 36) /\ n2 * 512 = mapped_at m pgd 1 (2 ^ 36) /\ n1 * (512 * 512) = mapped_at m pgd 2 (2 ^ 36) /\
    dump_mapped_pages m pgd mask tt = Done (concat (print_run <$> R) ++
      [(cstr (newline ++ "4k[% 5lu] 2m[% 5lu] 1g[% 5lu] % 20s" ++ newline),
        [VaInt n4; VaInt n2; VaInt n1;
         size_arg (4096 * (mapped_at m pgd 0 (2 ^ 36) + mapped_at m pgd 1 (2 ^ 36) + mapped_at m pgd 2 (2 ^ 36)))])]) tt.
Proof.
  pose proof (pgd_dumped m pgd mask 0 pgd (mk_dump false mask 0 0 0 0 0 0 0 0 0 []) ltac:(lia) eq_refl ltac:(done) eq_refl) as H.
  specialize (H ltac:(split; [|split]; lia) (dump_start mask m pgd)). apply wp_done in H as ([] & s & Es & _ & Hd & Hn).
  change (0 + W 4) with (2 ^ 36) in *. pose proof (dump_flush_ok m pgd mask (2 ^ 36) s ltac:(lia) Hd) as Hf.
  apply wp_done in Hf as ([] & s1 & Es1 & (_ & _ & _ & E1 & E2 & E3) & _ & _ & R & Hc & HR & _).
  pose proof (Hn 0%nat ltac:(lia)) as N0. pose proof (Hn 1%nat ltac:(lia)) as N1. pose proof (Hn 2%nat ltac:(lia)) as N2. cbn [num_at] in N0, N1, N2.
  change (W 0) with 1 in N0. change (W 1) with 512 in N1. change (W 2) with (512 * 512) in N2.
  pose proof (mapped_at_bound m pgd 0 (2 ^ 36) ltac:(lia)). pose proof (mapped_at_bound m pgd 1 (2 ^ 36) ltac:(lia)).
  pose proof (mapped_at_bound m pgd 2 (2 ^ 36) ltac:(lia)).
  exists R, (num_pages_4kib s), (num_pages_2mib s), (num_pages_1gib s). split; [exact HR|]. split; [lia|]. split; [exact N1|]. split; [exact N2|].
  unfold dump_mapped_pages, mbind, M_bind. rewrite Es, Es1. unfold get at 1.
  set (total := (_ + _ + _)%u64).
  assert (total = 4096 * (mapped_at m pgd 0 (2 ^ 36) + mapped_at m pgd 1 (2 ^ 36) + mapped_at m pgd 2 (2 ^ 36))) as Et.
  { unfold total. rewrite E1, E2, E3. change PAGE_SIZE with 4096. change PAGE_SIZE_2MIB with (4096 * 512). change PAGE_SIZE_1GIB with (4096 * (512 * 512)).
    unfold mul64, add64. rewrite !(u64_small (_ * _)) by (unfold is_u; lia). rewrite (u64_small (num_pages_4kib s * 4096 + _)) by (unfold is_u; lia).
    rewrite u64_small by (unfold is_u; lia). lia. }
  clearbody total. rewrite human_arg_eq by lia. rewrite Et. unfold printf, modify. cbn [calls with_calls]. by rewrite Hc, E1, E2, E3.
Qed.

(** ** Properties *)

(** C21: the dump of an address space. For any contents of table memory,
    [dump_mapped_pages] returns, and prints one line for each maximal run of
    consecutive mapped pages with the same shown flags, in the order of the
    addresses, and no other line but the last: a page is in a line's range exactly
    when it is mapped, and then with the flags of the line. The last line has the
    number of mapped pages of each size and the memory they map. *)
Theorem dump_mapped_pages_exact m pgd mask :
  exists R n4 n2 n1, runs_exact (page_key m pgd mask) (2 ^ 36) R /\
    n4 = mapped_at m pgd 0 (2 ^ 36) /\ n2 * 512 = mapped_at m pgd 1 (2 ^ 36) /\ n1 * (512 * 512) = mapped_at m pgd 2 (2 ^ 36) /\
    dump_mapped_pages m pgd mask tt = Done (concat (print_run <$> R) ++
      [(cstr (newline ++ "4k[% 5lu] 2m[% 5lu] 1g[% 5lu] % 20s" ++ newline),
        [VaInt n4; VaInt n2; VaInt n1;
         size_arg (4096 * (mapped_at m pgd 0 (2 ^ 36) + mapped_at m pgd 1 (2 ^ 36) + mapped_at m pgd 2 (2 ^ 36)))])]) tt.
Proof. apply dump_mapped_pages_ok. Qed.

(** A run up to the end of the address space is printed as ending where the upper
    half starts, and a run over the end of the lower half as one range over the
    addresses between the halves. *)
Theorem run_end_limits a fl : 2 ^ 35 <= a < 2 ^ 36 -> run_end (mk_run a (2 ^ 36) fl) = 0xffff000000000000 /\
  run_end (mk_run (2 ^ 35 - 1) (2 ^ 35 + 1) fl) = 0xffff800000001000.
Proof.
  intros Ha. unfold run_end. cbn [run_first run_past]. rewrite (proj2 (Z.ltb_ge _ _)) by lia. split; by vm_compute.
Qed.
