(* ===== verification/Boot.v ===== *)
(** * Bringing memory up (early/mem.c)

    [early_mem_init] runs every pass over memory in order: the firmware's map, the
    early allocator, the kernel's address space, the global state, the array of
    physblocks. The last theorem follows a boot from the firmware's map to the
    buddy allocator; it composes the theorems of [E820], [EarlyInit], [KernelMap]
    and [MemInit].

    [set_pgd] and the direct map it replaces are seen by the model only as [CR3]:
    every access to tables goes through direct-map addresses, which both have. *)

From stdpp Require Import base strings numbers gmap list sets sorting.
From Stdlib Require Import ZArith Lia.
From S2P Require Import Prelude Macros MmDefs Bitmap Range Log E820 Page PageMap EarlyAlloc EarlyInit ListDL Spinlock Phys PhysProofs KernelMap MemInit.

(** ** The state and the sequence *)

Record machine_state := mk_machine_state {
  info : early_boot_info;
  global : kernel_global;
  booted : boot;
}.

Abbreviation SM := (M machine_state).

Definition info_op {A} (m : M early_boot_info A) : SM A := zoom info (fun i s => mk_machine_state i (global s) (booted s)) m.

Definition boot_op {A} (m : BM A) : SM A := zoom booted (fun b s => mk_machine_state (info s) (global s) b) m.

Definition X86_EARLY_PUD_DIRECT0 : Z := 0x2000.

(** The second [memset] clears one entry. *)
Definition drop_direct0 : EM unit :=
  zero_page_m X86_EARLY_PUD_DIRECT0;;
  modify (fun s => mk_machine (store (PageMap.mem s) (KERNEL_DIRECT_MAP_BASE + X86_EARLY_PGD) 0) (alloc_st s)).

Definition early_init_kernel_global : SM unit :=
  boot_op (early_op early_page_alloc_zero);;
  modify (fun s => mk_machine_state (info s) initial_global (booted s)).

(** The four passes over the firmware's map are [e820_passes]. [hdr] and [sects]
    are the headers of the kernel's image. *)
Definition early_mem_init (hdr : elf_header) (sects : list elf_section_header) : SM unit :=
  boot_op (early_op drop_direct0);;
  info_op e820_passes;;
  boot_op (early_op early_scratch_alloc_init);;
  i ← gets info;
  boot_op (early_op (early_page_alloc_init i));;
  boot_op (early_remap_page_tables i hdr sects);;
  early_init_kernel_global;;
  boot_op early_init_phys_alloc_state;;
  boot_op early_init_mem_map.

(** ** Specification *)

(** The buddy allocator takes over once the array is built. *)
Definition memory_up (hdr : elf_header) (sects : list elf_section_header) : SM unit :=
  early_mem_init hdr sects;; boot_op (phys_op phys_alloc_init).

(** The scratch pages the allocator's own bitmaps take, and the pages in use at
    boot. *)
Definition boot_scratch (i : early_boot_info) : Z := 1 + spans_pages (entries i).

Definition boot_pages (i : early_boot_info) : list reservation := boot_reservations i 0xc00000 (boot_scratch i).

Definition ram_shape (i : early_boot_info) : list (Z * Z) := (fun e => (base e, size e / 4096)) <$> ram_entries (entries i).

(** The pages in use at boot, aligned: nothing may move or free them. *)
Definition boot_frozen (i : early_boot_info) : frozen :=
  mk_frozen (ram_shape i) ((fun r => (4096 * (r.1 / 4096), r.2)) <$> boot_pages i).

(** The extents of the kernel's address space. *)
Definition layout_extents (i : early_boot_info) (hdr : elf_header) (sects : list elf_section_header) : list (Z * Z) :=
  (extent <$> direct_regions (entries i)) ++ concat (section_extent <$> take (Z.to_nat (shnum hdr)) sects) ++
  (extent <$> header_regions KERNEL_ELF_ADDRESS (shoff hdr) KERNEL_ELF_ADDRESS_PHYS) ++ (extent <$> device_regions i).

(** The pages that bringing memory up takes at most: for the tables of the address
    space and of the array, the array itself, the global state and the allocator's
    state. *)
Definition boot_cost (i : early_boot_info) (hdr : elf_header) (sects : list elf_section_header) : Z :=
  layout_cost i hdr sects + 4 * zlength (pb_pages (ram_shape i)) + 2.

(** The sections the kernel loads. *)
Definition loaded (hdr : elf_header) (sects : list elf_section_header) : list elf_section_header := take (Z.to_nat (shnum hdr)) sects.

(** Where [m] sections that have to be given memory find it: in 64 pages of a RAM
    entry, a word of its bitmap, the first page is in use at boot, those from
    [ld_first x] on are not and are enough, and the free pages before them are
    enough for the page tables. (The pages the image ends in are such a word
    unless they leave less than eight pages for a section.) *)
Record boot_landing (i : early_boot_info) (hdr : elf_header) (sects : list elf_section_header) (x : landing) : Prop := {
  bl_word : exists a k, a ∈ ram_shape i /\ 0 <= k /\ ld_base x = a.1 + 64 * k * 2 ^ 12 /\ 64 * k + 64 <= a.2;
  bl_first : 1 <= ld_first x;
  bl_taken : exists r, r ∈ boot_pages i /\ same_page (ld_base x) r.1;
  bl_free : forall j r, ld_first x <= j < 64 -> r ∈ boot_pages i -> ~ same_page (ld_base x + j * 2 ^ 12) r.1;
  bl_fits : ld_first x + 8 * need_memory (loaded hdr sects) <= 64;
  bl_below : layout_cost i hdr sects <= ram_bytes (entries i) / 4096 - zlength (boot_pages i) - shape_above (ld_base x) (ram_shape i);
}.

(** A normalised map the kernel can boot from: what is in use at boot is in RAM,
    the kernel's regions are apart and outside the array of physblocks, RAM has
    room for the tables and for that array, and, if a section has to be given
    memory, a place for it. *)
Record boot_plan (i : early_boot_info) (hdr : elf_header) (sects : list elf_section_header) : Prop := {
  bp_entries : Forall span_entry (entries i);
  bp_count : zlength (ram_shape i) <= MAX_E820_RAM_ENTRIES;
  bp_length : zlength (entries i) < 2 ^ 31;
  bp_scratch : boot_scratch i <= EARLY_MAX_SCRATCH_PAGES;
  bp_elf : 0 <= elf_pages i < 2 ^ 31;
  bp_in_ram : forall r, r ∈ boot_pages i -> 0 <= r.1 /\ ram_page (entries i) (r.1 / 4096);
  bp_distinct : NoDup ((fun r => r.1 / 2 ^ 12) <$> boot_pages i);
  bp_layout : layout_ok i hdr sects;
  bp_array : NoDup (pb_pages (ram_shape i));
  bp_array_apart : forall x, x ∈ pb_pages (ram_shape i) -> MEM_MAP_VPN + x ∉ extent_pages (layout_extents i hdr sects);
  bp_room : boot_cost i hdr sects <= ram_bytes (entries i) / 4096 - zlength (boot_pages i);
  bp_memory : need_memory (loaded hdr sects) = 0 \/ exists x, boot_landing i hdr sects x;
}.

(** The firmware's map is well formed and does not contradict itself. *)
Record firmware_ok (i : early_boot_info) : Prop := {
  fw_wf : info_wf i;
  fw_some : entries i <> [];
  fw_count : num_e820_entries i <= 72;
  fw_entries : Forall entry_wf (entries i);
  fw_below : Forall below_top (entries i);
  fw_bases : bases_agree (entries i);
  fw_types : types_disjoint (entries i);
}.

(** Every byte of frame [p] is RAM, as the firmware has it. *)
Definition firmware_ram (i : early_boot_info) (p : Z) : Prop := forall a, 4096 * p <= a < 4096 * p + 4096 -> covers (entries i) E820_TYPE_RAM a.

(** The state the boot ends in, for the normalised map [i]. *)
Record memory_ready (i : early_boot_info) (hdr : elf_header) (sects : list elf_section_header) (s : machine_state) : Prop := {
  my_info : info s = i;
  my_global : global s = initial_global;
  my_phys : phys_ok (phys (booted s));
  my_spans : spans (phys (booted s)) = phys_spans (ram_shape i);
  my_count : num_4k_pages (stats (phys (booted s))) = ram_bytes (entries i) / 4096;
  my_free : ram_bytes (entries i) / 4096 - zlength (boot_pages i) - boot_cost i hdr sects <= num_free_4k_pages (stats (phys (booted s)));
  my_pages : forall r, r ∈ boot_pages i ->
    page_status (blocks (phys (booted s))) (r.1 / 4096) = Some (handed_over (r.1 / 4096) (Some r.2));
  my_root : cr3 (booted s) = kernel_root_pgd (booted s);
  my_tables : forall l t q, table_id l t -> table (mem (early (booted s))) (kernel_root_pgd (booted s)) l t = Some q ->
    exists ty, page_status (blocks (phys (booted s))) (q / 4096) = Some (Used (q / 4096) 0 ty 1);
  my_array : forall p, p ∈ pfns (phys_spans (ram_shape i)) -> exists f ty,
    translate (mem (early (booted s))) (kernel_root_pgd (booted s)) (vpn (blk p)) = Some (f, map_flags_to_page_flags MAP_KERNEL) /\
    page_status (blocks (phys (booted s))) f = Some (Used f 0 ty 1);
  my_space : exists Rs,
    Forall2 (section_region KERNEL_ELF_ADDRESS_PHYS) (take (Z.to_nat (shnum hdr)) sects) Rs /\
    forall u, 0 <= u < 2 ^ 36 -> u - MEM_MAP_VPN ∉ pb_pages (ram_shape i) ->
      let R := direct_regions (entries i) ++ concat Rs ++ header_regions KERNEL_ELF_ADDRESS (shoff hdr) KERNEL_ELF_ADDRESS_PHYS ++ device_regions i in
      (forall r, r ∈ R -> in_region u r ->
         translate (mem (early (booted s))) (kernel_root_pgd (booted s)) u = Some (r_frame r + (u - r_page r), r_flags r)) /\
      ((forall r, r ∈ R -> ~ in_region u r) -> walk (mem (early (booted s))) (kernel_root_pgd (booted s)) u = None);
}.

(** ** Lemmas *)

Lemma completes_boot_op {A} (m : BM A) s Q P :
  completes m (booted s) (fun a b => Q a (mk_machine_state (info s) (global s) b)) P -> completes (boot_op m) s Q P.
Proof. unfold completes, boot_op, zoom. by destruct (m (booted s)). Qed.

Lemma wp_bind_inv {S A B} (m : M S A) (k : A -> M S B) s Q : wp (m ≫= k) s Q -> wp m s (fun a s' => wp (k a) s' Q).
Proof. unfold wp, mbind, M_bind. by destruct (m s). Qed.

Lemma completes_early_op {A} (m : EM A) s Q P :
  wp m (early (booted s)) (fun a e => Q a (mk_machine_state (info s) (global s)
    (mk_boot e (phys (booted s)) (kernel_root_pgd (booted s)) (cr3 (booted s))))) -> completes (boot_op (early_op m)) s Q P.
Proof. intros H. apply completes_boot_op, completes_wp, wp_early_op. exact H. Qed.

Lemma completes_info_op {A} (m : M early_boot_info A) s Q P :
  wp m (info s) (fun a i => Q a (mk_machine_state i (global s) (booted s))) -> completes (info_op m) s Q P.
Proof. unfold wp, completes, info_op, zoom. by destruct (m (info s)). Qed.

Lemma span_entry_shape e : E820.type e = E820_TYPE_RAM -> span_entry e -> span_shape (base e, size e / 4096).
Proof.
  intros Ht He. destruct (He Ht) as (H0 & H1 & _ & H2 & H3 & H4). unfold span_shape. cbn [fst snd].
  pose proof (Z.div_pos (size e) 4096 H1 eq_refl). pose proof (proj2 (Z.div_exact (base e) 4096 ltac:(done)) H3).
  apply Z.div_exact in H4; [|done]. lia.
Qed.

Lemma ram_shape_ok i : Forall span_entry (entries i) -> Forall span_shape (ram_shape i).
Proof.
  intros H. apply Forall_fmap, Forall_forall. intros e [Ht He]%list_elem_of_filter.
  apply span_entry_shape; [done|]. by apply (proj1 (Forall_forall _ _) H).
Qed.

Lemma boot_frozen_ok i e :
  state_wf (ast e) -> shape (ast e) = ram_shape i ->
  (forall r q, r ∈ boot_pages i -> same_page q r.1 -> status (ast e) q = Some (Some r.2)) -> frozen_ok (boot_frozen i) (alloc_st e).
Proof.
  intros Hwf Hsh Hst. split; [done|done|]. intros r0 (r & -> & Hr)%list_elem_of_fmap. cbn [fst snd]. apply Hst; [done|].
  unfold same_page. change (2 ^ 12) with 4096. by rewrite Z.mul_comm, Z.div_mul.
Qed.

Lemma ram_shape_frames i : Forall span_entry (entries i) -> zlength (pfns (phys_spans (ram_shape i))) = ram_bytes (entries i) / 4096.
Proof.
  unfold ram_shape. induction 1 as [|e l He Hl IH]; [done|]. unfold ram_entries in *. rewrite filter_cons. cbn [ram_bytes]. unfold is_ram.
  destruct (Z.eqb_spec (E820.type e) E820_TYPE_RAM) as [Ht|Ht]; [rewrite decide_True by done|by rewrite decide_False by done].
  destruct (He Ht) as (_ & H1 & _ & _ & _ & H4). pose proof (Z.div_pos (size e) 4096 H1 eq_refl). apply Z.div_exact in H4; [|done].
  rewrite fmap_cons. change (pfns (phys_spans (?a :: ?b))) with (seqZ (a.1 / 4096) (a.2) ++ pfns (phys_spans b)). cbn [fst snd].
  rewrite zlength_app, IH. unfold zlength at 1. rewrite length_seqZ. rewrite H4 at 2. rewrite (Z.mul_comm 4096), Z.div_add_l by lia. lia.
Qed.

(** The address space before the array is built leaves the array's pages free. *)
Lemma array_unmapped i hdr sects Rs m pgd u :
  Forall2 (section_region KERNEL_ELF_ADDRESS_PHYS) (take (Z.to_nat (shnum hdr)) sects) Rs ->
  maps_exactly m pgd (direct_regions (entries i) ++ concat Rs ++ header_regions KERNEL_ELF_ADDRESS (shoff hdr) KERNEL_ELF_ADDRESS_PHYS ++ device_regions i) ->
  0 <= u < 2 ^ 36 -> u ∉ extent_pages (layout_extents i hdr sects) -> walk m pgd u = None.
Proof.
  intros HRs Hm Hu Hn. apply (Hm u Hu). intros r Hr Hin. apply Hn. unfold layout_extents.
  rewrite <- (section_extents _ _ _ HRs), <- !fmap_app. apply elem_of_extents. by exists r.
Qed.

(** ** What the hand-over leaves alone *)

(** [m] does not change the part [f] of the state. *)
Definition preserves {S A B} (f : S -> B) (m : M S A) : Prop := forall s a s', m s = Done a s' -> f s' = f s.

Create HintDb preserves.

Lemma preserves_ret {S A B} (f : S -> B) (a : A) : preserves f (mret a).
Proof. by intros s b s' [= _ <-]. Qed.

Lemma preserves_panic {S A B} (f : S -> B) msg : preserves f (panic msg : M S A).
Proof. done. Qed.

Lemma preserves_hang {S A B} (f : S -> B) : preserves f (hang : M S A).
Proof. done. Qed.

Lemma preserves_gets {S A B} (f : S -> B) (g : S -> A) : preserves f (gets g).
Proof. by intros s b s' [= _ <-]. Qed.

Lemma preserves_lift {S A B} (f : S -> B) (o : option A) : preserves f (lift o).
Proof. destruct o; [|done]. by intros s b s' [= _ <-]. Qed.

Lemma preserves_bind {S A B C} (f : S -> C) (m : M S A) (k : A -> M S B) :
  preserves f m -> (forall a, preserves f (k a)) -> preserves f (m ≫= k).
Proof.
  intros Hm Hk s b s'. unfold mbind, M_bind. destruct (m s) as [a s1| | |] eqn:E; try done.
  intros Hs. rewrite (Hk _ _ _ _ Hs). by eapply Hm.
Qed.

Lemma preserves_for_loop {S B} (f : S -> B) n from (body : Z -> M S unit) :
  (forall i, preserves f (body i)) -> preserves f (for_loop n from body).
Proof. intros Hb. revert from. induction n as [|n IH]; intros from; [apply preserves_ret|]. simpl. by apply preserves_bind. Qed.

Lemma preserves_early_op {A} (m : EM A) : preserves cr3 (early_op m).
Proof. intros s a s'. unfold early_op, zoom. destruct (m (early s)); try done. by intros [= _ <-]. Qed.

Lemma preserves_phys_op {A} (m : PM A) : preserves cr3 (phys_op m).
Proof. intros s a s'. unfold phys_op, zoom. destruct (m (phys s)); try done. by intros [= _ <-]. Qed.

Lemma preserves_mapped_page va : preserves cr3 (mapped_page va).
Proof. intros s a s'. unfold mapped_page, get, lift, mbind, M_bind. destruct (translate _ _ _); simpl; [|done]. case_match; [|done]. by intros [= _ <-]. Qed.

#[local] Hint Resolve preserves_ret preserves_panic preserves_hang preserves_gets preserves_lift preserves_bind preserves_for_loop
  preserves_early_op preserves_phys_op preserves_mapped_page : preserves.

Lemma map_physblock_loop_cr3 fuel va end_va : preserves cr3 (map_physblock_loop fuel va end_va).
Proof. revert va. induction fuel as [|fuel IH]; intros va; simpl; [|case_match]; auto 10 with preserves. Qed.

#[local] Hint Resolve map_physblock_loop_cr3 : preserves.

Lemma handover_cr3 : preserves cr3 handover.
Proof.
  unfold handover, early_init_phys_alloc_state, early_init_mem_map, get_span, alloc_map_physblock.
  repeat first [apply preserves_bind; [|intros ?] | case_match | solve [eauto 10 with preserves]].
Qed.

Lemma wp_preserves {S A B} (f : S -> B) (m : M S A) s Q : preserves f m -> wp m s Q -> wp m s (fun a s' => Q a s' /\ f s' = f s).
Proof. unfold wp. intros Hf. destruct (m s) eqn:E; try done. intros HQ. split; [done|]. by eapply Hf. Qed.

(** The hand-over ends the boot. *)
Lemma handover_ready i hdr sects b b' Rs :
  Forall span_entry (entries i) -> cr3 b = kernel_root_pgd b -> cr3 b' = cr3 b -> handover_done (boot_frozen i) b b' ->
  ram_bytes (entries i) / 4096 - zlength (boot_pages i) - layout_cost i hdr sects - 1 <= free_pages (bst b) ->
  Forall2 (section_region KERNEL_ELF_ADDRESS_PHYS) (take (Z.to_nat (shnum hdr)) sects) Rs ->
  maps_exactly (mem (early b)) (kernel_root_pgd b) (direct_regions (entries i) ++ concat Rs ++
    header_regions KERNEL_ELF_ADDRESS (shoff hdr) KERNEL_ELF_ADDRESS_PHYS ++ device_regions i) ->
  memory_ready i hdr sects (mk_machine_state i initial_global b').
Proof.
  intros Hl Ecr Ecr' [D1 D2 D3 D3' D4 D5 D6 D7 D8 D9] Hfree HRs Hm. cbn [boot_frozen fz_shape] in D2, D3, D3', D7, D9.
  split; cbn [info global booted]; try done.
  - by rewrite D3, ram_shape_frames.
  - unfold boot_cost. lia.
  - intros r Hr. apply D4. apply (fo_pages _ _ D5 (4096 * (r.1 / 4096), r.2)). apply list_elem_of_fmap. by exists r.
  - congruence.
  - exists Rs. split; [done|]. intros u Hu Hn. destruct (Hm u Hu) as [M1 M2]. specialize (D9 u Hu Hn). unfold translate in *.
    rewrite D9. by split.
Qed.

Lemma ram_shape_pages i p : Forall span_entry (entries i) -> p ∈ pfns (phys_spans (ram_shape i)) <-> ram_page (entries i) p.
Proof.
  intros Hl. rewrite phys_spans_frames. unfold ram_page, page_in, stop. split.
  - intros (a & (e & -> & [Ht He]%list_elem_of_filter)%list_elem_of_fmap & Hp). cbn [fst snd] in Hp. exists e.
    destruct (proj1 (Forall_forall _ _) Hl e He Ht) as (_ & _ & _ & _ & Hb & Hm). apply Z.div_exact in Hb, Hm; [|done..].
    split_and!; try done; lia.
  - intros (e & He & Ht & Hp). exists (base e, size e / 4096). cbn [fst snd].
    destruct (proj1 (Forall_forall _ _) Hl e He Ht) as (_ & _ & _ & _ & Hb & Hm). apply Z.div_exact in Hb, Hm; [|done..].
    split; [|lia]. apply list_elem_of_fmap. exists e. split; [done|]. by apply list_elem_of_filter.
Qed.

Lemma count_true_ram l : count_true is_ram l = zlength (ram_entries l).
Proof.
  induction l as [|e l IH]; [done|]. unfold ram_entries in *. rewrite filter_cons. cbn [count_true]. rewrite IH. unfold is_ram.
  destruct (Z.eqb_spec (E820.type e) E820_TYPE_RAM) as [Ht|Ht]; [rewrite decide_True by done|by rewrite decide_False by done].
  unfold zlength. cbn [length]. lia.
Qed.

Lemma ram_shape_sorted i : StronglySorted separated (entries i) -> Forall span_entry (entries i) -> shape_sorted (ram_shape i).
Proof.
  intros Hsort Hl. unfold ram_shape, ram_entries, shape_sorted. induction Hsort as [|e l Hsort IH Hall]; [constructor|].
  apply Forall_cons in Hl as [He Hl]. rewrite filter_cons. case_decide as Ht; [|by apply IH]. rewrite fmap_cons. constructor; [by apply IH|].
  apply Forall_fmap, Forall_forall. intros x [_ Hx]%list_elem_of_filter. cbn [compose fst snd].
  destruct (He Ht) as (_ & _ & _ & _ & _ & Hm). apply Z.div_exact in Hm; [|done].
  destruct (proj1 (Forall_forall _ _) Hall x Hx) as [Hs _]. unfold stop in Hs. lia.
Qed.

(** The landing of the plan, once the early allocator is initialised. *)
Lemma boot_landing_ok i hdr sects e :
  StronglySorted separated (entries i) -> Forall span_entry (entries i) -> frozen_ok (boot_frozen i) (alloc_st e) ->
  free_pages (ast e) = ram_bytes (entries i) / 4096 - zlength (boot_pages i) ->
  (forall r q, r ∈ boot_pages i -> same_page q r.1 -> status (ast e) q = Some (Some r.2)) ->
  (forall q, 0 <= q -> (forall r, r ∈ boot_pages i -> ~ same_page q r.1) ->
      (ram_page (entries i) (q / 4096) -> status (ast e) q = Some None) /\ (~ ram_page (entries i) (q / 4096) -> status (ast e) q = None)) ->
  need_memory (loaded hdr sects) = 0 \/ (exists x, boot_landing i hdr sects x) -> layout_cost i hdr sects <= free_pages (ast e) ->
  exists h, held_ok (boot_frozen i) h (alloc_st e) /\ layout_cost i hdr sects <= held_avail (boot_frozen i) h (alloc_st e) /\
    landing_fits h (need_memory (loaded hdr sects)).
Proof.
  intros Hsort Hl Hfz Hfree Hres Hrest [H0|[x Hx]] Hcost.
  { exists None. split; [done|]. split; [done|]. by left. }
  exists (Some x). split; [|split; [|right; exists x; split; [done|]; apply Hx]].
  - split; [done|]. split.
    + by apply ram_shape_sorted.
    + apply Hx.
    + apply Hx.
    + destruct (bl_taken _ _ _ _ Hx) as (r & Hr & Hs). exists r.2. by apply Hres.
    + intros j Hj. destruct (bl_word _ _ _ _ Hx) as (a & k & Ha & Hk & E & Hend). pose proof (bl_first _ _ _ _ Hx).
      pose proof (proj1 (Forall_forall _ _) (ram_shape_ok i Hl) a Ha) as (A1 & A2 & A3 & _).
      apply Hrest; [lia|intros r Hr; by apply (bl_free _ _ _ _ Hx)|].
      apply ram_shape_pages; [done|]. apply phys_spans_frames. exists a. split; [done|]. change (2 ^ 12) with 4096 in *.
      replace (ld_base x + j * 4096) with (a.1 + (64 * k + j) * 4096) by lia. rewrite Z.div_add by lia. lia.
  - cbn [held_avail boot_frozen fz_shape]. rewrite Hfree. apply Hx.
Qed.

Lemma memory_up_ok s i hdr sects :
  wp e820_passes (info s) (fun _ i' => i' = i /\ StronglySorted separated (entries i') /\ total_avail_ram_bytes i' = ram_bytes (entries i') /\
    num_ram_spans i' = zlength (ram_entries (entries i'))) ->
  boot_plan i hdr sects -> locks (phys (booted s)) = ∅ ->
  completes (memory_up hdr sects) s (fun _ s' => memory_ready i hdr sects s')
    (Exists (section_panics KERNEL_ELF_ADDRESS_PHYS) (loaded hdr sects)).
Proof.
  intros He820 [B1 B2 B3 B4 B5 B6 B7 B8 B9 B10 B11 B12] Hlocks. unfold boot_cost in B11. unfold memory_up, early_mem_init. pose proof (ram_shape_ok i B1) as Hsh.
  apply completes_bind. apply completes_bind, completes_early_op. apply wp_bind, wp_modify, wp_modify. cbn [alloc_st PageMap.mem].
  match goal with |- context [mk_boot ?x _ _ _] => generalize x end. intros e0.
  (* the firmware's map *)
  apply completes_bind, completes_info_op. eapply wp_mono; [exact He820|]. cbv beta. intros _ i' (-> & Hsort & Htot & Hspans).
  cbn [info global booted phys kernel_root_pgd cr3 early].
  (* the early allocator *)
  assert (zlength (ram_shape i) = zlength (ram_entries (entries i))) as Elen by (unfold ram_shape, zlength; by rewrite length_fmap).
  pose proof (early_page_alloc_init_ok i e0 B1 Hsort B3 Htot Hspans ltac:(by rewrite <- Elen) B4 B5 B6 B7) as Hinit. apply wp_bind_inv in Hinit.
  apply completes_bind, completes_early_op. eapply wp_mono; [exact Hinit|]. cbv beta. clear Hinit. intros _ e1 Hinit.
  apply completes_bind, completes_wp, wp_gets. cbn [info].
  apply completes_bind, completes_early_op. eapply wp_mono; [exact Hinit|]. cbv beta. clear Hinit.
  intros _ e2 (Hwf & Hshape & _ & Hfree & Hres & Hrest). cbn [info global booted phys kernel_root_pgd cr3 early].
  pose proof (boot_frozen_ok i e2 Hwf Hshape Hres) as Hfz. fold (boot_scratch i) in Hfree. fold (boot_pages i) in Hfree.
  pose proof (zlength_nonneg (pb_pages (ram_shape i))) as Hnn.
  (* the kernel's address space *)
  apply completes_bind, completes_boot_op. cbn [info global booted].
  destruct (boot_landing_ok i hdr sects e2 Hsort B1 Hfz Hfree Hres (fun q => Hrest q) B12 ltac:(lia)) as (h & Hheld & Hcost & Hfits).
  eapply completes_mono; [apply (early_remap_page_tables_ok (boot_frozen i) h); [exact Hheld|exact B8|cbn [early]; exact Hcost]| |by intros [?|?]].
  cbv beta. cbn [early]. intros _ b3 (Hcr3 & Hphys & Hfree3 & Hpt3 & Rs & HRs & Hm). cbn [info global booted].
  (* the global state *)
  unfold early_init_kernel_global. apply completes_bind. apply completes_bind, completes_early_op. cbn [booted].
  eapply wp_mono; [apply (take_page_ok (boot_frozen i) (kernel_root_pgd b3)); [exact Hpt3|lia]|]. cbv beta.
  intros _ e4 (Hpt4 & Hfree4 & Hw4 & _). apply completes_wp, wp_modify. cbn [info global booted].
  (* the array of physblocks and the buddy allocator *)
  match goal with |- context [mk_machine_state i initial_global ?b] => set (b4 := b) end.
  assert (map_ready (boot_frozen i) b4) as Hready.
  { split; cbn [boot_frozen fz_shape b4 early phys kernel_root_pgd].
    - exact Hpt4.
    - exact Hcr3.
    - by rewrite Hphys.
    - done.
    - rewrite MAX_E820_RAM_ENTRIES_value in B2. lia.
    - done.
    - intros x Hx. pose proof (pb_page_range _ _ Hsh Hx). unfold unmapped. cbn [b4 early kernel_root_pgd].
      rewrite Hw4 by (unfold MEM_MAP_VPN; lia). eapply array_unmapped; [done|done|unfold MEM_MAP_VPN; lia|by apply B10].
    - cbn [b4 early]. lia. }
  pose proof (wp_preserves cr3 _ _ _ handover_cr3 (handover_ok _ _ Hready)) as Hdone. unfold handover in Hdone.
  apply wp_bind_inv in Hdone. apply completes_bind, completes_boot_op, completes_wp. eapply wp_mono; [exact Hdone|]. cbv beta. clear Hdone.
  intros _ b5 Hdone. apply wp_bind_inv in Hdone. cbn [info global booted].
  apply completes_boot_op, completes_wp. eapply wp_mono; [exact Hdone|]. cbv beta. clear Hdone. intros _ b6 Hdone. cbn [info global booted].
  apply completes_boot_op, completes_wp. eapply wp_mono; [exact Hdone|]. cbv beta. clear Hdone. cbn [info global booted]. intros _ b7 [Hdone Ecr].
  eapply (handover_ready i hdr sects b4 b7 Rs); try done; cbn [b4 early kernel_root_pgd]; [lia|].
  intros u Hu. destruct (Hm u Hu) as [M1 M2]. unfold translate in *. rewrite Hw4 by done. by split.
Qed.

(** Extents that are apart cover different pages. *)
Fixpoint extents_apart (l : list (Z * Z)) : bool :=
  match l with
  | [] => true
  | a :: l' => forallb (fun b => (a.1 + a.2 <=? b.1) || (b.1 + b.2 <=? a.1)) l' && extents_apart l'
  end.

Lemma elem_of_extent_pages l u : u ∈ extent_pages l <-> exists a, a ∈ l /\ a.1 <= u < a.1 + a.2.
Proof.
  unfold extent_pages. rewrite list_elem_of_In, in_concat. split.
  - intros (x & (a & -> & Ha)%list_elem_of_In%list_elem_of_fmap & Hu%list_elem_of_In%elem_of_seqZ). by exists a.
  - intros (a & Ha & Hu). eexists. split; [apply list_elem_of_In, list_elem_of_fmap; by exists a|]. by apply list_elem_of_In, elem_of_seqZ.
Qed.

Lemma extents_apart_nodup l : extents_apart l = true -> NoDup (extent_pages l).
Proof.
  induction l as [|a l IH]; [intros _; apply NoDup_nil_2|]. cbn [extents_apart]. intros [Ha Hl]%andb_true_iff.
  change (extent_pages (a :: l)) with (seqZ (a.1) (a.2) ++ extent_pages l). apply NoDup_app. split; [apply NoDup_seqZ|]. split; [|by apply IH].
  intros u Hu%elem_of_seqZ (b & Hb & Hub)%elem_of_extent_pages. apply list_elem_of_In in Hb.
  apply (proj1 (forallb_forall _ _) Ha) in Hb. lia.
Qed.

Lemma extents_outside l lo hi u :
  forallb (fun a => (a.1 + a.2 <=? lo) || (hi <=? a.1)) l = true -> lo <= u < hi -> u ∉ extent_pages l.
Proof.
  intros Hl Hu (a & Ha & Hua)%elem_of_extent_pages. apply list_elem_of_In in Ha. apply (proj1 (forallb_forall _ _) Hl) in Ha. lia.
Qed.

Lemma firmware_memory_up s i hdr sects :
  firmware_ok (info s) -> e820_passes (info s) = Done tt i -> boot_plan i hdr sects -> locks (phys (booted s)) = ∅ ->
  completes (early_mem_init hdr sects;; boot_op (phys_op phys_alloc_init)) s (fun _ s' =>
    memory_ready i hdr sects s' /\ forall p, p ∈ pfns (spans (phys (booted s'))) <-> firmware_ram (info s) p)
    (Exists (section_panics KERNEL_ELF_ADDRESS_PHYS) (loaded hdr sects)).
Proof.
  intros [F1 F2 F3 F4 F5 F6 F7] Hi Hplan Hl. pose proof (e820_passes_ok (info s) F1 F2 F3 F4 F5 F6 F7) as H.
  unfold wp in H. rewrite Hi in H. destruct H as (_ & Hsort & Hram & Htot & _ & Hnum). rewrite count_true_ram in Hnum.
  eapply completes_mono; [apply (memory_up_ok s i hdr sects); [unfold wp; by rewrite Hi|done..]| |done].
  cbv beta. intros _ s' Hready. split; [done|]. intros p. rewrite (my_spans _ _ _ _ Hready), ram_shape_pages by apply Hplan. apply Hram.
Qed.

(** The image of [KernelMap.sample_elf] with two pages of [.bss], placed past the
    section headers as the linker script does. *)
Definition boot_elf : elf_header := mk_elf 0x3000 3.

Definition boot_sections : list elf_section_header := sample_sections ++ [mk_sect ELF_SHT_NOBITS 3 0xffffc00001013000 0x3000 0x1800].

(** An empty machine with 33 MiB of RAM and that image, and the map in the order a
    firmware may give it. *)
Definition boot_map : early_boot_info := mk_info 0 0 0xfee00000 0x30c0 2 [mk_entry 0x100000 0x2000000 1; mk_entry 0 0x9f000 1].

Definition normal_map : early_boot_info := mk_info 0x209f000 2 0xfee00000 0x30c0 2 [mk_entry 0 0x9f000 1; mk_entry 0x100000 0x2000000 1].

Definition boot_machine : machine_state :=
  mk_machine_state boot_map initial_global (mk_boot sample_machine (mk_phys ∅ ∅ ∅ (mk_stats 0 0 0 0 []) [] 0) 0 0).

Lemma boot_map_ok : firmware_ok boot_map /\ e820_passes boot_map = Done tt normal_map.
Proof.
  split; [|by vm_compute]. split; [by vm_compute|done|by vm_compute|by repeat constructor|by repeat constructor|..];
    intros a b Ha Hb; vm_compute in Ha, Hb;
    repeat (apply elem_of_cons in Ha as [->|Ha]; [|]); try (by apply elem_of_nil in Ha);
    repeat (apply elem_of_cons in Hb as [->|Hb]; [|]); try (by apply elem_of_nil in Hb);
    unfold stop; simpl; lia.
Qed.

Lemma boot_map_layout : layout_ok normal_map boot_elf boot_sections.
Proof.
  split.
  - repeat (apply Forall_cons; split; [intros _; by vm_compute|]). by apply Forall_nil.
  - repeat constructor; by vm_compute.
  - by vm_compute.
  - change (Forall (section_ok KERNEL_ELF_ADDRESS_PHYS) boot_sections). apply Forall_app. split.
    + exact (ly_sections _ _ _ (proj1 sample_layout)).
    + apply Forall_singleton. intros _. by vm_compute.
  - by vm_compute.
  - by vm_compute.
  - apply extents_apart_nodup. by vm_compute.
  - by repeat constructor.
Qed.

(** The last pages of the image, from 16 MiB, and what follows them. *)
Lemma boot_map_landing : boot_landing normal_map boot_elf boot_sections (mk_landing 0x1000000 4).
Proof.
  split.
  - exists (0x100000, 0x2000), 60. split; [apply (bool_decide_unpack _)|]; by vm_compute.
  - done.
  - exists (0x1000000, EARLY_ALLOC_NORMAL). split; [|done]. apply (bool_decide_unpack _). by vm_compute.
  - cbn [ld_first ld_base]. intros j r Hj Hr Hs.
    assert (Forall (fun r => r.1 / 2 ^ 12 < 0x1004 \/ 0x1040 <= r.1 / 2 ^ 12) (boot_pages normal_map)) as HF by (apply (bool_decide_unpack _); by vm_compute).
    apply (proj1 (Forall_forall _ _) HF) in Hr. unfold same_page in Hs. rewrite Z.div_add in Hs by done. change (0x1000000 / 2 ^ 12) with 0x1000 in Hs. lia.
  - by vm_compute.
  - by vm_compute.
Qed.

Lemma boot_map_plan : boot_plan normal_map boot_elf boot_sections.
Proof.
  split.
  - repeat (apply Forall_cons; split; [intros _; by vm_compute|]). by apply Forall_nil.
  - by vm_compute.
  - by vm_compute.
  - by vm_compute.
  - by vm_compute.
  - exact (proj1 sample_map_reserved).
  - exact (proj2 sample_map_reserved).
  - exact boot_map_layout.
  - apply (bool_decide_unpack _). by vm_compute.
  - intros x Hx. apply (extents_outside _ MEM_MAP_VPN (MEM_MAP_VPN + 128)); [by vm_compute|].
    assert (Forall (fun x => 0 <= x < 128) (pb_pages (ram_shape normal_map))) as HF by (apply (bool_decide_unpack _); by vm_compute).
    apply (proj1 (Forall_forall _ _) HF) in Hx. lia.
  - by vm_compute.
  - right. exists (mk_landing 0x1000000 4). exact boot_map_landing.
Qed.

(** ** Properties *)

(** C6: memory comes up. Booting from a consistent firmware map, when what is in
    use at boot is RAM, the kernel's regions are apart, RAM has room and there is a
    place for the sections that have to be given memory, such as [.bss], running
    [early_mem_init] and then [phys_alloc_init] returns. The buddy allocator's
    state is then well formed and counts exactly the frames whose every byte the
    firmware calls RAM, all but those in use at boot and at most [boot_cost] more
    are free, the pages in use at boot are in use as their kind, the scratch and
    boot tables are free, no page table is free, every frame has its
    physblock mapped, and outside the array of physblocks the address space in
    [CR3] is exactly the direct map, the image, its headers and the devices. The
    one exception: it panics if a section is not page-aligned or has to be given
    more than eight pages of memory. *)
Theorem memory_comes_up s i hdr sects :
  firmware_ok (info s) -> e820_passes (info s) = Done tt i -> boot_plan i hdr sects -> locks (phys (booted s)) = ∅ ->
  completes (early_mem_init hdr sects;; boot_op (phys_op phys_alloc_init)) s (fun _ s' =>
    memory_ready i hdr sects s' /\ forall p, p ∈ pfns (spans (phys (booted s'))) <-> firmware_ram (info s) p)
    (Exists (section_panics KERNEL_ELF_ADDRESS_PHYS) (loaded hdr sects)).
Proof. apply firmware_memory_up. Qed.

Lemma boot_no_panic : ~ Exists (section_panics KERNEL_ELF_ADDRESS_PHYS) (loaded boot_elf boot_sections).
Proof.
  intros (sect & Hs & [Ha Hbad])%Exists_exists. change (loaded boot_elf boot_sections) with boot_sections in Hs.
  repeat (apply elem_of_cons in Hs as [->|Hs]; [|]); try (by apply elem_of_nil in Hs); [done|..];
    destruct Hbad as [[_ Hbad]|[Hbad|[_ Hbad]]]; by vm_compute in Hbad.
Qed.

(** The frames of [.bss] are mapped, too. *)
Lemma memory_comes_up_witness :
  wp (early_mem_init boot_elf boot_sections;; boot_op (phys_op phys_alloc_init)) boot_machine (fun _ s' =>
    phys_ok (phys (booted s')) /\ num_4k_pages (stats (phys (booted s'))) = 0x209f /\
    page_status (blocks (phys (booted s'))) 0xc00 = Some Free /\
    page_status (blocks (phys (booted s'))) 0x1001 = Some (Used 0x1001 0 (Z.lor PHYSBLOCK_KERNEL PHYSBLOCK_MOVABLE) 1) /\
    is_Some (translate (mem (early (booted s'))) (kernel_root_pgd (booted s')) (vpn 0xffffc00001014000))).
Proof.
  eapply wp_mono; [eapply completes_no_panic;
    [exact (memory_comes_up boot_machine normal_map boot_elf boot_sections (proj1 boot_map_ok) (proj2 boot_map_ok) boot_map_plan eq_refl)|exact boot_no_panic]|].
  cbv beta. intros ? s' [[_ _ Hok _ Hn _ Hp _ _ _ (Rs & HRs & Hm)] _]. split; [exact Hok|]. split; [rewrite Hn; clear; by vm_compute|]. split; [|split].
  - apply (Hp (0xc00000, EARLY_ALLOC_EPHEMERAL)). clear. apply (bool_decide_unpack _). by vm_compute.
  - apply (Hp (0x1001000, EARLY_ALLOC_NORMAL)). clear. apply (bool_decide_unpack _). by vm_compute.
  - destruct (Hm (vpn 0xffffc00001014000)) as [Hin _]; [clear; by vm_compute|clear; apply (bool_decide_unpack _); by vm_compute|].
    change (take _ boot_sections) with boot_sections in HRs.
    apply Forall2_cons_inv_l in HRs as (? & Rs0 & _ & HRs & ->). apply Forall2_cons_inv_l in HRs as (? & Rs1 & _ & HRs & ->).
    apply Forall2_cons_inv_l in HRs as (? & ? & (f & pf & -> & _) & _ & ->).
    rewrite (Hin (mk_region (vpn 0xffffc00001013000) f 2 pf)); [done| |clear; by vm_compute].
    rewrite elem_of_app. right. rewrite elem_of_app. left. cbn [concat]. rewrite !elem_of_app. right. right. left. apply list_elem_of_here.
Defined.
