(* ===== verification/Loader.v ===== *)
(** * The boot loader (arch/x86_64/boot/loader.c)

    The loader brings the kernel's ELF image to [KERNEL_ELF_ADDRESS], checks that
    what the image says of its addresses is where it is, clears [.bss] and jumps
    to the entry point. The image is bytes of memory ([CString.bytes]), and its
    headers are read field by field at their offsets.

    The two configurations get the image in different ways: from the disk by
    ATA PIO commands, or from where the BIOS put it. The drive is hardware, so it
    is a parameter: [ata_drive] is what the loader does to it, and [AtaDrive] says
    what the drives of a channel that keep to the standard do, as a state machine:
    the drive is busy for some reads of its status after a command and after each
    sector, a register can be written and a command given only while it is idle,
    a command goes to the drive that the device register selects, and data is read
    only when it is there. Nothing is said of what it does otherwise. *)

From stdpp Require Import base strings numbers gmap list.
From Stdlib Require Import ZArith Lia.
From S2P Require Import Prelude Macros MmDefs CString KernelMap.

(** ** Reading memory *)

Abbreviation MB := (M bytes).

(** An [n]-byte little-endian integer. *)
Fixpoint load_le (n : nat) (p : Z) : MB Z :=
  match n with
  | O => mret 0
  | S n' => b ← load_byte p; rest ← load_le n' (p + 1); mret (b + 256 * rest)
  end.

(** The bytes a pointer reaches, [n] at most. *)
Fixpoint reach (n : nat) (p : Z) (m : bytes) : list Z :=
  match n with
  | O => []
  | S n' => match m !! p with Some b => b :: reach n' (p + 1) m | None => [] end
  end.

(** ** Fields of the headers (include/elf.h) *)

Definition ELF_MAGIC_NUMBER : Z := 0x464c457f.
Definition ELF_SHT_PROGBITS : Z := 1.

Definition SIZEOF_PROG_HEADER : Z := 56.
Definition SIZEOF_SECT_HEADER : Z := 64.

Definition e_magic (header : Z) : MB Z := load_le 4 header.
Definition e_entry (header : Z) : MB Z := load_le 8 (header + 24).
Definition e_phoff (header : Z) : MB Z := load_le 8 (header + 32).
Definition e_shoff (header : Z) : MB Z := load_le 8 (header + 40).
Definition e_phnum (header : Z) : MB Z := load_le 2 (header + 56).
Definition e_shnum (header : Z) : MB Z := load_le 2 (header + 60).
Definition e_shstrndx (header : Z) : MB Z := load_le 2 (header + 62).

Definition p_offset (prog : Z) : MB Z := load_le 8 (prog + 8).
Definition p_vaddr (prog : Z) : MB Z := load_le 8 (prog + 16).
Definition p_filesz (prog : Z) : MB Z := load_le 8 (prog + 32).
Definition p_memsz (prog : Z) : MB Z := load_le 8 (prog + 40).

Definition s_name (sect : Z) : MB Z := load_le 4 sect.
Definition s_type (sect : Z) : MB Z := load_le 4 (sect + 4).
Definition s_addr (sect : Z) : MB Z := load_le 8 (sect + 16).
Definition s_offset (sect : Z) : MB Z := load_le 8 (sect + 24).
Definition s_size (sect : Z) : MB Z := load_le 8 (sect + 32).

(** ** Checking the image *)

Definition buf : Z := KERNEL_ELF_ADDRESS.

(** [strcmp] with a name of four characters stops at its fifth byte. *)
Definition name_is_bss (name : Z) : MB bool :=
  m ← get;
  r ← lift (strcmp (reach 5 name m) (cstr ".bss"));
  mret (r =? 0).

Fixpoint zero_bss_loop (n : nat) (shstr sect_header : Z) : MB bool :=
  match n with
  | O => mret false
  | S n' =>
      name ← s_name sect_header;
      is_bss ← name_is_bss (shstr + name)%u64;
      if negb is_bss then zero_bss_loop n' shstr (sect_header + SIZEOF_SECT_HEADER)
      else
        addr ← s_addr sect_header;
        size ← s_size sect_header;
        memset addr 0 size;;
        mret true
  end.

Definition elf_zero_bss (header : Z) : MB bool :=
  shoff ← e_shoff header;
  let section_headers := (buf + shoff)%u64 in
  shstrndx ← e_shstrndx header;
  offset ← s_offset (section_headers + SIZEOF_SECT_HEADER * shstrndx)%u64;
  let shstr := (buf + offset)%u64 in
  shnum ← e_shnum header;
  zero_bss_loop (Z.to_nat shnum) shstr section_headers.

Fixpoint check_progs (n : nat) (prog_header : Z) : MB bool :=
  match n with
  | O => mret true
  | S n' =>
      filesz ← p_filesz prog_header;
      if filesz =? 0 then check_progs n' (prog_header + SIZEOF_PROG_HEADER)
      else
        addr ← p_vaddr prog_header;
        offset ← p_offset prog_header;
        if negb (addr =? 0) && negb (offset =? (addr - KERNEL_ELF_ADDRESS)%u64) then mret false
        else check_progs n' (prog_header + SIZEOF_PROG_HEADER)
  end.

Fixpoint check_sects (n : nat) (sect_header : Z) : MB bool :=
  match n with
  | O => mret true
  | S n' =>
      type ← s_type sect_header;
      if negb (type =? ELF_SHT_PROGBITS) then check_sects n' (sect_header + SIZEOF_SECT_HEADER)
      else
        addr ← s_addr sect_header;
        offset ← s_offset sect_header;
        if negb (addr =? 0) && negb (offset =? (addr - KERNEL_ELF_ADDRESS)%u64) then mret false
        else check_sects n' (sect_header + SIZEOF_SECT_HEADER)
  end.

Definition elf_check_addrs (header : Z) : MB bool :=
  phoff ← e_phoff header;
  phnum ← e_phnum header;
  progs_ok ← check_progs (Z.to_nat phnum) (buf + phoff)%u64;
  if negb (progs_ok : bool) then mret false
  else
    shoff ← e_shoff header;
    shnum ← e_shnum header;
    check_sects (Z.to_nat shnum) (buf + shoff)%u64.

Definition check_and_finalise (header : Z) : MB bool :=
  ok ← elf_check_addrs header;
  if negb (ok : bool) then mret false else elf_zero_bss header.

(** ** The size of the image *)

Fixpoint progs_end (n : nat) (prog_header ret : Z) : MB Z :=
  match n with
  | O => mret ret
  | S n' =>
      offset ← p_offset prog_header;
      memsz ← p_memsz prog_header;
      let end_ := (offset + memsz)%u64 in
      progs_end n' (prog_header + SIZEOF_PROG_HEADER) (if ret <? end_ then end_ else ret)
  end.

Fixpoint sects_end (n : nat) (sect_header ret : Z) : MB Z :=
  match n with
  | O => mret ret
  | S n' =>
      type ← s_type sect_header;
      if type =? ELF_SHT_NOBITS then sects_end n' (sect_header + SIZEOF_SECT_HEADER) ret
      else
        offset ← s_offset sect_header;
        size ← s_size sect_header;
        let end_ := (offset + size)%u64 in
        sects_end n' (sect_header + SIZEOF_SECT_HEADER) (if ret <? end_ then end_ else ret)
  end.

Definition elf_get_size_bytes (buf header : Z) : MB Z :=
  phoff ← e_phoff header;
  phnum ← e_phnum header;
  ret ← progs_end (Z.to_nat phnum) (buf + phoff)%u64 0;
  shoff ← e_shoff header;
  shnum ← e_shnum header;
  sects_end (Z.to_nat shnum) (buf + shoff)%u64 ret.

(** ** The drive *)

(** What the loader does to the drive: read the status port, write a port, read
    dwords from the data port. *)
Record ata_drive (D : Type) := mk_drive {
  drive_status : D -> Z * D;
  drive_out : Z -> Z -> D -> D;
  drive_insl : Z -> D -> list Z * D;
}.

Arguments drive_status {D} a.
Arguments drive_out {D} a.
Arguments drive_insl {D} a.

(** Memory, the drive and [kernel_elf_size_bytes] of the boot information. *)
Record loader (D : Type) := mk_loader { mem : bytes; drive : D; kernel_elf_size_bytes : Z }.

Arguments mk_loader {D}.
Arguments mem {D} l.
Arguments drive {D} l.
Arguments kernel_elf_size_bytes {D} l.

Definition SECTOR_SIZE_BYTES : Z := (1 << 9)%u64.
Definition BOOT_SECTORS : Z := 1 + 4.
Definition BIOS_KERNEL_ELF_LOAD_PHYS_ADDRESS : Z := 0x7c00 + BOOT_SECTORS * SECTOR_SIZE_BYTES.

Fixpoint store_bytes (p : Z) (l : list Z) : MB unit :=
  match l with
  | [] => mret tt
  | b :: l' => store_byte p b;; store_bytes (p + 1) l'
  end.

Section code.
Context {D : Type} (ata : ata_drive D) (patience : nat).

Abbreviation LM := (M (loader D)).

Definition mem_op {A} (m : MB A) : LM A := zoom mem (fun b s => mk_loader b (drive s) (kernel_elf_size_bytes s)) m.

Definition outb (port data : Z) : LM unit :=
  modify (fun s => mk_loader (mem s) (drive_out ata (u16 port) (u8 data) (drive s)) (kernel_elf_size_bytes s)).

Definition inb_status : LM Z := fun s =>
  let '(st, d) := drive_status ata (drive s) in Done st (mk_loader (mem s) d (kernel_elf_size_bytes s)).

(** [insl] of [count] dwords to [ptr]. *)
Definition insl (ptr count : Z) : LM unit :=
  l ← (fun s => let '(l, d) := drive_insl ata count (drive s) in Done l (mk_loader (mem s) d (kernel_elf_size_bytes s)));
  mem_op (store_bytes ptr l).

(** The drive is ready after [patience] reads of the status, if ever. *)
Fixpoint wait_loop (fuel : nat) : LM unit :=
  match fuel with
  | O => hang
  | S fuel' =>
      st ← inb_status;
      if negb (Z.land st 0xc0 =? 0x40) then wait_loop fuel' else mret tt
  end.

Definition wait_disk_ready : LM unit := wait_loop patience.

Definition read_sectors_lba48 (ptr offset count : Z) : LM unit :=
  wait_disk_ready;;
  outb 0x1f6 0x40;;
  outb 0x1f2 (count >> 8)%u64;;
  outb 0x1f3 (offset >> 24)%u64;;
  outb 0x1f4 (offset >> 32)%u64;;
  outb 0x1f5 (offset >> 40)%u64;;
  outb 0x1f2 count;;
  outb 0x1f3 offset;;
  outb 0x1f4 (offset >> 8)%u64;;
  outb 0x1f5 (offset >> 16)%u64;;
  outb 0x1f7 0x24;;
  wait_disk_ready;;
  for_loop (Z.to_nat count) 0 (fun i =>
    insl (ptr + SECTOR_SIZE_BYTES * i) (SECTOR_SIZE_BYTES / 4);;
    wait_disk_ready).

Record elf_load_state := mk_load { header : option Z; bytes_loaded : Z; sectors_loaded : Z }.

Definition load1 (buf : Z) : LM elf_load_state :=
  let ret := mk_load None 0 0 in
  read_sectors_lba48 buf BOOT_SECTORS 1;;
  magic ← mem_op (e_magic buf);
  if negb (magic =? ELF_MAGIC_NUMBER) then mret ret
  else
    phoff ← mem_op (e_phoff buf);
    shoff ← mem_op (e_shoff buf);
    if shoff <? phoff then mret ret
    else
      shnum ← mem_op (e_shnum buf);
      let section_header_end_bytes := u32 (shoff + shnum * SIZEOF_SECT_HEADER)%u64 in
      let section_header_end_bytes := u32 (ALIGN_UP section_header_end_bytes SECTOR_SIZE_BYTES) in
      let sectors := u16 (section_header_end_bytes / SECTOR_SIZE_BYTES) in
      read_sectors_lba48 (buf + SECTOR_SIZE_BYTES) (BOOT_SECTORS + 1) (u16 (sectors - 1));;
      mret (mk_load (Some buf) section_header_end_bytes sectors).

Definition load2 (buf header : Z) (state : elf_load_state) : LM bool :=
  bytes ← mem_op (elf_get_size_bytes buf header);
  (if bytes_loaded state <? bytes then
     let old_bytes_aligned := (sectors_loaded state * SECTOR_SIZE_BYTES)%u64 in
     let bytes_aligned := ALIGN_UP bytes SECTOR_SIZE_BYTES in
     let sectors := u16 (bytes_aligned / SECTOR_SIZE_BYTES) in
     let delta := u16 (sectors - sectors_loaded state) in
     read_sectors_lba48 (buf + old_bytes_aligned)%u64 (sectors_loaded state) delta
   else mret tt);;
  mret true.

(** [None] is the null pointer. *)
Definition load_ata_pio : LM (option Z) :=
  state ← load1 buf;
  match header state with
  | None => mret None
  | Some header =>
      ok ← load2 buf header state;
      if negb (ok : bool) then mret None
      else
        modify (fun s => mk_loader (mem s) (drive s) (bytes_loaded state));;
        mret (Some header)
  end.

Definition copy_kernel_elf_image : LM (option Z) :=
  size ← gets kernel_elf_size_bytes;
  mem_op (memcpy KERNEL_ELF_ADDRESS BIOS_KERNEL_ELF_LOAD_PHYS_ADDRESS size);;
  mret (Some KERNEL_ELF_ADDRESS).

(** [load] in either configuration: the address it jumps to, or [None] when it
    returns and the machine halts. A null header is read like any other. *)
Definition load (load_elf_image : LM (option Z)) : LM (option Z) :=
  header ← load_elf_image;
  let header := default 0 header in
  ok ← mem_op (check_and_finalise header);
  if negb (ok : bool) then mret None
  else
    entry ← mem_op (e_entry header);
    mret (Some entry).
End code.

(** ** Specification: the image *)

Record elf_prog := mk_prog { pr_offset : Z; pr_vaddr : Z; pr_filesz : Z; pr_memsz : Z }.

(** [se_text] is the name [se_name] leads to in the table of names. *)
Record elf_sect := mk_section { se_name : Z; se_text : list Z; se_type : Z; se_addr : Z; se_offset : Z; se_size : Z }.

Record image := mk_image {
  i_entry : Z;
  i_phoff : Z;
  i_shoff : Z;
  i_shstrndx : nat;
  i_progs : list elf_prog;
  i_sects : list elf_sect;
}.

(** Reading [f] gives [x]. *)
Definition reads {A} (m : bytes) (f : MB A) (x : A) : Prop := f m = Done x m.

Record prog_at (m : bytes) (p : Z) (x : elf_prog) : Prop := {
  pa_offset : reads m (p_offset p) (pr_offset x);
  pa_vaddr : reads m (p_vaddr p) (pr_vaddr x);
  pa_filesz : reads m (p_filesz p) (pr_filesz x);
  pa_memsz : reads m (p_memsz p) (pr_memsz x);
}.

Record sect_at (m : bytes) (p : Z) (x : elf_sect) : Prop := {
  sa_name : reads m (s_name p) (se_name x);
  sa_type : reads m (s_type p) (se_type x);
  sa_addr : reads m (s_addr p) (se_addr x);
  sa_offset : reads m (s_offset p) (se_offset x);
  sa_size : reads m (s_size p) (se_size x);
}.

(** The name [t], terminated, is at [p]. *)
Definition name_at (m : bytes) (p : Z) (t : list Z) : Prop :=
  text t /\ forall i c, (t ++ [0]) !! i = Some c -> m !! (p + Z.of_nat i) = Some c.

(** The image [im] is in memory, with its header at [h]. *)
Record image_at (m : bytes) (h : Z) (im : image) : Prop := {
  im_phoff : reads m (e_phoff h) (i_phoff im);
  im_shoff : reads m (e_shoff h) (i_shoff im);
  im_phnum : reads m (e_phnum h) (zlength (i_progs im));
  im_shnum : reads m (e_shnum h) (zlength (i_sects im));
  im_shstrndx : reads m (e_shstrndx h) (Z.of_nat (i_shstrndx im));
  im_progs : forall i x, i_progs im !! i = Some x -> prog_at m ((buf + i_phoff im)%u64 + SIZEOF_PROG_HEADER * Z.of_nat i) x;
  im_sects : forall i x, i_sects im !! i = Some x -> sect_at m ((buf + i_shoff im)%u64 + SIZEOF_SECT_HEADER * Z.of_nat i) x;
  im_names : exists x, i_sects im !! i_shstrndx im = Some x /\
    reads m (s_offset ((buf + i_shoff im)%u64 + (SIZEOF_SECT_HEADER * Z.of_nat (i_shstrndx im)))%u64) (se_offset x) /\
    forall y, y ∈ i_sects im -> name_at m ((buf + se_offset x)%u64 + se_name y)%u64 (se_text y);
}.

(** Where the headers say something is, it is. *)
Definition prog_placed (x : elf_prog) : bool :=
  (pr_filesz x =? 0) || (pr_vaddr x =? 0) || (pr_offset x =? (pr_vaddr x - KERNEL_ELF_ADDRESS)%u64).

Definition sect_placed (x : elf_sect) : bool :=
  negb (se_type x =? ELF_SHT_PROGBITS) || (se_addr x =? 0) || (se_offset x =? (se_addr x - KERNEL_ELF_ADDRESS)%u64).

Definition placed (im : image) : bool := forallb prog_placed (i_progs im) && forallb sect_placed (i_sects im).

(** The first section called [.bss]. *)
Definition bss (im : image) : option elf_sect := find (fun x => bool_decide (se_text x = chars ".bss")) (i_sects im).

(** The end of the last program or section that has contents. *)
Definition image_end (im : image) : Z :=
  Z.max (foldr Z.max 0 ((fun x => (pr_offset x + pr_memsz x)%u64) <$> i_progs im))
    (foldr Z.max 0 ((fun x => (se_offset x + se_size x)%u64) <$> filter (fun x => se_type x <> ELF_SHT_NOBITS) (i_sects im))).

(** [m'] is [m] with the section cleared. *)
Definition cleared (x : elf_sect) (m m' : bytes) : Prop :=
  forall a, m' !! a = if decide (se_addr x <= a < se_addr x + se_size x) then Some 0 else m !! a.

(** ** Lemmas on the image *)

Lemma wp_reads {A} m (f : MB A) x (Q : A -> bytes -> Prop) : reads m f x -> Q x m -> wp f m Q.
Proof. unfold reads, wp. by intros ->. Qed.

Lemma check_progs_ok m l : forall p,
  (forall i x, l !! i = Some x -> prog_at m (p + SIZEOF_PROG_HEADER * Z.of_nat i) x) ->
  wp (check_progs (length l) p) m (fun ok m' => ok = forallb prog_placed l /\ m' = m).
Proof.
  induction l as [|x l IH]; intros p Hl; [done|]. cbn [length check_progs].
  pose proof (Hl 0%nat x eq_refl) as Hx. rewrite Z.mul_0_r, Z.add_0_r in Hx. destruct Hx as [X1 X2 X3 _].
  specialize (IH (p + SIZEOF_PROG_HEADER)).
  assert (wp (check_progs (length l) (p + SIZEOF_PROG_HEADER)) m (fun ok m' => ok = forallb prog_placed l /\ m' = m)) as Hrest.
  { apply IH. intros i y Hy. replace (p + SIZEOF_PROG_HEADER + SIZEOF_PROG_HEADER * Z.of_nat i) with (p + SIZEOF_PROG_HEADER * Z.of_nat (S i)) by lia.
    by apply (Hl (S i)). }
  cbn [forallb]. unfold prog_placed at 1.
  apply wp_bind. eapply wp_reads; [exact X3|]. destruct (Z.eqb_spec (pr_filesz x) 0); [done|]. cbn [orb].
  apply wp_bind. eapply wp_reads; [exact X2|]. apply wp_bind. eapply wp_reads; [exact X1|].
  destruct (pr_vaddr x =? 0); [done|]. cbn [negb orb andb]. by destruct (pr_offset x =? _).
Qed.

Lemma check_sects_ok m l : forall p,
  (forall i x, l !! i = Some x -> sect_at m (p + SIZEOF_SECT_HEADER * Z.of_nat i) x) ->
  wp (check_sects (length l) p) m (fun ok m' => ok = forallb sect_placed l /\ m' = m).
Proof.
  induction l as [|x l IH]; intros p Hl; [done|]. cbn [length check_sects].
  pose proof (Hl 0%nat x eq_refl) as Hx. rewrite Z.mul_0_r, Z.add_0_r in Hx. destruct Hx as [_ X2 X3 X4 _].
  assert (wp (check_sects (length l) (p + SIZEOF_SECT_HEADER)) m (fun ok m' => ok = forallb sect_placed l /\ m' = m)) as Hrest.
  { apply IH. intros i y Hy. replace (p + SIZEOF_SECT_HEADER + SIZEOF_SECT_HEADER * Z.of_nat i) with (p + SIZEOF_SECT_HEADER * Z.of_nat (S i)) by lia.
    by apply (Hl (S i)). }
  cbn [forallb]. unfold sect_placed at 1.
  apply wp_bind. eapply wp_reads; [exact X2|]. destruct (Z.eqb_spec (se_type x) ELF_SHT_PROGBITS); [|done]. cbn [negb orb].
  apply wp_bind. eapply wp_reads; [exact X3|]. apply wp_bind. eapply wp_reads; [exact X4|].
  destruct (se_addr x =? 0); [done|]. cbn [negb orb andb]. by destruct (se_offset x =? _).
Qed.

Lemma elf_check_addrs_ok m h im : image_at m h im -> wp (elf_check_addrs h) m (fun ok m' => ok = placed im /\ m' = m).
Proof.
  intros [H1 H2 H3 H4 _ H6 H7 _]. unfold elf_check_addrs, placed.
  apply wp_bind. eapply wp_reads; [exact H1|]. apply wp_bind. eapply wp_reads; [exact H3|].
  unfold zlength. rewrite Nat2Z.id. apply wp_bind. eapply wp_mono; [by apply check_progs_ok|]. cbv beta. intros ok m' [-> ->].
  destruct (forallb prog_placed _); cbn [negb andb]; [|done].
  apply wp_bind. eapply wp_reads; [exact H2|]. apply wp_bind. eapply wp_reads; [exact H4|].
  unfold zlength. rewrite Nat2Z.id. by apply check_sects_ok.
Qed.

(** ** Names *)

Lemma reach_name m p t n : name_at m p t -> (length t < n)%nat -> exists r, reach n p m = t ++ 0 :: r.
Proof.
  intros [_ Hm] Hn. revert p n Hm Hn. induction t as [|c t IH]; intros p [|n] Hm Hn; simpl in *; try lia.
  - pose proof (Hm 0%nat 0 eq_refl) as H0. rewrite Z.add_0_r in H0. rewrite H0. by eexists.
  - pose proof (Hm 0%nat c eq_refl) as H0. rewrite Z.add_0_r in H0. rewrite H0.
    destruct (IH (p + 1) n) as [r ->]; [|lia|by exists r].
    intros i x Hx. replace (p + 1 + Z.of_nat i) with (p + Z.of_nat (S i)) by lia. by apply Hm.
Qed.

(** A longer name differs before its fifth character or there. *)
Lemma reach_long m p t n : name_at m p t -> (n <= length t)%nat -> reach n p m = take n t.
Proof.
  intros [_ Hm] Hn. revert p n Hm Hn. induction t as [|c t IH]; intros p [|n] Hm Hn; simpl in *; try done; [lia|].
  pose proof (Hm 0%nat c eq_refl) as H0. rewrite Z.add_0_r in H0. rewrite H0. f_equal. apply IH; [|lia].
  intros i x Hx. replace (p + 1 + Z.of_nat i) with (p + Z.of_nat (S i)) by lia. by apply Hm.
Qed.

Lemma strcmp_longer a b rb : text a -> text b -> (length b < length a)%nat -> strcmp a (b ++ 0 :: rb) = Some (lex a b).
Proof.
  revert b. induction a as [|x a IH]; intros [|y b] Ha Hb Hl; simpl in *; try lia.
  - rewrite andb_false_r. f_equal. lia.
  - apply Forall_cons in Ha as [Hx Ha], Hb as [Hy Hb]. rewrite (proj2 (Z.eqb_neq _ _) Hx), (proj2 (Z.eqb_neq _ _) Hy). simpl.
    destruct (Z.eqb_spec x y); simpl; [|done]. apply IH; [done..|lia].
Qed.

Lemma name_is_bss_ok m p t : name_at m p t -> wp (name_is_bss p) m (fun r m' => r = bool_decide (t = chars ".bss") /\ m' = m).
Proof.
  intros Hn. pose proof Hn as [Ht _]. unfold name_is_bss. apply wp_bind, wp_get.
  assert (text (chars ".bss")) as Hb by (repeat constructor; discriminate).
  assert (exists d, strcmp (reach 5 p m) (cstr ".bss") = Some d /\ (d = 0 <-> t = chars ".bss")) as (d & -> & Hd).
  { destruct (Nat.lt_ge_cases (length t) 5) as [Hl|Hl].
    - destruct (reach_name m p t 5 Hn Hl) as [r ->]. exists (lex t (chars ".bss")). split; [by apply strcmp_lex|by apply lex_zero].
    - rewrite (reach_long m p t 5 Hn) by lia. exists (lex (take 5 t) (chars ".bss")).
      split; [apply strcmp_longer; [by apply Forall_take|done|rewrite length_take, Nat.min_l by lia; by vm_compute]|].
      rewrite lex_zero by (done || by apply Forall_take). split; intros H; exfalso.
      + apply (f_equal length) in H. by rewrite length_take, Nat.min_l in H by lia.
      + rewrite H in Hl. simpl in Hl. lia. }
  apply wp_bind, wp_ret, wp_ret. split; [|done]. destruct (Z.eqb_spec d 0) as [H0|H0]; symmetry.
  - apply bool_decide_eq_true. by apply Hd.
  - apply bool_decide_eq_false. by rewrite <- Hd.
Qed.

Lemma zero_bss_ok m shstr l : forall p,
  (forall i x, l !! i = Some x -> sect_at m (p + SIZEOF_SECT_HEADER * Z.of_nat i) x) ->
  (forall x, x ∈ l -> name_at m (shstr + se_name x)%u64 (se_text x)) ->
  (forall x, find (fun x => bool_decide (se_text x = chars ".bss")) l = Some x -> mapped m (se_addr x) (se_size x)) ->
  wp (zero_bss_loop (length l) shstr p) m (fun ok m' =>
    match find (fun x => bool_decide (se_text x = chars ".bss")) l with
    | Some x => ok = true /\ cleared x m m'
    | None => ok = false /\ m' = m
    end).
Proof.
  induction l as [|x l IH]; intros p Hl Hn Hmap; [done|]. cbn [length zero_bss_loop find].
  pose proof (Hl 0%nat x eq_refl) as Hx. rewrite Z.mul_0_r, Z.add_0_r in Hx. destruct Hx as [X1 _ X3 _ X5].
  apply wp_bind. eapply wp_reads; [exact X1|].
  apply wp_bind. eapply wp_mono; [apply name_is_bss_ok, Hn, list_elem_of_here|]. cbv beta. intros r m' [-> ->]. cbn [find] in Hmap.
  destruct (bool_decide (se_text x = chars ".bss")); cbn [negb].
  - apply wp_bind. eapply wp_reads; [exact X3|]. apply wp_bind. eapply wp_reads; [exact X5|].
    apply wp_bind. eapply wp_mono; [by apply memset_ok, Hmap|]. cbv beta. intros ? m' [_ Hm']. apply wp_ret. split; [done|]. exact Hm'.
  - apply IH; [|intros y Hy; by apply Hn, list_elem_of_further|done].
    intros i y Hy. replace (p + SIZEOF_SECT_HEADER + SIZEOF_SECT_HEADER * Z.of_nat i) with (p + SIZEOF_SECT_HEADER * Z.of_nat (S i)) by lia.
    by apply (Hl (S i)).
Qed.

Lemma check_and_finalise_ok m h im :
  image_at m h im -> (forall x, bss im = Some x -> mapped m (se_addr x) (se_size x)) ->
  wp (check_and_finalise h) m (fun ok m' =>
    match (if placed im then bss im else None) with
    | Some x => ok = true /\ cleared x m m'
    | None => ok = false /\ m' = m
    end).
Proof.
  intros Him Hmap. unfold check_and_finalise. apply wp_bind. eapply wp_mono; [by apply elf_check_addrs_ok|]. cbv beta. intros ok m' [-> ->].
  destruct (placed im); cbn [negb]; [|done]. destruct Him as [_ H2 _ H4 H5 _ H7 (strs & Hs & Hoff & Hn)]. unfold elf_zero_bss.
  apply wp_bind. eapply wp_reads; [exact H2|]. apply wp_bind. eapply wp_reads; [exact H5|].
  apply wp_bind. eapply wp_reads; [exact Hoff|]. apply wp_bind. eapply wp_reads; [exact H4|].
  unfold zlength. rewrite Nat2Z.id. by apply zero_bss_ok.
Qed.

Lemma max_step ret e : (if ret <? e then e else ret) = Z.max ret e.
Proof. destruct (Z.ltb_spec ret e); lia. Qed.

Lemma progs_end_ok m l : forall p ret,
  (forall i x, l !! i = Some x -> prog_at m (p + SIZEOF_PROG_HEADER * Z.of_nat i) x) -> 0 <= ret ->
  wp (progs_end (length l) p ret) m (fun r m' => r = Z.max ret (foldr Z.max 0 ((fun x => (pr_offset x + pr_memsz x)%u64) <$> l)) /\ m' = m).
Proof.
  induction l as [|x l IH]; intros p ret Hl Hret; cbn [length progs_end]; [apply wp_ret; simpl; split; [lia|done]|].
  pose proof (Hl 0%nat x eq_refl) as Hx. rewrite Z.mul_0_r, Z.add_0_r in Hx. destruct Hx as [X1 _ _ X4].
  apply wp_bind. eapply wp_reads; [exact X1|]. apply wp_bind. eapply wp_reads; [exact X4|]. rewrite max_step.
  eapply wp_mono; [apply IH|].
  - intros i y Hy. replace (p + SIZEOF_PROG_HEADER + SIZEOF_PROG_HEADER * Z.of_nat i) with (p + SIZEOF_PROG_HEADER * Z.of_nat (S i)) by lia.
    by apply (Hl (S i)).
  - lia.
  - cbv beta. intros r m' [-> ->]. rewrite fmap_cons. cbn [foldr]. split; [lia|done].
Qed.

Lemma sects_end_ok m l : forall p ret,
  (forall i x, l !! i = Some x -> sect_at m (p + SIZEOF_SECT_HEADER * Z.of_nat i) x) -> 0 <= ret ->
  wp (sects_end (length l) p ret) m (fun r m' =>
    r = Z.max ret (foldr Z.max 0 ((fun x => (se_offset x + se_size x)%u64) <$> filter (fun x => se_type x <> ELF_SHT_NOBITS) l)) /\ m' = m).
Proof.
  induction l as [|x l IH]; intros p ret Hl Hret; cbn [length sects_end]; [apply wp_ret; rewrite filter_nil; simpl; split; [lia|done]|].
  pose proof (Hl 0%nat x eq_refl) as Hx. rewrite Z.mul_0_r, Z.add_0_r in Hx. destruct Hx as [_ X2 _ X4 X5].
  assert (forall i y, l !! i = Some y -> sect_at m (p + SIZEOF_SECT_HEADER + SIZEOF_SECT_HEADER * Z.of_nat i) y) as Hl'.
  { intros i y Hy. replace (p + SIZEOF_SECT_HEADER + SIZEOF_SECT_HEADER * Z.of_nat i) with (p + SIZEOF_SECT_HEADER * Z.of_nat (S i)) by lia.
    by apply (Hl (S i)). }
  apply wp_bind. eapply wp_reads; [exact X2|]. rewrite filter_cons.
  destruct (Z.eqb_spec (se_type x) ELF_SHT_NOBITS) as [He|He]; [rewrite decide_False by tauto; by apply IH|rewrite decide_True by done].
  apply wp_bind. eapply wp_reads; [exact X4|]. apply wp_bind. eapply wp_reads; [exact X5|]. rewrite max_step.
  eapply wp_mono; [apply IH; [done|lia]|]. cbv beta. intros r m' [-> ->]. rewrite fmap_cons. cbn [foldr]. split; [lia|done].
Qed.

Lemma max_list_nonneg l : 0 <= foldr Z.max 0 l.
Proof. induction l; simpl; lia. Qed.

Lemma elf_get_size_bytes_ok m h im : image_at m h im -> wp (elf_get_size_bytes buf h) m (fun r m' => r = image_end im /\ m' = m).
Proof.
  intros [H1 H2 H3 H4 _ H6 H7 _]. unfold elf_get_size_bytes, image_end.
  apply wp_bind. eapply wp_reads; [exact H1|]. apply wp_bind. eapply wp_reads; [exact H3|].
  unfold zlength. rewrite Nat2Z.id. apply wp_bind. eapply wp_mono; [by apply progs_end_ok|]. cbv beta. intros r m' [-> ->].
  apply wp_bind. eapply wp_reads; [exact H2|]. apply wp_bind. eapply wp_reads; [exact H4|].
  unfold zlength. rewrite Nat2Z.id. eapply wp_mono; [apply sects_end_ok; [done|lia]|]. cbv beta. intros r' m' [-> ->]. split; [|done].
  pose proof (max_list_nonneg ((fun x => (pr_offset x + pr_memsz x)%u64) <$> i_progs im)). lia.
Qed.

(** ** The drive: what the standard says *)

(** What a channel with its drives is doing: nothing, or giving the [n] sectors from
    [lba], of which the first is ready once the drive is not busy. *)
Inductive ata_phase := Idle | Giving (lba n : Z).

(** The device register, the other registers written, the latest first (each
    keeps its last two values), and the phase. *)
Record ata_state := mk_ata { a_device : Z; a_log : list (Z * Z); a_phase : ata_phase }.

Definition reg (p : Z) (k : nat) (a : ata_state) : Z := nth k (snd <$> filter (fun w => w.1 = p) (a_log a)) 0.

Definition log_write (p v : Z) (a : ata_state) : ata_state :=
  if p =? 0x1f6 then mk_ata v (a_log a) (a_phase a) else mk_ata (a_device a) ((p, v) :: a_log a) (a_phase a).

Definition a_lba (a : ata_state) : Z :=
  reg 0x1f3 0 a + 2 ^ 8 * reg 0x1f4 0 a + 2 ^ 16 * reg 0x1f5 0 a + 2 ^ 24 * reg 0x1f3 1 a + 2 ^ 32 * reg 0x1f4 1 a + 2 ^ 40 * reg 0x1f5 1 a.

(** A count of 0 asks for 65536 sectors. *)
Definition a_count (a : ata_state) : Z :=
  let c := reg 0x1f2 0 a + 256 * reg 0x1f2 1 a in if c =? 0 then 65536 else c.

Definition start_read (a : ata_state) : ata_state := mk_ata (a_device a) (a_log a) (Giving (a_lba a) (a_count a)).

Definition next_sector (a : ata_state) : ata_state :=
  mk_ata (a_device a) (a_log a)
    match a_phase a with
    | Idle => Idle
    | Giving lba n => if n =? 1 then Idle else Giving (lba + 1) (n - 1)
    end.

(** The device register selects the first drive, and takes addresses as LBA. *)
Definition master (a : ata_state) : Prop := Z.testbit (a_device a) 4 = false.

Definition lba_mode (a : ata_state) : Prop := Z.testbit (a_device a) 6 = true.

(** A channel with the first drive, with the sectors [disk], and perhaps, if
    [slave], a second one. Reading the status shows BSY while the drive is busy,
    which takes less than [patience] reads, and after that RDY, if the drive that is
    selected is there. A register is written, and READ SECTORS EXT starts a read
    from the first drive, if the channel is idle and not busy; 128 dwords from the
    data port are a sector if one is ready. (A disk without errors that knows 48-bit
    addresses.) *)
Class AtaDrive {D} (ata : ata_drive D) (patience : nat) (slave : bool) (disk : Z -> list Z) := {
  ad_view : D -> ata_state;
  ad_busy : D -> nat;
  ad_disk lba : length (disk lba) = 512%nat /\ Forall is_u8 (disk lba);
  ad_patient d : (ad_busy d < patience)%nat;
  ad_status_busy d : ad_busy d <> 0%nat ->
    Z.testbit (drive_status ata d).1 7 = true /\
    ad_view (drive_status ata d).2 = ad_view d /\ (ad_busy (drive_status ata d).2 < ad_busy d)%nat;
  ad_status_ready d : ad_busy d = 0%nat -> master (ad_view d) \/ slave = true ->
    Z.land (drive_status ata d).1 0xc0 = 0x40 /\
    ad_view (drive_status ata d).2 = ad_view d /\ ad_busy (drive_status ata d).2 = 0%nat;
  ad_reg p v d : 0x1f2 <= p <= 0x1f6 -> ad_busy d = 0%nat -> a_phase (ad_view d) = Idle ->
    ad_view (drive_out ata p v d) = log_write p v (ad_view d) /\ ad_busy (drive_out ata p v d) = 0%nat;
  ad_read d : ad_busy d = 0%nat -> a_phase (ad_view d) = Idle -> master (ad_view d) -> lba_mode (ad_view d) ->
    ad_view (drive_out ata 0x1f7 0x24 d) = start_read (ad_view d);
  ad_data lba n d : ad_busy d = 0%nat -> a_phase (ad_view d) = Giving lba n -> 0 < n -> master (ad_view d) ->
    (drive_insl ata 128 d).1 = disk lba /\ ad_view (drive_insl ata 128 d).2 = next_sector (ad_view d);
}.

(** ** Lemmas on the drive *)

Section drive.
Context {D : Type} (ata : ata_drive D) (patience : nat) (slave : bool) (disk : Z -> list Z) {A : AtaDrive ata patience slave disk}.

Abbreviation view s := (ad_view (drive s)).
Abbreviation busy s := (ad_busy (drive s)).

(** A drive that is there is selected, and the channel is idle. *)
Definition at_rest (s : loader D) : Prop := a_phase (view s) = Idle /\ (master (view s) \/ slave = true).

Lemma wp_load_op {B} (m : MB B) s Q :
  wp m (mem s) (fun a b => Q a (mk_loader b (drive s) (kernel_elf_size_bytes s))) -> wp (mem_op (D := D) m) s Q.
Proof. unfold wp, mem_op, zoom. by destruct (m (mem s)). Qed.

Lemma wait_loop_ok n s : (busy s < n)%nat -> master (view s) \/ slave = true -> wp (wait_loop ata n) s (fun _ s' =>
  mem s' = mem s /\ kernel_elf_size_bytes s' = kernel_elf_size_bytes s /\ view s' = view s /\ busy s' = 0%nat).
Proof.
  revert s. induction n as [|n IH]; intros s Hb Hthere; [lia|]. cbn [wait_loop]. apply wp_bind. unfold wp at 1, inb_status.
  pose proof (ad_status_busy (drive s)) as Hbusy. pose proof (ad_status_ready (drive s)) as Hready.
  destruct (drive_status ata (drive s)) as [st d]. cbn [fst snd] in *.
  destruct (decide (busy s = 0%nat)) as [E|E].
  - destruct (Hready E Hthere) as (-> & Hv & Hd). by apply wp_ret.
  - destruct (Hbusy E) as (H7 & Hv & Hd).
    assert ((Z.land st 0xc0 =? 0x40) = false) as ->.
    { apply Z.eqb_neq. intros Hl. assert (Z.testbit (Z.land st 0xc0) 7 = true) as Ht by by rewrite Z.land_spec, H7. by rewrite Hl in Ht. }
    cbn [negb]. eapply wp_mono; [apply IH; cbn [drive]; [lia|by rewrite Hv]|]. cbv beta. cbn [mem drive kernel_elf_size_bytes].
    intros _ s' (-> & -> & -> & Hs). done.
Qed.

Lemma wait_ok s : master (view s) \/ slave = true -> wp (wait_disk_ready ata patience) s (fun _ s' =>
  mem s' = mem s /\ kernel_elf_size_bytes s' = kernel_elf_size_bytes s /\ view s' = view s /\ busy s' = 0%nat).
Proof using A. apply wait_loop_ok, ad_patient. Qed.

Lemma outb_ok p v s : 0x1f2 <= p <= 0x1f6 -> busy s = 0%nat -> a_phase (view s) = Idle -> wp (outb ata p v) s (fun _ s' =>
  mem s' = mem s /\ kernel_elf_size_bytes s' = kernel_elf_size_bytes s /\ view s' = log_write p (u8 v) (view s) /\
  busy s' = 0%nat /\ a_phase (view s') = Idle).
Proof using A.
  intros Hp Hb Hi. apply wp_modify. cbn [mem drive kernel_elf_size_bytes]. split; [done|]. split; [done|].
  unfold u16. rewrite (wrap_small 16 p) by (unfold is_u; lia). destruct (ad_reg p (u8 v) (drive s) Hp Hb Hi) as [-> ->].
  split; [done|]. split; [done|]. unfold log_write. by case_match.
Qed.

Lemma store_bytes_ok l : forall p m, mapped m p (zlength l) -> Forall is_u8 l ->
  wp (store_bytes p l) m (fun _ m' => forall a, m' !! a = if decide (p <= a < p + zlength l) then l !! Z.to_nat (a - p) else m !! a).
Proof.
  induction l as [|b l IH]; intros p m Hm Hl; unfold zlength in *; cbn [store_bytes length] in *.
  { apply wp_ret. intros a. by rewrite decide_False by lia. }
  apply Forall_cons in Hl as [Hb Hl]. destruct (Hm 0) as (b0 & E0 & _); [lia|]. rewrite Z.add_0_r in E0.
  apply wp_bind. eapply wp_mono; [apply store_byte_ok; by exists b0|]. cbv beta. intros _ m1 ->.
  eapply wp_mono; [apply IH; [|done]|].
  - intros i Hi. destruct (Hm (1 + i)) as (c & Ec & Hc); [lia|]. exists c. split; [|done].
    rewrite lookup_insert_ne by lia. by replace (p + 1 + i) with (p + (1 + i)) by lia.
  - cbv beta. intros _ m2 Hm2 a. rewrite Hm2. destruct (decide (a = p)) as [->|Hne].
    + rewrite decide_False by lia. rewrite lookup_insert_eq, decide_True by lia. rewrite Z.sub_diag. simpl. f_equal. by apply wrap_small.
    + rewrite lookup_insert_ne by done. repeat case_decide; try lia; [|done].
      replace (Z.to_nat (a - p)) with (S (Z.to_nat (a - (p + 1)))) by lia. done.
Qed.

Lemma reg_write p q v k d l f :
  reg p k (mk_ata d ((q, v) :: l) f) = if q =? p then match k with O => v | S k' => reg p k' (mk_ata d l f) end else reg p k (mk_ata d l f).
Proof.
  unfold reg. cbn [a_log]. rewrite filter_cons. cbn [fst].
  destruct (Z.eqb_spec q p); [rewrite decide_True by done|by rewrite decide_False]. rewrite fmap_cons. by destruct k.
Qed.

Lemma select_write v d l f : log_write 0x1f6 v (mk_ata d l f) = mk_ata v l f.
Proof. done. Qed.

Lemma data_write p v d l f : p <> 0x1f6 -> log_write p v (mk_ata d l f) = mk_ata d ((p, v) :: l) f.
Proof. intros Hp. unfold log_write. by rewrite (proj2 (Z.eqb_neq _ _)). Qed.

Lemma byte_at x k : 0 <= x -> 0 <= k -> u8 (x >> k)%u64 = x / 2 ^ k mod 2 ^ 8.
Proof. intros. unfold u8, wrap. by rewrite Z.shiftr_div_pow2. Qed.

(** The registers after the writes of [read_sectors_lba48]. *)
Lemma registers_ok a offset count : 0 <= offset < 2 ^ 48 -> 0 <= count < 2 ^ 16 ->
  let a' := log_write 0x1f5 (u8 (offset >> 16)%u64) (log_write 0x1f4 (u8 (offset >> 8)%u64) (log_write 0x1f3 (u8 offset) (log_write 0x1f2 (u8 count)
    (log_write 0x1f5 (u8 (offset >> 40)%u64) (log_write 0x1f4 (u8 (offset >> 32)%u64) (log_write 0x1f3 (u8 (offset >> 24)%u64)
    (log_write 0x1f2 (u8 (count >> 8)%u64) (log_write 0x1f6 (u8 0x40) a)))))))) in
  a_lba a' = offset /\ (a_count a' = if count =? 0 then 65536 else count) /\ master a' /\ lba_mode a'.
Proof.
  intros Ho Hc a'. subst a'. destruct a as [d l f]. rewrite select_write, !data_write by done. unfold a_lba, a_count. rewrite !reg_write, !byte_at by lia. cbn [Z.eqb Pos.eqb]. unfold u8, wrap. split; [|split; [|done]].
  - Z.div_mod_to_equations. lia.
  - replace (count mod 2 ^ 8 + 256 * (count / 2 ^ 8 mod 2 ^ 8)) with count; [done|]. Z.div_mod_to_equations. lia.
Qed.

(** A read was asked for: the drive has [n] sectors from [lba] to give. *)
Definition asked (s s' : loader D) (lba n : Z) : Prop :=
  mem s' = mem s /\ kernel_elf_size_bytes s' = kernel_elf_size_bytes s /\ a_phase (view s') = Giving lba n /\ busy s' = 0%nat /\ master (view s').

(** The phase with [n] sectors to give. *)
Definition left_phase (lba n : Z) : ata_phase := if n =? 0 then Idle else Giving lba n.

(** The loop over the sectors. *)
Lemma sector_loop_ok ptr offset count s :
  0 <= count -> mapped (mem s) ptr (512 * count) -> a_phase (view s) = left_phase offset count -> busy s = 0%nat -> master (view s) ->
  wp (for_loop (Z.to_nat count) 0 (fun i => insl ata (ptr + SECTOR_SIZE_BYTES * i) (SECTOR_SIZE_BYTES / 4);; wait_disk_ready ata patience)) s
    (fun _ s' => kernel_elf_size_bytes s' = kernel_elf_size_bytes s /\ at_rest s' /\
      forall a, mem s' !! a = if decide (ptr <= a < ptr + 512 * count)
        then disk (offset + (a - ptr) / 512) !! Z.to_nat ((a - ptr) mod 512) else mem s !! a).
Proof using A.
  intros Hc Hmap Hp Hr Hma.
  set (I (k : nat) (s' : loader D) := (busy s' = 0%nat /\ master (view s')) /\ kernel_elf_size_bytes s' = kernel_elf_size_bytes s /\
    a_phase (view s') = left_phase (offset + Z.of_nat k) (count - Z.of_nat k) /\
    forall a, mem s' !! a = if decide (ptr <= a < ptr + 512 * Z.of_nat k)
      then disk (offset + (a - ptr) / 512) !! Z.to_nat ((a - ptr) mod 512) else mem s !! a).
  eapply wp_mono; [apply (wp_for_loop I)|].
  - split; [done|]. split; [done|]. split; [rewrite Hp; f_equal; lia|]. intros a. by rewrite decide_False by lia.
  - intros k s1 Hk ([R1 R1'] & S1 & P1 & M1). rewrite Z.add_0_l. unfold left_phase in P1. rewrite (proj2 (Z.eqb_neq _ _)) in P1 by lia.
    pose proof (ad_data _ _ _ R1 P1 ltac:(lia) R1') as [Hdata Hpend]. destruct (ad_disk (offset + Z.of_nat k)) as [Hlen Hbytes].
    unfold insl. apply wp_bind, wp_bind. change (SECTOR_SIZE_BYTES / 4) with 128. change SECTOR_SIZE_BYTES with 512. unfold wp at 1.
    destruct (drive_insl ata 128 (drive s1)) as [l d]. cbn [fst snd] in *. subst l.
    apply wp_load_op. cbn [mem drive kernel_elf_size_bytes]. eapply wp_mono; [apply store_bytes_ok; [|done]|].
    + intros i Hi. unfold zlength in Hi. rewrite Hlen in Hi. destruct (Hmap (512 * Z.of_nat k + i)) as (b & Eb & Hb); [lia|].
      exists b. split; [|done]. rewrite M1, decide_False by lia. by replace (ptr + 512 * Z.of_nat k + i) with (ptr + (512 * Z.of_nat k + i)) by lia.
    + cbv beta. unfold zlength. rewrite Hlen. intros _ m1 Hm1.
      assert (master (ad_view d)) as Hmd by (rewrite Hpend; exact R1').
      eapply wp_mono; [apply wait_ok; by left|]. cbv beta. cbn [mem drive kernel_elf_size_bytes]. intros _ s2 (E1 & E2 & E3 & E4).
      split; [split; [done|by rewrite E3]|]. split; [congruence|]. split.
      * rewrite E3, Hpend. unfold next_sector, left_phase. cbn [a_phase]. rewrite P1.
        destruct (Z.eqb_spec (count - Z.of_nat k) 1), (Z.eqb_spec (count - Z.of_nat (S k)) 0); try done; try lia. f_equal; lia.
      * intros a. rewrite E1, Hm1, M1. replace (Z.of_nat (S k)) with (Z.of_nat k + 1) by lia. set (k' := Z.of_nat k) in *.
        destruct (decide (ptr + 512 * k' <= a < ptr + 512 * k' + Z.of_nat 512)) as [Ha|Ha].
        -- rewrite decide_True by lia. replace ((a - ptr) / 512) with k' by (apply Z.div_unique with (a - ptr - 512 * k'); lia).
           f_equal. f_equal. apply Z.mod_unique with k'; lia.
        -- repeat case_decide; try done; lia.
  - cbv beta. intros _ s' ([_ R'] & S' & P' & M'). split; [done|]. split.
    + split; [|by left]. rewrite P'. unfold left_phase. by rewrite (proj2 (Z.eqb_eq _ _)) by lia.
    + intros a. rewrite M'. by rewrite Z2Nat.id by lia.
Qed.

Lemma ask_ok ptr offset count s Q : at_rest s -> 0 <= offset < 2 ^ 48 -> 0 <= count < 2 ^ 16 ->
  (forall s', asked s s' offset (if count =? 0 then 65536 else count) ->
    wp (for_loop (Z.to_nat count) 0 (fun i => insl ata (ptr + SECTOR_SIZE_BYTES * i) (SECTOR_SIZE_BYTES / 4);; wait_disk_ready ata patience)) s' Q) ->
  wp (read_sectors_lba48 ata patience ptr offset count) s Q.
Proof using A.
  intros [Hi Hthere] Ho Hc HQ. unfold read_sectors_lba48. apply wp_bind. eapply wp_mono; [by apply wait_ok|]. cbv beta.
  intros _ s0 (M0 & S0 & V0 & B0). rewrite <- V0 in Hi, Hthere.
  do 9 (apply wp_bind; eapply wp_mono; [apply outb_ok; [lia|done|done]|]; cbv beta; intros _ ? (? & ? & ? & ? & ?)).
  match goal with H : view ?x = log_write _ _ _ |- wp _ ?x _ => rename x into s9 end.
  match type of V0 with view ?x = _ =>
    assert (a_lba (view s9) = offset /\ (a_count (view s9) = if count =? 0 then 65536 else count) /\ master (view s9) /\ lba_mode (view s9)) as (E1 & E2 & E3 & E4)
      by (repeat match goal with H : view ?y = log_write _ _ _ |- context [ad_view (drive ?y)] => rewrite H end; by apply registers_ok)
  end.
  apply wp_bind, wp_modify. change (u16 0x1f7) with 0x1f7. change (u8 0x24) with 0x24.
  assert (ad_view (drive_out ata 0x1f7 0x24 (drive s9)) = start_read (view s9)) as E by by apply ad_read.
  apply wp_bind. eapply wp_mono; [apply wait_ok; left; cbn [drive]; by rewrite E|]. cbv beta. cbn [mem drive kernel_elf_size_bytes].
  intros _ s10 (M1 & S1 & V1 & B1). rewrite E in V1.
  apply HQ. split; [congruence|]. split; [congruence|]. rewrite V1. split; [|done]. cbn [start_read a_phase]. by rewrite E1, E2.
Qed.

(** Reading sectors puts them in memory, and changes nothing else. *)
Lemma read_sectors_ok ptr offset count s : at_rest s -> 0 <= offset < 2 ^ 48 -> 0 <= count < 2 ^ 16 -> mapped (mem s) ptr (512 * count) ->
  wp (read_sectors_lba48 ata patience ptr offset count) s (fun _ s' => kernel_elf_size_bytes s' = kernel_elf_size_bytes s /\ (0 < count -> at_rest s') /\
    forall a, mem s' !! a = if decide (ptr <= a < ptr + 512 * count)
      then disk (offset + (a - ptr) / 512) !! Z.to_nat ((a - ptr) mod 512) else mem s !! a).
Proof using A.
  intros Hi Ho Hc Hm. apply ask_ok; [done|done|done|]. intros s1 (M1 & S1 & P1 & B1 & E1).
  destruct (Z.eqb_spec count 0) as [->|Hne].
  { apply wp_ret. split; [done|]. split; [done|]. intros a. by rewrite decide_False, M1 by lia. }
  eapply wp_mono; [apply (sector_loop_ok ptr offset count s1); [lia|by rewrite M1| |done|done]|].
  - rewrite P1. unfold left_phase. by rewrite (proj2 (Z.eqb_neq _ _)).
  - cbv beta. intros _ s2 (S2 & R2 & M2). split; [congruence|]. split; [done|]. intros a. by rewrite M2, M1.
Qed.

(** With a count of 0 nothing is read, and the drive is left with 65536 sectors to
    give. *)
Lemma read_no_sectors ptr offset s : at_rest s -> 0 <= offset < 2 ^ 48 ->
  wp (read_sectors_lba48 ata patience ptr offset 0) s (fun _ s' => mem s' = mem s /\ a_phase (view s') = Giving offset 65536).
Proof using A. intros Hi Ho. apply ask_ok; [done|done|lia|]. intros s1 (M1 & _ & P1 & _). by apply wp_ret. Qed.

(** ** Specification: loading *)

(** The bytes [file] are at [p], [n] of them. *)
Definition in_memory (file : Z -> Z) (m : bytes) (p n : Z) : Prop := forall i, 0 <= i < n -> m !! (p + i) = Some (file i).

(** The file follows the boot sectors. *)
Definition on_disk (file : Z -> Z) : Prop :=
  forall j i, 0 <= j -> 0 <= i < 512 -> disk (BOOT_SECTORS + j) !! Z.to_nat i = Some (file (512 * j + i)).

(** The first [n] bytes of the file have its headers, which describe [im]. *)
Record file_image (file : Z -> Z) (n : Z) (im : image) : Prop := {
  fi_byte : forall i, is_u8 (file i);
  fi_image : forall m, in_memory file m buf n -> image_at m buf im;
  fi_entry : forall m, in_memory file m buf 64 -> reads m (e_entry buf) (i_entry im);
  fi_bss : forall x, bss im = Some x -> buf + 64 <= se_addr x;
}.

(** Memory is as in [s], but for the file's [n] bytes at [buf]. *)
Definition loaded (file : Z -> Z) (n : Z) (s s' : loader D) : Prop :=
  forall a, mem s' !! a = if decide (buf <= a < buf + n) then Some (file (a - buf)) else mem s !! a.

(** The end of a load: where it jumps, with [.bss] clear, if the image is placed
    and has a [.bss]; otherwise it returns. *)
Definition load_done (file : Z -> Z) (n : Z) (im : image) (s : loader D) (r : option Z) (s' : loader D) : Prop :=
  kernel_elf_size_bytes s' = n /\
  match (if placed im then bss im else None) with
  | Some x => r = Some (i_entry im) /\ exists m1, loaded file n s (mk_loader m1 (drive s) n) /\ cleared x m1 (mem s')
  | None => r = None /\ loaded file n s s'
  end.

Lemma loaded_mapped file n s s' p k : (forall i, is_u8 (file i)) -> loaded file n s s' -> mapped (mem s) p k -> mapped (mem s') p k.
Proof.
  intros Hf Hl Hm i Hi. rewrite Hl. case_decide; [eexists; split; [done|apply Hf]|by apply Hm].
Qed.

Lemma loaded_in_memory file n s s' : loaded file n s s' -> in_memory file (mem s') buf n.
Proof. intros Hl i Hi. rewrite Hl, decide_True by lia. do 2 f_equal. lia. Qed.

Lemma load_ok (load_elf_image : M (loader D) (option Z)) file n im s :
  file_image file n im -> 64 <= n -> (forall x, bss im = Some x -> mapped (mem s) (se_addr x) (se_size x)) ->
  wp load_elf_image s (fun r s' => r = Some buf /\ loaded file n s s' /\ kernel_elf_size_bytes s' = n) ->
  wp (load load_elf_image) s (load_done file n im s).
Proof.
  intros [F1 F2 F3 F4] Hn Hbss Hload. unfold load. apply wp_bind. eapply wp_mono; [exact Hload|]. cbv beta. intros r s1 (-> & Hl & Hsz).
  cbn [default]. apply wp_bind, wp_load_op. pose proof (loaded_in_memory _ _ _ _ Hl) as Hin.
  eapply wp_mono; [apply (check_and_finalise_ok (mem s1) buf im); [by apply F2|]|].
  { intros x Hx. eapply loaded_mapped; [done..|]. by apply Hbss. }
  cbv beta. intros ok m' Hok. unfold load_done. destruct (if placed im then bss im else None) as [x|] eqn:Ex.
  - destruct Hok as [-> Hcl]. cbn [negb]. apply wp_bind, wp_load_op. cbn [mem drive kernel_elf_size_bytes].
    eapply wp_reads; [apply F3|].
    + intros i Hi. rewrite Hcl, decide_False by (destruct (placed im); [apply F4 in Ex; lia|done]). apply Hin. lia.
    + apply wp_ret. cbn [mem kernel_elf_size_bytes]. split; [done|]. split; [done|]. exists (mem s1). split; [exact Hl|exact Hcl].
  - destruct Hok as [-> ->]. cbn [negb]. apply wp_ret. split; [done|]. split; [done|]. exact Hl.
Qed.

(** *** From where the BIOS put it *)

Lemma copy_ok file n s :
  kernel_elf_size_bytes s = n -> 0 <= n < 2 ^ 40 -> (forall i, is_u8 (file i)) ->
  in_memory file (mem s) BIOS_KERNEL_ELF_LOAD_PHYS_ADDRESS n -> mapped (mem s) buf n ->
  wp copy_kernel_elf_image s (fun r s' => r = Some buf /\ loaded file n s s' /\ kernel_elf_size_bytes s' = n).
Proof.
  intros Hsz Hn Hf Hin Hm. unfold copy_kernel_elf_image. apply wp_bind, wp_gets. rewrite Hsz. apply wp_bind, wp_load_op.
  assert (buf = 0xffffc00001000000) as Eb by done. assert (BIOS_KERNEL_ELF_LOAD_PHYS_ADDRESS = 0x8600) as Es by done.
  eapply wp_mono; [apply memcpy_ok; [exact Hm| |rewrite Es; fold buf; lia]|].
  - intros i Hi. exists (file i). split; [by apply Hin|apply Hf].
  - cbv beta. intros _ m' [_ Hm']. apply wp_ret. split; [done|]. split; [|done]. intros a. cbn [mem]. rewrite Hm'. fold buf.
    case_decide; [|done]. by rewrite Hin by lia.
Qed.

(** *** From the disk *)

(** The sectors up to the end of the section headers. *)
Definition header_sectors (im : image) : Z := (i_shoff im + 64 * zlength (i_sects im) + 511) / 512.

(** The headers say where the section headers end. *)
Record disk_image (file : Z -> Z) (im : image) : Prop := {
  di_header : forall m, in_memory file m buf 512 -> reads m (e_magic buf) ELF_MAGIC_NUMBER /\ reads m (e_phoff buf) (i_phoff im) /\
    reads m (e_shoff buf) (i_shoff im) /\ reads m (e_shnum buf) (zlength (i_sects im));
  di_order : 0 <= i_phoff im <= i_shoff im;
  di_size : 1 <= header_sectors im < 2 ^ 16;
}.

Lemma read_file_ok file j count s :
  at_rest s -> on_disk file -> 0 <= j < 2 ^ 40 -> 0 <= count < 2 ^ 16 -> mapped (mem s) (buf + 512 * j) (512 * count) ->
  wp (read_sectors_lba48 ata patience (buf + 512 * j) (BOOT_SECTORS + j) count) s (fun _ s' =>
    kernel_elf_size_bytes s' = kernel_elf_size_bytes s /\ (0 < count -> at_rest s') /\
    forall a, mem s' !! a = if decide (buf + 512 * j <= a < buf + 512 * (j + count)) then Some (file (a - buf)) else mem s !! a).
Proof using A.
  intros Hr Hd Hj Hc Hm. eapply wp_mono; [apply read_sectors_ok; [done|unfold BOOT_SECTORS; lia|done|done]|]. cbv beta. intros _ s' (S' & R' & M').
  split; [done|]. split; [done|]. intros a. rewrite M'. repeat case_decide; try lia; [|done]. set (d := a - (buf + 512 * j)).
  pose proof (Z.div_mod d 512 ltac:(lia)). pose proof (Z.mod_pos_bound d 512 eq_refl). pose proof (Z.div_pos d 512 ltac:(lia) eq_refl).
  rewrite <- Z.add_assoc, Hd by lia. do 2 f_equal. lia.
Qed.

(** The sizes [load1] computes do not wrap. *)
Lemma header_bytes_ok im : 0 <= i_shoff im -> 1 <= header_sectors im < 2 ^ 16 ->
  u32 (ALIGN_UP (u32 (i_shoff im + zlength (i_sects im) * SIZEOF_SECT_HEADER)%u64) SECTOR_SIZE_BYTES) = 512 * header_sectors im.
Proof.
  intros Ho Hk. unfold header_sectors in *. pose proof (zlength_nonneg (i_sects im)). set (e := i_shoff im + 64 * zlength (i_sects im)) in *.
  pose proof (Z.div_mod (e + 511) 512 ltac:(lia)). pose proof (Z.mod_pos_bound (e + 511) 512 eq_refl).
  assert ((i_shoff im + zlength (i_sects im) * SIZEOF_SECT_HEADER)%u64 = e) as ->.
  { unfold SIZEOF_SECT_HEADER, mul64. rewrite (u64_small (_ * _)) by (unfold is_u; lia). rewrite add64_small by (unfold is_u; lia). lia. }
  unfold u32. rewrite (wrap_small 32 e) by (unfold is_u; lia). change SECTOR_SIZE_BYTES with (2 ^ 9).
  rewrite ALIGN_UP_pow by (unfold is_u; lia). change (2 ^ 9) with 512. replace (e + 512 - 1) with (e + 511) by lia.
  rewrite wrap_small by (unfold is_u; lia). lia.
Qed.

Lemma load1_ok file im s (n := 512 * header_sectors im) :
  at_rest s -> on_disk file -> (forall i, is_u8 (file i)) -> disk_image file im -> mapped (mem s) buf n ->
  wp (load1 ata patience buf) s (fun st s' => st = mk_load (Some buf) n (header_sectors im) /\ loaded file n s s' /\
    kernel_elf_size_bytes s' = kernel_elf_size_bytes s).
Proof using A.
  intros Hr Hd Hf [I1 I2 I3] Hm. unfold load1. set (k := header_sectors im) in *.
  assert (mapped (mem s) (buf + 512 * 0) (512 * 1)) as Hm0 by (intros i Hi; rewrite Z.mul_0_r, Z.add_0_r; apply Hm; unfold n; lia).
  pose proof (read_file_ok file 0 1 s Hr Hd ltac:(lia) ltac:(lia) Hm0) as Hr1. rewrite !Z.mul_0_r, !Z.add_0_r in Hr1.
  apply wp_bind. eapply wp_mono; [exact Hr1|]. cbv beta. intros _ s1 (S1 & R & M1). specialize (R eq_refl). change (512 * (0 + 1)) with 512 in M1.
  destruct (I1 (mem s1)) as (R1 & R2 & R3 & R4).
  { intros i Hi. rewrite M1, decide_True by lia. do 2 f_equal. lia. }
  apply wp_bind, wp_load_op. eapply wp_reads; [exact R1|]. cbn [Z.eqb negb]. rewrite Z.eqb_refl. cbn [negb].
  apply wp_bind, wp_load_op. eapply wp_reads; [exact R2|]. apply wp_bind, wp_load_op. eapply wp_reads; [exact R3|]. cbn [mem drive kernel_elf_size_bytes].
  rewrite (proj2 (Z.ltb_ge _ _)) by lia. apply wp_bind, wp_load_op. eapply wp_reads; [exact R4|]. cbn [mem drive kernel_elf_size_bytes].
  rewrite header_bytes_ok by (done || lia). fold k n. change SECTOR_SIZE_BYTES with 512.
  assert (n / 512 = k) as -> by (unfold n; rewrite Z.mul_comm; by apply Z.div_mul).
  unfold u16. rewrite (wrap_small 16 k), (wrap_small 16 (k - 1)) by (unfold is_u; lia).
  match goal with |- wp _ ?x _ => set (s2 := x) end.
  assert (mapped (mem s2) (buf + 512 * 1) (512 * (k - 1))) as Hm2.
  { intros i Hi. cbn [mem s2]. rewrite M1, decide_False by lia. replace (buf + 512 * 1 + i) with (buf + (512 + i)) by lia. apply Hm. unfold n. lia. }
  pose proof (read_file_ok file 1 (k - 1) s2 R Hd ltac:(lia) ltac:(lia) Hm2) as Hr2. change (512 * 1) with 512 in Hr2.
  apply wp_bind. eapply wp_mono; [exact Hr2|]. cbv beta. intros _ s3 (S3 & _ & M3). apply wp_ret. split; [done|]. split; [|cbn in S3; congruence].
  intros a. rewrite M3. cbn [mem s2]. rewrite M1. unfold n. repeat case_decide; try done; lia.
Qed.

Lemma load_ata_pio_ok file im s (n := 512 * header_sectors im) :
  at_rest s -> on_disk file -> file_image file n im -> disk_image file im -> image_end im <= n -> mapped (mem s) buf n ->
  wp (load_ata_pio ata patience) s (fun r s' => r = Some buf /\ loaded file n s s' /\ kernel_elf_size_bytes s' = n).
Proof using A.
  intros Hr Hd [F1 F2 _ _] Hi Hend Hm. unfold load_ata_pio. apply wp_bind. eapply wp_mono; [by apply (load1_ok file im)|]. cbv beta.
  intros st s1 (-> & Hl & _). cbn [header bytes_loaded]. apply wp_bind. unfold load2. cbn [bytes_loaded sectors_loaded]. apply wp_bind, wp_load_op.
  eapply wp_mono; [apply elf_get_size_bytes_ok, F2; by eapply loaded_in_memory|]. cbv beta. intros r m' [-> ->].
  fold n. rewrite (proj2 (Z.ltb_ge _ _)) by lia. apply wp_bind, wp_ret, wp_ret. cbn [negb].
  apply wp_bind, wp_modify, wp_ret. split; [done|]. split; [exact Hl|done].
Qed.

(** The rest of an image that goes on after its section headers is read from the
    sectors before it: the boot sectors are not counted. *)
Lemma load2_ok im s h (st : elf_load_state) (k := sectors_loaded st) (k' := (image_end im + 511) / 512) :
  at_rest s -> image_at (mem s) h im -> 0 <= k -> bytes_loaded st = 512 * k -> 512 * k < image_end im -> k' < 2 ^ 16 ->
  mapped (mem s) (buf + 512 * k) (512 * (k' - k)) ->
  wp (load2 ata patience buf h st) s (fun _ s' => forall a, mem s' !! a =
    if decide (buf + 512 * k <= a < buf + 512 * k') then disk (k + (a - (buf + 512 * k)) / 512) !! Z.to_nat ((a - (buf + 512 * k)) mod 512)
    else mem s !! a).
Proof using A.
  intros Hrest Him Hk Hb Hend Hk' Hm. unfold load2. apply wp_bind, wp_load_op. eapply wp_mono; [by apply elf_get_size_bytes_ok|]. cbv beta.
  intros r m' [-> ->]. rewrite Hb, (proj2 (Z.ltb_lt _ _)) by lia. fold k.
  pose proof (Z.div_mod (image_end im + 511) 512 ltac:(lia)). pose proof (Z.mod_pos_bound (image_end im + 511) 512 eq_refl). fold k' in H.
  assert (ALIGN_UP (image_end im) SECTOR_SIZE_BYTES / SECTOR_SIZE_BYTES = k') as ->.
  { change SECTOR_SIZE_BYTES with (2 ^ 9). rewrite ALIGN_UP_pow by (unfold is_u; lia). rewrite Z.div_mul by lia. unfold k'. do 2 f_equal. lia. }
  assert ((buf + (k * SECTOR_SIZE_BYTES)%u64)%u64 = buf + 512 * k) as ->.
  { change SECTOR_SIZE_BYTES with 512. change buf with 0xffffc00001000000 in *. unfold mul64, add64. rewrite (u64_small (k * 512)) by (unfold is_u; lia).
    rewrite u64_small by (unfold is_u; lia). lia. }
  unfold u16. rewrite (wrap_small 16 k') by (unfold is_u; lia). rewrite wrap_small by (unfold is_u; lia).
  apply wp_bind. eapply wp_mono; [apply read_sectors_ok; [exact Hrest|lia|lia|exact Hm]|]. cbv beta. intros _ s' (_ & _ & M'). apply wp_ret.
  intros a. rewrite M'. cbn [mem]. repeat case_decide; try done; lia.
Qed.
End drive.

(** ** A small image, for the witnesses *)

Fixpoint file_le (file : Z -> Z) (n : nat) (o : Z) : Z :=
  match n with
  | O => 0
  | S n' => file o + 256 * file_le file n' (o + 1)
  end.

Lemma reads_at file m n k : forall p v,
  in_memory file m buf n -> (buf <=? p) && (p + Z.of_nat k <=? buf + n) = true -> file_le file k (p - buf) = v -> reads m (load_le k p) v.
Proof.
  induction k as [|k IH]; intros p v Hin Hp <-; [done|]. bool_to_prop. unfold reads. cbn [load_le file_le]. unfold mbind, M_bind, load_byte.
  assert (m !! p = Some (file (p - buf))) as -> by (rewrite <- (Hin (p - buf)) by lia; f_equal; lia). simpl lift. unfold mret, M_ret.
  assert (reads m (load_le k (p + 1)) (file_le file k (p + 1 - buf))) as ->.
  { apply IH; [done| |done]. apply andb_true_iff. split; lia. }
  do 3 f_equal. f_equal. lia.
Qed.

Fixpoint le (n : nat) (x : Z) : list Z :=
  match n with
  | O => []
  | S n' => x mod 256 :: le n' (x / 256)
  end.

Definition prog_bytes (x : elf_prog) : list Z :=
  le 8 1 ++ le 8 (pr_offset x) ++ le 8 (pr_vaddr x) ++ le 8 0 ++ le 8 (pr_filesz x) ++ le 8 (pr_memsz x) ++ le 8 0.

Definition sect_bytes (x : elf_sect) : list Z :=
  le 4 (se_name x) ++ le 4 (se_type x) ++ le 8 0 ++ le 8 (se_addr x) ++ le 8 (se_offset x) ++ le 8 (se_size x) ++ le 24 0.

(** A program of 704 bytes, where the link put it, and a [.bss] of 16 bytes. The
    section headers are in the second sector. *)
Definition sample_image : image := mk_image 0xffffc00001000040 64 512 2
  [mk_prog 0 KERNEL_ELF_ADDRESS 704 704]
  [mk_section 0 [] 0 0 0 0; mk_section 1 (chars ".bss") 8 (KERNEL_ELF_ADDRESS + 0x1000) 704 16; mk_section 6 (chars ".shstrtab") 3 0 120 16].

Definition sample_list : list Z :=
  le 4 ELF_MAGIC_NUMBER ++ le 20 0 ++ le 8 (i_entry sample_image) ++ le 8 64 ++ le 8 512 ++ le 8 0 ++
  le 2 1 ++ le 2 0 ++ le 2 3 ++ le 2 2 ++ concat (prog_bytes <$> i_progs sample_image) ++
  0 :: chars ".bss" ++ 0 :: chars ".shstrtab" ++ 0 :: replicate 376 0 ++ concat (sect_bytes <$> i_sects sample_image).

Definition sample_file (i : Z) : Z := nth (Z.to_nat i) sample_list 0.

Lemma sample_byte i : is_u8 (sample_file i).
Proof.
  assert (Forall is_u8 sample_list) as H by (apply (bool_decide_unpack _); by vm_compute).
  unfold sample_file. destruct (Nat.lt_ge_cases (Z.to_nat i) (length sample_list)) as [Hl|Hl].
  - apply (proj1 (Forall_forall _ _) H). apply list_elem_of_In. by apply nth_In.
  - by rewrite nth_overflow.
Qed.

Lemma sample_name m n p t : in_memory sample_file m buf n -> (buf <=? p) && (p + Z.of_nat (S (length t)) <=? buf + n) = true ->
  forallb (fun c => negb (c =? 0)) t = true -> sample_file <$> seqZ (p - buf) (Z.of_nat (S (length t))) = t ++ [0] -> name_at m p t.
Proof.
  intros Hin Hp Ht Hs. bool_to_prop. split.
  - apply Forall_forall. intros c Hc%list_elem_of_In. apply (proj1 (forallb_forall _ _) Ht) in Hc. bool_to_prop. lia.
  - intros i c Hi. pose proof (lookup_lt_Some _ _ _ Hi) as Hlt. rewrite length_app in Hlt. simpl in Hlt. rewrite <- Hs, list_lookup_fmap in Hi.
    rewrite lookup_seqZ_lt in Hi by lia. injection Hi as <-. rewrite <- (Hin (p - buf + Z.of_nat i)) by lia. f_equal. lia.
Qed.

Lemma sample_image_at m n : 704 <= n -> in_memory sample_file m buf n -> image_at m buf sample_image.
Proof.
  intros Hn Hin0. assert (in_memory sample_file m buf 704) as Hin by (intros i Hi; apply Hin0; lia). clear Hin0 Hn n. split.
  1-5: apply (reads_at _ _ _ _ _ _ Hin); by vm_compute.
  - intros [|i] x Hx; [|done]. injection Hx as <-. split; apply (reads_at _ _ _ _ _ _ Hin); by vm_compute.
  - intros [|[|[|i]]] x Hx; [..|done]; injection Hx as <-; split; apply (reads_at _ _ _ _ _ _ Hin); by vm_compute.
  - eexists. split; [reflexivity|]. split; [apply (reads_at _ _ _ _ _ _ Hin); by vm_compute|].
    intros y Hy. repeat (apply elem_of_cons in Hy as [->|Hy]; [apply (sample_name _ _ _ _ Hin); by vm_compute|]). by apply elem_of_nil in Hy.
Qed.

Lemma sample_file_image n : 704 <= n -> file_image sample_file n sample_image.
Proof.
  intros Hn. split.
  - apply sample_byte.
  - intros m Hin. by apply (sample_image_at m n).
  - intros m Hin. apply (reads_at _ _ _ _ _ _ Hin); by vm_compute.
  - intros x [= <-]. by vm_compute.
Qed.

Lemma sample_disk_image : disk_image sample_file sample_image.
Proof.
  split; [|by vm_compute|by vm_compute].
  intros m Hin. split; [|split; [|split]]; apply (reads_at _ _ _ _ _ _ Hin); by vm_compute.
Qed.

(** [n] bytes of [f] at [p]. *)
Definition fill (p n : Z) (f : Z -> Z) : bytes := list_to_map ((fun i => (p + i, f i)) <$> seqZ 0 n).

Lemma fill_lookup p n f i : 0 <= i < n -> fill p n f !! (p + i) = Some (f i).
Proof.
  intros Hi. apply elem_of_list_to_map.
  - rewrite <- list_fmap_compose. apply (NoDup_fmap_2_strong _ _); [|apply NoDup_seqZ]. unfold compose. simpl. lia.
  - apply list_elem_of_fmap. exists i. split; [done|]. apply elem_of_seqZ. lia.
Qed.

Lemma fill_outside p n f a : ~ (p <= a < p + n) -> fill p n f !! a = None.
Proof.
  intros Ha. apply not_elem_of_list_to_map. rewrite <- list_fmap_compose. intros (i & -> & Hi%elem_of_seqZ)%list_elem_of_fmap.
  apply Ha. unfold compose. simpl. lia.
Qed.

(** 8 KiB at the image's address, and the file where the BIOS puts it. *)
Definition sample_memory : bytes := fill buf 8192 (fun _ => 7) ∪ fill BIOS_KERNEL_ELF_LOAD_PHYS_ADDRESS 704 sample_file.

Lemma sample_image_mapped p n : buf <= p -> p + n <= buf + 8192 -> mapped sample_memory p n.
Proof.
  intros Hp Hn i Hi. exists 7. split; [|by vm_compute]. apply lookup_union_Some_l.
  replace (p + i) with (buf + (p + i - buf)) by lia. apply fill_lookup. lia.
Qed.

Lemma sample_in_memory : in_memory sample_file sample_memory BIOS_KERNEL_ELF_LOAD_PHYS_ADDRESS 704.
Proof.
  intros i Hi. unfold sample_memory. rewrite lookup_union_r; [by apply fill_lookup|]. apply fill_outside.
  change buf with 0xffffc00001000000. change BIOS_KERNEL_ELF_LOAD_PHYS_ADDRESS with 0x8600. lia.
Qed.

(** A channel with one drive, busy for one read of its status after a command and
    after a sector, with the file after five empty sectors. What is written or read
    at other times is lost; a drive that is not there shows 0. *)
Definition sample_sectors (lba : Z) : list Z := (fun i => sample_file (512 * (lba - BOOT_SECTORS) + i)) <$> seqZ 0 512.

Record channel := mk_channel { ch_view : ata_state; ch_busy : bool }.

Definition sample_drive : ata_drive channel := mk_drive _
  (fun d => if ch_busy d then (0x80, mk_channel (ch_view d) false)
            else (if Z.testbit (a_device (ch_view d)) 4 then 0 else match a_phase (ch_view d) with Idle => 0x40 | _ => 0x48 end, d))
  (fun p v d =>
    match a_phase (ch_view d) with
    | Idle =>
        if ch_busy d then d
        else if (p =? 0x1f7) && (v =? 0x24) && negb (Z.testbit (a_device (ch_view d)) 4) && Z.testbit (a_device (ch_view d)) 6
        then mk_channel (start_read (ch_view d)) true
        else mk_channel (log_write p v (ch_view d)) false
    | Giving _ _ => d
    end)
  (fun n d =>
    match a_phase (ch_view d) with
    | Giving lba _ =>
        if negb (ch_busy d) && (n =? 128) then (sample_sectors lba, mk_channel (next_sector (ch_view d)) true)
        else (replicate (Z.to_nat (4 * n)) 0xff, d)
    | Idle => (replicate (Z.to_nat (4 * n)) 0xff, d)
    end).

#[global] Instance sample_drive_ok : AtaDrive sample_drive 2 false sample_sectors.
Proof.
  refine {| ad_view := ch_view; ad_busy := fun d => if ch_busy d then 1%nat else 0%nat |}.
  - intros lba. split; [unfold sample_sectors; by rewrite length_fmap, length_seqZ|]. apply Forall_fmap, Forall_forall. intros i _. apply sample_byte.
  - intros d. case_match; lia.
  - intros [a []] Hb; [|done]. simpl. split; [done|]. split; [done|lia].
  - intros [a []] Hb; [done|]. intros [Hm|?]; [|done]. unfold master in Hm. simpl in *. rewrite Hm. by destruct (a_phase a).
  - intros p v [a []] Hp Hb Hi; [done|]. simpl in *. rewrite Hi, (proj2 (Z.eqb_neq p 0x1f7)) by lia. done.
  - intros [a []] Hb Hi Hm Hl; [done|]. unfold master, lba_mode in *. simpl in *. by rewrite Hi, Hm, Hl.
  - intros lba n [a []] Hb Hp Hn Hm; [done|]. simpl in *. by rewrite Hp.
Defined.

Lemma sample_on_disk : on_disk sample_sectors sample_file.
Proof.
  intros j i Hj Hi. unfold sample_sectors. rewrite list_lookup_fmap, lookup_seqZ_lt by lia. simpl. do 2 f_equal. lia.
Qed.

(** ** Properties *)

(** C10: loading from the BIOS's copy. When the image of the kernel, of the size
    the boot information gives, is where the BIOS puts it, [load] copies it to
    [KERNEL_ELF_ADDRESS]. If every program with contents and every section of code
    or data is where the headers say, and there is a [.bss], it clears exactly
    [.bss] and jumps to the entry point; otherwise it returns. No other byte of
    memory changes. *)
Theorem load_bios_correct {D} file n im (s : loader D) :
  file_image file n im -> kernel_elf_size_bytes s = n -> 64 <= n < 2 ^ 40 ->
  in_memory file (mem s) BIOS_KERNEL_ELF_LOAD_PHYS_ADDRESS n -> mapped (mem s) buf n ->
  (forall x, bss im = Some x -> mapped (mem s) (se_addr x) (se_size x)) ->
  wp (load copy_kernel_elf_image) s (load_done file n im s).
Proof.
  intros Hf Hs Hn Hin Hm Hb. apply load_ok; [done|lia|done|]. apply copy_ok; try done; [lia|apply Hf].
Qed.

Lemma load_bios_correct_witness :
  wp (load copy_kernel_elf_image) (mk_loader sample_memory tt 704) (fun r s' =>
    r = Some 0xffffc00001000040 /\ mem s' !! (buf + 1) = Some 0x45 /\ mem s' !! (buf + 0x1001) = Some 0).
Proof.
  eapply wp_mono; [apply (load_bios_correct sample_file 704 sample_image (mk_loader sample_memory tt 704) (sample_file_image 704 ltac:(lia)) eq_refl)|].
  - lia.
  - exact sample_in_memory.
  - cbn [mem]. apply sample_image_mapped; lia.
  - intros x [= <-]. cbn [mem se_addr se_size]. apply sample_image_mapped; change KERNEL_ELF_ADDRESS with buf; lia.
  - intros r s' [_ H]. change (if placed sample_image then bss sample_image else None) with
      (Some (mk_section 1 (chars ".bss") 8 (KERNEL_ELF_ADDRESS + 0x1000) 704 16)) in H.
    destruct H as [-> (m1 & Hl & Hc)]. split; [done|]. split.
    + rewrite Hc. cbn [se_addr se_size]. rewrite decide_False by (change KERNEL_ELF_ADDRESS with buf; lia).
      change m1 with (mem (mk_loader m1 tt 704)). rewrite Hl, decide_True by lia. replace (buf + 1 - buf) with 1 by lia. by vm_compute.
    + rewrite Hc. cbn [se_addr se_size]. rewrite decide_True by (change KERNEL_ELF_ADDRESS with buf; lia). done.
Defined.

(** C11: loading from the disk. With an idle drive that keeps to the standard and a
    file after the boot sectors whose section headers are its last part, [load]
    waits for the drive, selects the first one, reads the header's sector and then
    the others up to the end of the section headers, a sector each time one is
    ready, records their size, and goes on as above. (An image that goes on after
    its section headers gets the wrong sectors: [load2_reads_early].) *)
Theorem load_ata_correct {D} (ata : ata_drive D) patience slave disk {A : AtaDrive ata patience slave disk} file im (s : loader D)
    (n := 512 * header_sectors im) :
  at_rest ata patience slave disk s ->
  on_disk disk file -> file_image file n im -> disk_image file im -> image_end im <= n -> mapped (mem s) buf n ->
  (forall x, bss im = Some x -> mapped (mem s) (se_addr x) (se_size x)) ->
  wp (load (load_ata_pio ata patience)) s (load_done file n im s).
Proof.
  intros Hr Hd Hf Hi Hend Hm Hb. pose proof (di_size _ _ Hi). apply load_ok; [done|lia|done|]. by apply (load_ata_pio_ok ata patience slave disk).
Qed.

(** The drive is still busy, and the device register is 0, when the loader starts. *)
Lemma load_ata_correct_witness :
  wp (load (load_ata_pio sample_drive 2)) (mk_loader sample_memory (mk_channel (mk_ata 0 [] Idle) true) 0) (fun r s' =>
    r = Some 0xffffc00001000040 /\ kernel_elf_size_bytes s' = 1024).
Proof.
  eapply wp_mono; [apply (load_ata_correct sample_drive 2 false sample_sectors sample_file sample_image
    (mk_loader sample_memory (mk_channel (mk_ata 0 [] Idle) true) 0))|].
  - split; [done|by left].
  - exact sample_on_disk.
  - by apply sample_file_image.
  - exact sample_disk_image.
  - by vm_compute.
  - cbn [mem]. apply sample_image_mapped; [lia|]. by vm_compute.
  - intros x [= <-]. cbn [mem se_addr se_size]. apply sample_image_mapped; change KERNEL_ELF_ADDRESS with buf; lia.
  - intros r s' [Hs H]. change (if placed sample_image then bss sample_image else None) with
      (Some (mk_section 1 (chars ".bss") 8 (KERNEL_ELF_ADDRESS + 0x1000) 704 16)) in H. destruct H as [-> _]. by split.
Defined.

(** What an image that goes on after its section headers gets: sectors five before
    its own, and the size recorded without them. *)
Lemma load2_reads_early {D} (ata : ata_drive D) patience slave disk {A : AtaDrive ata patience slave disk} im (s : loader D) h st
    (k := sectors_loaded st) (k' := (image_end im + 511) / 512) :
  at_rest ata patience slave disk s -> image_at (mem s) h im -> 0 <= k -> bytes_loaded st = 512 * k -> 512 * k < image_end im -> k' < 2 ^ 16 ->
  mapped (mem s) (buf + 512 * k) (512 * (k' - k)) ->
  wp (load2 ata patience buf h st) s (fun _ s' => forall i, 0 <= i < 512 * (k' - k) ->
    mem s' !! (buf + 512 * k + i) = disk (k + i / 512) !! Z.to_nat (i mod 512)).
Proof.
  intros Hr Him Hk Hb Hend Hk' Hm. eapply wp_mono; [by apply (load2_ok ata patience slave disk im s h st)|]. cbv beta. fold k k'. intros _ s' H i Hi.
  rewrite H, decide_True by lia. by replace (buf + 512 * k + i - (buf + 512 * k)) with i by lia.
Qed.
