(* ===== verification/Interrupt.v ===== *)
(** * The local interrupt controller (arch/x86_64/kernel/interrupt.c)

    [interrupt_init] programs the local APIC through registers in memory at
    [APIC_BASE_ADDRESS]. The registers are hardware: what one shows when it is
    read is a parameter, and the model keeps the writes, in order, with the
    variable [num_lvt_entries]. *)

From stdpp Require Import base list numbers.
From Stdlib Require Import ZArith Lia.
From S2P Require Import Prelude Macros MmDefs KernelMap.

(** ** Registers and vectors *)

Definition APIC_IRQ_0 : Z := 32.
Definition APIC_IRQ_TIMER : Z := 0.
Definition APIC_IRQ_ERROR : Z := 0x13.
Definition APIC_IRQ_SPURIOUS : Z := 0xdf.

Definition APIC_VER_OFFSET : Z := 0x30.
Definition APIC_TPR_OFFSET : Z := 0x80.
Definition APIC_EOI_OFFSET : Z := 0xb0.
Definition APIC_SPURIOUS_OFFSET : Z := 0xf0.
Definition APIC_ESR_OFFSET : Z := 0x280.
Definition APIC_TIMER_OFFSET : Z := 0x320.
Definition APIC_PCINT_OFFSET : Z := 0x340.
Definition APIC_LINT0_OFFSET : Z := 0x350.
Definition APIC_LINT1_OFFSET : Z := 0x360.
Definition APIC_ERROR_OFFSET : Z := 0x370.
Definition APIC_TICR_OFFSET : Z := 0x380.
Definition APIC_TDCR_OFFSET : Z := 0x3e0.

Definition APIC_ENABLE_FLAG : Z := 0x100.
Definition APIC_MASK_FLAG : Z := 0x10000.
Definition APIC_PERIODIC_FLAG : Z := 0x20000.

Definition APIC_INIT_TIMER_COUNT_VALUE : Z := 1000000000.

(** ** The code *)

Record lapic := mk_lapic { num_lvt_entries : Z; reg_writes : list (Z * Z) }.

Section code.
(** What the register at an address shows. *)
Context (shows : Z -> Z).

Abbreviation AM := (M lapic).

Definition lapic_reg_ptr (offset : Z) : Z := (APIC_BASE_ADDRESS + offset)%u64.

Definition lapic_read_reg (offset : Z) : AM Z := mret (u32 (shows (lapic_reg_ptr offset))).

Definition lapic_write_reg (offset val : Z) : AM unit :=
  modify (fun s => mk_lapic (num_lvt_entries s) (reg_writes s ++ [(lapic_reg_ptr offset, u32 val)])).

Definition lapic_clear_error : AM unit :=
  lapic_write_reg APIC_ESR_OFFSET 0;;
  lapic_write_reg APIC_ESR_OFFSET 0.

Definition lapic_clear_interrupt : AM unit := lapic_write_reg APIC_EOI_OFFSET 0.

Definition lapic_init : AM unit :=
  ver ← lapic_read_reg APIC_VER_OFFSET;
  let max_lvt_entries := u32 ((ver & BIT_MASK_BELOW 23) >> 16)%u64 in
  modify (fun s => mk_lapic (u32 (max_lvt_entries + 1)) (reg_writes s));;
  lapic_write_reg APIC_LINT0_OFFSET APIC_MASK_FLAG;;
  lapic_write_reg APIC_LINT1_OFFSET APIC_MASK_FLAG;;
  lapic_clear_error;;
  lapic_clear_interrupt;;
  lapic_write_reg APIC_ERROR_OFFSET (APIC_IRQ_0 + APIC_IRQ_ERROR);;
  lapic_write_reg APIC_TDCR_OFFSET 0xb;;
  lapic_write_reg APIC_TIMER_OFFSET (Z.lor APIC_PERIODIC_FLAG (APIC_IRQ_0 + APIC_IRQ_TIMER));;
  lapic_write_reg APIC_TICR_OFFSET APIC_INIT_TIMER_COUNT_VALUE;;
  n ← gets num_lvt_entries;
  when (4 <=? n) (lapic_write_reg APIC_PCINT_OFFSET APIC_MASK_FLAG);;
  lapic_write_reg APIC_SPURIOUS_OFFSET (Z.lor APIC_ENABLE_FLAG (APIC_IRQ_0 + APIC_IRQ_SPURIOUS));;
  lapic_write_reg APIC_TPR_OFFSET 0.

Definition interrupt_init : AM unit := lapic_init.

(** ** Specification *)

(** The value last written to a register. *)
Definition last_write (offset : Z) (l : list (Z * Z)) : option Z :=
  snd <$> head (reverse (filter (fun w => w.1 = lapic_reg_ptr offset) l)).

(** An entry of the local vector table is masked, or sends a vector that is not
    an exception's. *)
Definition vector_safe (v : option Z) : bool :=
  match v with Some v => Z.testbit v 16 || (32 <=? v mod 256) | None => false end.

(** The largest index of the vector table, bits 16 to 23 of the version. *)
Definition max_lvt : Z := u32 (shows (lapic_reg_ptr APIC_VER_OFFSET)) / 2 ^ 16 mod 2 ^ 8.

Lemma lvt_entries_ok : let ver := u32 (shows (lapic_reg_ptr APIC_VER_OFFSET)) in
  u32 (u32 ((ver & BIT_MASK_BELOW 23) >> 16)%u64 + 1) = max_lvt mod 2 ^ 7 + 1.
Proof.
  intros ver. unfold max_lvt. fold ver. change (BIT_MASK_BELOW 23) with (2 ^ 23 - 1). rewrite land_ones_mod by lia.
  rewrite Z.shiftr_div_pow2 by lia.
  assert (ver mod 2 ^ 23 / 2 ^ 16 = ver / 2 ^ 16 mod 2 ^ 8 mod 2 ^ 7) as -> by (Z.div_mod_to_equations; lia).
  pose proof (Z.mod_pos_bound (ver / 2 ^ 16 mod 2 ^ 8) (2 ^ 7) eq_refl). unfold u32. rewrite (wrap_small 32 (_ mod _)) by (unfold is_u; lia).
  apply wrap_small. unfold is_u. lia.
Qed.

(** The writes before the controller is enabled. *)
Definition setup_writes (pcint : bool) : list (Z * Z) :=
  (fun w => (lapic_reg_ptr w.1, w.2)) <$>
  [(APIC_LINT0_OFFSET, APIC_MASK_FLAG); (APIC_LINT1_OFFSET, APIC_MASK_FLAG); (APIC_ESR_OFFSET, 0); (APIC_ESR_OFFSET, 0); (APIC_EOI_OFFSET, 0);
   (APIC_ERROR_OFFSET, 51); (APIC_TDCR_OFFSET, 0xb); (APIC_TIMER_OFFSET, 0x20020); (APIC_TICR_OFFSET, APIC_INIT_TIMER_COUNT_VALUE)] ++
  (if pcint then [(APIC_PCINT_OFFSET, APIC_MASK_FLAG)] else []).

Definition vectors (pcint : bool) : list Z :=
  [APIC_LINT0_OFFSET; APIC_LINT1_OFFSET; APIC_ERROR_OFFSET; APIC_TIMER_OFFSET] ++ (if pcint then [APIC_PCINT_OFFSET] else []).

Lemma vectors_safe pcint : forallb (fun o => vector_safe (last_write o (setup_writes pcint))) (vectors pcint) = true.
Proof. destruct pcint; by vm_compute. Qed.

(** The controller was started: these registers were written, in this order, the
    one that enables it last but one; every vector it may send was masked or above
    the exceptions by then, and the performance counter's, if there is one in a
    table of at most 128 entries, was masked. *)
Record lapic_started (s s' : lapic) (pcint := 3 <=? max_lvt mod 2 ^ 7) : Prop := {
  la_writes : reg_writes s' = reg_writes s ++ setup_writes pcint ++
    [(lapic_reg_ptr APIC_SPURIOUS_OFFSET, 0x1ff); (lapic_reg_ptr APIC_TPR_OFFSET, 0)];
  la_entries : num_lvt_entries s' = max_lvt mod 2 ^ 7 + 1;
  la_safe : forallb (fun o => vector_safe (last_write o (setup_writes pcint))) (vectors pcint) = true;
}.

Lemma interrupt_init_ok s : wp interrupt_init s (fun _ s' => lapic_started s s').
Proof.
  pose proof lvt_entries_ok as Hn. cbv zeta in Hn. unfold interrupt_init, lapic_init. apply wp_bind, wp_ret, wp_bind, wp_modify. rewrite Hn.
  do 2 apply wp_bind, wp_modify. unfold lapic_clear_error. apply wp_bind, wp_bind, wp_modify, wp_modify.
  do 5 apply wp_bind, wp_modify. apply wp_bind, wp_gets. cbn [num_lvt_entries reg_writes].
  assert ((4 <=? max_lvt mod 2 ^ 7 + 1) = (3 <=? max_lvt mod 2 ^ 7)) as ->.
  { destruct (Z.leb_spec 3 (max_lvt mod 2 ^ 7)); [apply Z.leb_le|apply Z.leb_gt]; lia. }
  destruct (3 <=? max_lvt mod 2 ^ 7) eqn:E; unfold when; [apply wp_bind, wp_modify|apply wp_bind, wp_ret]; apply wp_bind, wp_modify, wp_modify;
    (split; cbn [num_lvt_entries reg_writes]; rewrite ?E; [by rewrite <- !app_assoc|done|apply vectors_safe]).
Qed.

End code.
