(* ===== verification/Report.v ===== *)
(** * The start-up report (kernel/main.c)

    [prelude] writes what the kernel knows of the machine to the log: the
    firmware's map, the memory there is and what the physical allocator made of
    it. The free pages of each order are put together in a buffer of 150 bytes.
    The reference is the list of the report's lines; a triple, [reports], says
    which lines a piece of code adds to the log, the screen and the serial port. *)

From stdpp Require Import base strings numbers gmap list.
From Stdlib Require Import ZArith Lia.
From S2P Require Import Prelude Macros MmDefs ListDL Phys Spinlock PhysProofs CString Kmalloc Format Console E820 Log.

Definition ORDERS_BUF_SIZE : Z := 150.

(** [bytes_to_human] into a buffer of ten bytes. *)
Definition human_10 (bytes : Z) : LM va := fun s =>
  match bytes_to_human bytes 10 (replicate 10 0) with
  | Done _ b => Done (VaStr b) s
  | Panic msg => Panic msg
  | Hang => Hang
  | Undef => Undef
  end.

(** [snprintf] at an offset into a buffer. *)
Definition snprintf_at (offset size : Z) (fmt : list Z) (args : list va) : M (list Z) Z := fun b =>
  if (0 <=? offset) && (offset <=? zlength b) then
    match snprintf size fmt args (drop (Z.to_nat offset) b) with
    | Done r sub => Done r (take (Z.to_nat offset) b ++ sub)
    | Panic msg => Panic msg
    | Hang => Hang
    | Undef => Undef
    end
  else Undef.

(** The loop over the orders from [i] on; [offset] is an [int]. *)
Fixpoint orders_loop (n : nat) (i offset : Z) (counts : list Z) : M (list Z) Z :=
  match n with
  | O => mret offset
  | S n' =>
      c ← lift (zlookup counts i);
      r ← snprintf_at offset (ORDERS_BUF_SIZE - offset)%u64 (cstr "%lu, ") [VaInt c];
      orders_loop n' (i + 1) (i32 (offset + r)) counts
  end.

Definition orders_text (counts : list Z) : M (list Z) Z :=
  offset ← snprintf ORDERS_BUF_SIZE (cstr "            [ ") [];
  orders_loop (Z.to_nat MAX_ORDER) 0 offset counts.

(** The contents of [orders_buf]. *)
Definition orders_buf (counts : list Z) : LM va := fun s =>
  match orders_text counts (replicate (Z.to_nat ORDERS_BUF_SIZE) 0) with
  | Done _ b => Done (VaStr b) s
  | Panic msg => Panic msg
  | Hang => Hang
  | Undef => Undef
  end.

(** The loop over the firmware's map from entry [i] on gives the sum of the
    sizes. *)
Fixpoint e820_lines (n : nat) (i : Z) (info : early_boot_info) (total : Z) : LM Z :=
  match n with
  | O => mret total
  | S n' =>
      entry ← lift (zlookup (e820_entries info) i);
      let from := base entry in
      let size := E820.size entry in
      let to := (from + size)%u64 in
      human ← human_10 size;
      log_info (cstr "%8s %016lx - %016lx : %s") [VaStr (cstr (e820_type_to_string (E820.type entry))); VaInt from; VaInt to; human];;
      e820_lines n' (i + 1) info (total + size)%u64
  end.

Definition prelude (info : early_boot_info) : LM unit :=
  log_info (cstr "-- zeptux %u.%u.%u --") [VaInt 0; VaInt 0; VaInt 0];;
  log_info (cstr "") [];;
  log_info (cstr "kernel ELF size = %u") [VaInt (kernel_elf_size_bytes info)];;
  log_info (cstr "      APIC base = 0x%lx") [VaInt (apic_base info)];;
  log_info (cstr "") [];;
  log_info (cstr "e820 entries (%lu):") [VaInt (num_e820_entries info)];;
  total_size ← e820_lines (Z.to_nat (num_e820_entries info)) 0 info 0;
  human ← human_10 total_size;
  log_info (cstr "%56s") [human];;
  human ← human_10 (total_avail_ram_bytes info);
  log_info (cstr "total available RAM: %s (%lu bytes)") [human; VaInt (total_avail_ram_bytes info)];;
  log_info (cstr "") [];;
  _ ← heap_op (phys_op phys_get_alloc_state_lock);
  s ← get;
  let stats := stats (phys (heap s)) in
  log_info (cstr "phys_alloc: total=%lu, pg=%lu, pb=%lu, rest=%lu")
    [VaInt (num_4k_pages stats); VaInt (num_pagetable_pages stats); VaInt (num_physblock_pages stats);
     VaInt (num_4k_pages stats - num_free_4k_pages stats - num_pagetable_pages stats - num_physblock_pages stats)%u64];;
  orders ← orders_buf (order_stats stats);
  last ← lift (zlookup (order_stats stats) MAX_ORDER);
  log_info (cstr "%s%lu ]") [orders; VaInt last];;
  heap_op (phys_op release_alloc).

(** ** Specification *)

Definition orders_start : list Z := chars "            [ ".

(** The text of the first orders. *)
Definition orders_list (counts : list Z) : list Z := orders_start ++ concat ((fun c => num_text 10 c ++ [chr ","; chr " "]) <$> counts).

Definition dec (v : Z) : list Z := num_text 10 (u64 v).

(** An address in a field of sixteen digits. *)
Definition hex_16 (v : Z) : list Z := pad 16 false (chr "0") (num_text 16 (u64 v)).

(** A size, cut to the nine characters of its buffer. *)
Definition human_9 (bytes : Z) : list Z := take 9 (human_text bytes).

Definition entry_line (e : e820_entry) : list Z :=
  pad 8 false (chr " ") (chars (e820_type_to_string (E820.type e))) ++ chars " " ++ hex_16 (base e) ++ chars " - " ++
  hex_16 (base e + E820.size e) ++ chars " : " ++ human_9 (E820.size e).

Definition total_size (l : list e820_entry) : Z := foldr Z.add 0 (E820.size <$> l).

Definition rest_pages (st : phys_alloc_stats) : Z :=
  num_4k_pages st - num_free_4k_pages st - num_pagetable_pages st - num_physblock_pages st.

(** The lines of the report. *)
Definition report_lines (info : early_boot_info) (st : phys_alloc_stats) : list (list Z) :=
  [chars "-- zeptux 0.0.0 --"; []; chars "kernel ELF size = " ++ num_text 10 (u32 (kernel_elf_size_bytes info));
   chars "      APIC base = 0x" ++ num_text 16 (u64 (apic_base info)); [];
   chars "e820 entries (" ++ dec (num_e820_entries info) ++ chars "):"] ++
  (entry_line <$> E820.entries info) ++
  [pad 56 false (chr " ") (human_9 (total_size (E820.entries info)));
   chars "total available RAM: " ++ human_9 (total_avail_ram_bytes info) ++ chars " (" ++ dec (total_avail_ram_bytes info) ++ chars " bytes)"; [];
   chars "phys_alloc: total=" ++ dec (num_4k_pages st) ++ chars ", pg=" ++ dec (num_pagetable_pages st) ++ chars ", pb=" ++
     dec (num_physblock_pages st) ++ chars ", rest=" ++ dec (rest_pages st);
   orders_list (take 12 (order_stats st)) ++ dec (nth 12 (order_stats st) 0) ++ chars " ]"].

(** What the report can show: less than 1 PiB of memory, and fewer than 10^9 free
    pages of each order. *)
Record report_fits (info : early_boot_info) (st : phys_alloc_stats) : Prop := {
  rf_wf : info_wf info;
  rf_sizes : Forall (fun e => 0 <= E820.size e) (E820.entries info);
  rf_total : total_size (E820.entries info) < 2 ^ 50;
  rf_avail : 0 <= total_avail_ram_bytes info < 2 ^ 50;
  rf_orders : length (order_stats st) = 13%nat;
  rf_counts : Forall (fun c => 0 <= c < 10 ^ 9) (order_stats st);
}.

(** ** Lemmas *)

Definition count_items : list item := [Conv (mk_conv false None 0 true (chr "u")); Lit (chr ","); Lit (chr " ")].

Lemma snprintf_count v size b :
  0 <= v < 2 ^ 64 -> 1 <= size <= zlength b -> size < 2 ^ 64 ->
  snprintf size (cstr "%lu, ") [VaInt v] b =
    Done (zlength (num_text 10 v) + 2) (place_string size (num_text 10 v ++ [chr ","; chr " "]) b).
Proof.
  intros Hv Hs Hs'. change (cstr "%lu, ") with (print_items count_items ++ [0]). pose proof (num_text_length_64 10 v ltac:(by left) Hv).
  unfold snprintf. rewrite (vsnprintf_ok size count_items [VaInt v] (num_text 10 v ++ [chr ","; chr " "])); try done.
  - f_equal. rewrite zlength_app. done.
  - unfold count_items. items_ok.
  - by repeat constructor.
  - unfold count_items. cbn [render]. rewrite render_conv_lu by done. simpl. by rewrite pad_0.
  - rewrite zlength_app. change (zlength [chr ","; chr " "]) with 2. lia.
Qed.

(** What [snprintf] leaves after the first [zlength t] characters of the buffer. *)
Lemma snprintf_at_ok t r v b :
  b = t ++ 0 :: r -> zlength b = ORDERS_BUF_SIZE -> 0 <= v < 10 ^ 9 -> zlength t + 12 <= ORDERS_BUF_SIZE ->
  wp (snprintf_at (zlength t) (ORDERS_BUF_SIZE - zlength t)%u64 (cstr "%lu, ") [VaInt v]) b (fun k b' =>
    k = zlength (num_text 10 v ++ [chr ","; chr " "]) /\ k <= 11 /\
    exists r', b' = (t ++ num_text 10 v ++ [chr ","; chr " "]) ++ 0 :: r' /\ zlength b' = ORDERS_BUF_SIZE).
Proof.
  intros Eb Hb Hv Ht. pose proof (num_text_length 10 v 9 ltac:(lia) ltac:(lia) Hv) as Hn. pose proof (zlength_nonneg t). unfold ORDERS_BUF_SIZE in *.
  set (u := num_text 10 v ++ [chr ","; chr " "]). assert (zlength u = zlength (num_text 10 v) + 2) as Hu by (unfold u; by rewrite zlength_app).
  unfold wp, snprintf_at. rewrite (proj2 (Z.leb_le _ _)), (proj2 (Z.leb_le _ _)) by lia. cbn [andb].
  assert (drop (Z.to_nat (zlength t)) b = 0 :: r) as -> by (rewrite Eb; unfold zlength; rewrite Nat2Z.id; apply drop_app_length).
  assert (take (Z.to_nat (zlength t)) b = t) as -> by (rewrite Eb; unfold zlength; rewrite Nat2Z.id; apply take_app_length).
  assert (zlength (0 :: r) = 150 - zlength t) as Hr by (rewrite <- Hb, Eb, zlength_app; lia).
  rewrite sub64_small by (unfold is_u; lia). rewrite snprintf_count by lia. fold u. rewrite place_string_fits by lia.
  split; [lia|]. split; [lia|]. eexists. split; [by rewrite <- app_assoc|]. rewrite zlength_app, zlength_app, zlength_cons in *.
  unfold zlength in *. rewrite length_drop, length_cons in *. lia.
Qed.

Lemma orders_loop_ok counts : Forall (fun c => 0 <= c < 10 ^ 9) counts -> forall n i t r b,
  b = t ++ 0 :: r -> zlength b = ORDERS_BUF_SIZE -> (i + n <= length counts)%nat -> zlength t + 11 * Z.of_nat n < ORDERS_BUF_SIZE ->
  wp (orders_loop n (Z.of_nat i) (zlength t) counts) b (fun _ b' => exists r',
    b' = (t ++ concat ((fun c => num_text 10 c ++ [chr ","; chr " "]) <$> take n (drop i counts))) ++ 0 :: r' /\ zlength b' = ORDERS_BUF_SIZE).
Proof.
  intros Hc n. induction n as [|n IH]; intros i t r b Eb Hb Hlen Ht; cbn [orders_loop].
  { apply wp_ret. exists r. simpl. rewrite app_nil_r. by split. }
  destruct (lookup_lt_is_Some_2 counts i ltac:(lia)) as [c Ec]. pose proof (proj1 (Forall_lookup _ _) Hc i c Ec) as Hv. cbv beta in Hv.
  apply wp_bind. eapply wp_lift; [apply zlookup_Some; rewrite Nat2Z.id; split; [lia|exact Ec]|].
  apply wp_bind. eapply wp_mono; [apply (snprintf_at_ok t r c b Eb Hb Hv); lia|]. cbv beta. intros k b1 (-> & Hk & r1 & Eb1 & Hb1).
  pose proof (zlength_nonneg t). set (u := num_text 10 c ++ [chr ","; chr " "]) in *. pose proof (zlength_nonneg u). unfold ORDERS_BUF_SIZE in *.
  replace (Z.of_nat i + 1) with (Z.of_nat (S i)) by lia. rewrite i32_small by lia. rewrite <- zlength_app.
  eapply wp_mono; [apply (IH (S i) (t ++ u) r1 b1 Eb1 Hb1); [lia|rewrite zlength_app; lia]|]. cbv beta. intros _ b2 (r2 & -> & Hb2).
  exists r2. split; [|done]. rewrite (drop_S counts c i Ec). cbn [take]. rewrite fmap_cons. cbn [concat]. fold u. by rewrite <- (app_assoc t).
Qed.

(** The line of the orders: with fewer than 10^9 free pages of each order the
    twelve numbers fit; nothing is written past the buffer. *)
Lemma orders_text_ok counts b :
  length counts = 13%nat -> Forall (fun c => 0 <= c < 10 ^ 9) counts -> zlength b = ORDERS_BUF_SIZE ->
  wp (orders_text counts) b (fun _ b' => exists r, b' = orders_list (take 12 counts) ++ 0 :: r /\ zlength b' = ORDERS_BUF_SIZE).
Proof.
  intros Hlen Hc Hb. unfold orders_text. apply wp_bind. assert (text orders_start) as Ht by (repeat constructor; discriminate).
  destruct (literal_items orders_start Ht) as (L1 & L2 & L3); [repeat constructor; discriminate|].
  unfold wp at 1, snprintf. assert (cstr "            [ " = print_items (Lit <$> orders_start) ++ [0]) as -> by (by rewrite L2).
  rewrite (vsnprintf_ok ORDERS_BUF_SIZE _ [] orders_start b L1 (Forall_nil_2 _) L3) by first [rewrite Hb; by vm_compute|by vm_compute].
  rewrite place_string_fits by (by vm_compute).
  assert (zlength (orders_start ++ 0 :: drop (S (length orders_start)) b) = ORDERS_BUF_SIZE) as Hb1.
  { rewrite zlength_app, zlength_cons. unfold zlength in *. rewrite length_drop. unfold ORDERS_BUF_SIZE in *.
    change (length orders_start) with 14%nat. lia. }
  eapply wp_mono; [apply (orders_loop_ok counts Hc 12 0 orders_start _ _ eq_refl Hb1); [lia|by vm_compute]|].
  cbv beta. rewrite drop_0. intros _ b' H. exact H.
Qed.

(** *** Lines of the log *)

(** The records, and the characters on the console and the serial port, of
    lines logged at the level of [log_info]. *)
Definition records (ls : list (list Z)) : list (Z * list Z) := (fun t => (KERNEL_LOG_INFO, stored t)) <$> ls.

Definition echoed (ls : list (list Z)) : list Z := concat ((fun t => echo_text KERNEL_LOG_INFO (stored t)) <$> ls).

Lemma records_app ls ls' : records (ls ++ ls') = records ls ++ records ls'.
Proof. apply fmap_app. Qed.

Lemma echoed_app ls ls' : echoed (ls ++ ls') = echoed ls ++ echoed ls'.
Proof. unfold echoed. by rewrite fmap_app, concat_app. Qed.

Lemma records_length ls : zlength (records ls) = zlength ls.
Proof. unfold records, zlength. by rewrite length_fmap. Qed.

(** The log holds [R], [O] was sent to the serial port and the console is [c];
    the port will be ready for [k] characters more. *)
Record log_at (h : kernel_mem) (g : kernel_global) (R : list (Z * list Z)) (c : console) (O : list (Z * Z)) (k : Z) (s : log_mem) : Prop := {
  la_log : log_ok (log s) R;
  la_held : held s = ∅;
  la_global : global s = g;
  la_heap : heap s = h;
  la_console : console_ok (io s) c k;
  la_outs : outs (port (io s)) = O;
}.

(** With the echo on and the level open. *)
Definition echoes (g : kernel_global) : Prop := early_stage g = true /\ logs g KERNEL_LOG_INFO = true /\ log_echo g = true.

(** [m] gives [v], logs the lines [ls] and turns the heap [h] into [h']. *)
Definition reports {A} (h h' : kernel_mem) (m : LM A) (v : A) (ls : list (list Z)) : Prop := forall g R c O k s,
  echoes g -> log_at h g R c O (507 * zlength ls + k) s -> 0 <= k -> zlength R + zlength ls <= KERNEL_LOG_MAX_NUM_ENTRIES ->
  wp m s (fun v' s' => v' = v /\
    log_at h' g (R ++ records ls) (feed c (echoed ls)) (O ++ ((fun x => (COM1, u8 x)) <$> echoed ls)) k s').

Lemma reports_ret {A} h (v : A) : reports h h (mret v) v [].
Proof.
  intros g R c O k s _ Hs Hk _. apply wp_ret. split; [done|]. change (records []) with (@nil (Z * list Z)). change (echoed []) with (@nil Z).
  change (507 * zlength [] + k) with k in Hs. by rewrite !app_nil_r.
Qed.

Lemma reports_bind {A B} h h1 h' (m : LM A) (f : A -> LM B) v w l1 l2 :
  reports h h1 m v l1 -> reports h1 h' (f v) w l2 -> reports h h' (m ≫= f) w (l1 ++ l2).
Proof.
  intros Hm Hf g R c O k s Hg Hs Hk Hlen. rewrite zlength_app in *. pose proof (zlength_nonneg l2). apply wp_bind.
  eapply wp_mono; [apply (Hm g R c O (507 * zlength l2 + k)); [done| |lia..]|].
  - by replace (507 * zlength l1 + (507 * zlength l2 + k)) with (507 * (zlength l1 + zlength l2) + k) by lia.
  - cbv beta. intros ? s1 [-> H1]. eapply wp_mono; [apply (Hf g _ _ _ k s1 Hg H1 Hk); rewrite zlength_app, records_length; lia|].
    cbv beta. intros ? s2 [-> H2]. split; [done|]. by rewrite records_app, echoed_app, feed_app, fmap_app, !app_assoc.
Qed.

Lemma reports_bind_nil {A B} h h1 h' (m : LM A) (f : A -> LM B) v w ls :
  reports h h1 m v [] -> reports h1 h' (f v) w ls -> reports h h' (m ≫= f) w ls.
Proof. apply reports_bind. Qed.

Lemma reports_cons {B} h h' (m : LM unit) (f : unit -> LM B) t w ls :
  reports h h m tt [t] -> reports h h' (f tt) w ls -> reports h h' (m ≫= f) w (t :: ls).
Proof. intros Hm Hf. by apply (reports_bind h h h' m f tt w [t] ls). Qed.

Lemma reports_lift {A} h (o : option A) v : o = Some v -> reports h h (lift o) v [].
Proof. intros ->. apply reports_ret. Qed.

Lemma reports_get {A} h h' (f : log_mem -> LM A) v ls :
  (forall s, heap s = h -> reports h h' (f s) v ls) -> reports h h' (get ≫= f) v ls.
Proof.
  intros Hf g R c O k s Hg Hs Hk Hlen. apply wp_bind, wp_get. by apply (Hf s (la_heap _ _ _ _ _ _ _ Hs)).
Qed.

Lemma reports_heap {A} h h' (m : KM A) v : m h = Done v h' -> reports h h' (heap_op m) v [].
Proof.
  intros E g R c O k s _ [H1 H2 H3 H4 H5 H6] _ _. unfold wp, heap_op, zoom. rewrite H4, E. split; [done|].
  change (records []) with (@nil (Z * list Z)). change (echoed []) with (@nil Z). rewrite !app_nil_r.
  by split.
Qed.

Lemma feed_line c f t : cur (feed c (echo_text f t)) = [].
Proof. unfold echo_text. by rewrite app_assoc, feed_app. Qed.

Lemma reports_line h items args t :
  Forall item_ok items -> Forall va_ok args -> render items args = Some t -> zlength t < 2 ^ 31 ->
  reports h h (log_info (print_items items ++ [0]) args) tt [t].
Proof.
  intros Hi Ha Hr Hl g R c O k s (Hg1 & Hg2 & Hg3) [H1 H2 H3 H4 H5 H6] Hk Hlen. change (zlength [t]) with 1 in *. unfold log_info.
  eapply wp_mono; [apply (log_vprintf_ok s c R KERNEL_LOG_INFO items args t k); try done; [lia|by rewrite H3]|].
  cbv beta. unfold logged. rewrite H3, Hg2, Hg3. intros [] s' [(E1 & E2 & E3 & E4 & E5 & E6) E7]. split; [done|].
  change (records [t]) with [(KERNEL_LOG_INFO, stored t)].
  assert (echoed [t] = echo_text KERNEL_LOG_INFO (stored t)) as -> by apply app_nil_r.
  split; [done|done|done|by rewrite E3|split; [done| |done]|by rewrite E6, H6]. by rewrite feed_line.
Qed.

(** *** The lines of the report *)

Definition lits (s : string) : list item := Lit <$> chars s.

Definition conv_s (w : Z) : item := Conv (mk_conv false None w false (chr "s")).

Definition conv_u : item := Conv (mk_conv false None 0 false (chr "u")).

Definition conv_lu : item := Conv (mk_conv false None 0 true (chr "u")).

Definition conv_lx (f : option Z) (w : Z) : item := Conv (mk_conv false f w true (chr "x")).

Lemma render_lits s rest args t : render rest args = Some t -> render (lits s ++ rest) args = Some (chars s ++ t).
Proof. intros H. unfold lits. induction (chars s) as [|c l IH]; [done|]. cbn. by rewrite IH. Qed.

Lemma render_lits_end s : render (lits s) [] = Some (chars s).
Proof. unfold lits. induction (chars s) as [|c l IH]; [done|]. cbn. by rewrite IH. Qed.

Lemma render_cons c args args' rest u t : render_conv c args = Some (u, args') -> render rest args' = Some t -> render (Conv c :: rest) args = Some (u ++ t).
Proof. intros H H'. cbn [render]. rewrite H. simpl. by rewrite H'. Qed.

Lemma render_s w u r rest args t :
  text u -> render rest args = Some t -> render (conv_s w :: rest) (VaStr (u ++ 0 :: r) :: args) = Some (pad w false (chr " ") u ++ t).
Proof. intros Hu H. eapply render_cons; [by apply render_conv_s|done]. Qed.

Lemma render_s0 u r rest args t :
  text u -> render rest args = Some t -> render (conv_s 0 :: rest) (VaStr (u ++ 0 :: r) :: args) = Some (u ++ t).
Proof. intros Hu H. rewrite <- (pad_0 false (chr " ") u) at 2. by apply render_s. Qed.

Lemma render_u v rest args t : render rest args = Some t -> render (conv_u :: rest) (VaInt v :: args) = Some (num_text 10 (u32 v) ++ t).
Proof. intros H. eapply render_cons; [|done]. unfold render_conv. simpl. by rewrite pad_0. Qed.

Lemma render_lu v rest args t : render rest args = Some t -> render (conv_lu :: rest) (VaInt v :: args) = Some (dec v ++ t).
Proof. intros H. eapply render_cons; [|done]. unfold render_conv. simpl. by rewrite pad_0. Qed.

Lemma render_lx0 v rest args t : render rest args = Some t -> render (conv_lx None 0 :: rest) (VaInt v :: args) = Some (num_text 16 (u64 v) ++ t).
Proof. intros H. eapply render_cons; [|done]. unfold render_conv. simpl. by rewrite pad_0. Qed.

Lemma render_lx16 v rest args t :
  render rest args = Some t -> render (conv_lx (Some (chr "0")) 16 :: rest) (VaInt v :: args) = Some (hex_16 v ++ t).
Proof. intros H. by eapply render_cons. Qed.

Lemma render_end : render [] [] = Some [].
Proof. done. Qed.

Create HintDb lines.
#[local] Hint Resolve render_lits render_lits_end render_s render_s0 render_u render_lu render_lx0 render_lx16 render_end : lines.

Lemma dec_length v : zlength (dec v) <= 20.
Proof. apply num_text_length_64; [by left|]. apply is_u64_u64. Qed.

Lemma human_9_length b : zlength (human_9 b) <= 9.
Proof. unfold human_9, zlength. rewrite length_take. lia. Qed.

(** [bytes_to_human] into ten bytes. *)
Lemma human_10_ok h b : 0 <= b < 2 ^ 50 -> exists r, reports h h (human_10 b) (VaStr (human_9 b ++ 0 :: r)) [].
Proof.
  intros Hb. assert (exists r, place_string 10 (human_text b) (replicate 10 0) = human_9 b ++ 0 :: r) as [r Hr].
  { unfold place_string, human_9. eexists. f_equal. destruct (decide (length (human_text b) <= 9)%nat).
    - rewrite !take_ge; [done|lia|]. unfold zlength. lia.
    - f_equal. unfold zlength. lia. }
  exists r. intros g R c O k s Hg Hs Hk Hlen. pose proof (reports_ret h (VaStr (human_9 b ++ 0 :: r)) g R c O k s Hg Hs Hk Hlen) as H.
  unfold wp, human_10 in *. rewrite bytes_to_human_ok, Hr; [exact H|lia|split; vm_compute; congruence|done].
Qed.

Lemma human_text_ok b : 0 <= b < 2 ^ 50 -> text (human_9 b).
Proof.
  intros Hb. apply Forall_take. unfold human_text. pose proof (unit_of_nonneg b). pose proof (unit_of_le b 4 ltac:(lia) ltac:(lia)).
  destruct (unit_name (unit_of b)) as (u & -> & Hu & _); [lia|]. cbn [fmap option_fmap option_map default].
  assert (0 < 1024 ^ unit_of b) by (apply Z.pow_pos_nonneg; lia). pose proof (Z.div_pos b _ ltac:(lia) H1).
  assert (0 <= tenth b (1024 ^ unit_of b)).
  { unfold tenth. pose proof (Z.mod_pos_bound b _ H1). assert (0 <= b mod 1024 ^ unit_of b * 1024 / 1024 ^ unit_of b / 100); [|lia].
    apply Z.div_pos; [|lia]. apply Z.div_pos; lia. }
  case_match; repeat first [done | apply pad_text; [done|] | apply Forall_app; split | apply Forall_cons; split | apply num_text_text; lia].
Qed.

Lemma reports_format h fmt items args t t' :
  fmt = print_items items ++ [0] -> Forall item_ok items -> Forall va_ok args -> render items args = Some t' -> t' = t -> zlength t < 2 ^ 31 ->
  reports h h (log_info fmt args) tt [t].
Proof. intros -> Hi Ha Hr -> Hl. by apply reports_line with (items := items). Qed.

Lemma va_ok_str t r : text t -> zlength t < 2 ^ 31 -> va_ok (VaStr (t ++ 0 :: r)).
Proof. intros. by exists t, r. Qed.

(** Lengths of texts put together from numbers, sizes and literals. *)
Ltac text_length :=
  rewrite ?zlength_app, ?zlength_pad; change (zlength (@nil Z)) with 0;
  repeat match goal with
  | |- context [zlength (chars ?s)] => let n := eval vm_compute in (zlength (chars s)) in change (zlength (chars s)) with n
  | |- context [zlength (dec ?v)] => pose proof (dec_length v); generalize dependent (zlength (dec v)); intros
  | |- context [zlength (human_9 ?v)] => pose proof (human_9_length v); generalize dependent (zlength (human_9 v)); intros
  end; lia.

Lemma hex_length v : zlength (num_text 16 (u64 v)) <= 20.
Proof. apply num_text_length_64; [by right|]. apply is_u64_u64. Qed.

Lemma type_text t : text (chars (e820_type_to_string t)) /\ zlength (chars (e820_type_to_string t)) <= 10.
Proof. unfold e820_type_to_string. repeat case_match; (split; [repeat constructor; discriminate|by vm_compute]). Qed.

Lemma entry_line_ok h e r (from := base e) (size := E820.size e) :
  0 <= size < 2 ^ 50 ->
  reports h h (log_info (cstr "%8s %016lx - %016lx : %s")
    [VaStr (cstr (e820_type_to_string (E820.type e))); VaInt from; VaInt (from + size)%u64; VaStr (human_9 size ++ 0 :: r)]) tt [entry_line e].
Proof.
  intros Hs. destruct (type_text (E820.type e)) as [Ht Hl]. pose proof (human_text_ok size Hs) as Hh. pose proof (human_9_length size).
  eapply (reports_format _ _ ([conv_s 8] ++ lits " " ++ [conv_lx (Some (chr "0")) 16] ++ lits " - " ++ [conv_lx (Some (chr "0")) 16] ++ lits " : " ++ [conv_s 0])).
  - reflexivity.
  - items_ok.
  - repeat (constructor; [first [done|apply va_ok_str; [done|lia]]|]). constructor.
  - unfold cstr. cbn [app]. auto 20 with nocore lines.
  - unfold entry_line, hex_16. rewrite app_nil_r. unfold add64. by rewrite (u64_small (u64 _)) by apply is_u64_u64.
  - unfold entry_line, hex_16. pose proof (hex_length (base e)). pose proof (hex_length (base e + E820.size e)). unfold size in *.
    rewrite !zlength_app, zlength_pad. generalize dependent (zlength (chars (e820_type_to_string (E820.type e)))). intros. text_length.
Qed.

Lemma total_size_app l l' : total_size (l ++ l') = total_size l + total_size l'.
Proof. unfold total_size. induction l as [|e l IH]; [done|]. cbn in *. lia. Qed.

Lemma total_size_nonneg l : Forall (fun e => 0 <= E820.size e) l -> 0 <= total_size l.
Proof. unfold total_size. induction 1; cbn in *; lia. Qed.

Lemma e820_lines_ok h info l : forall n i total,
  (forall k, (k < n)%nat -> e820_entries info !! (i + k)%nat = l !! k) -> length l = n ->
  Forall (fun e => 0 <= E820.size e) l -> 0 <= total -> total + total_size l < 2 ^ 50 ->
  reports h h (e820_lines n (Z.of_nat i) info total) (total + total_size l) (entry_line <$> l).
Proof.
  induction l as [|e l IH]; intros n i total Hl Hn Hs Ht Hsum; destruct n as [|n]; try done; cbn [e820_lines].
  { rewrite Z.add_0_r. apply reports_ret. }
  apply Forall_cons in Hs as [He Hs]. change (total_size (e :: l)) with (E820.size e + total_size l) in *. pose proof (total_size_nonneg l Hs).
  eapply reports_bind_nil; [apply reports_lift, zlookup_Some; rewrite Nat2Z.id; split; [lia|]; specialize (Hl 0%nat ltac:(lia)); by rewrite Nat.add_0_r in Hl|].
  cbv zeta. destruct (human_10_ok h (E820.size e)) as [r Hr]; [lia|]. eapply reports_bind_nil; [exact Hr|].
  rewrite fmap_cons. eapply reports_cons; [apply entry_line_ok; lia|].
  rewrite add64_small by (unfold is_u; lia). rewrite Z.add_assoc. replace (Z.of_nat i + 1) with (Z.of_nat (S i)) by lia.
  apply IH; [|by injection Hn|done|lia..]. intros k Hk. specialize (Hl (S k) ltac:(lia)). by rewrite <- Nat.add_succ_comm in Hl.
Qed.

Lemma orders_list_text l : Forall (fun c => 0 <= c < 10 ^ 9) l -> text (orders_list l) /\ zlength (orders_list l) <= 14 + 11 * zlength l.
Proof.
  intros Hl. unfold orders_list. assert (text (concat ((fun c => num_text 10 c ++ [chr ","; chr " "]) <$> l)) /\
    zlength (concat ((fun c => num_text 10 c ++ [chr ","; chr " "]) <$> l)) <= 11 * zlength l) as [H1 H2].
  { induction Hl as [|c l Hc Hl [IH1 IH2]]; [split; [by constructor|done]|]. rewrite fmap_cons. cbn [concat]. pose proof (num_text_length 10 c 9 ltac:(lia) ltac:(lia) Hc).
    rewrite !zlength_app, (zlength_cons c). change (zlength [chr ","; chr " "]) with 2. split; [|lia].
    apply Forall_app. split; [|done]. apply Forall_app. split; [apply num_text_text; lia|repeat constructor; discriminate]. }
  split; [|rewrite zlength_app; change (zlength orders_start) with 14; lia]. apply Forall_app. split; [repeat constructor; discriminate|done].
Qed.

Lemma orders_buf_ok h counts :
  length counts = 13%nat -> Forall (fun c => 0 <= c < 10 ^ 9) counts ->
  exists r, reports h h (orders_buf counts) (VaStr (orders_list (take 12 counts) ++ 0 :: r)) [].
Proof.
  intros Hl Hc. destruct (wp_done _ _ _ (orders_text_ok counts (replicate (Z.to_nat ORDERS_BUF_SIZE) 0) Hl Hc eq_refl)) as (v & b & E & r & -> & _).
  exists r. intros g R c O k s Hg Hs Hk Hlen. unfold wp, orders_buf. rewrite E.
  by apply (reports_ret h (VaStr (orders_list (take 12 counts) ++ 0 :: r)) g R c O k s Hg Hs Hk Hlen).
Qed.

(** The part of the report that reads the allocator's state. *)
Definition stats_lines (st : phys_alloc_stats) : list (list Z) :=
  [chars "phys_alloc: total=" ++ dec (num_4k_pages st) ++ chars ", pg=" ++ dec (num_pagetable_pages st) ++ chars ", pb=" ++
     dec (num_physblock_pages st) ++ chars ", rest=" ++ dec (rest_pages st);
   orders_list (take 12 (order_stats st)) ++ dec (nth 12 (order_stats st) 0) ++ chars " ]"].

Lemma dec_sub a b c d : dec (a - b - c - d)%u64 = dec (a - b - c - d).
Proof.
  unfold dec, sub64, u64, wrap. rewrite Zmod_mod. f_equal. rewrite (Zminus_mod_idemp_l _ d).
  rewrite <- (Zminus_mod_idemp_l (_ - c) d), (Zminus_mod_idemp_l _ c). rewrite (Zminus_mod_idemp_l _ d).
  done.
Qed.
(** A line whose items are [its]. *)
Ltac line its :=
  eapply (reports_format _ _ its);
  [reflexivity|first [apply Forall_nil_2|items_ok]|
   repeat (apply Forall_cons_2; [first [exact I|apply va_ok_str; [assumption|lia]]|]); apply Forall_nil_2|
   cbn [app]; solve [auto 20 with nocore lines]|by rewrite ?app_nil_r, ?dec_sub|text_length].

(** The heap while the report reads the allocator's state. *)
Definition locked (h : kernel_mem) : kernel_mem := mk_kmem (with_locks {[alloc_lock (phys h)]} (phys h)) (Kmalloc.mem h).

Lemma lock_alloc_ok h : locks (phys h) = ∅ ->
  phys_op phys_get_alloc_state_lock h = Done (alloc_state (phys h)) (locked h) /\ phys_op release_alloc (locked h) = Done tt h.
Proof.
  intros Hl. destruct h as [[B ns lk st sp al] m]. cbn in Hl. subst lk. unfold locked. cbn [phys Kmalloc.mem]. split.
  - unfold phys_op, zoom, phys_get_alloc_state_lock, acquire_alloc, mbind, M_bind, get, gets, Phys.lock_op, zoom.
    destruct (wp_done _ _ _ (spinlock_acquire_ok ∅ (al + 344) (fun _ h' => h' = {[al + 344]}) (not_elem_of_empty _) (union_empty_r_L _))) as ([] & h' & E & ->).
    unfold alloc_lock. cbn [phys locks alloc_state]. by rewrite E.
  - unfold phys_op, zoom, release_alloc, mbind, M_bind, get, Phys.lock_op, zoom.
    destruct (wp_done _ _ _ (spinlock_release_ok {[al + 344]} (al + 344) (fun _ h' => h' = ∅) (difference_diag_L _))) as ([] & h' & E & ->).
    unfold alloc_lock, with_locks. cbn [phys locks alloc_state]. by rewrite E.
Qed.

Lemma stats_report_ok h (st := stats (phys h)) (m := (s ← get;
    let stats := stats (phys (heap s)) in
    log_info (cstr "phys_alloc: total=%lu, pg=%lu, pb=%lu, rest=%lu")
      [VaInt (num_4k_pages stats); VaInt (num_pagetable_pages stats); VaInt (num_physblock_pages stats);
       VaInt (num_4k_pages stats - num_free_4k_pages stats - num_pagetable_pages stats - num_physblock_pages stats)%u64];;
    orders ← orders_buf (order_stats stats);
    last ← lift (zlookup (order_stats stats) MAX_ORDER);
    log_info (cstr "%s%lu ]") [orders; VaInt last];;
    heap_op (phys_op release_alloc)) : LM unit) :
  locks (phys h) = ∅ -> length (order_stats st) = 13%nat -> Forall (fun c => 0 <= c < 10 ^ 9) (order_stats st) ->
  reports (locked h) h m tt (stats_lines st).
Proof.
  intros Hl Hlen Hc. apply reports_get. intros s Hs. rewrite Hs. change (stats (phys (locked h))) with st. cbv zeta. unfold stats_lines.
  destruct (orders_list_text (take 12 (order_stats st))) as [Ht Htl]; [by apply Forall_take|].
  assert (zlength (take 12 (order_stats st)) = 12) as Hn by (unfold zlength; rewrite length_take; lia).
  assert (order_stats st !! 12%nat = Some (nth 12 (order_stats st) 0)) as H12.
  { destruct (lookup_lt_is_Some_2 (order_stats st) 12 ltac:(lia)) as [x E]. by rewrite nth_lookup, E. }
  eapply reports_cons.
  - line (lits "phys_alloc: total=" ++ [conv_lu] ++ lits ", pg=" ++ [conv_lu] ++ lits ", pb=" ++ [conv_lu] ++ lits ", rest=" ++ [conv_lu]).
  - destruct (orders_buf_ok (locked h) _ Hlen Hc) as [r Hr]. eapply reports_bind_nil; [exact Hr|].
    eapply reports_bind_nil; [apply reports_lift, zlookup_Some; split; [by vm_compute|exact H12]|].
    eapply reports_cons; [|apply reports_heap; by apply lock_alloc_ok].
    line ([conv_s 0; conv_lu] ++ lits " ]").
Qed.

Lemma report_lines_eq info st :
  report_lines info st =
    [chars "-- zeptux 0.0.0 --"; []; chars "kernel ELF size = " ++ num_text 10 (u32 (kernel_elf_size_bytes info));
     chars "      APIC base = 0x" ++ num_text 16 (u64 (apic_base info)); [];
     chars "e820 entries (" ++ dec (num_e820_entries info) ++ chars "):"] ++ (entry_line <$> E820.entries info) ++
    [pad 56 false (chr " ") (human_9 (total_size (E820.entries info)));
     chars "total available RAM: " ++ human_9 (total_avail_ram_bytes info) ++ chars " (" ++ dec (total_avail_ram_bytes info) ++ chars " bytes)"; []] ++
    stats_lines st.
Proof. done. Qed.

Lemma prelude_ok h info : locks (phys h) = ∅ -> report_fits info (stats (phys h)) -> reports h h (prelude info) tt (report_lines info (stats (phys h))).
Proof.
  intros Hl [[R1 R1'] R2 R3 R4 R5 R6]. rewrite report_lines_eq. unfold prelude. pose proof (total_size_nonneg _ R2) as Hts.
  assert (zlength (num_text 10 (u32 (kernel_elf_size_bytes info))) <= 20) as Hd32.
  { apply num_text_length_64; [by left|]. pose proof (Z.mod_pos_bound (kernel_elf_size_bytes info) (2 ^ 32) eq_refl). unfold u32, wrap. lia. }
  pose proof (hex_length (apic_base info)).
  eapply reports_cons; [line (lits "-- zeptux " ++ [conv_u] ++ lits "." ++ [conv_u] ++ lits "." ++ [conv_u] ++ lits " --")|].
  eapply reports_cons; [line (@nil item)|].
  eapply reports_cons; [line (lits "kernel ELF size = " ++ [conv_u])|].
  eapply reports_cons; [line (lits "      APIC base = 0x" ++ [conv_lx None 0])|].
  eapply reports_cons; [line (@nil item)|].
  eapply reports_cons; [line (lits "e820 entries (" ++ [conv_lu] ++ lits "):")|].
  assert (count info = Z.to_nat (num_e820_entries info)) as Hcount by (unfold count; rewrite i32_small by lia; done).
  eapply (reports_bind h h h).
  { apply (e820_lines_ok h info (E820.entries info) _ 0%nat 0); [|unfold E820.entries; rewrite length_take, Hcount; unfold zlength in R1'; lia|done|lia|lia].
    intros k Hk. unfold E820.entries. rewrite lookup_take, decide_True by lia. done. }
  cbv beta. rewrite Z.add_0_l. destruct (human_10_ok h (total_size (E820.entries info))) as [r Hr]; [lia|]. eapply reports_bind_nil; [exact Hr|].
  pose proof (human_text_ok (total_size (E820.entries info)) ltac:(lia)) as Ht1. pose proof (human_9_length (total_size (E820.entries info))) as Hl1.
  cbn [app]. eapply reports_cons.
  { line [conv_s 56]. }
  destruct (human_10_ok h (total_avail_ram_bytes info)) as [r' Hr']; [lia|]. eapply reports_bind_nil; [exact Hr'|].
  pose proof (human_text_ok (total_avail_ram_bytes info) ltac:(lia)) as Ht2. pose proof (human_9_length (total_avail_ram_bytes info)) as Hl2.
  eapply reports_cons.
  { line (lits "total available RAM: " ++ [conv_s 0] ++ lits " (" ++ [conv_lu] ++ lits " bytes)"). }
  eapply reports_cons; [line (@nil item)|].
  eapply reports_bind_nil; [apply reports_heap; by apply lock_alloc_ok|]. by apply stats_report_ok.
Qed.

(** ** Properties *)

(** C40: the report. On a machine with less than 1 PiB of memory and fewer than
    10^9 free pages of each order, with an open log, [prelude] adds exactly the
    lines of the report to the log, the console and the serial port: the firmware's
    map entry by entry, its total, the memory available, the allocator's counts and
    the free pages of the orders, which fit their buffer. It leaves the allocator
    as it was, with its lock free. *)
Theorem prelude_correct info h g R c O k s (ls := report_lines info (stats (phys h))) :
  locks (phys h) = ∅ -> report_fits info (stats (phys h)) -> echoes g ->
  log_at h g R c O (507 * zlength ls + k) s -> 0 <= k -> zlength R + zlength ls <= KERNEL_LOG_MAX_NUM_ENTRIES ->
  wp (prelude info) s (fun _ s' =>
    log_at h g (R ++ records ls) (feed c (echoed ls)) (O ++ ((fun x => (COM1, u8 x)) <$> echoed ls)) k s').
Proof.
  intros Hl Hf Hg Hs Hk Hlen. eapply wp_mono; [by apply (prelude_ok h info Hl Hf g R c O k s)|]. by intros ? s' [_ H].
Qed.

(** Two entries, and the sample heap of eight frames. *)
Definition sample_report_info : early_boot_info :=
  E820.mk_info 0x209f000 2 0xfee00000 0x3000 2 [E820.mk_entry 0 0x9f000 1; E820.mk_entry 0x100000 0x2000000 1].

Definition sample_report_lines : list (list Z) :=
  chars <$> ["-- zeptux 0.0.0 --"; ""; "kernel ELF size = 12288"; "      APIC base = 0xfee00000"; ""; "e820 entries (2):";
   "     RAM 0000000000000000 - 000000000009f000 :   636 KiB"; "     RAM 0000000000100000 - 0000000002100000 :    32 MiB";
   "                                                  32 MiB"; "total available RAM:    32 MiB (34205696 bytes)"; "";
   "phys_alloc: total=8, pg=0, pb=0, rest=1"; "            [ 1, 1, 1, 0, 0, 0, 0, 0, 0, 0, 0, 0, 0 ]"].

Lemma sample_heap_locks : locks (phys sample_kmem) = ∅.
Proof. destruct sample_phys_ok as (L & _ & _ & Hl). exact Hl. Qed.

Lemma sample_heap_stats : stats (phys sample_kmem) = mk_stats 8 7 0 0 [1; 1; 1; 0; 0; 0; 0; 0; 0; 0; 0; 0; 0].
Proof. change (phys sample_kmem) with sample_phys. by vm_compute. Qed.

Lemma sample_report_fits : report_fits sample_report_info (stats (phys sample_kmem)).
Proof.
  rewrite sample_heap_stats.
  split; [split; [split; by vm_compute|by vm_compute]| |by vm_compute|split; by vm_compute|done|by repeat constructor].
  apply (bool_decide_unpack _). by vm_compute.
Qed.

Lemma prelude_correct_witness :
  exists s, log s = zero_log /\ wp (prelude sample_report_info) s (fun _ s' => log_ok (log s') (records sample_report_lines)).
Proof.
  destruct sample_console as [v Hv].
  exists (mk_lm zero_log sample_global ∅ (mk_io v (mk_serial (replicate 6591 0x20) [])) sample_kmem). split; [reflexivity|].
  eapply wp_mono; [apply (prelude_correct sample_report_info sample_kmem sample_global [] empty_console [] 0)|].
  - exact sample_heap_locks.
  - exact sample_report_fits.
  - done.
  - split; [exact zero_log_ok|reflexivity..| |reflexivity]. split; [exact Hv|reflexivity|]. rewrite sample_heap_stats.
    unfold ready_times. cbn [lsr port io]. vm_compute. discriminate.
  - lia.
  - rewrite sample_heap_stats. by vm_compute.
  - cbv beta. intros ? s' H. rewrite sample_heap_stats in H. cbv zeta in H.
    assert (report_lines sample_report_info (mk_stats 8 7 0 0 [1; 1; 1; 0; 0; 0; 0; 0; 0; 0; 0; 0; 0]) = sample_report_lines) as <- by (clear; by vm_compute).
    exact (la_log _ _ _ _ _ _ _ H).
Defined.

(** Twelve numbers of eleven digits do not fit: the size left wraps, and the
    buffer is overrun. *)
Theorem orders_text_overflows : orders_text (replicate 13 (10 ^ 10)) (replicate 150 0) = Undef.
Proof. by vm_compute. Qed.
