(* ===== verification/Main.v ===== *)
(** * The start of the kernel (early/init.c, kernel/main.c)

    [main] brings up the serial port, the screen, memory, the physical allocator,
    the log and the local interrupt controller, reports what it found and spins.
    The state joins those of the components; each of them runs on its part of it,
    the log on a view that shares the allocator with [Boot] and the global state
    with both. *)

From stdpp Require Import base strings numbers gmap list sets.
From Stdlib Require Import ZArith Lia.
From S2P Require Import Prelude Macros MmDefs E820 Page PageMap EarlyAlloc EarlyInit ListDL Phys PhysProofs CString Kmalloc Format Console Log KernelMap MemInit Boot Interrupt Report.

(** ** The state and the code *)

Record kernel_state := mk_kernel {
  machine : machine_state;
  direct_bytes : bytes;
  ring : kernel_log_state;
  locks_held : gset Z;
  console_io : early_io;
  apic : lapic;
}.

Abbreviation KS := (M kernel_state).

Definition machine_op {A} (m : SM A) : KS A :=
  zoom machine (fun x s => mk_kernel x (direct_bytes s) (ring s) (locks_held s) (console_io s) (apic s)) m.

Definition console_op {A} (m : IO A) : KS A :=
  zoom console_io (fun x s => mk_kernel (machine s) (direct_bytes s) (ring s) (locks_held s) x (apic s)) m.

Definition apic_op {A} (m : M lapic A) : KS A :=
  zoom apic (fun x s => mk_kernel (machine s) (direct_bytes s) (ring s) (locks_held s) (console_io s) x) m.

(** The part of the state the log works on. *)
Definition log_view (s : kernel_state) : log_mem :=
  mk_lm (ring s) (Boot.global (machine s)) (locks_held s) (console_io s) (mk_kmem (phys (booted (machine s))) (direct_bytes s)).

Definition with_phys (p : phys_mem) (g : kernel_global) (m : machine_state) : machine_state :=
  mk_machine_state (info m) g (mk_boot (early (booted m)) p (kernel_root_pgd (booted m)) (cr3 (booted m))).

Definition log_update (l : log_mem) (s : kernel_state) : kernel_state :=
  mk_kernel (with_phys (Kmalloc.phys (heap l)) (Log.global l) (machine s)) (Kmalloc.mem (heap l)) (log l) (held l) (io l) (apic s).

Definition log_op {A} (m : LM A) : KS A := zoom log_view log_update m.

(** early/init.c *)
Definition early_init (hdr : elf_header) (sects : list elf_section_header) : KS unit :=
  console_op (on_port early_serial_init_poll);;
  console_op (on_screen early_video_init);;
  machine_op (early_mem_init hdr sects).

(** [main] up to its last loop. *)
Definition main_start (hdr : elf_header) (sects : list elf_section_header) (shows : Z -> Z) : KS unit :=
  early_init hdr sects;;
  machine_op (boot_op (phys_op phys_alloc_init));;
  log_op kernel_log_init;;
  apic_op (interrupt_init shows);;
  i ← gets (fun s => info (machine s));
  log_op (prelude i).

Definition main (hdr : elf_header) (sects : list elf_section_header) (shows : Z -> Z) : KS unit :=
  main_start hdr sects shows;; hang.

(** ** Specification *)

(** The report has room for what the machine has. *)
Record machine_fits (i : early_boot_info) : Prop := {
  mf_wf : info_wf i;
  mf_count : num_e820_entries i <= 72;
  mf_sizes : Forall (fun e => 0 <= E820.size e) (E820.entries i);
  mf_total : total_size (E820.entries i) < 2 ^ 50;
  mf_ram : ram_bytes (E820.entries i) < 4096 * 10 ^ 9;
}.

(** The devices and the bytes of memory before the kernel runs: the statics of the
    screen are zero and the serial port will be ready [n] times. *)
Record devices_ready (sp : list phys_alloc_span) (n : Z) (s : kernel_state) : Prop := {
  dr_locks : locks (phys (booted (machine s))) = ∅ /\ locks_held s = ∅;
  dr_bytes : frames_mapped (direct_bytes s) sp;
  dr_screen : exists m, screen (console_io s) = mk_video m 0 0 /\
    mapped m EARLY_VIDEO_BUFFER_ADDRESS BUFFER_SIZE /\ mapped m EARLY_VIDEO_MEMORY_ADDRESS MEMORY_SIZE;
  dr_port : ready_times n (lsr (port (console_io s)));
}.

(** The writes that set up the serial port. *)
Definition serial_setup : list (Z * Z) := [(0x3f9, 0); (0x3fb, 0x80); (0x3f8, 1); (0x3f9, 0); (0x3fb, 3); (0x3fc, 0)].

Definition running_global : kernel_global := mk_global KERNEL_STAGE_2_HAS_RING_BUFFER true KERNEL_LOG_DEBUG.

(** The kernel runs: [s1] is the state in which memory came up, [ptr] the block the
    log took since, and [O] what was written to the serial port before the report. *)
Record started (i : early_boot_info) (hdr : elf_header) (sects : list elf_section_header) (shows : Z -> Z)
    (O : list (Z * Z))
    (s s' : kernel_state) (s1 : machine_state) (ptr : Z) (ls := report_lines i (stats (phys (booted (machine s'))))) : Prop := {
  st_memory : memory_ready i hdr sects s1;
  st_machine : machine s' = with_phys (phys (booted (machine s'))) running_global s1;
  st_log_block : kmalloced (mk_kmem (phys (booted s1)) (direct_bytes s)) log_bytes ptr (phys (booted (machine s')));
  st_bytes : forall x, direct_bytes s' !! x = if decide (ptr <= x < ptr + log_bytes) then Some 0 else direct_bytes s !! x;
  st_unlocked : locks_held s' = ∅;
  st_ring : log_ok (ring s') (records ls);
  st_screen : represents (screen (console_io s')) (feed empty_console (echoed ls));
  st_serial : outs (port (console_io s')) = O ++ ((fun x => (COM1, u8 x)) <$> echoed ls);
  st_apic : lapic_started shows (apic s) (apic s');
}.

(** No block is free for the log. *)
Definition no_log_block (s1 : machine_state) : Prop := forall p, ~ free_run (phys (booted s1)) 7 p.

(** ** Lemmas *)

Lemma completes_bind_inv {S A B} (m : M S A) (k : A -> M S B) s Q P :
  completes (m ≫= k) s Q P -> completes m s (fun a s' => completes (k a) s' Q P) P.
Proof. unfold completes, mbind, M_bind. by destruct (m s). Qed.

Lemma completes_zoom {S T A} view update (m : M S A) (t : T) Q P :
  completes m (view t) (fun a x => Q a (update x t)) P -> completes (zoom view update m) t Q P.
Proof. unfold completes, zoom. by destruct (m (view t)). Qed.

Lemma wp_zoom {S T A} view update (m : M S A) (t : T) (Q : A -> T -> Prop) :
  wp m (view t) (fun a x => Q a (update x t)) -> wp (zoom view update m) t Q.
Proof. unfold wp, zoom. by destruct (m (view t)). Qed.

Lemma ready_direct i hdr sects s1 :
  Forall span_entry (E820.entries i) -> memory_ready i hdr sects s1 -> direct_mapped (spans (phys (booted s1))).
Proof.
  intros Hl Hr p Hp. destruct (my_phys _ _ _ _ Hr) as (L & Hinv & _). rewrite (my_spans _ _ _ _ Hr) in *.
  pose proof (pi_spans _ _ Hinv) as Hwf. rewrite (my_spans _ _ _ _ Hr) in Hwf. apply elem_of_pfns in Hp; [|done].
  apply (frames_range (ram_shape i)); [by apply ram_shape_ok|done].
Qed.

(** The allocator's free pages fit the report. *)
Lemma ready_fits i hdr sects s1 h size ptr p :
  Forall span_entry (E820.entries i) -> machine_fits i -> total_avail_ram_bytes i = ram_bytes (E820.entries i) ->
  memory_ready i hdr sects s1 -> Kmalloc.phys h = phys (booted s1) -> kmalloced h size ptr p ->
  locks p = ∅ /\ report_fits i (stats p).
Proof.
  intros Hl [F1 F2 F3 F4 F5] Htot Hr Eh (f & t & _ & _ & _ & _ & _ & (L & Hinv & _ & Hlk) & Esp & _).
  split; [done|]. pose proof (inv_order_counts _ _ Hinv) as [Hn Hc]. rewrite Esp, Eh, (my_spans _ _ _ _ Hr), ram_shape_frames in Hc by done.
  assert (0 <= ram_bytes (E820.entries i)).
  { clear -F3. induction F3 as [|e l He _ IH]; cbn [ram_bytes]; [lia|]. case_match; lia. }
  split; try done; [lia|]. eapply Forall_impl; [exact Hc|]. cbn. intros c Hc'.
  assert (ram_bytes (E820.entries i) / 4096 < 10 ^ 9) by (apply Z.div_lt_upper_bound; lia). lia.
Qed.

(** The serial port and the screen are set up. *)
Lemma console_set_up io m k :
  screen io = mk_video m 0 0 -> mapped m EARLY_VIDEO_BUFFER_ADDRESS BUFFER_SIZE -> mapped m EARLY_VIDEO_MEMORY_ADDRESS MEMORY_SIZE ->
  ready_times k (lsr (port io)) ->
  wp (on_port early_serial_init_poll;; on_screen early_video_init) io (fun _ io' =>
    console_ok io' empty_console k /\ outs (port io') = outs (port io) ++ serial_setup).
Proof.
  intros Em Hb Hv Hk. apply wp_bind, wp_zoom. unfold early_serial_init_poll. do 5 apply wp_bind, wp_modify. apply wp_modify.
  apply wp_zoom. cbn [screen port]. rewrite Em. eapply wp_mono; [by apply init_ok|]. cbv beta. intros _ v Hrep. cbn [screen port].
  split; [split; [exact Hrep|done|exact Hk]|]. cbn [outs]. by rewrite <- !app_assoc.
Qed.

Lemma report_lines_length i st : info_wf i -> zlength (report_lines i st) <= 11 + num_e820_entries i.
Proof.
  intros [H1 H2]. unfold report_lines. rewrite !zlength_app. unfold zlength at 2. rewrite length_fmap.
  unfold E820.entries. rewrite length_take. unfold E820.count. rewrite i32_small by lia.
  change (zlength (_ :: _ :: _ :: _ :: _ :: _ :: [])) with 6. change (zlength (_ :: _ :: _ :: _ :: _ :: [])) with 5. lia.
Qed.

(** From the state in which memory is up to the report. *)
Lemma report_part i hdr sects shows s s1 O :
  Forall span_entry (E820.entries i) -> machine_fits i -> total_avail_ram_bytes i = ram_bytes (E820.entries i) ->
  memory_ready i hdr sects s1 -> machine s = s1 -> frames_mapped (direct_bytes s) (phys_spans (ram_shape i)) ->
  locks_held s = ∅ -> console_ok (console_io s) empty_console (507 * (11 + num_e820_entries i)) -> outs (port (console_io s)) = O ->
  completes (log_op kernel_log_init;; apic_op (interrupt_init shows);; i ← gets (fun s => info (machine s)); log_op (prelude i)) s
    (fun _ s' => exists ptr, started i hdr sects shows O s s' s1 ptr) (no_log_block s1).
Proof.
  intros Hl Hfit Htot Hr E1 Hfm Hheld Hcon HO. pose proof (kernel_log_init_ok (log_view s)) as Hlog. unfold log_view in Hlog at 1 2 3 4 5.
  cbn [heap held Kmalloc.phys Kmalloc.mem] in Hlog. rewrite E1 in Hlog.
  specialize (Hlog (my_phys _ _ _ _ Hr) (ready_direct _ _ _ _ Hl Hr)). rewrite (my_spans _ _ _ _ Hr) in Hlog. specialize (Hlog Hfm Hheld).
  apply completes_bind, completes_zoom. unfold completes at 1. destruct (kernel_log_init (log_view s)) as [[] l| | |]; [|unfold no_log_block; rewrite <- E1; exact Hlog|destruct Hlog..].
  destruct Hlog as (L1 & L2 & L3 & L4 & L5 & L6 & ptr & L7 & L8). cbn [log_view Log.io Log.global heap Kmalloc.mem] in L3, L5, L6, L7, L8.
  rewrite E1 in L5, L6, L7. rewrite (my_global _ _ _ _ Hr) in L5, L6.
  destruct l as [lg g lh lio [p m]]. cbn [log held Log.io Log.global heap Kmalloc.phys Kmalloc.mem] in *. subst lh lio.
  assert (g = running_global) as -> by (destruct g; cbn in *; by subst).
  (* the interrupt controller *)
  pose proof (interrupt_init_ok shows (apic s)) as Happ. destruct (wp_done _ _ _ Happ) as ([] & a & Ea & Hstarted). clear Happ.
  apply completes_wp, wp_bind, wp_zoom. cbn [apic log_update]. unfold wp at 1. rewrite Ea. apply wp_bind, wp_gets, wp_zoom.
  (* the report *)
  unfold log_update, with_phys, log_view. cbn. rewrite E1, (my_info _ _ _ _ Hr).
  destruct (ready_fits i hdr sects s1 (mk_kmem (phys (booted s1)) (direct_bytes s)) _ ptr p Hl Hfit Htot Hr eq_refl L7) as [Hlk Hrf].
  pose proof (report_lines_length i (stats p) (mf_wf _ Hfit)) as Hn. pose proof (zlength_nonneg (report_lines i (stats p))).
  pose proof (mf_count _ Hfit). destruct (mf_wf _ Hfit).
  eapply wp_mono; [apply (prelude_ok (mk_kmem p m) i Hlk Hrf running_global [] empty_console O 0)|].
  - done.
  - split; try done. destruct Hcon as [C1 C2 C3]. split; [done..|]. eapply ready_times_le; [|exact C3]. cbn [Kmalloc.phys]. lia.
  - done.
  - change (zlength []) with 0. cbn [Kmalloc.phys]. unfold KERNEL_LOG_MAX_NUM_ENTRIES. lia.
  - cbv beta. intros [] l' [_ [G1 G2 G3 G4 G5 G6]]. exists ptr. destruct l' as [lg' g' lh' io' h'].
    cbn [log held Log.global heap Log.io Kmalloc.phys] in *. subst h' g' lh'.
    split; cbn [machine booted phys ring locks_held console_io direct_bytes apic Kmalloc.phys Kmalloc.mem log held Log.global heap Log.io].
    + exact Hr.
    + unfold with_phys. by rewrite (my_info _ _ _ _ Hr).
    + exact L7.
    + exact L8.
    + done.
    + exact G1.
    + apply G5.
    + exact G6.
    + exact Hstarted.
Qed.

Lemma firmware_total s i : firmware_ok (info s) -> e820_passes (info s) = Done tt i -> total_avail_ram_bytes i = ram_bytes (E820.entries i).
Proof.
  intros [F1 F2 F3 F4 F5 F6 F7] Hi. pose proof (e820_passes_ok (info s) F1 F2 F3 F4 F5 F6 F7) as H. unfold wp in H. rewrite Hi in H. apply H.
Qed.

(** ** Properties *)

(** C7: the kernel starts. On a machine whose firmware map is consistent, with room
    for the boot and a report of it, mapped memory and a serial port that keeps
    getting ready, [main] reaches its last loop. Memory is then up as [Boot] says,
    the log holds exactly the report of this machine and of the allocator's state,
    in a zeroed block taken from that allocator, the same lines are on the screen
    and went to the serial port after its set-up, no lock is held, and the registers
    of the interrupt controller were written as [lapic_started] lists them, every
    vector it may send masked or above the exceptions before it was enabled. Two
    exceptions: it panics if a section of the image is not page-aligned or has to be
    given more than eight pages of memory, or if the buddy allocator, once memory is
    up, has no free block of the log's order. *)
Theorem kernel_starts s i hdr sects shows :
  firmware_ok (info (machine s)) -> e820_passes (info (machine s)) = Done tt i -> boot_plan i hdr sects -> machine_fits i ->
  devices_ready (phys_spans (ram_shape i)) (507 * (11 + num_e820_entries i)) s ->
  completes (main_start hdr sects shows) s
    (fun _ s' => exists s1 ptr, started i hdr sects shows (outs (port (console_io s)) ++ serial_setup) s s' s1 ptr)
    (Exists (section_panics KERNEL_ELF_ADDRESS_PHYS) (loaded hdr sects) \/
     exists s1, memory_ready i hdr sects s1 /\ no_log_block s1).
Proof.
  intros Hfw Hi Hplan Hfit [[Hlk Hheld] Hbytes (m & Em & Hm1 & Hm2) Hport]. unfold main_start, early_init.
  pose proof (console_set_up _ m _ Em Hm1 Hm2 Hport) as Hcon. apply wp_bind_inv in Hcon.
  pose proof (firmware_memory_up (machine s) i hdr sects Hfw Hi Hplan Hlk) as Hmem. apply completes_bind_inv in Hmem.
  apply completes_bind, completes_bind, completes_wp, wp_zoom. eapply wp_mono; [exact Hcon|]. cbv beta. clear Hcon. intros _ io1 Hcon.
  apply completes_bind, completes_wp, wp_zoom. cbn [console_io]. eapply wp_mono; [exact Hcon|]. cbv beta. clear Hcon. intros _ io2 [Hcon Hout].
  apply completes_zoom. cbn [machine direct_bytes ring locks_held console_io apic].
  eapply completes_mono; [exact Hmem| |by left]. cbv beta. clear Hmem. intros _ s1 Hmem.
  apply completes_bind, completes_zoom. cbn [machine direct_bytes ring locks_held console_io apic].
  eapply completes_mono; [exact Hmem| |by left]. cbv beta. clear Hmem. intros _ s2 [Hready _]. cbn [machine direct_bytes ring locks_held console_io apic].
  eapply completes_mono; [eapply (report_part i hdr sects shows _ s2 (outs (port (console_io s)) ++ serial_setup) (bp_entries _ _ _ Hplan) Hfit (firmware_total _ _ Hfw Hi) Hready); try done| |].
  - cbv beta. intros _ s' (ptr & [T1 T2 T3 T4 T5 T6 T7 T8 T9]). exists s2, ptr. by split.
  - intros Hno. right. by exists s2.
Qed.

(** The machine of [Boot], with the bytes of its 33 MiB and a serial port that is
    ready for the report of its two entries. *)
Definition sample_bytes : bytes := gset_to_gmap 7 (list_to_set (seqZ (frame_ptr 0) 0x2100000)).

Definition sample_kernel : kernel_state :=
  mk_kernel boot_machine sample_bytes zero_log ∅ (mk_io (mk_video Console.sample_mem 0 0) (mk_serial (replicate 6591 0x20) [])) (mk_lapic 0 []).

Lemma sample_fits : machine_fits normal_map.
Proof. split; [split; [split|]; by vm_compute|by vm_compute| |by vm_compute..]. apply (bool_decide_unpack _). by vm_compute. Qed.

Lemma sample_devices : devices_ready (phys_spans (ram_shape normal_map)) (507 * (11 + num_e820_entries normal_map)) sample_kernel.
Proof.
  split.
  - done.
  - intros p Hp j Hj. exists 7. split; [|split; lia]. apply lookup_gset_to_gmap_Some. split; [|done]. apply elem_of_list_to_set, elem_of_seqZ.
    assert (phys_spans (ram_shape normal_map) = [mk_phys_span 0 0x9f; mk_phys_span 0x100 0x2000]) as Esp by by vm_compute.
    rewrite Esp in Hp. unfold span_of in Hp. cbn [pfn_to_span_in start_pfn num_pages] in Hp.
    change (0 + 0x9f)%u64 with 0x9f in Hp. change (0x100 + 0x2000)%u64 with 0x2100 in Hp. unfold frame_ptr.
    destruct (Z.leb_spec 0 p), (Z.ltb_spec p 0x9f), (Z.leb_spec 0x100 p), (Z.ltb_spec p 0x2100); simpl in Hp; lia.
  - exists Console.sample_mem. split; [done|apply Console.sample_mem_mapped].
  - change (507 * (11 + num_e820_entries normal_map)) with 6591. unfold ready_times. cbn [sample_kernel console_io port lsr]. vm_compute. discriminate.
Qed.

Lemma kernel_starts_witness :
  completes (main_start boot_elf boot_sections (fun _ => 0x50014)) sample_kernel
    (fun _ s' => locks_held s' = ∅ /\ stage (Boot.global (machine s')) = KERNEL_STAGE_2_HAS_RING_BUFFER /\
       zlength (reg_writes (apic s')) = 12 /\
       exists st, log_ok (ring s') (records (report_lines normal_map st)))
    (exists s1, memory_ready normal_map boot_elf boot_sections s1 /\ no_log_block s1).
Proof.
  eapply completes_mono; [exact (kernel_starts sample_kernel normal_map boot_elf boot_sections (fun _ => 0x50014) (proj1 boot_map_ok)
    (proj2 boot_map_ok) boot_map_plan sample_fits sample_devices)| |].
  - cbv beta. intros _ s' (s1 & ptr & [_ H2 _ _ H5 H6 _ _ H9]). split; [exact H5|]. split; [by rewrite H2|]. split; [|eexists; exact H6].
    rewrite (la_writes _ _ _ H9). change (reg_writes (apic sample_kernel)) with (@nil (Z * Z)). clear. by vm_compute.
  - intros [H|H]; [by destruct (boot_no_panic H)|exact H].
Defined.
